(* ===== verification/_CoqProject ===== *)
-Q . S2P
Prelude.v
MmNumber.v
NetConfig.v
DexFee.v
SwapCommon.v
LockedAmounts.v
Orders.v
OrderMatch.v
Effects.v
SwapEnv.v
SwapLoop.v
SwapSample.v
MakerSwap.v
MakerSwapInv.v
MakerSwapSafety.v
TakerSwap.v
TakerSwapInv.v
TakerSwapSafety.v
SwapPair.v
CheckBalance.v
Admission.v
Codec.v
Tx.v
Header.v
Spv.v
Crypto.v
Script.v
Sign.v
ScriptRules.v
UtxoSigner.v
Htlc.v
UtxoSwap.v
UtxoTx.v
UtxoWallet.v
FeeTx.v
HtlcV2.v
Preimage.v
UtxoSample.v
WalletSample.v
