(* ===== verification/Prelude.v ===== *)
(** * KDF Reloaded: a verification development

    KDF is a decentralised-exchange node: peers publish orders, match them,
    and settle each match by an atomic swap between two chains.  This library
    models the parts of it on which the funds of a user depend and proves what
    makes them correct.  Paths below are under [src/mm2src/].

    ** The program and its parts

    A user's order (lp_ordermatch) names amounts as exact rationals
    (mm2_number).  A taker's request is matched by a maker's node, which
    reserves part of its order; the taker's node collects the reservations,
    chooses one and connects; both nodes then derive the same lock times and
    start their half of the swap (lp_swap).  The taker pays a fee that depends
    on the network (mm2_net_config, dex_fee.rs).  Each half of a swap is a log
    of events that survives the process: a step runs, its events are saved,
    and after a crash the log alone says what to do next.  Amounts a running
    swap will spend are locked against other uses.  On UTXO chains a payment is
    a transaction (kdf_chain) in a binary format (kdf_codec), and its inclusion
    in a block is checked from a merkle proof and a chain of headers
    (kdf_spv_validation).  It pays to the hash of a script (kdf_script) that the
    receiver can spend with the secret and the sender after the lock time; the
    operations a swap calls on such coins (coins/utxo) make, validate, claim and
    refund it, with signatures over a digest of the transaction (sign.rs,
    coins/utxo_signer).  The transaction itself is built from the outputs the wallet
    has, which it knows from a server that lags behind and from its own record of
    what it spent (utxo_common_tx.rs).

    ** The files

    - [Prelude]: results, machine integers that wrap, bytes, automation.
    - [MmNumber]: mm2_number/src/lib.rs.  Rationals are [Qc]; [Fraction] and the
      decimal form are the wire forms.
    - [NetConfig]: mm2_net_config.  The trait of the networks is a record, the two
      compiled networks are values of it.
    - [DexFee]: the [DexFee] type of coins/lp_coins_types.rs and every fee
      computation of lp_swap/dex_fee.rs, for a coin given by the methods of
      [MmCoin] they call.
    - [SwapCommon]: lp_swap.rs and swap_versioning.rs: versions, lock times and
      the negotiation payload both sides share.
    - [LockedAmounts]: the two ledgers of locked amounts of lp_swap.rs and the
      registry of running swaps.
    - [Orders]: ordermatch_types.rs: orders, requests, reservations, the builders,
      the matching of a request and of a reservation, confirmation settings.
    - [OrderMatch]: ordermatch_trading.rs and lp_ordermatch.rs: the handlers of the
      negotiation messages, timeouts and updates, over the record
      [OrdermatchContext]; a run of the node is a sequence of steps.
    - [Effects]: programs that call the outside world, as a free monad: a call is
      a constructor, its answer arbitrary.  [runs] relates a program to the
      traces of calls it can make, [prefix_run] to those of a process stopped
      anywhere, [safe] is the program logic the invariants are proved in.
    - [SwapEnv]: what a swap asks of the coins, the peers, the clock and the
      database ([SwapCall], [SwapResp]), and the keys of an HTLC.
    - [SwapLoop]: the loop that runs a swap, saving each event before it is
      applied, and what the two roles have in common: a role is a record
      ([Role]) of its events, commands, handlers and invariant, its obligations
      are a class ([RoleLaws]), and the theorems on histories, i.e. sequences of
      processes each stopped anywhere and restarted from the log, are proved
      once for every lawful role.
    - [SwapSample]: a world with honest answers, for the witnesses.
    - [MakerSwap]: maker_swap.rs: the events, the state they build, one program
      per command handler, the saved log, [load_from_saved] and
      [run_maker_swap].
    - [MakerSwapInv]: the invariant of the maker's log and the proof that the
      maker is a lawful role.
    - [MakerSwapSafety]: what the maker may rely on.
    - [TakerSwap], [TakerSwapInv], [TakerSwapSafety]: the same for taker_swap.rs,
      with the refund chain that looks at the chain while it waits, and the data
      for the watchers.
    - [SwapPair]: a maker and a taker that negotiate over delivered messages.
    - [CheckBalance]: check_balance.rs, the balance checks of both roles and the
      largest volume each can trade, for a coin given by its answers.
    - [Admission]: a taker's start, the balance check and the registry together.
    - [Codec]: kdf_codec: readers, writers and the law every codec obeys.
    - [Tx]: kdf_chain/src/transaction.rs in its three wire layouts.
    - [Header]: kdf_chain/src/header.rs: the header layouts of all chain families.
    - [Spv]: kdf_spv_validation, merkle.rs, raw_header.rs and the compact target
      of kdf_primitives.
    - [Crypto]: kdf_crypto and the public keys of kdf_keys, over hash functions that
      are a class ([Hashes], their lengths [HashLengths]).
    - [Script]: kdf_script without sign.rs: opcodes, the builder, the instruction
      iterator, the standard types and their destinations.
    - [Sign]: kdf_script/src/sign.rs: the legacy, BIP-143, fork-id, Radiant and
      overwintered signature hashes.
    - [ScriptRules]: the network's side.  A node that runs scripts is a class
      ([Interpreter]) with the documented laws of the opcodes the swaps use
      ([ScriptLaws]); [run] is an instance.
    - [UtxoSigner]: coins/utxo_signer with a key pair, over ECDSA as a class
      ([Ecdsa], [EcdsaLaws]).
    - [Htlc]: the payments of the first protocol in utxo_common_swap.rs and
      utxo_common_tx.rs: script, outputs, validation, claim, refund, the reading of a
      spend and the time of a refund.
    - [UtxoSwap]: these operations put together as a swap does.
    - [UtxoTx]: the transaction builder of utxo_common_tx.rs: fees, choice of inputs,
      change and Komodo's interest.
    - [UtxoWallet]: the record of recently spent outputs and a send from the listing
      to the record.
    - [FeeTx]: the dex fee transaction and its validation.
    - [HtlcV2]: swap_proto_v2_scripts.rs and the payments of the second protocol.
    - [Preimage]: the transactions of the second protocol that both sides sign.
    - [UtxoSample], [WalletSample]: a coin, keys, payments and a wallet, for the
      witnesses.

    A component's state is a record with the source's field names (prefixed
    where two records share one), an enum is an inductive type with the
    source's variants, each function, handler or step is one definition, and a
    [Result], an [Option] or a panic is a value.  Arithmetic on [u64], [u32] and
    [i64] wraps, as it does in every build profile of the workspace.

    ** What the theorems show

    - Orders.  Builders accept exactly the requests the rules allow; a match is
      at the maker's price within both sides' limits, and is refused only when
      none exists; an honest maker's reservation passes the taker's check; a
      maker order is never reserved beyond its volume; each side starts one swap
      per match, for the agreed amounts; both sides derive the same lock time.
    - Fees.  What a taker pays is the rate of the trade, raised to the floor, in
      outputs the chain can carry; who pays nothing, and when part is burnt.
    - Locked amounts and balances.  The share of the other swaps and a swap's own
      add up to the total; reserving again changes nothing; the largest volume
      is exact and passes the check it was computed for; a swap that is admitted
      is covered by the balance together with all the others, up to two amounts the
      check does not count.
    - Maker swap.  For every history, with stops between any two calls: the
      secret is revealed only to spend a payment validated for this swap; a
      payment is sent only if none exists; nothing is paid before the fee is
      valid; the lock times leave the maker time to spend and to refund; a
      restart continues where the log ended; every process ends; a finished log
      says truly whether funds may be left.
    - Taker swap.  For every history: the taker pays only after it validated a
      payment for the lock time, the keys and the secret hash of the maker's message,
      and only if no payment of its own exists; it claims the maker's payment with a
      secret read from a spend of its own payment;
      it refunds only when the lock time allows it and after it looked for such
      a spend; restarts, ends and logs as for the maker.
    - The pair.  The payment each side makes is the payment the other validates,
      the fee sent is the fee expected, and honest sides come to an agreement.
    - Wire formats.  Every transaction and header layout is read back from what
      was written; 80 served bytes are kept exactly; targets lose at most one
      part in 2^15.
    - SPV.  Honest proofs are accepted; accepted proofs of a length other than one
      bind the transaction; header chains are accepted exactly when they are
      linked and carry the work.
    - Scripts and signatures.  A script is read back as it was built; equal digests
      mean equal covered parts of the transaction, unless the strings hashed for the
      two are a collision; every input of a signed transaction carries a valid
      signature in the form its script needs.
    - UTXO payments.  A payment is taken in two ways only, the refund and the claim;
      both are made whenever the chain answers, are well formed and pass; the
      receiver accepts exactly what the sender makes; the claim of one payment gives
      the secret for the other; a refund is tried only when it is final.
    - Building and sending.  What is built is balanced, and its fee is enough for its
      size; it is built whenever the inputs pay for it, with the fewest that do; over
      any run of sends the wallet spends nothing twice, however far the server lags
      behind; a payment so sent passes the receiver's validation.
    - The second protocol on UTXO coins.  What each script lets pass; which refunds
      and claims pass; on coins with legacy signatures the transactions both sides
      sign are agreed on and pass in the network's view of them.
    - Defects.  Where the code does not do what it means to, the behaviour is a
      theorem too: see [funding_timelock_refund_rejected], [secret_never_read],
      [received_preimage], [overwintered_single_is_all], [hidden_claim],
      [refund_lock_time], [multisig_without_checkmultisig], [num_to_bytes_total],
      [zero_amount_reservation_panics],
      [interrupted_pass_blocks_order], [update_below_own_minimum],
      [far_start_accepted], [hostile_trailer_panics], [trailing_bytes_accepted],
      [compact_int_consumed], [one_node_proof_forges], [fee_paid_twice],
      [watcher_preimage_of_wrong_coin], [waived_fee_stays_locked],
      [token_swap_overcommits], [interest_output_unpaid] and the comparison of
      unspents of equal value ([unspent_cmp]).

    ** Loops and bounds

    Loops over lists are structural.  A loop whose length comes from the wire
    ([read_items], [validate_items]) recurses on the binary length and stops at
    the first failure.  The rows of a merkle tree halve, so a row needs no more
    rounds than it has nodes ([merkle_rows_total]).  The command loop of a swap
    and the retries of its refund take fuel; [process_ends] and
    [taker_process_ends] show that ten commands and one round per refusal of the
    refund gate are enough.  The walks over a script take its length as fuel and
    each step consumes at least a byte ([script_roundtrip] shows that nothing is cut
    off); the digits of a script number take eight rounds ([num_to_bytes_total]).
    Lengths are 64-bit, as on the native targets.  The replacement of spent outputs
    takes as many rounds as it is given: two are enough ([replaced_is_owned]); the
    dropping of old entries takes one round per entry.  The theorems on built
    transactions ask for totals, sizes and fees below 2^63, above any supply, under
    which no sum wraps.

    ** What is not modelled, and the plan

    Third-party code is a parameter: hash functions and elliptic curves, the
    coins behind the [MmCoin] traits, peers, clocks and databases, of which
    nothing is assumed but the lengths of digests, the validity of a signature
    just made, the rules of the script opcodes and ranges of replies where
    a theorem names them.  No hash is assumed to be injective: a theorem that
    depends on it has a disjunct that says that two strings it names, the ones the
    code hashes, are a collision ([collide], [bip143_clash], [overwintered_clash],
    [preimage_clash], [branch_clash]).  JSON, SQL, RPC handlers, logging and the browser
    targets are input and output around the modelled state.  Not modelled
    yet, in the order planned: the recovery of a swap's funds; the state machines
    of the version-two swaps and their storage; signing with a hardware wallet and the
    maturity of coinbase outputs; the orderbook and its synchronisation; the swap
    lock, message store, banning and expiring maps; addresses and derivation paths. *)

From Stdlib Require Import ZArith Lia.
From stdpp Require Import base tactics list numbers strings gmap option.
From coqutil Require Import Byte Word.LittleEndianList.

#[global] Open Scope Z_scope.

(** ** Results

    Rust's [Result<A, E>].  [mbind] is the [?] operator: the error of the
    first failing step is returned and the rest is not run. *)

Inductive result (A E : Type) : Type :=
| Ok (a : A)
| Err (e : E).
Arguments Ok {A E} a.
Arguments Err {A E} e.

#[global] Instance result_ret {E} : MRet (λ A, result A E) := λ A a, Ok a.
#[global] Instance result_bind {E} : MBind (λ A, result A E) :=
  λ A B f r, match r with Ok a => f a | Err e => Err e end.
#[global] Instance result_fmap {E} : FMap (λ A, result A E) :=
  λ A B f r, match r with Ok a => Ok (f a) | Err e => Err e end.

Definition map_err {A E F} (f : E → F) (r : result A E) : result A F :=
  match r with Ok a => Ok a | Err e => Err (f e) end.

Definition is_ok {A E} (r : result A E) : bool :=
  match r with Ok _ => true | Err _ => false end.

#[global] Instance result_eq_dec {A E} `{EqDecision A, EqDecision E} :
  EqDecision (result A E).
Proof. solve_decision. Defined.

(** [let? x := c in k] is [let x = c?; k]. *)
Notation "'let?' x := c 'in' k" :=
  (match c with Ok x => k | Err e => Err e end)
  (at level 200, x pattern, c at level 200, k at level 200).

Lemma result_bind_Ok {A B E} (r : result A E) (f : A → result B E) b :
  mbind (M:=λ A, result A E) f r = Ok b ↔ ∃ a, r = Ok a ∧ f a = Ok b.
Proof. destruct r; cbn; naive_solver. Qed.

(** Inverts every hypothesis of the form [(x ← m; k) = Ok _]. *)
Ltac result_inv :=
  repeat match goal with
  | H : mbind (M:=λ A, result A _) _ ?r = Ok _ |- _ =>
      let a := fresh "a" in let Ha := fresh "Hok" in
      apply result_bind_Ok in H as (a & Ha & H)
  | H : Ok _ = Ok _ |- _ => injection H as H
  | H : Err _ = Ok _ |- _ => discriminate H
  end.

(** ** Machine integers

    An integer of [w] bits is a [Z] in range.  [uwrap w] is what an
    arithmetic operation of an unsigned type of that width leaves, and what an
    [as] cast to it does; [swrap w] the same for a signed type.  Overflow
    checks are off in every build profile of the workspace, so a sum or a
    product wraps around. *)

Definition uwrap (w z : Z) : Z := z mod 2 ^ w.
Definition swrap (w z : Z) : Z := (z + 2 ^ (w - 1)) mod 2 ^ w - 2 ^ (w - 1).
Definition is_u (w z : Z) : Prop := 0 ≤ z < 2 ^ w.
Definition is_s (w z : Z) : Prop := - 2 ^ (w - 1) ≤ z < 2 ^ (w - 1).

#[global] Instance is_u_dec w z : Decision (is_u w z).
Proof. unfold is_u. apply _. Defined.
#[global] Instance is_s_dec w z : Decision (is_s w z).
Proof. unfold is_s. apply _. Defined.

Notation u8 := (uwrap 8).
Notation u16 := (uwrap 16).
Notation u32 := (uwrap 32).
Notation u64 := (uwrap 64).
Notation i32 := (swrap 32).
Notation i64 := (swrap 64).

Lemma uwrap_range w z : 0 ≤ w → is_u w (uwrap w z).
Proof. intros. apply Z.mod_pos_bound. apply Z.pow_pos_nonneg; lia. Qed.

Lemma uwrap_id w z : is_u w z → uwrap w z = z.
Proof. intros. by apply Z.mod_small. Qed.

Lemma swrap_range w z : 0 < w → is_s w (swrap w z).
Proof.
  intros. unfold is_s, swrap.
  pose proof (Z.mod_pos_bound (z + 2 ^ (w - 1)) (2 ^ w)
                (Z.pow_pos_nonneg 2 w ltac:(lia) ltac:(lia))).
  replace (2 ^ w) with (2 * 2 ^ (w - 1)) in *; [lia|].
  rewrite <-(Z.pow_succ_r 2 (w - 1)) by lia. f_equal; lia.
Qed.

Lemma swrap_id w z : 0 < w → is_s w z → swrap w z = z.
Proof.
  intros Hw [? ?]. unfold swrap. rewrite Z.mod_small; [lia|].
  replace (2 ^ w) with (2 * 2 ^ (w - 1)); [lia|].
  rewrite <-(Z.pow_succ_r 2 (w - 1)) by lia. f_equal; lia.
Qed.

(** Puts [uwrap]s and ranges of literal widths in a form [lia] decides. *)
Ltac zwrap :=
  unfold uwrap, swrap, is_u, is_s in *;
  change (2 ^ 8) with 256 in *; change (2 ^ 16) with 65536 in *;
  change (2 ^ 32) with 4294967296 in *;
  change (2 ^ 64) with 18446744073709551616 in *;
  change (2 ^ (32 - 1)) with 2147483648 in *;
  change (2 ^ (64 - 1)) with 9223372036854775808 in *;
  Z.div_mod_to_equations; lia.

(** ** Bytes

    A byte is Rocq's 256-constructor [byte]; [le_split n z] and
    [le_combine bs] are the little-endian encoding of [z] on [n] bytes and its
    inverse (coqutil). *)

Notation bytes := (list byte).

Definition b2z (b : byte) : Z := byte.unsigned b.
Definition z2b (z : Z) : byte := byte.of_Z z.

#[global] Instance byte_eq_dec : EqDecision byte := Byte.byte_eq_dec.

(** Byte strings are written in hexadecimal: [hex "00ff"]. *)
Definition hex_digit (a : Ascii.ascii) : Z :=
  let n := Z.of_N (Ascii.N_of_ascii a) in
  if (48 <=? n) && (n <=? 57) then n - 48 else n - 87.

Fixpoint hex (s : string) : bytes :=
  match s with
  | String a (String b s') => z2b (16 * hex_digit a + hex_digit b) :: hex s'
  | _ => []
  end.

Lemma b2z_range b : 0 ≤ b2z b < 256.
Proof. apply (byte.unsigned_range b). Qed.

Lemma b2z_z2b z : 0 ≤ z < 256 → b2z (z2b z) = z.
Proof. intros. unfold b2z, z2b. rewrite byte.unsigned_of_Z. by apply Z.mod_small. Qed.

Lemma z2b_b2z b : z2b (b2z b) = b.
Proof. apply byte.of_Z_unsigned. Qed.

Lemma b2z_inj a b : b2z a = b2z b → a = b.
Proof. apply byte.unsigned_inj. Qed.

#[global] Program Instance byte_countable : Countable byte :=
  inj_countable' b2z z2b z2b_b2z.

Lemma le_combine_split_id n z :
  0 ≤ z < 2 ^ (Z.of_nat n * 8) → le_combine (le_split n z) = z.
Proof. intros. rewrite le_combine_split. by apply Z.mod_small. Qed.

Lemma le_combine_range (bs : bytes) n :
  length bs = n → 0 ≤ le_combine bs < 2 ^ (Z.of_nat n * 8).
Proof. intros <-. rewrite Z.mul_comm. apply le_combine_bound. Qed.

(** ** Automation *)

Create HintDb kdf discriminated.
#[export] Hint Resolve uwrap_range swrap_range b2z_range : kdf.
#[export] Hint Rewrite @length_app @length_take @length_drop @length_replicate : kdf.
#[export] Hint Rewrite length_le_split z2b_b2z : kdf.

(** Destructs the discriminee of every [match] and [if] of the goal, or of
    one hypothesis, naming the equations. *)
Ltac case_all :=
  repeat (case_match || case_bool_decide); simplify_eq/=.
Ltac case_in H :=
  repeat match type of H with
  | context [match ?x with _ => _ end] =>
      lazymatch x with context [match _ with _ => _ end] => fail | _ => idtac end;
      let E := fresh "E" in destruct x eqn:E
  end; simplify_eq/=.
