(* ===== verification/MmNumber.v ===== *)
(** * Exact decimal and rational numbers

    [mm2_number/src/lib.rs].  [MmNumber] wraps an arbitrary-precision rational
    in lowest terms, which is Rocq's [Qc]; [BigDecimal] (crate [bigdecimal]) is
    seen through [as_bigint_and_exponent], an integer mantissa and a decimal
    scale.  A division by zero panics, so division is partial.  The file ends
    with the ordered-field lemmas that the fee and the matching proofs share. *)

From Stdlib Require Import QArith Qcanon Lqa ZArith.
From S2P Require Import Prelude.
From stdpp Require Import base tactics numbers option strings.

Notation MmNumber := Qc.

Local Open Scope Qc_scope.

(** The [PartialOrd] operators as they are used in conditions. *)
Definition mm_lt (a b : MmNumber) : bool := bool_decide (a < b).
Definition mm_le (a b : MmNumber) : bool := bool_decide (a ≤ b).
Definition mm_eq (a b : MmNumber) : bool := bool_decide (a = b).
Notation "a <?q b" := (mm_lt a b) (at level 70) : Qc_scope.
Notation "a <=?q b" := (mm_le a b) (at level 70) : Qc_scope.
Notation "a =?q b" := (mm_eq a b) (at level 70) : Qc_scope.

(** [Ord::max]. *)
Definition mm_max (a b : MmNumber) : MmNumber := if b <?q a then a else b.

(** [Div]: [BigRational] panics on a zero divisor. *)
Definition mm_div (a b : MmNumber) : option MmNumber :=
  if b =?q 0 then None else Some (a / b).

(** [BigRational::new]: reduces, panics on a zero denominator. *)
Definition ratio_new (n d : Z) : option MmNumber :=
  mm_div (Qc_of_Z n) (Qc_of_Z d).

Record BigDecimal := { int_val : Z; scale : Z }.

Definition dec_to_rational (d : BigDecimal) : MmNumber :=
  if (0 <=? d.(scale))%Z
  then Qc_of_Z d.(int_val) / Qc_of_Z (10 ^ d.(scale))
  else Qc_of_Z (d.(int_val) * 10 ^ (- d.(scale))) / 1.

Record Fraction := { numer : Z; denom : Z }.

Definition Fraction_from_ratio (r : MmNumber) : Fraction :=
  {| numer := Qnum (this r); denom := Z.pos (Qden (this r)) |}.

Definition Fraction_to_ratio (f : Fraction) : option MmNumber :=
  ratio_new f.(numer) f.(denom).

(** [Deserialize for Fraction] after the two integers were parsed. *)
Definition Fraction_deserialize (n d : Z) : result Fraction string :=
  if (d =? 0)%Z then Err "denom can not be 0"%string
  else Ok {| numer := n; denom := d |}.

(** ** Decision procedure

    [qc] translates a goal on [Qc] to one on [Q] and calls [lra]. *)

Lemma this_add a b : (this (a + b) == this a + this b)%Q.
Proof. apply Qred_correct. Qed.
Lemma this_mul a b : (this (a * b) == this a * this b)%Q.
Proof. apply Qred_correct. Qed.
Lemma this_opp a : (this (- a) == - this a)%Q.
Proof. apply Qred_correct. Qed.
Lemma this_sub a b : (this (a - b) == this a - this b)%Q.
Proof. unfold Qcminus. rewrite this_add, this_opp. reflexivity. Qed.
Lemma this_Z n : (this (Qc_of_Z n) == inject_Z n)%Q.
Proof. reflexivity. Qed.

Lemma Qc_eq_this (a b : Qc) : a = b ↔ (this a == this b)%Q.
Proof. split; [by intros -> | apply Qc_is_canon]. Qed.

Ltac qc_norm :=
  repeat match goal with
  | H : bool_decide _ = true |- _ => apply bool_decide_eq_true_1 in H
  | H : bool_decide _ = false |- _ => apply bool_decide_eq_false_1 in H
  end;
  unfold mm_lt, mm_le, mm_eq in *;
  repeat match goal with
  | H : bool_decide _ = true |- _ => apply bool_decide_eq_true_1 in H
  | H : bool_decide _ = false |- _ => apply bool_decide_eq_false_1 in H
  | |- bool_decide _ = true => apply bool_decide_eq_true_2
  | |- bool_decide _ = false => apply bool_decide_eq_false_2
  end;
  rewrite ?Qc_eq_this in *;
  unfold Qcle, Qclt in *;
  do 3 (rewrite ?this_sub, ?this_add, ?this_mul, ?this_opp in * );
  change (this 0) with 0%Q in *; change (this 1) with 1%Q in *.
Ltac qc := intros; qc_norm; first [lra | nra].

Lemma mm_max_spec a b : mm_max a b = a ∧ b ≤ a ∨ mm_max a b = b ∧ a ≤ b.
Proof. unfold mm_max. destruct (b <?q a) eqn:E; [left | right]; split; try done; qc. Qed.

Lemma mm_max_ge_l a b : a ≤ mm_max a b.
Proof. destruct (mm_max_spec a b) as [[-> ?]|[-> ?]]; qc. Qed.
Lemma mm_max_ge_r a b : b ≤ mm_max a b.
Proof. destruct (mm_max_spec a b) as [[-> ?]|[-> ?]]; qc. Qed.
Lemma mm_max_lub a b c : a ≤ c → b ≤ c → mm_max a b ≤ c.
Proof. destruct (mm_max_spec a b) as [[-> ?]|[-> ?]]; qc. Qed.

Lemma Qc_pos_neq a : 0 < a → a ≠ 0.
Proof. intros H ->. revert H. qc. Qed.

Lemma mm_div_Some a b : b ≠ 0 → mm_div a b = Some (a / b).
Proof. intros. unfold mm_div, mm_eq. by rewrite bool_decide_eq_false_2. Qed.

Lemma mm_div_inv a b c : mm_div a b = Some c → b ≠ 0 ∧ a = c * b ∧ c = a / b.
Proof.
  unfold mm_div, mm_eq. case_bool_decide as Hb; [done|]. intros [= <-].
  split_and!; [done| |done]. by rewrite Qcmult_comm, Qcmult_div_r.
Qed.

Lemma Qc_div_mul a b : b ≠ 0 → a / b * b = a.
Proof. intros. by rewrite Qcmult_comm, Qcmult_div_r. Qed.

(** Comparing a quotient with a number by a positive denominator. *)
Lemma Qc_div_le_iff a b c : 0 < b → a / b ≤ c ↔ a ≤ c * b.
Proof.
  intros Hb. rewrite <-(Qc_div_mul a b) at 2 by by apply Qc_pos_neq.
  split; [intros; apply Qcmult_le_compat_r; [done | qc] | by apply Qcmult_lt_0_le_reg_r].
Qed.
Lemma Qc_le_div_iff a b c : 0 < b → c ≤ a / b ↔ c * b ≤ a.
Proof.
  intros Hb. rewrite <-(Qc_div_mul a b) at 2 by by apply Qc_pos_neq.
  split; [intros; apply Qcmult_le_compat_r; [done | qc] | by apply Qcmult_lt_0_le_reg_r].
Qed.
Lemma Qc_div_pos a b : 0 < a → 0 < b → 0 < a / b.
Proof.
  intros Ha Hb. apply Qcnot_le_lt. rewrite Qc_div_le_iff by done. revert Ha. qc.
Qed.

Lemma Qc_div_nonneg a b : 0 ≤ a → 0 < b → 0 ≤ a / b.
Proof. intros Ha Hb. rewrite Qc_le_div_iff by done. revert Ha. qc. Qed.

(** ** Conversions are exact *)

Lemma Qc_of_Z_nonzero d : d ≠ 0%Z → Qc_of_Z d ≠ 0.
Proof.
  intros Hd H. apply Hd. apply Qc_eq_this in H. rewrite this_Z in H.
  change (this 0) with 0%Q in H. unfold Qeq in H. cbn in H. lia.
Qed.

Lemma ratio_new_value n d :
  d ≠ 0%Z → ∃ r, ratio_new n d = Some r ∧ r * Qc_of_Z d = Qc_of_Z n.
Proof.
  intros Hd%Qc_of_Z_nonzero. eexists. split; [by apply mm_div_Some|].
  by apply Qc_div_mul.
Qed.

(** The rational of a decimal is its mantissa times ten to minus its scale. *)
Lemma dec_to_rational_exact d :
  dec_to_rational d * Qc_of_Z (10 ^ Z.max 0 d.(scale))
  = Qc_of_Z (d.(int_val) * 10 ^ Z.max 0 (- d.(scale))).
Proof.
  unfold dec_to_rational. destruct (Z.leb_spec 0 d.(scale)) as [H|H].
  - rewrite (Z.max_r 0 (scale d)), (Z.max_l 0 (- scale d)) by lia.
    rewrite Z.pow_0_r, Z.mul_1_r. apply Qc_div_mul, Qc_of_Z_nonzero.
    apply Z.pow_nonzero; lia.
  - rewrite (Z.max_l 0 (scale d)), (Z.max_r 0 (- scale d)) by lia.
    rewrite Z.pow_0_r. replace (Qc_of_Z 1) with 1 by by apply Qc_eq_this.
    by apply Qc_div_mul.
Qed.

(** Writing a number as a fraction and reading it back gives the number. *)
Lemma fraction_roundtrip r : Fraction_to_ratio (Fraction_from_ratio r) = Some r.
Proof.
  unfold Fraction_to_ratio, Fraction_from_ratio, ratio_new; cbn [numer denom].
  rewrite mm_div_Some by by apply Qc_of_Z_nonzero.
  f_equal. set (n := Qnum r). set (d := Qden r).
  assert (r * Qc_of_Z (Z.pos d) = Qc_of_Z n) as <-.
  { apply Qc_eq_this. rewrite this_mul, !this_Z. unfold n, d.
    destruct r as [[n' d'] ?]; cbn. unfold Qeq; cbn. lia. }
  unfold Qcdiv. rewrite <-Qcmult_assoc, Qcmult_inv_r, Qcmult_1_r; [done|].
  by apply Qc_of_Z_nonzero.
Qed.
