(* ===== verification/NetConfig.v ===== *)
(** * Compile-time network parameters

    [mm2_net_config/src]: the [NetConfig] trait as a record, the two networks
    compiled into a release binary and the registry that refuses every other
    netid.  The seed lists, both empty, and the two shielded/ed25519 fee
    destinations are carried as the literals of the source. *)

From Stdlib Require Import QArith Qcanon ZArith.
From S2P Require Import Prelude MmNumber.
From stdpp Require Import base tactics strings list numbers sets.

Local Open Scope Z_scope.
Local Open Scope string_scope.

Record NetConfig := {
  netid : Z;
  network_name : string;
  dex_fee_addr_pubkey : string;
  dex_fee_addr_raw_pubkey : bytes;
  dex_fee_z_addr : string;
  dex_fee_pubkey_ed25519 : string;
  net_dex_fee_rate : MmNumber;
  fee_discount_tickers : list string;
  dex_fee_rate_discounted : MmNumber;
  dex_fee_min_threshold : MmNumber;
  burn_enabled : bool;
  dex_fee_share : MmNumber;
  burn_addr_pubkey : string;
  burn_addr_raw_pubkey : bytes;
  no_fee_tickers_v2 : list string;
  seed_nodes : list string
}.

(** [BigRational::new] of two literals. *)
Definition big_rational (n : Z) (d : positive) : MmNumber := Q2Qc (n # d).

Definition Netid8762 : NetConfig := {|
  netid := 8762;
  network_name := "AtomicDEX";
  dex_fee_addr_pubkey :=
    "03bc2c7ba671bae4a6fc835244c9762b41647b9827d4780a89a949b984a8ddcc06";
  dex_fee_addr_raw_pubkey :=
    hex "03bc2c7ba671bae4a6fc835244c9762b41647b9827d4780a89a949b984a8ddcc06";
  dex_fee_z_addr :=
    "zs1rp6426e9r6jkq2nsanl66tkd34enewrmr0uvj0zelhkcwmsy0uvxz2fhm9eu9rl3ukxvgzy2v9f";
  dex_fee_pubkey_ed25519 :=
    "77b0936728f63257b074c7b3fb2c4fad98df345f57de1ec418fc42619e4e29f8";
  net_dex_fee_rate := big_rational 1 777;
  fee_discount_tickers := ["KMD"];
  dex_fee_rate_discounted := big_rational 9 7770;
  dex_fee_min_threshold := 0%Qc;
  burn_enabled := true;
  dex_fee_share := big_rational 3 4;
  burn_addr_pubkey :=
    "0369aa10c061cd9e085f4adb7399375ba001b54136145cb748eb4c48657be13153";
  burn_addr_raw_pubkey :=
    hex "0369aa10c061cd9e085f4adb7399375ba001b54136145cb748eb4c48657be13153";
  no_fee_tickers_v2 := ["KMD"];
  seed_nodes := []
|}.

Definition Netid6133 : NetConfig := {|
  netid := 6133;
  network_name := "GLEEC";
  dex_fee_addr_pubkey :=
    "03a778d9bd346fa704cf3e2508cd074d93a1bbc1e504fbecbb0a8d48e7cccbbf5c";
  dex_fee_addr_raw_pubkey :=
    hex "03a778d9bd346fa704cf3e2508cd074d93a1bbc1e504fbecbb0a8d48e7cccbbf5c";
  dex_fee_z_addr :=
    "zs1lgdrlg6kv6lmf0n9ps2uhj6sc8rdn30vx44qzu7hqa5ms4a4fwytlr8yuwrqyvhk6l6r5fevw50";
  dex_fee_pubkey_ed25519 :=
    "77b0936728f63257b074c7b3fb2c4fad98df345f57de1ec418fc42619e4e29f8";
  net_dex_fee_rate := big_rational 2 100;
  fee_discount_tickers := ["GLEEC"];
  dex_fee_rate_discounted := big_rational 1 100;
  dex_fee_min_threshold := 0%Qc;
  burn_enabled := false;
  dex_fee_share := 1%Qc;
  burn_addr_pubkey :=
    "03a778d9bd346fa704cf3e2508cd074d93a1bbc1e504fbecbb0a8d48e7cccbbf5c";
  burn_addr_raw_pubkey :=
    hex "03a778d9bd346fa704cf3e2508cd074d93a1bbc1e504fbecbb0a8d48e7cccbbf5c";
  no_fee_tickers_v2 := [];
  seed_nodes := []
|}.

(** Without the [regtest-netid] feature. *)
Definition net_config_for (netid : Z) : option NetConfig :=
  if bool_decide (netid = 8762) then Some Netid8762
  else if bool_decide (netid = 6133) then Some Netid6133
  else None.

Definition SUPPORTED_NETIDS : list Z := [8762; 6133].

(** What the rest of the program relies on of a network's parameters. *)
Record net_config_ok (c : NetConfig) : Prop := {
  nc_rate_pos : (0 < c.(net_dex_fee_rate))%Qc;
  nc_discount_pos : (0 < c.(dex_fee_rate_discounted))%Qc;
  nc_discount_le : (c.(dex_fee_rate_discounted) ≤ c.(net_dex_fee_rate))%Qc;
  nc_rate_lt_1 : (c.(net_dex_fee_rate) < 1)%Qc;
  nc_share : (0 < c.(dex_fee_share) ≤ 1)%Qc;
  nc_threshold : (0 ≤ c.(dex_fee_min_threshold))%Qc;
  nc_fee_key : length c.(dex_fee_addr_raw_pubkey) = 33%nat;
  nc_burn_key : length c.(burn_addr_raw_pubkey) = 33%nat
}.

Lemma Netid8762_ok : net_config_ok Netid8762.
Proof. by split. Qed.
Lemma Netid6133_ok : net_config_ok Netid6133.
Proof. by split. Qed.

Lemma net_config_for_inv n c :
  net_config_for n = Some c → n = 8762 ∧ c = Netid8762 ∨ n = 6133 ∧ c = Netid6133.
Proof. unfold net_config_for. repeat case_bool_decide; naive_solver. Qed.

(** The registry resolves exactly the supported netids, to the network of that
    number, and every network it resolves has usable parameters. *)
Lemma net_config_for_spec n :
  (∃ c, net_config_for n = Some c ∧ c.(netid) = n ∧ net_config_ok c)
  ∨ net_config_for n = None ∧ n ∉ SUPPORTED_NETIDS.
Proof.
  unfold net_config_for. repeat case_bool_decide; subst.
  - left. eexists. split_and!; [done..|apply Netid8762_ok].
  - left. eexists. split_and!; [done..|apply Netid6133_ok].
  - right. split; [done|]. unfold SUPPORTED_NETIDS. set_solver.
Qed.
