(* ===== verification/DexFee.v ===== *)
(** * The DEX fee

    [mm2_main/src/lp_swap/dex_fee.rs] and the [DexFee] type of
    [coins/lp_coins_types.rs].  The fee is a rate of the trade, never below a
    floor, and is either one output or a split between the fee address and a
    burn output; a configured key and, for version-two swaps, configured
    tickers pay nothing.  Taker and maker run the same functions, the taker to
    pay and the maker to validate. *)

From Stdlib Require Import QArith Qcanon ZArith.
From S2P Require Import Prelude MmNumber NetConfig.
From stdpp Require Import base tactics strings list numbers sets.

Local Open Scope Qc_scope.

(** What the fee code reads of a coin ([MmCoin] methods). *)
Record FeeCoin := {
  ticker : string;
  min_tx_amount : MmNumber;
  is_privacy : bool;
  burn_pubkey : bytes;
  should_burn_directly : bool;
  should_burn_dex_fee : bool
}.

(** [UtxoStandardCoin]: the trait's defaults but for the direct burn of KMD. *)
Definition utxo_standard_coin (ticker : string) (min_tx_amount : MmNumber) : FeeCoin := {|
  ticker := ticker;
  min_tx_amount := min_tx_amount;
  is_privacy := false;
  burn_pubkey := [];
  should_burn_directly := bool_decide (ticker = "KMD"%string);
  should_burn_dex_fee := false
|}.

Inductive DexFeeBurnDestination :=
| KmdOpReturn
| PreBurnAccount (burn_pubkey : bytes).

Inductive DexFee :=
| NoFee
| Standard (amount : MmNumber)
| WithBurn (fee_amount burn_amount : MmNumber) (burn_destination : DexFeeBurnDestination).

Definition total_spend_amount (f : DexFee) : MmNumber :=
  match f with
  | NoFee => 0
  | Standard amount => amount
  | WithBurn fee burn _ => fee + burn
  end.

Definition fee_amount (f : DexFee) : MmNumber :=
  match f with
  | NoFee => 0
  | Standard amount => amount
  | WithBurn fee _ _ => fee
  end.

Definition burn_amount (f : DexFee) : MmNumber :=
  match f with
  | NoFee | Standard _ => 0
  | WithBurn _ burn _ => burn
  end.

Definition calc_dex_fee_for_op_return (total min_tx fee_share : MmNumber) : DexFee :=
  if total <=?q min_tx then Standard min_tx
  else
    let fee_part := total * fee_share in
    if min_tx <=?q fee_part then
      let burn_part := total - fee_part in
      if (fee_part <=?q 0) || (burn_part <=?q 0) then Standard total
      else WithBurn fee_part burn_part KmdOpReturn
    else
      let burn_part := total - min_tx in
      if burn_part <=?q 0 then Standard total
      else WithBurn min_tx burn_part KmdOpReturn.

Definition calc_dex_fee_for_burn_account (fee min_tx fee_share : MmNumber)
    (burn_pubkey : bytes) : DexFee :=
  let fee_part := fee * fee_share in
  let burn_part := fee - fee_part in
  if (fee_part <=?q 0) || (burn_part <=?q 0)
     || (burn_part <?q min_tx) || (fee_part <?q min_tx)
  then Standard fee
  else WithBurn fee_part burn_part (PreBurnAccount burn_pubkey).

(** The coin's own burn key if it has one, else the network's. *)
Definition resolved_burn_pubkey (coin : FeeCoin) (net_cfg : NetConfig) : bytes :=
  match coin.(burn_pubkey) with
  | [] => net_cfg.(burn_addr_raw_pubkey)
  | v => v
  end.

Definition new_from_taker_coin (coin : FeeCoin) (net_cfg : NetConfig)
    (base_fee : MmNumber) : DexFee :=
  if negb net_cfg.(burn_enabled) then Standard base_fee
  else if coin.(should_burn_directly) then
    calc_dex_fee_for_op_return base_fee coin.(min_tx_amount) net_cfg.(dex_fee_share)
  else if negb coin.(should_burn_dex_fee) then Standard base_fee
  else
    match resolved_burn_pubkey coin net_cfg with
    | [] => Standard base_fee
    | key => calc_dex_fee_for_burn_account base_fee coin.(min_tx_amount)
               net_cfg.(dex_fee_share) key
    end.

(** The condition under which a taker pays nothing. *)
Definition waived (coin : FeeCoin) (net_cfg : NetConfig) (taker_pubkey : bytes) : bool :=
  negb coin.(is_privacy)
  && negb (bool_decide (resolved_burn_pubkey coin net_cfg = []))
  && bool_decide (resolved_burn_pubkey coin net_cfg = taker_pubkey).

Definition new_with_taker_pubkey (coin : FeeCoin) (net_cfg : NetConfig)
    (base_fee : MmNumber) (taker_pubkey : bytes) : DexFee :=
  if waived coin net_cfg taker_pubkey then NoFee
  else new_from_taker_coin coin net_cfg base_fee.

Definition dex_fee_threshold (net_cfg : NetConfig) (min_tx : MmNumber) : MmNumber :=
  let min_fee := net_cfg.(dex_fee_min_threshold) in
  if min_fee <?q min_tx then min_tx else min_fee.

(** The production branch: the [MYCOIN] branch is compiled under [cfg!(test)]. *)
Definition dex_fee_rate (net_cfg : NetConfig) (base rel : string) : MmNumber :=
  let discount_tickers := net_cfg.(fee_discount_tickers) in
  if bool_decide (base ∈ discount_tickers) || bool_decide (rel ∈ discount_tickers)
  then net_cfg.(dex_fee_rate_discounted)
  else net_cfg.(net_dex_fee_rate).

Definition dex_fee_amount (net_cfg : NetConfig) (base rel : string)
    (trade_amount threshold : MmNumber) : MmNumber :=
  let rate := dex_fee_rate net_cfg base rel in
  let fee_amount := trade_amount * rate in
  if fee_amount <?q threshold then threshold else fee_amount.

Definition dex_fee_amount_from_taker_coin (net_cfg : NetConfig) (taker_coin : FeeCoin)
    (maker_coin : string) (trade_amount : MmNumber) : MmNumber :=
  let threshold := dex_fee_threshold net_cfg taker_coin.(min_tx_amount) in
  dex_fee_amount net_cfg taker_coin.(ticker) maker_coin trade_amount threshold.

Definition compute_dex_fee (net_cfg : NetConfig) (taker_coin : FeeCoin)
    (maker_coin : string) (trade_amount : MmNumber) : DexFee :=
  new_from_taker_coin taker_coin net_cfg
    (dex_fee_amount_from_taker_coin net_cfg taker_coin maker_coin trade_amount).

Definition compute_dex_fee_with_taker_pubkey (net_cfg : NetConfig) (taker_coin : FeeCoin)
    (maker_coin : string) (trade_amount : MmNumber) (taker_pubkey : bytes) : DexFee :=
  new_with_taker_pubkey taker_coin net_cfg
    (dex_fee_amount_from_taker_coin net_cfg taker_coin maker_coin trade_amount)
    taker_pubkey.

Definition v2_ticker_exemption_applies (net_cfg : NetConfig)
    (maker_coin taker_coin : string) : bool :=
  let no_fee_tickers := net_cfg.(no_fee_tickers_v2) in
  bool_decide (maker_coin ∈ no_fee_tickers) || bool_decide (taker_coin ∈ no_fee_tickers).

Definition compute_dex_fee_v2_with_taker_pubkey (net_cfg : NetConfig)
    (taker_coin : FeeCoin) (maker_coin : string) (trade_amount : MmNumber)
    (taker_pubkey : bytes) : DexFee :=
  if v2_ticker_exemption_applies net_cfg maker_coin taker_coin.(ticker) then NoFee
  else compute_dex_fee_with_taker_pubkey net_cfg taker_coin maker_coin trade_amount
         taker_pubkey.

Definition compute_dex_fee_v2 (net_cfg : NetConfig) (taker_coin : FeeCoin)
    (maker_coin : string) (trade_amount : MmNumber) : DexFee :=
  if v2_ticker_exemption_applies net_cfg maker_coin taker_coin.(ticker) then NoFee
  else compute_dex_fee net_cfg taker_coin maker_coin trade_amount.

(** ** Properties *)

(** The three ranges of the direct burn, and the account burn, keep the total. *)
Lemma op_return_total total min_tx share :
  total_spend_amount (calc_dex_fee_for_op_return total min_tx share)
  = mm_max total min_tx.
Proof.
  unfold calc_dex_fee_for_op_return, mm_max.
  destruct (total <=?q min_tx) eqn:E1, (min_tx <?q total) eqn:E2; cbn; try (exfalso; qc).
  - done.
  - repeat case_match; cbn; try done; ring.
Qed.

Lemma burn_account_total fee min_tx share key :
  total_spend_amount (calc_dex_fee_for_burn_account fee min_tx share key) = fee.
Proof. unfold calc_dex_fee_for_burn_account. case_match; cbn; [done|ring]. Qed.

Lemma new_from_taker_coin_total coin net_cfg total :
  coin.(min_tx_amount) ≤ total →
  total_spend_amount (new_from_taker_coin coin net_cfg total) = total.
Proof.
  intros H. unfold new_from_taker_coin.
  repeat case_match; try done; [|apply burn_account_total].
  rewrite op_return_total. destruct (mm_max_spec total (min_tx_amount coin)); qc.
Qed.

Lemma dex_fee_amount_max net_cfg coin maker amt :
  dex_fee_amount_from_taker_coin net_cfg coin maker amt
  = mm_max (amt * dex_fee_rate net_cfg coin.(ticker) maker)
      (mm_max net_cfg.(dex_fee_min_threshold) coin.(min_tx_amount)).
Proof.
  unfold dex_fee_amount_from_taker_coin, dex_fee_amount, dex_fee_threshold, mm_max.
  repeat case_match; try done; qc.
Qed.

Lemma dex_fee_amount_ge_min net_cfg coin maker amt :
  coin.(min_tx_amount) ≤ dex_fee_amount_from_taker_coin net_cfg coin maker amt.
Proof.
  rewrite dex_fee_amount_max.
  eapply Qcle_trans; [|apply mm_max_ge_r]. apply mm_max_ge_r.
Qed.

(** A fee that is not waived is spent in full, however it is split. *)
Lemma compute_dex_fee_total net_cfg coin maker amt pubkey :
  total_spend_amount (compute_dex_fee_with_taker_pubkey net_cfg coin maker amt pubkey)
  = if waived coin net_cfg pubkey then 0
    else dex_fee_amount_from_taker_coin net_cfg coin maker amt.
Proof.
  unfold compute_dex_fee_with_taker_pubkey, new_with_taker_pubkey.
  destruct (waived _ _ _); [done|]. apply new_from_taker_coin_total, dex_fee_amount_ge_min.
Qed.

(** C19: a taker pays exactly the network's rate of the trade, raised to the
    larger of the network floor and the coin's minimum, whether or not the fee
    is split with a burn output, and nothing when the fee is waived. *)
Theorem dex_fee_total net_cfg coin maker amt pubkey :
  total_spend_amount (compute_dex_fee_with_taker_pubkey net_cfg coin maker amt pubkey)
  = if waived coin net_cfg pubkey then 0
    else mm_max (amt * dex_fee_rate net_cfg coin.(ticker) maker)
           (mm_max net_cfg.(dex_fee_min_threshold) coin.(min_tx_amount)).
Proof.
  rewrite compute_dex_fee_total. destruct (waived _ _ _); [done|]. apply dex_fee_amount_max.
Qed.

(** The legs of a fee: no output below the coin's minimum goes to the fee
    address, a burn happens only on a burning network and on a coin that asks
    for it, and a burn account output is not below the minimum either. *)
Definition fee_legs_ok (net_cfg : NetConfig) (coin : FeeCoin) (f : DexFee) : Prop :=
  match f with
  | NoFee => False
  | Standard amount => coin.(min_tx_amount) ≤ amount
  | WithBurn fee burn dest =>
      coin.(min_tx_amount) ≤ fee ∧ 0 < burn ∧ net_cfg.(burn_enabled) = true ∧
      match dest with
      | KmdOpReturn => coin.(should_burn_directly) = true
      | PreBurnAccount key =>
          coin.(should_burn_dex_fee) = true ∧ coin.(min_tx_amount) ≤ burn ∧ 0 < fee ∧
          key = resolved_burn_pubkey coin net_cfg ∧ key ≠ []
      end
  end.

Lemma op_return_legs net_cfg coin total :
  net_cfg.(burn_enabled) = true → coin.(should_burn_directly) = true →
  coin.(min_tx_amount) ≤ total →
  fee_legs_ok net_cfg coin
    (calc_dex_fee_for_op_return total coin.(min_tx_amount) net_cfg.(dex_fee_share)).
Proof.
  intros Hb Hd Hm. unfold calc_dex_fee_for_op_return.
  repeat case_match; cbn; rewrite ?orb_false_iff in *; try done.
  all: destruct_and?; split_and!; try done; qc.
Qed.

Lemma burn_account_legs net_cfg coin total key :
  net_cfg.(burn_enabled) = true → coin.(should_burn_dex_fee) = true →
  resolved_burn_pubkey coin net_cfg = key → key ≠ [] →
  coin.(min_tx_amount) ≤ total →
  fee_legs_ok net_cfg coin
    (calc_dex_fee_for_burn_account total coin.(min_tx_amount) net_cfg.(dex_fee_share) key).
Proof.
  intros Hb Hd Hk Hne Hm. unfold calc_dex_fee_for_burn_account.
  case_match; cbn; rewrite ?orb_false_iff in *; [done|].
  destruct_and!. split_and!; try done; qc.
Qed.

(** every fee the network's policy computes has legs the chain accepts and
    burns only where network and coin both say so; it never silently becomes
    [NoFee]. *)
Theorem dex_fee_legs net_cfg coin maker amt :
  fee_legs_ok net_cfg coin (compute_dex_fee net_cfg coin maker amt).
Proof.
  unfold compute_dex_fee, new_from_taker_coin.
  pose proof (dex_fee_amount_ge_min net_cfg coin maker amt) as Hm.
  destruct (burn_enabled net_cfg) eqn:Eb; cbn; [|done].
  destruct (should_burn_directly coin) eqn:Ed; [by apply op_return_legs|].
  destruct (should_burn_dex_fee coin) eqn:Ef; cbn; [|done].
  destruct (resolved_burn_pubkey coin net_cfg) eqn:Ek; [done|].
  by apply burn_account_legs.
Qed.

(** The exemption of version-two swaps and the waiver, together, are the only
    ways to pay nothing. *)
Lemma new_from_taker_coin_fee coin net_cfg base :
  new_from_taker_coin coin net_cfg base ≠ NoFee.
Proof.
  unfold new_from_taker_coin, calc_dex_fee_for_op_return, calc_dex_fee_for_burn_account.
  repeat case_match; done.
Qed.

(** a version-two swap pays no fee exactly when one of its tickers is
    exempt on the network, or the coin is not a privacy coin and the taker's
    key is the (non-empty) burn key of the coin or else of the network. *)
Theorem dex_fee_v2_free_iff net_cfg coin maker amt pubkey :
  compute_dex_fee_v2_with_taker_pubkey net_cfg coin maker amt pubkey = NoFee
  ↔ maker ∈ net_cfg.(no_fee_tickers_v2) ∨ coin.(ticker) ∈ net_cfg.(no_fee_tickers_v2)
    ∨ coin.(is_privacy) = false ∧ pubkey ≠ []
      ∧ pubkey = resolved_burn_pubkey coin net_cfg.
Proof.
  unfold compute_dex_fee_v2_with_taker_pubkey, v2_ticker_exemption_applies,
    compute_dex_fee_with_taker_pubkey, new_with_taker_pubkey, waived.
  pose proof (new_from_taker_coin_fee coin net_cfg
    (dex_fee_amount_from_taker_coin net_cfg coin maker amt)).
  repeat case_bool_decide; cbn; try naive_solver;
    destruct (is_privacy coin); naive_solver.
Qed.

(** on the compiled networks a standard UTXO taker coin burns only when it
    is KMD on netid 8762; there the fee address gets three quarters of the fee
    or the coin's minimum, whichever is larger, and the rest is destroyed. *)
Theorem utxo_fee_policy n net_cfg tick min_tx maker amt :
  net_config_for n = Some net_cfg → 0 ≤ min_tx →
  let total := mm_max (amt * dex_fee_rate net_cfg tick maker) min_tx in
  let fee := mm_max (total * big_rational 3 4) min_tx in
  compute_dex_fee net_cfg (utxo_standard_coin tick min_tx) maker amt
  = if bool_decide (n = 8762%Z ∧ tick = "KMD"%string) && negb (total <=?q min_tx)
    then WithBurn fee (total - fee) KmdOpReturn
    else Standard total.
Proof.
  intros Hn Hmin total fee. unfold compute_dex_fee. rewrite dex_fee_amount_max; cbn.
  assert (mm_max (dex_fee_min_threshold net_cfg) min_tx = min_tx) as ->.
  { apply net_config_for_inv in Hn as [[_ ->]|[_ ->]]; cbn;
      destruct (mm_max_spec 0 min_tx) as [[-> ?]|[-> ?]]; qc. }
  fold total. apply net_config_for_inv in Hn as [[-> ->]|[-> ->]]; [|by rewrite bool_decide_eq_false_2 by (intros [[=] _])].
  unfold new_from_taker_coin; cbn.
  case_bool_decide as Hk; [|by rewrite bool_decide_eq_false_2 by naive_solver].
  rewrite bool_decide_eq_true_2 by done. cbn.
  unfold calc_dex_fee_for_op_return, fee, mm_max.
  assert (0 < big_rational 3 4 < 1) as [Hs1 Hs2] by done.
  assert (min_tx ≤ total) by apply mm_max_ge_r.
  destruct (total <=?q min_tx) eqn:E1; cbn; [f_equal; qc|].
  destruct (min_tx <=?q total * big_rational 3 4) eqn:E2,
    (min_tx <?q total * big_rational 3 4) eqn:E3; try (exfalso; qc).
  all: match goal with |- context [if ?c then _ else _] => assert (c = false) as -> end;
    rewrite ?orb_false_iff; try done; split_and?; try qc.
  all: f_equal; qc.
Qed.

Lemma utxo_fee_policy_witness :
  burn_amount (compute_dex_fee Netid8762
    (utxo_standard_coin "KMD" (big_rational 1 1000)) "BTC" (big_rational 7770 1))
  =?q big_rational 9 4 = true.
Proof.
  rewrite (utxo_fee_policy 8762 Netid8762 "KMD" (big_rational 1 1000) "BTC"
             (big_rational 7770 1) eq_refl); [|done].
  vm_compute. reflexivity.
Defined.
