(* ===== verification/SwapCommon.v ===== *)
(** * What both sides of a swap share

    The parts of [mm2_main/src/lp_swap.rs] and
    [mm2_main/src/lp_swap/swap_versioning.rs] that maker and taker evaluate
    independently and must agree on: the protocol version, the lock time, the
    negotiation payload with its width checks, and the node-wide ledger of the
    amounts locked by running swaps. *)

From Stdlib Require Import QArith Qcanon ZArith.
From S2P Require Import Prelude MmNumber.
From stdpp Require Import base tactics strings list numbers gmap pretty.

Local Open Scope Z_scope.

Notation Uuid := Z.
Notation H256Json := bytes.

(** ** Protocol version *)

Record SwapVersion := { version : Z }.
#[global] Instance SwapVersion_eq_dec : EqDecision SwapVersion.
Proof. solve_decision. Defined.

Definition LEGACY_SWAP_VERSION : Z := 1.
Definition TPU_SWAP_VERSION : Z := 2.
Definition NFT_SWAP_V2_VERSION : Z := 3.

Definition SwapVersion_default : SwapVersion := {| version := LEGACY_SWAP_VERSION |}.
Definition is_legacy (v : SwapVersion) : bool := v.(version) =? LEGACY_SWAP_VERSION.
Definition is_v2_or_higher (v : SwapVersion) : bool := TPU_SWAP_VERSION <=? v.(version).
Definition is_nft_v2 (v : SwapVersion) : bool := v.(version) =? NFT_SWAP_V2_VERSION.
Definition negotiate_version (maker taker : SwapVersion) : SwapVersion :=
  {| version := Z.min maker.(version) taker.(version) |}.

(** ** Lock time *)

Record SwapConfirmationsSettings := {
  maker_coin_confs : Z;
  maker_coin_nota : bool;
  taker_coin_confs : Z;
  taker_coin_nota : bool
}.

Definition requires_notarization (s : SwapConfirmationsSettings) : bool :=
  s.(maker_coin_nota) || s.(taker_coin_nota).

Definition coin_with_4x_locktime (ticker : string) : bool :=
  bool_decide (ticker ∈ ["BCH"; "BTG"; "SBTC"]%string).

Inductive AtomicLocktimeVersion :=
| LockV1
| LockV2 (my_conf_settings other_conf_settings : SwapConfirmationsSettings).

(** Without the [custom-swap-locktime] feature. *)
Definition PAYMENT_LOCKTIME : Z := 3600 * 2 + 300 * 2.
Definition get_payment_locktime : Z := PAYMENT_LOCKTIME.

Definition is_btc (ticker : string) : bool := bool_decide (ticker = "BTC"%string).

Definition lp_atomic_locktime_v1 (maker_coin taker_coin : string) : Z :=
  if is_btc maker_coin || is_btc taker_coin then get_payment_locktime * 10
  else if coin_with_4x_locktime maker_coin || coin_with_4x_locktime taker_coin
  then get_payment_locktime * 4
  else get_payment_locktime.

Definition lp_atomic_locktime_v2 (maker_coin taker_coin : string)
    (my_conf_settings other_conf_settings : SwapConfirmationsSettings) : Z :=
  if is_btc maker_coin || is_btc taker_coin
     || coin_with_4x_locktime maker_coin || coin_with_4x_locktime taker_coin
     || requires_notarization my_conf_settings
     || requires_notarization other_conf_settings
  then get_payment_locktime * 4
  else get_payment_locktime.

Definition lp_atomic_locktime (maker_coin taker_coin : string)
    (version : AtomicLocktimeVersion) : Z :=
  match version with
  | LockV1 => lp_atomic_locktime_v1 maker_coin taker_coin
  | LockV2 my_conf_settings other_conf_settings =>
      lp_atomic_locktime_v2 maker_coin taker_coin my_conf_settings other_conf_settings
  end.

Lemma lp_atomic_locktime_v2_sym m t a b :
  lp_atomic_locktime_v2 m t a b = lp_atomic_locktime_v2 m t b a.
Proof.
  unfold lp_atomic_locktime_v2.
  destruct (requires_notarization a), (requires_notarization b);
    by rewrite ?orb_true_r, ?orb_false_r.
Qed.

Lemma lp_atomic_locktime_range m t v :
  7800 ≤ lp_atomic_locktime m t v ≤ 78000 ∧ (7800 | lp_atomic_locktime m t v).
Proof.
  assert (7800 ≤ get_payment_locktime * 10 ≤ 78000) by done.
  unfold lp_atomic_locktime, lp_atomic_locktime_v1, lp_atomic_locktime_v2.
  repeat case_match; (split; [done|]).
  all: first [by exists 10 | by exists 4 | by exists 1].
Qed.

(** ** Negotiation payload *)

Record NegotiationDataV1 := {
  v1_started_at : Z; v1_payment_locktime : Z;
  v1_secret_hash : bytes; v1_persistent_pubkey : bytes
}.
Record NegotiationDataV2 := {
  v2_started_at : Z; v2_payment_locktime : Z;
  v2_secret_hash : bytes; v2_persistent_pubkey : bytes;
  v2_maker_coin_swap_contract : bytes; v2_taker_coin_swap_contract : bytes
}.
Record NegotiationDataV3 := {
  v3_started_at : Z; v3_payment_locktime : Z; v3_secret_hash : bytes;
  v3_maker_coin_swap_contract : bytes; v3_taker_coin_swap_contract : bytes;
  v3_maker_coin_htlc_pub : bytes; v3_taker_coin_htlc_pub : bytes
}.
Inductive NegotiationDataMsg :=
| V1 (v1 : NegotiationDataV1)
| V2 (v2 : NegotiationDataV2)
| V3 (v3 : NegotiationDataV3).

Definition nd_started_at (m : NegotiationDataMsg) : Z :=
  match m with
  | V1 v => v.(v1_started_at) | V2 v => v.(v2_started_at) | V3 v => v.(v3_started_at)
  end.
Definition nd_payment_locktime (m : NegotiationDataMsg) : Z :=
  match m with
  | V1 v => v.(v1_payment_locktime)
  | V2 v => v.(v2_payment_locktime)
  | V3 v => v.(v3_payment_locktime)
  end.
Definition nd_secret_hash (m : NegotiationDataMsg) : bytes :=
  match m with
  | V1 v => v.(v1_secret_hash) | V2 v => v.(v2_secret_hash) | V3 v => v.(v3_secret_hash)
  end.
Definition nd_maker_coin_htlc_pub (m : NegotiationDataMsg) : bytes :=
  match m with
  | V1 v => v.(v1_persistent_pubkey)
  | V2 v => v.(v2_persistent_pubkey)
  | V3 v => v.(v3_maker_coin_htlc_pub)
  end.
Definition nd_taker_coin_htlc_pub (m : NegotiationDataMsg) : bytes :=
  match m with
  | V1 v => v.(v1_persistent_pubkey)
  | V2 v => v.(v2_persistent_pubkey)
  | V3 v => v.(v3_taker_coin_htlc_pub)
  end.
Definition nd_maker_coin_swap_contract (m : NegotiationDataMsg) : option bytes :=
  match m with
  | V1 _ => None
  | V2 v => Some v.(v2_maker_coin_swap_contract)
  | V3 v => Some v.(v3_maker_coin_swap_contract)
  end.
Definition nd_taker_coin_swap_contract (m : NegotiationDataMsg) : option bytes :=
  match m with
  | V1 _ => None
  | V2 v => Some v.(v2_taker_coin_swap_contract)
  | V3 v => Some v.(v3_taker_coin_swap_contract)
  end.

(** Widths of the fields on the wire. *)
Definition SWAP_WIRE_PUBKEY_LEN : nat := 33.
Definition SWAP_WIRE_SECRET_HASH_MIN_LEN : nat := 20.

Definition validate_wire_field_len (field : bytes) (expected : nat) (what : string)
    : result unit string :=
  if (length field <? expected)%nat
  then Err (what +:+ " is " +:+ pretty (length field) +:+ " bytes, expected at least "
              +:+ pretty expected)%string
  else Ok ().

Definition validate_wire_pubkey (field : bytes) (what : string) : result unit string :=
  if bool_decide (length field = SWAP_WIRE_PUBKEY_LEN) then Ok ()
  else Err (what +:+ " must be exactly " +:+ pretty SWAP_WIRE_PUBKEY_LEN +:+ " bytes, got "
              +:+ pretty (length field))%string.

Lemma validate_wire_pubkey_len b what u : validate_wire_pubkey b what = Ok u → length b = 33%nat.
Proof. unfold validate_wire_pubkey, SWAP_WIRE_PUBKEY_LEN. by case_bool_decide. Qed.

Lemma validate_wire_field_len_le b n what u : validate_wire_field_len b n what = Ok u → (n ≤ length b)%nat.
Proof. unfold validate_wire_field_len. case_match eqn:E; [done|]. by apply Nat.ltb_ge in E. Qed.
