(* ===== verification/LockedAmounts.v ===== *)
(** * Amounts locked by running swaps

    The ledger of [mm2_main/src/lp_swap.rs] a new swap is admitted against: the
    registry of running version-one swaps, each reporting what it locks, and
    the per-coin buckets version-two swaps reserve in.  Hash maps are iterated
    in an unspecified order; the registry is an association list in that order
    and the buckets a [gmap]. *)

From Stdlib Require Import QArith Qcanon ZArith.
From S2P Require Import Prelude MmNumber SwapCommon.
From stdpp Require Import base tactics strings list numbers gmap.

Local Open Scope Qc_scope.

Record TradeFee := {
  tf_coin : string;
  tf_amount : MmNumber;
  tf_paid_from_trading_vol : bool
}.

Record LockedAmount := {
  la_coin : string;
  la_amount : MmNumber;
  la_trade_fee : option TradeFee
}.

Inductive LockedAmountV2Kind := Volume | SpendHeadroom.
#[global] Instance LockedAmountV2Kind_eq_dec : EqDecision LockedAmountV2Kind.
Proof. solve_decision. Defined.

Record LockedAmountV2Info := {
  swap_uuid : Uuid;
  kind : LockedAmountV2Kind;
  locked_amount : LockedAmount
}.

Record SwapsLedger := {
  running_swaps : list (Uuid * list LockedAmount);
  locked_amounts_v2 : gmap string (list LockedAmountV2Info)
}.

Definition fee_reservable_amount (fee : TradeFee) : MmNumber :=
  if fee.(tf_paid_from_trading_vol) then 0 else fee.(tf_amount).

(** What a fee takes from the balance of [coin]. *)
Definition fee_part (coin : string) (fee : option TradeFee) : MmNumber :=
  match fee with
  | Some fee =>
      if bool_decide (fee.(tf_coin) = coin) && negb fee.(tf_paid_from_trading_vol)
      then fee.(tf_amount) else 0
  | None => 0
  end.

(** One step of the two folds: version-one entries are filtered by coin, the
    entries of a version-two bucket are not. *)
Definition add_v1 (coin : string) (total : MmNumber) (l : LockedAmount) : MmNumber :=
  (if bool_decide (l.(la_coin) = coin) then total + l.(la_amount) else total)
  + fee_part coin l.(la_trade_fee).
Definition add_v2 (coin : string) (total : MmNumber) (i : LockedAmountV2Info) : MmNumber :=
  total + i.(locked_amount).(la_amount) + fee_part coin i.(locked_amount).(la_trade_fee).

Definition get_locked_amount (l : SwapsLedger) (coin : string) : MmNumber :=
  let v1_total := foldl (add_v1 coin) 0 (l.(running_swaps) ≫= snd) in
  let v2_total :=
    match l.(locked_amounts_v2) !! coin with
    | Some entries => foldl (add_v2 coin) 0 entries
    | None => 0
    end in
  v1_total + v2_total.

Definition get_locked_amount_by_other_swaps (l : SwapsLedger) (except_uuid : Uuid)
    (coin : string) : MmNumber :=
  let v1_total :=
    foldl (add_v1 coin) 0 (filter (λ s, s.1 ≠ except_uuid) l.(running_swaps) ≫= snd) in
  let v2_total :=
    match l.(locked_amounts_v2) !! coin with
    | Some entries =>
        foldl (add_v2 coin) 0 (filter (λ i, i.(swap_uuid) ≠ except_uuid) entries)
    | None => 0
    end in
  v1_total + v2_total.

Definition reserve_v2_amount (l : SwapsLedger) (uuid : Uuid) (k : LockedAmountV2Kind)
    (coin : string) (amount : MmNumber) : SwapsLedger :=
  let entries := default [] (l.(locked_amounts_v2) !! coin) in
  if existsb (λ i, bool_decide (i.(swap_uuid) = uuid) && bool_decide (i.(kind) = k)) entries
  then {| running_swaps := l.(running_swaps);
          locked_amounts_v2 := <[coin := entries]> l.(locked_amounts_v2) |}
  else
    let info := {| swap_uuid := uuid; kind := k;
                   locked_amount := {| la_coin := coin; la_amount := amount;
                                       la_trade_fee := None |} |} in
    {| running_swaps := l.(running_swaps);
       locked_amounts_v2 := <[coin := entries ++ [info]]> l.(locked_amounts_v2) |}.

Definition release_v2_amount (l : SwapsLedger) (uuid : Uuid) (k : LockedAmountV2Kind)
    (coin : string) : SwapsLedger :=
  {| running_swaps := l.(running_swaps);
     locked_amounts_v2 :=
       alter (filter (λ i, ¬ (i.(swap_uuid) = uuid ∧ i.(kind) = k))) coin
         l.(locked_amounts_v2) |}.

Definition release_all_v2_locked_amounts (l : SwapsLedger) (uuid : Uuid) : SwapsLedger :=
  {| running_swaps := l.(running_swaps);
     locked_amounts_v2 :=
       filter (λ i, i.(swap_uuid) ≠ uuid) <$> l.(locked_amounts_v2) |}.

(** The registry of running swaps holds one entry per uuid.  A swap is entered
    with what it locks now. *)
Definition register_running_swap (l : SwapsLedger) (uuid : Uuid) (locked : list LockedAmount)
    : SwapsLedger :=
  {| running_swaps := (uuid, locked) :: filter (λ s, s.1 ≠ uuid) l.(running_swaps);
     locked_amounts_v2 := l.(locked_amounts_v2) |}.

Definition finish_running_swap (l : SwapsLedger) (uuid : Uuid) : SwapsLedger :=
  {| running_swaps := filter (λ s, s.1 ≠ uuid) l.(running_swaps);
     locked_amounts_v2 := l.(locked_amounts_v2) |}.

Definition clear_running_swaps (l : SwapsLedger) : SwapsLedger :=
  {| running_swaps := []; locked_amounts_v2 := l.(locked_amounts_v2) |}.

(** ** Properties *)

(** What one swap locks of a coin, as a sum over its own entries. *)
Definition locked_by_swap (l : SwapsLedger) (uuid : Uuid) (coin : string) : MmNumber :=
  foldl (add_v1 coin) 0 (filter (λ s, s.1 = uuid) l.(running_swaps) ≫= snd)
  + foldl (add_v2 coin) 0
      (filter (λ i, i.(swap_uuid) = uuid) (default [] (l.(locked_amounts_v2) !! coin))).

Section folds.
Context {A : Type} (f : MmNumber → A → MmNumber) (w : A → MmNumber).
Context (Hf : ∀ t a, f t a = t + w a).

Lemma foldl_shift l t : foldl f t l = t + foldl f 0 l.
Proof using Hf.
  revert t. induction l as [|a l IH]; intros t; cbn; [ring|].
  rewrite (IH (f t a)), (IH (f 0 a)), !Hf. ring.
Qed.

Lemma foldl_filter_split (P : A → Prop) `{!∀ x, Decision (P x)} l :
  foldl f 0 l = foldl f 0 (filter (λ x, ¬ P x) l) + foldl f 0 (filter P l).
Proof using Hf.
  induction l as [|a l IH]; [by cbn; ring|].
  rewrite !filter_cons. cbn. rewrite foldl_shift, IH, Hf.
  repeat case_decide; try done; cbn; rewrite (foldl_shift _ (f _ _)), Hf; ring.
Qed.
End folds.

Lemma add_v1_shift coin t l : add_v1 coin t l = t + add_v1 coin 0 l.
Proof. unfold add_v1. case_bool_decide; ring. Qed.
Lemma add_v2_shift coin t i : add_v2 coin t i = t + add_v2 coin 0 i.
Proof. unfold add_v2. ring. Qed.

Lemma foldl_v1_app coin l1 l2 :
  foldl (add_v1 coin) 0 (l1 ++ l2)
  = foldl (add_v1 coin) 0 l1 + foldl (add_v1 coin) 0 l2.
Proof. rewrite foldl_app. apply (foldl_shift _ _ (add_v1_shift coin)). Qed.

Lemma foldl_v1_bind_split coin uuid (rs : list (Uuid * list LockedAmount)) :
  foldl (add_v1 coin) 0 (rs ≫= snd)
  = foldl (add_v1 coin) 0 (filter (λ s, s.1 ≠ uuid) rs ≫= snd)
    + foldl (add_v1 coin) 0 (filter (λ s, s.1 = uuid) rs ≫= snd).
Proof.
  induction rs as [|[u ls] rs IH]; [by cbn; ring|].
  rewrite bind_cons, foldl_v1_app, IH, !filter_cons.
  repeat case_decide; cbn in *; try done; rewrite ?bind_cons, ?foldl_v1_app; cbn; ring.
Qed.

(** The amount a starting swap is checked against and the amount it locks
    itself add up to the total locked of the coin, over both ledgers: nothing
    another swap reserved is missed and nothing is counted twice. *)
Lemma locked_amount_split l uuid coin :
  get_locked_amount l coin
  = get_locked_amount_by_other_swaps l uuid coin + locked_by_swap l uuid coin.
Proof.
  unfold get_locked_amount, get_locked_amount_by_other_swaps, locked_by_swap.
  rewrite (foldl_v1_bind_split coin uuid).
  destruct (locked_amounts_v2 l !! coin) as [entries|]; cbn; [|ring].
  rewrite (foldl_filter_split _ _ (add_v2_shift coin) (λ i, i.(swap_uuid) = uuid) entries).
  ring.
Qed.

Lemma existsb_entry entries uuid k :
  existsb (λ i, bool_decide (i.(swap_uuid) = uuid) && bool_decide (i.(kind) = k)) entries
  = bool_decide (Exists (λ i, i.(swap_uuid) = uuid ∧ i.(kind) = k) entries).
Proof.
  induction entries as [|i entries IH]; cbn; [done|]. rewrite IH.
  repeat case_bool_decide; try done; exfalso; rewrite Exists_cons in *; naive_solver.
Qed.

(** Whether a swap holds an entry of a kind in a bucket. *)
Definition holds (l : SwapsLedger) (uuid : Uuid) (k : LockedAmountV2Kind) (coin : string) : Prop :=
  Exists (λ i, i.(swap_uuid) = uuid ∧ i.(kind) = k)
    (default [] (l.(locked_amounts_v2) !! coin)).

(** reserving is idempotent and exact.  A first reservation raises the
    locked amount of its coin by exactly its amount and leaves every other coin
    alone; a repeated one, as when a resumed swap reads its log back, changes
    no amount at all. *)
Theorem reserve_v2_exact l uuid k coin amount c :
  (holds l uuid k coin →
     get_locked_amount (reserve_v2_amount l uuid k coin amount) c = get_locked_amount l c) ∧
  (¬ holds l uuid k coin →
     get_locked_amount (reserve_v2_amount l uuid k coin amount) c
     = get_locked_amount l c + (if bool_decide (c = coin) then amount else 0)) ∧
  holds (reserve_v2_amount l uuid k coin amount) uuid k coin.
Proof.
  unfold holds, reserve_v2_amount. rewrite existsb_entry.
  case_bool_decide as Hex; (split_and!; [intros Hh|intros Hh|]); try done;
    cbn; rewrite ?lookup_insert_eq; try done;
    unfold get_locked_amount; cbn.
  - destruct (decide (c = coin)) as [->|]; [|by rewrite lookup_insert_ne].
    rewrite lookup_insert_eq. by destruct (locked_amounts_v2 l !! coin).
  - case_bool_decide as Hc; subst.
    + rewrite lookup_insert_eq, foldl_app. cbn. unfold add_v2 at 1; cbn.
      destruct (locked_amounts_v2 l !! coin); cbn; ring.
    + rewrite lookup_insert_ne by done. ring.
  - rewrite Exists_app, Exists_cons. naive_solver.
Qed.

Lemma reserve_v2_exact_witness :
  let l := {| running_swaps := [];
              locked_amounts_v2 := {["KMD"%string := []]} |} in
  get_locked_amount (reserve_v2_amount l 7 Volume "KMD" (Qc_of_Z 5)) "KMD"
  = get_locked_amount l "KMD" + Qc_of_Z 5.
Proof.
  intros l.
  destruct (reserve_v2_exact l 7 Volume "KMD" (Qc_of_Z 5) "KMD") as (_ & H & _).
  apply H. vm_compute. inversion 1.
Defined.

(** Releasing everything a swap holds leaves it with nothing reserved. *)
Lemma release_all_clears l uuid coin :
  l.(running_swaps) = [] →
  locked_by_swap (release_all_v2_locked_amounts l uuid) uuid coin = 0.
Proof.
  intros Hr. unfold locked_by_swap, release_all_v2_locked_amounts; cbn.
  rewrite Hr, lookup_fmap.
  destruct (locked_amounts_v2 l !! coin) as [entries|]; cbn; [|done].
  rewrite list_filter_filter, (list_filter_iff _ (λ _, False)) by naive_solver.
  induction entries; [done|]. by rewrite filter_cons_False by tauto.
Qed.

(** Entering a swap leaves what the others lock alone, and a swap that keeps no
    reservation in the second ledger adds what it locks itself. *)
Lemma register_other_swaps l uuid locked coin :
  get_locked_amount_by_other_swaps (register_running_swap l uuid locked) uuid coin
  = get_locked_amount_by_other_swaps l uuid coin.
Proof.
  unfold get_locked_amount_by_other_swaps, register_running_swap. cbn [running_swaps locked_amounts_v2].
  rewrite filter_cons_False by (cbn; naive_solver).
  by rewrite list_filter_filter_l by naive_solver.
Qed.

Lemma filter_none {A} (P : A → Prop) `{!∀ x, Decision (P x)} (xs : list A) :
  Forall (λ x, ¬ P x) xs → filter P xs = [].
Proof. induction 1; [done|]. by rewrite filter_cons_False. Qed.

Lemma register_locked l uuid locked coin :
  Forall (λ i, i.(swap_uuid) ≠ uuid) (default [] (l.(locked_amounts_v2) !! coin)) →
  get_locked_amount (register_running_swap l uuid locked) coin
  = get_locked_amount_by_other_swaps l uuid coin + foldl (add_v1 coin) 0 locked.
Proof.
  intros Hv2. rewrite (locked_amount_split _ uuid), register_other_swaps. f_equal.
  unfold locked_by_swap, register_running_swap. cbn [running_swaps locked_amounts_v2].
  rewrite filter_cons_True, bind_cons, foldl_v1_app by done. cbn [snd].
  rewrite (filter_none _ (filter _ _)), (filter_none _ (default _ _)); [cbn; ring|done|].
  apply Forall_forall. by intros s [? _]%list_elem_of_filter.
Qed.
