(* ===== verification/Orders.v ===== *)
(** * Orders: data, construction and matching

    [mm2_main/src/lp_ordermatch/ordermatch_types.rs]: the messages of a
    negotiation, the taker's and the maker's order with their builders, the
    match of a request with an order on the maker's side, the check of a
    reservation on the taker's side, and the conversion of a timed-out taker
    order; with [choose_maker_confs_and_notas] and
    [choose_taker_confs_and_notas] of [ordermatch_orderbook.rs], from which the
    two sides derive the lock time.  A panic (a division by zero) is [None]. *)

From Stdlib Require Import QArith Qcanon ZArith.
From S2P Require Import Prelude MmNumber NetConfig DexFee SwapCommon.
From stdpp Require Import base tactics strings list numbers gmap.

Local Open Scope Qc_scope.

(** ** Coins, as the order code sees them *)

Record MmCoin := {
  coin_fee :> FeeCoin;
  min_trading_vol : MmNumber;
  coin_protocol_info : bytes;
  is_coin_protocol_supported : option bytes → bool;
  required_confirmations : Z;
  coin_requires_notarization : bool;
  is_untradable_coin : bool;
  wallet_only : bool;
  swap_key_disagreement : option string
}.

Definition untradable_coin_ticker (base rel : MmCoin) : option string :=
  if base.(is_untradable_coin) then Some base.(ticker)
  else if rel.(is_untradable_coin) then Some rel.(ticker)
  else None.

Definition declining_coin_ticker (base_coin rel_coin : MmCoin)
    (base_protocol_info rel_protocol_info : option bytes) : option string :=
  if negb (base_coin.(is_coin_protocol_supported) base_protocol_info)
  then Some base_coin.(ticker)
  else if negb (rel_coin.(is_coin_protocol_supported) rel_protocol_info)
  then Some rel_coin.(ticker)
  else None.

(** The configuration the key check reads: [swap_key_check] of the node's
    configuration and whether the login is a global HD account. *)
Record KeyCtx := { swap_key_check_enabled : bool; global_hd_account : bool }.

Definition swap_key_mismatch (ctx : KeyCtx) (base rel : MmCoin) : option (string * string) :=
  if negb ctx.(swap_key_check_enabled) then None
  else if negb ctx.(global_hd_account) then None
  else
    let find coin :=
      if coin.(wallet_only) then None
      else (λ reason, (coin.(ticker), reason)) <$> coin.(swap_key_disagreement) in
    match find base with Some m => Some m | None => find rel end.

(** ** Messages and orders *)

Inductive TakerAction := Buy | Sell.

Record OrderConfirmationsSettings := {
  base_confs : Z;
  base_nota : bool;
  rel_confs : Z;
  rel_nota : bool
}.

Definition reversed (s : OrderConfirmationsSettings) : OrderConfirmationsSettings := {|
  base_confs := s.(rel_confs);
  base_nota := s.(rel_nota);
  rel_confs := s.(base_confs);
  rel_nota := s.(base_nota)
|}.

Inductive MatchBy :=
| MatchAny
| MatchOrders (uuids : gset Uuid)
| MatchPubkeys (pubkeys : gset H256Json).

Inductive OrderType := FillOrKill | GoodTillCancelled.

Record TakerRequest := {
  tr_base : string;
  tr_rel : string;
  tr_base_amount : MmNumber;
  tr_rel_amount : MmNumber;
  tr_action : TakerAction;
  tr_uuid : Uuid;
  tr_sender_pubkey : H256Json;
  tr_dest_pub_key : H256Json;
  tr_match_by : MatchBy;
  tr_conf_settings : option OrderConfirmationsSettings;
  tr_base_protocol_info : option bytes;
  tr_rel_protocol_info : option bytes;
  tr_swap_version : SwapVersion
}.

Record MakerReserved := {
  mr_base : string;
  mr_rel : string;
  mr_base_amount : MmNumber;
  mr_rel_amount : MmNumber;
  mr_taker_order_uuid : Uuid;
  mr_maker_order_uuid : Uuid;
  mr_sender_pubkey : H256Json;
  mr_dest_pub_key : H256Json;
  mr_conf_settings : option OrderConfirmationsSettings;
  mr_base_protocol_info : option bytes;
  mr_rel_protocol_info : option bytes;
  mr_swap_version : SwapVersion
}.

Record TakerConnect := {
  tc_taker_order_uuid : Uuid;
  tc_maker_order_uuid : Uuid;
  tc_sender_pubkey : H256Json;
  tc_dest_pub_key : H256Json
}.

Record MakerConnected := {
  mc_taker_order_uuid : Uuid;
  mc_maker_order_uuid : Uuid;
  mc_sender_pubkey : H256Json;
  mc_dest_pub_key : H256Json
}.

Record MakerMatch := {
  mm_request : TakerRequest;
  mm_reserved : MakerReserved;
  mm_connect : option TakerConnect;
  mm_connected : option MakerConnected;
  mm_last_updated : Z
}.

Record TakerMatch := {
  tm_reserved : MakerReserved;
  tm_connect : TakerConnect;
  tm_connected : option MakerConnected;
  tm_last_updated : Z
}.

Record TakerOrder := {
  to_created_at : Z;
  to_request : TakerRequest;
  to_matches : gmap Uuid TakerMatch;
  to_min_volume : MmNumber;
  to_order_type : OrderType;
  to_timeout : Z;
  to_save_in_history : bool;
  to_base_orderbook_ticker : option string;
  to_rel_orderbook_ticker : option string;
  to_p2p_privkey : option bytes
}.

(** [changes_history], kept in the source only to read old files, is always
    [None] in an order the modelled code builds and is left out. *)
Record MakerOrder := {
  max_base_vol : MmNumber;
  min_base_vol : MmNumber;
  price : MmNumber;
  created_at : Z;
  updated_at : option Z;
  mo_base : string;
  mo_rel : string;
  mo_matches : gmap Uuid MakerMatch;
  started_swaps : list Uuid;
  mo_uuid : Uuid;
  conf_settings : option OrderConfirmationsSettings;
  save_in_history : bool;
  base_orderbook_ticker : option string;
  rel_orderbook_ticker : option string;
  p2p_privkey : option bytes;
  timeout_in_minutes : option Z;
  mo_swap_version : SwapVersion
}.

Definition can_match_with_maker_pubkey (r : TakerRequest) (maker_pubkey : H256Json) : bool :=
  match r.(tr_match_by) with
  | MatchPubkeys pubkeys => bool_decide (maker_pubkey ∈ pubkeys)
  | _ => true
  end.

Definition can_match_with_uuid (r : TakerRequest) (uuid : Uuid) : bool :=
  match r.(tr_match_by) with
  | MatchOrders uuids => bool_decide (uuid ∈ uuids)
  | _ => true
  end.

Definition base_protocol_info_for_maker (r : TakerRequest) : option bytes :=
  match r.(tr_action) with
  | Buy => r.(tr_base_protocol_info)
  | Sell => r.(tr_rel_protocol_info)
  end.

Definition rel_protocol_info_for_maker (r : TakerRequest) : option bytes :=
  match r.(tr_action) with
  | Buy => r.(tr_rel_protocol_info)
  | Sell => r.(tr_base_protocol_info)
  end.

(** What the environment gives an order when it is created: the clock, a fresh
    identifier, and a fresh key for an order on a privacy coin. *)
Record Fresh := { now_ms : Z; new_uuid : Uuid; random_keypair : bytes }.

Definition ZERO_PUBKEY : H256Json := replicate 32 Byte.x00.

(** ** The taker's order *)

Record TakerOrderBuilder := {
  tb_base_coin : MmCoin;
  tb_rel_coin : MmCoin;
  tb_base_orderbook_ticker : option string;
  tb_rel_orderbook_ticker : option string;
  tb_base_amount : MmNumber;
  tb_rel_amount : MmNumber;
  tb_sender_pubkey : H256Json;
  tb_action : TakerAction;
  tb_match_by : MatchBy;
  tb_order_type : OrderType;
  tb_conf_settings : option OrderConfirmationsSettings;
  tb_min_volume : option MmNumber;
  tb_timeout : Z;
  tb_save_in_history : bool;
  tb_swap_version : SwapVersion
}.

Inductive TakerOrderBuildError :=
| TakerTradingNotSupported (coin : string)
| TakerBaseEqualRel
| BaseAmountTooLow (actual threshold : MmNumber)
| RelAmountTooLow (actual threshold : MmNumber)
| SenderPubkeyIsZero
| ConfsSettingsNotSet
| MinVolumeTooLow (actual threshold : MmNumber)
| TakerMaxBaseVolBelowMinBaseVol (max min : MmNumber).

Definition taker_order_of (b : TakerOrderBuilder) (env : Fresh) (min_volume : MmNumber) :
    TakerOrder :=
  let my_coin := match b.(tb_action) with Buy => b.(tb_rel_coin) | Sell => b.(tb_base_coin) end in
  {| to_created_at := env.(now_ms);
     to_request := {|
       tr_base := b.(tb_base_coin).(ticker);
       tr_rel := b.(tb_rel_coin).(ticker);
       tr_base_amount := b.(tb_base_amount);
       tr_rel_amount := b.(tb_rel_amount);
       tr_action := b.(tb_action);
       tr_uuid := env.(new_uuid);
       tr_sender_pubkey := b.(tb_sender_pubkey);
       tr_dest_pub_key := ZERO_PUBKEY;
       tr_match_by := b.(tb_match_by);
       tr_conf_settings := b.(tb_conf_settings);
       tr_base_protocol_info := Some b.(tb_base_coin).(coin_protocol_info);
       tr_rel_protocol_info := Some b.(tb_rel_coin).(coin_protocol_info);
       tr_swap_version := b.(tb_swap_version) |};
     to_matches := ∅;
     to_min_volume := min_volume;
     to_order_type := b.(tb_order_type);
     to_timeout := b.(tb_timeout);
     to_save_in_history := b.(tb_save_in_history);
     to_base_orderbook_ticker := b.(tb_base_orderbook_ticker);
     to_rel_orderbook_ticker := b.(tb_rel_orderbook_ticker);
     to_p2p_privkey := if my_coin.(is_privacy) then Some env.(random_keypair) else None |}.

Definition build_taker_order (b : TakerOrderBuilder) (env : Fresh) :
    option (result TakerOrder TakerOrderBuildError) :=
  match untradable_coin_ticker b.(tb_base_coin) b.(tb_rel_coin) with
  | Some coin => Some (Err (TakerTradingNotSupported coin))
  | None =>
  let min_base_amount := b.(tb_base_coin).(min_trading_vol) in
  let min_rel_amount := b.(tb_rel_coin).(min_trading_vol) in
  if bool_decide (b.(tb_base_coin).(ticker) = b.(tb_rel_coin).(ticker))
  then Some (Err TakerBaseEqualRel)
  else if b.(tb_base_amount) <?q min_base_amount
  then Some (Err (BaseAmountTooLow b.(tb_base_amount) min_base_amount))
  else if b.(tb_rel_amount) <?q min_rel_amount
  then Some (Err (RelAmountTooLow b.(tb_rel_amount) min_rel_amount))
  else if bool_decide (b.(tb_sender_pubkey) = ZERO_PUBKEY) then Some (Err SenderPubkeyIsZero)
  else match b.(tb_conf_settings) with
  | None => Some (Err ConfsSettingsNotSet)
  | Some _ =>
  price ← mm_div b.(tb_rel_amount) b.(tb_base_amount);
  base_min_by_rel ← mm_div min_rel_amount price;
  let base_min_vol_threshold := mm_max min_base_amount base_min_by_rel in
  let min_volume := default base_min_vol_threshold b.(tb_min_volume) in
  if min_volume <?q base_min_vol_threshold
  then Some (Err (MinVolumeTooLow min_volume base_min_vol_threshold))
  else if b.(tb_base_amount) <?q min_volume
  then Some (Err (TakerMaxBaseVolBelowMinBaseVol b.(tb_base_amount) min_volume))
  else Some (Ok (taker_order_of b env min_volume))
  end end.

Inductive MatchReservedResult := ReservedMatched | ReservedNotMatched.
#[global] Instance MatchReservedResult_eq_dec : EqDecision MatchReservedResult.
Proof. solve_decision. Defined.

(** [a == b || orderbook_ticker == Some b]. *)
Definition ticker_is (a : string) (orderbook_ticker : option string) (b : string) : bool :=
  bool_decide (a = b) || bool_decide (orderbook_ticker = Some b).

Definition match_reserved (o : TakerOrder) (reserved : MakerReserved) : MatchReservedResult :=
  let request := o.(to_request) in
  let allowed :=
    match request.(tr_match_by) with
    | MatchAny => true
    | MatchOrders uuids => bool_decide (reserved.(mr_maker_order_uuid) ∈ uuids)
    | MatchPubkeys pubkeys => bool_decide (reserved.(mr_sender_pubkey) ∈ pubkeys)
    end in
  if negb allowed then ReservedNotMatched
  else
  let my_base_amount := request.(tr_base_amount) in
  let my_rel_amount := request.(tr_rel_amount) in
  let other_base_amount := reserved.(mr_base_amount) in
  let other_rel_amount := reserved.(mr_rel_amount) in
  match request.(tr_action) with
  | Buy =>
      let match_ticker :=
        ticker_is request.(tr_base) o.(to_base_orderbook_ticker) reserved.(mr_base)
        && ticker_is request.(tr_rel) o.(to_rel_orderbook_ticker) reserved.(mr_rel) in
      if match_ticker && (my_base_amount =?q other_base_amount)
         && (other_rel_amount <=?q my_rel_amount)
      then ReservedMatched else ReservedNotMatched
  | Sell =>
      let match_ticker :=
        ticker_is request.(tr_base) o.(to_base_orderbook_ticker) reserved.(mr_rel)
        && ticker_is request.(tr_rel) o.(to_rel_orderbook_ticker) reserved.(mr_base) in
      if match_ticker && (my_base_amount =?q other_rel_amount)
         && (my_rel_amount <=?q other_base_amount)
      then ReservedMatched else ReservedNotMatched
  end.

Definition taker_is_cancellable (o : TakerOrder) : bool := bool_decide (o.(to_matches) = ∅).

Definition taker_coin_ticker (o : TakerOrder) : string :=
  match o.(to_request).(tr_action) with
  | Buy => o.(to_request).(tr_rel)
  | Sell => o.(to_request).(tr_base)
  end.
Definition maker_coin_ticker (o : TakerOrder) : string :=
  match o.(to_request).(tr_action) with
  | Buy => o.(to_request).(tr_base)
  | Sell => o.(to_request).(tr_rel)
  end.
Definition to_base_ticker (o : TakerOrder) : string :=
  default o.(to_request).(tr_base) o.(to_base_orderbook_ticker).
Definition to_rel_ticker (o : TakerOrder) : string :=
  default o.(to_request).(tr_rel) o.(to_rel_orderbook_ticker).

(** [MakerReserved::price], the key reservations are sorted by. *)
Definition mr_price (r : MakerReserved) : option MmNumber :=
  mm_div r.(mr_rel_amount) r.(mr_base_amount).

(** ** The maker's order *)

Record MakerOrderBuilder := {
  mb_max_base_vol : MmNumber;
  mb_min_base_vol : option MmNumber;
  mb_price : MmNumber;
  mb_base_coin : MmCoin;
  mb_rel_coin : MmCoin;
  mb_base_orderbook_ticker : option string;
  mb_rel_orderbook_ticker : option string;
  mb_conf_settings : option OrderConfirmationsSettings;
  mb_save_in_history : bool;
  mb_timeout_in_minutes : option Z;
  mb_swap_version : SwapVersion
}.

Inductive MakerOrderBuildError :=
| BaseEqualRel
| MaxBaseVolTooLow (actual threshold : MmNumber)
| MinBaseVolTooLow (actual threshold : MmNumber)
| PriceTooLow (actual threshold : MmNumber)
| RelVolTooLow (actual threshold : MmNumber)
| ConfSettingsNotSet
| MaxBaseVolBelowMinBaseVol (min max : MmNumber)
| TradingNotSupported (coin : string).

Definition MIN_PRICE : MmNumber := big_rational 1 100000000.

Definition validate_price (price : MmNumber) : result unit MakerOrderBuildError :=
  if price <?q MIN_PRICE then Err (PriceTooLow price MIN_PRICE) else Ok ().

Definition validate_and_get_min_vol (min_base_amount min_rel_amount : MmNumber)
    (min_vol : option MmNumber) (price : MmNumber) :
    option (result MmNumber MakerOrderBuildError) :=
  base_min_by_rel ← mm_div min_rel_amount price;
  let base_min_vol_threshold := mm_max min_base_amount base_min_by_rel in
  let actual_min_base_vol := default base_min_vol_threshold min_vol in
  if actual_min_base_vol <?q base_min_vol_threshold
  then Some (Err (MinBaseVolTooLow actual_min_base_vol base_min_vol_threshold))
  else Some (Ok actual_min_base_vol).

Definition validate_max_vol (min_base_amount min_rel_amount max_vol : MmNumber)
    (min_vol : option MmNumber) (price : MmNumber) : result unit MakerOrderBuildError :=
  let check_rest :=
    if max_vol <?q min_base_amount then Err (MaxBaseVolTooLow max_vol min_base_amount)
    else
      let rel_vol := max_vol * price in
      if rel_vol <?q min_rel_amount then Err (RelVolTooLow rel_vol min_rel_amount)
      else Ok () in
  match min_vol with
  | Some min => if max_vol <?q min then Err (MaxBaseVolBelowMinBaseVol min max_vol)
                else check_rest
  | None => check_rest
  end.

Definition maker_order_of (b : MakerOrderBuilder) (env : Fresh) (min_vol : MmNumber) :
    MakerOrder := {|
  max_base_vol := b.(mb_max_base_vol);
  min_base_vol := min_vol;
  price := b.(mb_price);
  created_at := env.(now_ms);
  updated_at := Some env.(now_ms);
  mo_base := b.(mb_base_coin).(ticker);
  mo_rel := b.(mb_rel_coin).(ticker);
  mo_matches := ∅;
  started_swaps := [];
  mo_uuid := env.(new_uuid);
  conf_settings := b.(mb_conf_settings);
  save_in_history := b.(mb_save_in_history);
  base_orderbook_ticker := b.(mb_base_orderbook_ticker);
  rel_orderbook_ticker := b.(mb_rel_orderbook_ticker);
  p2p_privkey := if b.(mb_base_coin).(is_privacy) then Some env.(random_keypair) else None;
  timeout_in_minutes := b.(mb_timeout_in_minutes);
  mo_swap_version := b.(mb_swap_version)
|}.

Definition build_maker_order (b : MakerOrderBuilder) (env : Fresh) :
    option (result MakerOrder MakerOrderBuildError) :=
  match untradable_coin_ticker b.(mb_base_coin) b.(mb_rel_coin) with
  | Some coin => Some (Err (TradingNotSupported coin))
  | None =>
  if bool_decide (b.(mb_base_coin).(ticker) = b.(mb_rel_coin).(ticker))
  then Some (Err BaseEqualRel)
  else match b.(mb_conf_settings) with
  | None => Some (Err ConfSettingsNotSet)
  | Some _ =>
  let min_base_amount := b.(mb_base_coin).(min_trading_vol) in
  let min_rel_amount := b.(mb_rel_coin).(min_trading_vol) in
  match validate_price b.(mb_price) with
  | Err e => Some (Err e)
  | Ok _ =>
  min_vol ← validate_and_get_min_vol min_base_amount min_rel_amount
              b.(mb_min_base_vol) b.(mb_price);
  match min_vol with
  | Err e => Some (Err e)
  | Ok actual_min_base_vol =>
  match validate_max_vol min_base_amount min_rel_amount b.(mb_max_base_vol)
          b.(mb_min_base_vol) b.(mb_price) with
  | Err e => Some (Err e)
  | Ok _ => Some (Ok (maker_order_of b env actual_min_base_vol))
  end end end end end.

Definition reserved_amount (o : MakerOrder) : MmNumber :=
  map_fold (λ _ m reserved, reserved + m.(mm_reserved).(mr_base_amount)) 0 o.(mo_matches).

Definition available_amount (o : MakerOrder) : MmNumber :=
  o.(max_base_vol) - reserved_amount o.

Definition has_ongoing_matches (o : MakerOrder) : bool :=
  existsb (λ p, bool_decide (p.2.(mm_connected) = None ∧ p.2.(mm_connect) = None))
    (map_to_list o.(mo_matches)).

Definition maker_is_cancellable (o : MakerOrder) : bool := negb (has_ongoing_matches o).

Definition mo_base_ticker (o : MakerOrder) : string :=
  default o.(mo_base) o.(base_orderbook_ticker).
Definition mo_rel_ticker (o : MakerOrder) : string :=
  default o.(mo_rel) o.(rel_orderbook_ticker).

Inductive OrderMatchResult :=
| Matched (base_amount rel_amount : MmNumber)
| NotMatched.

Definition match_with_request (o : MakerOrder) (taker : TakerRequest) :
    option OrderMatchResult :=
  let taker_base_amount := taker.(tr_base_amount) in
  let taker_rel_amount := taker.(tr_rel_amount) in
  if (taker_base_amount <=?q 0) || (taker_rel_amount <=?q 0) then Some NotMatched
  else match taker.(tr_action) with
  | Buy =>
      let ticker_match :=
        ticker_is o.(mo_base) o.(base_orderbook_ticker) taker.(tr_base)
        && ticker_is o.(mo_rel) o.(rel_orderbook_ticker) taker.(tr_rel) in
      taker_price ← mm_div taker_rel_amount taker_base_amount;
      Some (if ticker_match && (taker_base_amount <=?q available_amount o)
               && (o.(min_base_vol) <=?q taker_base_amount)
               && (o.(price) <=?q taker_price)
            then Matched taker_base_amount (taker_base_amount * o.(price))
            else NotMatched)
  | Sell =>
      let ticker_match :=
        ticker_is o.(mo_base) o.(base_orderbook_ticker) taker.(tr_rel)
        && ticker_is o.(mo_rel) o.(rel_orderbook_ticker) taker.(tr_base) in
      taker_price ← mm_div taker_base_amount taker_rel_amount;
      matched_base_amount ← mm_div taker_base_amount o.(price);
      Some (if ticker_match && (matched_base_amount <=?q available_amount o)
               && (o.(min_base_vol) <=?q matched_base_amount)
               && (o.(price) <=?q taker_price)
            then Matched matched_base_amount taker_base_amount
            else NotMatched)
  end.

(** [From<TakerOrder> for MakerOrder], applied when a taker order times out. *)
Definition maker_order_from_taker (t : TakerOrder) (now : Z) : option MakerOrder :=
  let r := t.(to_request) in
  match r.(tr_action) with
  | Sell =>
      price ← mm_div r.(tr_rel_amount) r.(tr_base_amount);
      Some {| max_base_vol := r.(tr_base_amount);
              min_base_vol := t.(to_min_volume);
              price := price;
              created_at := now;
              updated_at := Some now;
              mo_base := r.(tr_base);
              mo_rel := r.(tr_rel);
              mo_matches := ∅;
              started_swaps := [];
              mo_uuid := r.(tr_uuid);
              conf_settings := r.(tr_conf_settings);
              save_in_history := t.(to_save_in_history);
              base_orderbook_ticker := t.(to_base_orderbook_ticker);
              rel_orderbook_ticker := t.(to_rel_orderbook_ticker);
              p2p_privkey := t.(to_p2p_privkey);
              timeout_in_minutes := None;
              mo_swap_version := r.(tr_swap_version) |}
  | Buy =>
      price ← mm_div r.(tr_base_amount) r.(tr_rel_amount);
      min_vol ← mm_div t.(to_min_volume) price;
      Some {| max_base_vol := r.(tr_rel_amount);
              min_base_vol := min_vol;
              price := price;
              created_at := now;
              updated_at := Some now;
              mo_base := r.(tr_rel);
              mo_rel := r.(tr_base);
              mo_matches := ∅;
              started_swaps := [];
              mo_uuid := r.(tr_uuid);
              conf_settings := reversed <$> r.(tr_conf_settings);
              save_in_history := t.(to_save_in_history);
              base_orderbook_ticker := t.(to_rel_orderbook_ticker);
              rel_orderbook_ticker := t.(to_base_orderbook_ticker);
              p2p_privkey := t.(to_p2p_privkey);
              timeout_in_minutes := None;
              mo_swap_version := r.(tr_swap_version) |}
  end.

(** ** Confirmations and lock time of a match *)

Definition default_order_confs (base_coin rel_coin : MmCoin) : OrderConfirmationsSettings := {|
  base_confs := base_coin.(required_confirmations);
  base_nota := base_coin.(coin_requires_notarization);
  rel_confs := rel_coin.(required_confirmations);
  rel_nota := rel_coin.(coin_requires_notarization)
|}.

Definition choose_maker_confs_and_notas (maker_confs : option OrderConfirmationsSettings)
    (taker_req : TakerRequest) (maker_coin taker_coin : MmCoin) : SwapConfirmationsSettings :=
  let maker_settings := default (default_order_confs maker_coin taker_coin) maker_confs in
  match taker_req.(tr_conf_settings) with
  | Some taker_settings =>
      match taker_req.(tr_action) with
      | Sell => {|
          maker_coin_confs :=
            if (taker_settings.(rel_confs) <? maker_settings.(base_confs))%Z
            then taker_settings.(rel_confs) else maker_settings.(base_confs);
          maker_coin_nota :=
            if negb taker_settings.(rel_nota)
            then taker_settings.(rel_nota) else maker_settings.(base_nota);
          taker_coin_confs := maker_settings.(rel_confs);
          taker_coin_nota := maker_settings.(rel_nota) |}
      | Buy => {|
          maker_coin_confs :=
            if (taker_settings.(base_confs) <? maker_settings.(base_confs))%Z
            then taker_settings.(base_confs) else maker_settings.(base_confs);
          maker_coin_nota :=
            if negb taker_settings.(base_nota)
            then taker_settings.(base_nota) else maker_settings.(base_nota);
          taker_coin_confs := maker_settings.(rel_confs);
          taker_coin_nota := maker_settings.(rel_nota) |}
      end
  | None => {|
      maker_coin_confs := maker_settings.(base_confs);
      maker_coin_nota := maker_settings.(base_nota);
      taker_coin_confs := maker_settings.(rel_confs);
      taker_coin_nota := maker_settings.(rel_nota) |}
  end.

Definition choose_taker_confs_and_notas (taker_req : TakerRequest)
    (maker_reserved : MakerReserved) (maker_coin taker_coin : MmCoin) :
    SwapConfirmationsSettings :=
  let '(own_confs, own_nota, other_confs, other_nota) :=
    match taker_req.(tr_conf_settings) with
    | Some s =>
        match taker_req.(tr_action) with
        | Buy => (s.(rel_confs), s.(rel_nota), s.(base_confs), s.(base_nota))
        | Sell => (s.(base_confs), s.(base_nota), s.(rel_confs), s.(rel_nota))
        end
    | None => (taker_coin.(required_confirmations), taker_coin.(coin_requires_notarization),
               maker_coin.(required_confirmations), maker_coin.(coin_requires_notarization))
    end in
  let '(own_confs, own_nota) :=
    match maker_reserved.(mr_conf_settings) with
    | Some from_maker =>
        (if (from_maker.(rel_confs) <? own_confs)%Z then from_maker.(rel_confs) else own_confs,
         if negb from_maker.(rel_nota) then from_maker.(rel_nota) else own_nota)
    | None => (own_confs, own_nota)
    end in
  {| maker_coin_confs := other_confs;
     maker_coin_nota := other_nota;
     taker_coin_confs := own_confs;
     taker_coin_nota := own_nota |}.

(** The lock time [lp_connect_start_bob] gives the maker's swap ... *)
Definition maker_lock_time (o : MakerOrder) (m : MakerMatch) (maker_coin taker_coin : MmCoin) : Z :=
  let my_conf_settings :=
    choose_maker_confs_and_notas o.(conf_settings) m.(mm_request) maker_coin taker_coin in
  let version :=
    match m.(mm_request).(tr_conf_settings) with
    | Some _ =>
        LockV2 my_conf_settings
          (choose_taker_confs_and_notas m.(mm_request) m.(mm_reserved) maker_coin taker_coin)
    | None => LockV1
    end in
  lp_atomic_locktime maker_coin.(ticker) taker_coin.(ticker) version.

(** ... and the one [lp_connected_alice] gives the taker's. *)
Definition taker_lock_time (o : TakerOrder) (m : TakerMatch) (maker_coin taker_coin : MmCoin) : Z :=
  let my_conf_settings :=
    choose_taker_confs_and_notas o.(to_request) m.(tm_reserved) maker_coin taker_coin in
  let version :=
    match m.(tm_reserved).(mr_conf_settings) with
    | Some _ =>
        LockV2 my_conf_settings
          (choose_maker_confs_and_notas m.(tm_reserved).(mr_conf_settings) o.(to_request)
             maker_coin taker_coin)
    | None => LockV1
    end in
  lp_atomic_locktime maker_coin.(ticker) taker_coin.(ticker) version.

(** The reservation a maker sends for a request its order matched
    ([process_taker_request]). *)
Definition reservation_for (our_public_id : H256Json) (o : MakerOrder) (uuid : Uuid)
    (taker_request : TakerRequest) (base_coin rel_coin : MmCoin)
    (base_amount rel_amount : MmNumber) : MakerReserved := {|
  mr_base := mo_base_ticker o;
  mr_rel := mo_rel_ticker o;
  mr_base_amount := base_amount;
  mr_rel_amount := rel_amount;
  mr_taker_order_uuid := taker_request.(tr_uuid);
  mr_maker_order_uuid := uuid;
  mr_sender_pubkey := our_public_id;
  mr_dest_pub_key := taker_request.(tr_sender_pubkey);
  mr_conf_settings :=
    match o.(conf_settings) with
    | Some s => Some s
    | None => Some (default_order_confs base_coin rel_coin)
    end;
  mr_base_protocol_info := Some base_coin.(coin_protocol_info);
  mr_rel_protocol_info := Some rel_coin.(coin_protocol_info);
  mr_swap_version := o.(mo_swap_version)
|}.

(** ** Construction *)

(** What makes a maker order acceptable to the network. *)
Definition min_vol_threshold (base_coin rel_coin : MmCoin) (price : MmNumber) : MmNumber :=
  mm_max base_coin.(min_trading_vol) (rel_coin.(min_trading_vol) / price).

Definition maker_order_acceptable (b : MakerOrderBuilder) : Prop :=
  let threshold := min_vol_threshold b.(mb_base_coin) b.(mb_rel_coin) b.(mb_price) in
  let min_vol := default threshold b.(mb_min_base_vol) in
  untradable_coin_ticker b.(mb_base_coin) b.(mb_rel_coin) = None ∧
  b.(mb_base_coin).(ticker) ≠ b.(mb_rel_coin).(ticker) ∧
  is_Some b.(mb_conf_settings) ∧
  MIN_PRICE ≤ b.(mb_price) ∧ threshold ≤ min_vol ≤ b.(mb_max_base_vol).

Lemma MIN_PRICE_pos : 0 < MIN_PRICE.
Proof. done. Qed.

Lemma validate_price_spec p :
  match validate_price p with
  | Ok _ => MIN_PRICE ≤ p ∧ 0 < p
  | Err _ => p < MIN_PRICE
  end.
Proof.
  unfold validate_price. pose proof MIN_PRICE_pos.
  destruct (p <?q MIN_PRICE) eqn:E; [qc|split; qc].
Qed.

Lemma validate_and_get_min_vol_spec base_coin rel_coin min_vol p :
  0 < p →
  let threshold := min_vol_threshold base_coin rel_coin p in
  ∃ r, validate_and_get_min_vol base_coin.(min_trading_vol) rel_coin.(min_trading_vol)
         min_vol p = Some r ∧
  match r with
  | Ok v => v = default threshold min_vol ∧ threshold ≤ v
  | Err _ => default threshold min_vol < threshold
  end.
Proof.
  intros Hp threshold. unfold validate_and_get_min_vol.
  rewrite mm_div_Some by by apply Qc_pos_neq. cbn.
  change (mm_max _ _) with threshold.
  destruct (default threshold min_vol <?q threshold) eqn:E; eexists; (split; [done|]);
    cbn; [|split; [done|]]; qc.
Qed.

(** The two volume checks together are the comparison with the minimum. *)
Lemma validate_max_vol_spec base_coin rel_coin max_vol min_vol p :
  0 < p →
  let threshold := min_vol_threshold base_coin rel_coin p in
  threshold ≤ default threshold min_vol →
  match validate_max_vol base_coin.(min_trading_vol) rel_coin.(min_trading_vol)
          max_vol min_vol p with
  | Ok _ => default threshold min_vol ≤ max_vol
  | Err _ => max_vol < default threshold min_vol
  end.
Proof.
  intros Hp threshold Hmin. unfold validate_max_vol.
  pose proof (mm_max_ge_l (min_trading_vol base_coin) (min_trading_vol rel_coin / p)) as Hl.
  pose proof (mm_max_ge_r (min_trading_vol base_coin) (min_trading_vol rel_coin / p)) as Hr.
  pose proof (λ H1 H2, mm_max_lub (min_trading_vol base_coin)
    (min_trading_vol rel_coin / p) max_vol H1 H2) as Hlub.
  change (mm_max _ _) with threshold in Hl, Hr, Hlub.
  rewrite (Qc_div_le_iff _ _ threshold) in Hr by done.
  rewrite (Qc_div_le_iff _ _ max_vol) in Hlub by done.
  destruct min_vol as [v|]; cbn [default from_option id] in *.
  all: repeat case_match; simplify_eq; try qc.
  all: apply Hlub; qc.
Qed.

(** Every branch of the builder. *)
Lemma build_maker_order_cases b env :
  match build_maker_order b env with
  | Some (Ok o) =>
      maker_order_acceptable b ∧
      o = maker_order_of b env
            (default (min_vol_threshold b.(mb_base_coin) b.(mb_rel_coin) b.(mb_price))
               b.(mb_min_base_vol))
  | Some (Err _) => ¬ maker_order_acceptable b
  | None => False
  end.
Proof.
  unfold build_maker_order, maker_order_acceptable.
  destruct (untradable_coin_ticker _ _); [naive_solver|].
  case_bool_decide; [naive_solver|].
  destruct (mb_conf_settings b) as [s|]; [|by intros (_ & _ & [? [=]] & _)].
  pose proof (validate_price_spec (mb_price b)) as Hp.
  destruct (validate_price (mb_price b)) as [|];
    [destruct Hp as [Hp1 Hp]|intros (_ & _ & _ & Hp' & _); qc].
  destruct (validate_and_get_min_vol_spec (mb_base_coin b) (mb_rel_coin b)
    (mb_min_base_vol b) (mb_price b) Hp) as (r & -> & Hr).
  destruct r as [v|]; cbn; [destruct Hr as [-> Hr]|intros (_ & _ & _ & _ & ? & _); qc].
  pose proof (validate_max_vol_spec (mb_base_coin b) (mb_rel_coin b)
    (mb_max_base_vol b) (mb_min_base_vol b) (mb_price b) Hp Hr) as Hm.
  destruct (validate_max_vol _ _ _ _ _); [naive_solver|].
  intros (_ & _ & _ & _ & _ & ?). qc.
Qed.

Lemma build_maker_order_acceptable b env o :
  build_maker_order b env = Some (Ok o) →
  maker_order_acceptable b ∧
  o = maker_order_of b env
        (default (min_vol_threshold b.(mb_base_coin) b.(mb_rel_coin) b.(mb_price))
           b.(mb_min_base_vol)).
Proof. intros H. pose proof (build_maker_order_cases b env) as Hc. by rewrite H in Hc. Qed.

(** building a maker order never panics; it succeeds exactly for an
    acceptable request, and the order then carries the requested price, pair
    and maximum, with a minimum that is tradable on both coins. *)
Theorem build_maker_order_spec b env :
  match build_maker_order b env with
  | Some (Ok o) =>
      maker_order_acceptable b ∧
      o = maker_order_of b env
            (default (min_vol_threshold b.(mb_base_coin) b.(mb_rel_coin) b.(mb_price))
               b.(mb_min_base_vol))
  | Some (Err _) => ¬ maker_order_acceptable b
  | None => False
  end.
Proof. apply build_maker_order_cases. Qed.

Definition taker_order_acceptable (b : TakerOrderBuilder) : Prop :=
  let threshold :=
    min_vol_threshold b.(tb_base_coin) b.(tb_rel_coin)
      (b.(tb_rel_amount) / b.(tb_base_amount)) in
  let min_vol := default threshold b.(tb_min_volume) in
  untradable_coin_ticker b.(tb_base_coin) b.(tb_rel_coin) = None ∧
  b.(tb_base_coin).(ticker) ≠ b.(tb_rel_coin).(ticker) ∧
  b.(tb_rel_coin).(min_trading_vol) ≤ b.(tb_rel_amount) ∧
  b.(tb_sender_pubkey) ≠ ZERO_PUBKEY ∧ is_Some b.(tb_conf_settings) ∧
  b.(tb_base_coin).(min_trading_vol) ≤ b.(tb_base_amount) ∧
  threshold ≤ min_vol ≤ b.(tb_base_amount).

(** Every branch of the builder. *)
Lemma build_taker_order_cases b env :
  0 < b.(tb_base_coin).(min_trading_vol) → 0 < b.(tb_rel_coin).(min_trading_vol) →
  match build_taker_order b env with
  | Some (Ok o) =>
      taker_order_acceptable b ∧
      o = taker_order_of b env
            (default (min_vol_threshold b.(tb_base_coin) b.(tb_rel_coin)
                        (b.(tb_rel_amount) / b.(tb_base_amount))) b.(tb_min_volume))
  | Some (Err _) => ¬ taker_order_acceptable b
  | None => False
  end.
Proof.
  intros Hb Hr. unfold build_taker_order, taker_order_acceptable.
  destruct (untradable_coin_ticker _ _); [naive_solver|].
  case_bool_decide; [naive_solver|].
  destruct (tb_base_amount b <?q _) eqn:E1; [intros (_&_&_&_&_&?&_); qc|].
  destruct (tb_rel_amount b <?q _) eqn:E2; [intros (_&_&?&_); qc|].
  case_bool_decide; [naive_solver|].
  destruct (tb_conf_settings b) as [s|]; [|by intros (_&_&_&_&[? [=]]&_)].
  assert (0 < tb_base_amount b) as Hb' by qc. assert (0 < tb_rel_amount b) as Hr' by qc.
  rewrite mm_div_Some by by apply Qc_pos_neq. cbn.
  rewrite mm_div_Some by by apply Qc_pos_neq, Qc_div_pos. cbn.
  change (mm_max _ _) with (min_vol_threshold (tb_base_coin b) (tb_rel_coin b)
    (tb_rel_amount b / tb_base_amount b)).
  set (threshold := min_vol_threshold _ _ _).
  destruct (default threshold _ <?q threshold) eqn:E3; [intros (_&_&_&_&_&_&?&_); qc|].
  destruct (tb_base_amount b <?q default threshold _) eqn:E4; [intros (_&_&_&_&_&_&_&?); qc|].
  split_and!; try done; qc.
Qed.

Lemma build_taker_order_acceptable b env o :
  0 < b.(tb_base_coin).(min_trading_vol) → 0 < b.(tb_rel_coin).(min_trading_vol) →
  build_taker_order b env = Some (Ok o) →
  taker_order_acceptable b ∧
  o = taker_order_of b env
        (default (min_vol_threshold b.(tb_base_coin) b.(tb_rel_coin)
                    (b.(tb_rel_amount) / b.(tb_base_amount))) b.(tb_min_volume)).
Proof.
  intros Hb Hr H. pose proof (build_taker_order_cases b env Hb Hr) as Hc. by rewrite H in Hc.
Qed.

(** on coins with a positive minimum trading volume, building a taker order
    never panics (the two divisions are by positive amounts) and succeeds
    exactly for an acceptable request. *)
Theorem build_taker_order_spec b env :
  0 < b.(tb_base_coin).(min_trading_vol) → 0 < b.(tb_rel_coin).(min_trading_vol) →
  match build_taker_order b env with
  | Some (Ok o) =>
      taker_order_acceptable b ∧
      o = taker_order_of b env
            (default (min_vol_threshold b.(tb_base_coin) b.(tb_rel_coin)
                        (b.(tb_rel_amount) / b.(tb_base_amount))) b.(tb_min_volume))
  | Some (Err _) => ¬ taker_order_acceptable b
  | None => False
  end.
Proof. apply build_taker_order_cases. Qed.

(** ** Matching *)

(** What a request asks of an order: an amount of the maker's coin, at the
    maker's price ... *)
Definition asked_base (o : MakerOrder) (r : TakerRequest) : MmNumber :=
  match r.(tr_action) with
  | Buy => r.(tr_base_amount)
  | Sell => r.(tr_base_amount) / o.(price)
  end.
(** ... and no worse than the taker's own limit. *)
Definition within_limit (r : TakerRequest) (base rel : MmNumber) : Prop :=
  match r.(tr_action) with
  | Buy => base = r.(tr_base_amount) ∧ rel ≤ r.(tr_rel_amount)
  | Sell => rel = r.(tr_base_amount) ∧ r.(tr_rel_amount) ≤ base
  end.

Definition tickers_match (o : MakerOrder) (r : TakerRequest) : bool :=
  let '(b, q) := match r.(tr_action) with
                 | Buy => (r.(tr_base), r.(tr_rel))
                 | Sell => (r.(tr_rel), r.(tr_base))
                 end in
  ticker_is o.(mo_base) o.(base_orderbook_ticker) b
  && ticker_is o.(mo_rel) o.(rel_orderbook_ticker) q.

Definition compatible (o : MakerOrder) (r : TakerRequest) : Prop :=
  let base := asked_base o r in
  tickers_match o r = true ∧ 0 < r.(tr_base_amount) ∧ 0 < r.(tr_rel_amount) ∧
  o.(min_base_vol) ≤ base ≤ available_amount o ∧ within_limit r base (base * o.(price)).

Lemma limit_buy a b p : 0 < a → p ≤ b / a ↔ a * p ≤ b.
Proof. intros. rewrite Qc_le_div_iff by done. by rewrite Qcmult_comm. Qed.

Lemma limit_sell a b p : 0 < b → 0 < p → p ≤ a / b ↔ b ≤ a / p.
Proof. intros. rewrite !Qc_le_div_iff by done. by rewrite Qcmult_comm. Qed.


#[global] Instance within_limit_dec r b q : Decision (within_limit r b q).
Proof. unfold within_limit. destruct (tr_action r); apply _. Defined.
#[global] Instance compatible_dec o r : Decision (compatible o r).
Proof. unfold compatible. apply _. Defined.

Ltac bool_props :=
  repeat match goal with
  | H : (_ && _) = true |- _ => apply andb_true_iff in H as [? ?]
  | H : (_ || _) = false |- _ => apply orb_false_iff in H as [? ?]
  | H : (_ && _) = false |- _ => apply andb_false_iff in H as [?|?]
  | H : (_ || _) = true |- _ => apply orb_true_iff in H as [?|?]
  end.

(** The result of matching, on every branch, for an order with a usable price. *)
Lemma match_with_request_spec o r :
  0 < o.(price) →
  match_with_request o r
  = Some (if bool_decide (compatible o r)
          then Matched (asked_base o r) (asked_base o r * o.(price))
          else NotMatched).
Proof.
  intros Hp. unfold match_with_request.
  destruct ((tr_base_amount r <=?q 0) || (tr_rel_amount r <=?q 0)) eqn:Ez.
  { rewrite bool_decide_eq_false_2; [done|]. intros (_ & ? & ? & _). bool_props; qc. }
  bool_props.
  assert (0 < tr_base_amount r) as Hb by qc. assert (0 < tr_rel_amount r) as Hr by qc.
  destruct (tr_action r) eqn:Ea; rewrite !mm_div_Some by (by apply Qc_pos_neq); cbn;
    apply (f_equal Some); unfold asked_base; rewrite Ea.
  all: rewrite ?Qc_div_mul by by apply Qc_pos_neq.
  all: match goal with |- (if ?c then _ else _) = _ =>
         replace c with (bool_decide (compatible o r)) end; [done|].
  all: apply eq_true_iff_eq; rewrite bool_decide_eq_true, !andb_true_iff; unfold mm_le;
    rewrite !bool_decide_eq_true; unfold compatible, asked_base, within_limit, tickers_match;
    rewrite Ea, andb_true_iff.
  - rewrite (limit_buy _ _ _ Hb). naive_solver.
  - rewrite Qc_div_mul by by apply Qc_pos_neq.
    rewrite (limit_sell _ _ _ Hr Hp). naive_solver.
Qed.

(** an order with a positive price answers every request.  A match gives
    amounts at exactly the maker's price, within the order's minimum and what is
    left of it, and no worse than the taker's limit; and a request is turned
    down only if no such amount exists. *)
Theorem match_with_request_fair o r :
  0 < o.(price) →
  ∃ res, match_with_request o r = Some res ∧
  match res with
  | Matched base rel =>
      o.(min_base_vol) ≤ base ≤ available_amount o ∧ rel = base * o.(price) ∧
      within_limit r base rel
  | NotMatched =>
      ¬ ∃ base, tickers_match o r = true ∧ 0 < r.(tr_base_amount) ∧ 0 < r.(tr_rel_amount) ∧
        o.(min_base_vol) ≤ base ≤ available_amount o ∧ within_limit r base (base * o.(price))
  end.
Proof.
  intros Hp. rewrite match_with_request_spec by done.
  case_bool_decide as Hc; eexists; (split; [done|]); cbn.
  { destruct Hc as (_ & _ & _ & Hv & Hw). naive_solver. }
  intros (base & Ht & Hb & Hr & Hv & Hw). apply Hc.
  assert (asked_base o r = base) as Hbase.
  { revert Hw. unfold asked_base, within_limit. destruct (tr_action r); [naive_solver|].
    intros [<- _]. unfold Qcdiv.
    rewrite <-Qcmult_assoc, Qcmult_inv_r, Qcmult_1_r; [done|by apply Qc_pos_neq]. }
  unfold compatible. rewrite Hbase. naive_solver.
Qed.

(** ** Agreement of the two sides *)

(** A taker's request as the maker receives it: the taker's node publishes
    [From<TakerOrder>], the maker's reads [from_new_proto_and_pubkey]. *)
Definition request_on_wire (t : TakerOrder) (sender_pubkey : H256Json) : option TakerRequest :=
  let r := t.(to_request) in
  confs ← r.(tr_conf_settings);
  Some {| tr_base := to_base_ticker t;
          tr_rel := to_rel_ticker t;
          tr_base_amount := r.(tr_base_amount);
          tr_rel_amount := r.(tr_rel_amount);
          tr_action := r.(tr_action);
          tr_uuid := r.(tr_uuid);
          tr_sender_pubkey := sender_pubkey;
          tr_dest_pub_key := ZERO_PUBKEY;
          tr_match_by := r.(tr_match_by);
          tr_conf_settings := Some confs;
          tr_base_protocol_info := r.(tr_base_protocol_info);
          tr_rel_protocol_info := r.(tr_rel_protocol_info);
          tr_swap_version := r.(tr_swap_version) |}.

(** The same for a reservation on its way to the taker. *)
Definition reserved_on_wire (m : MakerReserved) (sender_pubkey : H256Json) :
    option MakerReserved :=
  confs ← m.(mr_conf_settings);
  Some {| mr_base := m.(mr_base);
          mr_rel := m.(mr_rel);
          mr_base_amount := m.(mr_base_amount);
          mr_rel_amount := m.(mr_rel_amount);
          mr_taker_order_uuid := m.(mr_taker_order_uuid);
          mr_maker_order_uuid := m.(mr_maker_order_uuid);
          mr_sender_pubkey := sender_pubkey;
          mr_dest_pub_key := ZERO_PUBKEY;
          mr_conf_settings := Some confs;
          mr_base_protocol_info := m.(mr_base_protocol_info);
          mr_rel_protocol_info := m.(mr_rel_protocol_info);
          mr_swap_version := m.(mr_swap_version) |}.

(** The two orders are published on the same orderbook topic. *)
Definition same_topic (o : MakerOrder) (t : TakerOrder) : Prop :=
  match t.(to_request).(tr_action) with
  | Buy => mo_base_ticker o = to_base_ticker t ∧ mo_rel_ticker o = to_rel_ticker t
  | Sell => mo_base_ticker o = to_rel_ticker t ∧ mo_rel_ticker o = to_base_ticker t
  end.

(** The restrictions of a request are checked by the maker before matching. *)
Definition maker_may_match (r : TakerRequest) (uuid : Uuid) (maker_pubkey : H256Json) : bool :=
  can_match_with_maker_pubkey r maker_pubkey && can_match_with_uuid r uuid.

Lemma ticker_is_default a ob : ticker_is a ob (default a ob) = true.
Proof.
  unfold ticker_is. destruct ob; cbn.
  - by rewrite (bool_decide_eq_true_2 (Some _ = _)), orb_true_r.
  - by rewrite bool_decide_eq_true_2.
Qed.

(** a reservation an honest maker sends for a request it matched is one
    the taker accepts: the maker's arithmetic at its own price and the taker's
    check against its own limit agree on every match. *)
Theorem reservation_accepted t o r maker_id uuid base_coin rel_coin base rel reserved taker_id :
  request_on_wire t taker_id = Some r →
  maker_may_match r uuid maker_id = true →
  0 < o.(price) → match_with_request o r = Some (Matched base rel) →
  reserved_on_wire (reservation_for maker_id o uuid r base_coin rel_coin base rel) maker_id
    = Some reserved →
  same_topic o t →
  match_reserved t reserved = ReservedMatched.
Proof.
  unfold request_on_wire, reserved_on_wire, maker_may_match, can_match_with_maker_pubkey,
    can_match_with_uuid, same_topic, match_reserved.
  destruct (tr_conf_settings (to_request t)) as [s|]; [intros [= <-]|done]. cbn.
  intros Hm Hp. rewrite match_with_request_spec by done.
  case_bool_decide as Hc; [intros [= <- <-]|done].
  destruct Hc as (_ & Hb & Hr & _ & Hl).
  destruct (conf_settings o); cbn; intros [= <-] Htop; cbn.
  all: assert (match tr_match_by (to_request t) with
    | MatchAny => true | MatchOrders us => bool_decide (uuid ∈ us)
    | MatchPubkeys ps => bool_decide (maker_id ∈ ps) end = true) as ->
    by (destruct (tr_match_by (to_request t)); cbn in *;
        rewrite ?andb_true_r in Hm; congruence).
  all: unfold within_limit, asked_base in *; cbn in *;
    destruct (tr_action (to_request t)), Htop as [-> ->], Hl as [Hl1 Hl2];
    unfold to_base_ticker, to_rel_ticker; rewrite !ticker_is_default, ?Hl1; cbn;
    unfold mm_eq, mm_le; rewrite !bool_decide_eq_true_2 by done; done.
Qed.

(** C34: the two sides of a negotiated match derive the same lock time, each
    from its own copy of the messages and its own configuration of the coins. *)
Theorem lock_time_agreement t o r maker_id uuid base rel reserved taker_id
    m tm (maker_coin taker_coin maker_coin' taker_coin' : MmCoin) :
  request_on_wire t taker_id = Some r →
  m.(mm_request) = r →
  m.(mm_reserved) = reservation_for maker_id o uuid r maker_coin taker_coin base rel →
  reserved_on_wire m.(mm_reserved) maker_id = Some reserved →
  tm.(tm_reserved) = reserved →
  maker_coin.(ticker) = maker_coin'.(ticker) → taker_coin.(ticker) = taker_coin'.(ticker) →
  maker_lock_time o m maker_coin taker_coin = taker_lock_time t tm maker_coin' taker_coin'.
Proof.
  unfold request_on_wire, reserved_on_wire, maker_lock_time, taker_lock_time.
  destruct (tr_conf_settings (to_request t)) as [s|] eqn:Es; [intros [= <-]|done].
  intros -> ->. cbn. destruct (conf_settings o) as [ms|] eqn:Eo; cbn; intros [= <-] ->; cbn;
    intros -> ->; rewrite lp_atomic_locktime_v2_sym;
    unfold choose_maker_confs_and_notas, choose_taker_confs_and_notas; cbn; rewrite Es, ?Eo; destruct (tr_action (to_request t)); done.
Qed.

(** ** Conversion of a timed-out taker order *)

(** What a taker order gives and wants, in its own terms. *)
Definition gives (t : TakerOrder) : MmNumber :=
  match t.(to_request).(tr_action) with
  | Sell => t.(to_request).(tr_base_amount) | Buy => t.(to_request).(tr_rel_amount)
  end.
Definition wants (t : TakerOrder) : MmNumber :=
  match t.(to_request).(tr_action) with
  | Sell => t.(to_request).(tr_rel_amount) | Buy => t.(to_request).(tr_base_amount)
  end.

(** a taker order that becomes a maker order offers the same amount of the
    same coin for the same amount of the other, in the maker's "sell" form, and
    keeps its minimum as the same fraction of the whole. *)
Theorem maker_order_from_taker_preserves t now :
  0 < t.(to_request).(tr_base_amount) → 0 < t.(to_request).(tr_rel_amount) →
  ∃ o, maker_order_from_taker t now = Some o ∧
    0 < o.(price) ∧ o.(max_base_vol) = gives t ∧ o.(max_base_vol) * o.(price) = wants t ∧
    o.(mo_base) = taker_coin_ticker t ∧ o.(mo_rel) = maker_coin_ticker t ∧
    o.(min_base_vol) * t.(to_request).(tr_base_amount) = t.(to_min_volume) * o.(max_base_vol) ∧
    available_amount o = gives t.
Proof.
  intros Hb Hr. unfold maker_order_from_taker, gives, wants, taker_coin_ticker, maker_coin_ticker.
  assert (∀ o, mo_matches o = ∅ → available_amount o = max_base_vol o) as Hav.
  { intros o Ho. unfold available_amount, reserved_amount. rewrite Ho, map_fold_empty. ring. }
  destruct (tr_action (to_request t)).
  - rewrite mm_div_Some by (by apply Qc_pos_neq). cbn.
    rewrite mm_div_Some by (by apply Qc_pos_neq, Qc_div_pos). cbn.
    eexists; split; [done|]; cbn. split_and!; try done.
    + by apply Qc_div_pos.
    + by apply Qcmult_div_r, Qc_pos_neq.
    + rewrite <-(Qc_div_mul (tr_base_amount (to_request t)) (tr_rel_amount (to_request t))) at 2
        by by apply Qc_pos_neq.
      rewrite Qcmult_assoc, Qc_div_mul; [done|by apply Qc_pos_neq, Qc_div_pos].
    + by rewrite Hav.
  - rewrite mm_div_Some by (by apply Qc_pos_neq). cbn.
    eexists; split; [done|]; cbn. split_and!; try done.
    + by apply Qc_div_pos.
    + by apply Qcmult_div_r, Qc_pos_neq.
    + by rewrite Hav.
Qed.

(** ** A concrete negotiation

    A taker buys 10 KMD for at most 20 LTC from a maker that sells KMD at 3/2. *)
Module Sample.

Definition coin (ticker : string) : MmCoin := {|
  coin_fee := utxo_standard_coin ticker (big_rational 1 1000);
  min_trading_vol := big_rational 1 100;
  coin_protocol_info := [];
  is_coin_protocol_supported := λ _, true;
  required_confirmations := 1;
  coin_requires_notarization := false;
  is_untradable_coin := false;
  wallet_only := false;
  swap_key_disagreement := None
|}.

Definition kmd : MmCoin := coin "KMD".
Definition ltc : MmCoin := coin "LTC".
Definition maker_id : H256Json := replicate 32 Byte.x02.
Definition taker_id : H256Json := replicate 32 Byte.x03.
Definition confs : OrderConfirmationsSettings :=
  {| base_confs := 1; base_nota := true; rel_confs := 2; rel_nota := false |}.

Definition taker_builder : TakerOrderBuilder := {|
  tb_base_coin := kmd; tb_rel_coin := ltc;
  tb_base_orderbook_ticker := None; tb_rel_orderbook_ticker := Some "LTC-segwit"%string;
  tb_base_amount := big_rational 10 1; tb_rel_amount := big_rational 20 1;
  tb_sender_pubkey := taker_id; tb_action := Buy; tb_match_by := MatchAny;
  tb_order_type := GoodTillCancelled; tb_conf_settings := Some confs;
  tb_min_volume := None; tb_timeout := 30; tb_save_in_history := true;
  tb_swap_version := SwapVersion_default
|}.
Definition env (uuid : Uuid) : Fresh :=
  {| now_ms := 1000; new_uuid := uuid; random_keypair := [] |}.
Definition taker_order : TakerOrder := taker_order_of taker_builder (env 1) (big_rational 1 100).

Definition maker_builder : MakerOrderBuilder := {|
  mb_max_base_vol := big_rational 100 1; mb_min_base_vol := None;
  mb_price := big_rational 3 2; mb_base_coin := kmd; mb_rel_coin := ltc;
  mb_base_orderbook_ticker := None; mb_rel_orderbook_ticker := Some "LTC-segwit"%string;
  mb_conf_settings := Some (reversed (reversed confs)); mb_save_in_history := true;
  mb_timeout_in_minutes := None; mb_swap_version := SwapVersion_default
|}.
Definition maker_order : MakerOrder := maker_order_of maker_builder (env 2) (big_rational 1 100).

Definition request : TakerRequest :=
  default taker_order.(to_request) (request_on_wire taker_order taker_id).
Definition paid : MmNumber := request.(tr_base_amount) * maker_order.(price).
Definition reservation : MakerReserved :=
  reservation_for maker_id maker_order 2 request kmd ltc request.(tr_base_amount) paid.
Definition received : MakerReserved := default reservation (reserved_on_wire reservation maker_id).
Definition maker_match : MakerMatch :=
  {| mm_request := request; mm_reserved := reservation; mm_connect := None;
     mm_connected := None; mm_last_updated := 1000 |}.
Definition taker_match : TakerMatch :=
  {| tm_reserved := received;
     tm_connect := {| tc_taker_order_uuid := 1; tc_maker_order_uuid := 2;
                      tc_sender_pubkey := taker_id; tc_dest_pub_key := maker_id |};
     tm_connected := None; tm_last_updated := 1000 |}.

Lemma sample_matched : match_with_request maker_order request
  = Some (Matched request.(tr_base_amount) paid).
Proof. rewrite match_with_request_spec by done. by rewrite bool_decide_eq_true_2. Qed.

End Sample.

Lemma build_taker_order_spec_witness :
  taker_order_acceptable Sample.taker_builder.
Proof.
  pose proof (build_taker_order_spec Sample.taker_builder (Sample.env 1) eq_refl eq_refl) as H.
  destruct (build_taker_order Sample.taker_builder (Sample.env 1)) as [[o|e]|] eqn:E.
  - exact (proj1 H).
  - vm_compute in E. discriminate E.
  - destruct H.
Defined.

Lemma match_with_request_fair_witness :
  ∃ base rel, match_with_request Sample.maker_order Sample.request = Some (Matched base rel)
    ∧ rel ≤ Sample.request.(tr_rel_amount).
Proof.
  destruct (match_with_request_fair Sample.maker_order Sample.request eq_refl)
    as (res & Hres & H).
  rewrite Sample.sample_matched in Hres. injection Hres as <-.
  eexists _, _. split; [apply Sample.sample_matched|]. apply H.
Defined.

Lemma reservation_accepted_witness :
  match_reserved Sample.taker_order Sample.received = ReservedMatched.
Proof.
  apply (reservation_accepted Sample.taker_order Sample.maker_order Sample.request
    Sample.maker_id 2 Sample.kmd Sample.ltc Sample.request.(tr_base_amount) Sample.paid
    Sample.received Sample.taker_id); try reflexivity.
  split; reflexivity.
Defined.

Lemma lock_time_agreement_witness :
  maker_lock_time Sample.maker_order Sample.maker_match Sample.kmd Sample.ltc = 31200%Z
  ∧ taker_lock_time Sample.taker_order Sample.taker_match Sample.kmd Sample.ltc = 31200%Z.
Proof.
  split; [reflexivity|].
  rewrite <-(lock_time_agreement Sample.taker_order Sample.maker_order Sample.request
    Sample.maker_id 2 Sample.request.(tr_base_amount) Sample.paid
    Sample.received Sample.taker_id Sample.maker_match Sample.taker_match
    Sample.kmd Sample.ltc Sample.kmd Sample.ltc); reflexivity.
Defined.

Lemma maker_order_from_taker_preserves_witness :
  ∃ o, maker_order_from_taker Sample.taker_order 2000 = Some o
    ∧ o.(max_base_vol) * o.(price) = big_rational 10 1.
Proof.
  destruct (maker_order_from_taker_preserves Sample.taker_order 2000 eq_refl eq_refl)
    as (o & Ho & _ & _ & Hw & _).
  exists o. split; [exact Ho|exact Hw].
Defined.
