(* ===== verification/OrderMatch.v ===== *)
(** * The order-matching state machine

    [mm2_main/src/lp_ordermatch/ordermatch_trading.rs]: a node's own maker and
    taker orders, and every handler that changes them: the four negotiation
    messages, the periodic maintenance, the balance handler, the update and the
    cancellation of an order.  Each handler is an executable function of the
    state that returns the new state and what it sends or starts; [step] closes
    them over whatever the peers, the clock and the wallet supply, and the
    invariants are proved for every reachable state.

    A handler runs under the locks of the order it changes, so it is one step.
    Storage, the write gates and the publication queues keep copies of this
    state and are not modelled. *)

From Stdlib Require Import QArith Qcanon ZArith.
From S2P Require Import Prelude MmNumber NetConfig DexFee SwapCommon Orders.
From stdpp Require Import base tactics strings list numbers gmap sorting.

Local Open Scope Qc_scope.

Record OrdermatchContext := {
  maker_orders : gmap Uuid MakerOrder;
  my_taker_orders : gmap Uuid TakerOrder;
  pending_maker_reserved : gmap Uuid (list MakerReserved)
}.

(** What a handler reads of the node: its public key, its login, and the
    activated coins. *)
Record Node := {
  our_public_id : H256Json;
  key_ctx : KeyCtx;
  lp_coinfind : string → option MmCoin
}.

Definition find_pair (n : Node) (base rel : string) : option (MmCoin * MmCoin) :=
  b ← n.(lp_coinfind) base; r ← n.(lp_coinfind) rel; Some (b, r).

Inductive Output :=
| SendReserved (m : MakerReserved)
| SendConnect (c : TakerConnect)
| SendConnected (c : MakerConnected)
| SendUpdated (uuid : Uuid) (new_max_volume : MmNumber)
| SendCancelled (uuid : Uuid)
| SendCreated (uuid : Uuid)
| StartMakerSwap (m : MakerMatch) (o : MakerOrder)
| StartTakerSwap (o : TakerOrder) (m : TakerMatch).

Definition with_maker_orders (st : OrdermatchContext) (f : gmap Uuid MakerOrder → gmap Uuid MakerOrder) :
    OrdermatchContext :=
  {| maker_orders := f st.(maker_orders);
     my_taker_orders := st.(my_taker_orders);
     pending_maker_reserved := st.(pending_maker_reserved) |}.
Definition with_taker_orders (st : OrdermatchContext) (f : gmap Uuid TakerOrder → gmap Uuid TakerOrder) :
    OrdermatchContext :=
  {| maker_orders := st.(maker_orders);
     my_taker_orders := f st.(my_taker_orders);
     pending_maker_reserved := st.(pending_maker_reserved) |}.
Definition with_pending (st : OrdermatchContext)
    (f : gmap Uuid (list MakerReserved) → gmap Uuid (list MakerReserved)) : OrdermatchContext :=
  {| maker_orders := st.(maker_orders);
     my_taker_orders := st.(my_taker_orders);
     pending_maker_reserved := f st.(pending_maker_reserved) |}.

(** The fields of an order the handlers assign. *)
Definition update_order (o : MakerOrder) (max_vol min_vol new_price : MmNumber)
    (confs : option OrderConfirmationsSettings) (updated : option Z)
    (matches : gmap Uuid MakerMatch) (started : list Uuid) : MakerOrder := {|
  max_base_vol := max_vol;
  min_base_vol := min_vol;
  price := new_price;
  created_at := o.(created_at);
  updated_at := updated;
  mo_base := o.(mo_base);
  mo_rel := o.(mo_rel);
  mo_matches := matches;
  started_swaps := started;
  mo_uuid := o.(mo_uuid);
  conf_settings := confs;
  save_in_history := o.(save_in_history);
  base_orderbook_ticker := o.(base_orderbook_ticker);
  rel_orderbook_ticker := o.(rel_orderbook_ticker);
  p2p_privkey := o.(p2p_privkey);
  timeout_in_minutes := o.(timeout_in_minutes);
  mo_swap_version := o.(mo_swap_version)
|}.

Definition set_matches (o : MakerOrder) (matches : gmap Uuid MakerMatch) (started : list Uuid) :
    MakerOrder :=
  update_order o o.(max_base_vol) o.(min_base_vol) o.(price) o.(conf_settings)
    o.(updated_at) matches started.
Definition set_max_base_vol (o : MakerOrder) (v : MmNumber) : MakerOrder :=
  update_order o v o.(min_base_vol) o.(price) o.(conf_settings) o.(updated_at)
    o.(mo_matches) o.(started_swaps).

(** ** The maker's side *)

(** The body of [process_taker_request] once an order matched. *)
Definition reserve (n : Node) (st : OrdermatchContext) (uuid : Uuid) (o : MakerOrder)
    (req : TakerRequest) (base_amount rel_amount : MmNumber) (now : Z) :
    OrdermatchContext * list Output :=
  match find_pair n o.(mo_base) o.(mo_rel) with
  | None => (st, [])
  | Some (base_coin, rel_coin) =>
  match swap_key_mismatch n.(key_ctx) base_coin rel_coin with
  | Some _ => (with_maker_orders st (delete o.(mo_uuid)), [SendCancelled o.(mo_uuid)])
  | None =>
  let accepted :=
    negb (bool_decide (is_Some (o.(mo_matches) !! req.(tr_uuid))))
    && bool_decide (declining_coin_ticker base_coin rel_coin
         (base_protocol_info_for_maker req) (rel_protocol_info_for_maker req) = None) in
  if accepted then
    let reserved :=
      reservation_for n.(our_public_id) o uuid req base_coin rel_coin base_amount rel_amount in
    let m := {| mm_request := req; mm_reserved := reserved; mm_connect := None;
                mm_connected := None; mm_last_updated := now |} in
    let o' := set_matches o (<[req.(tr_uuid) := m]> o.(mo_matches)) o.(started_swaps) in
    (with_maker_orders st (<[uuid := o']>), [SendReserved reserved])
  else (st, [])
  end end.

(** The loop over the node's orders; [uuids] is the order the hash map yields
    them in. *)
Fixpoint request_loop (n : Node) (st : OrdermatchContext) (req : TakerRequest) (now : Z)
    (uuids : list Uuid) : option (OrdermatchContext * list Output) :=
  match uuids with
  | [] => Some (st, [])
  | uuid :: rest =>
      if can_match_with_uuid req uuid then
        match st.(maker_orders) !! uuid with
        | None => request_loop n st req now rest
        | Some o =>
            res ← match_with_request o req;
            match res with
            | Matched base_amount rel_amount =>
                Some (reserve n st uuid o req base_amount rel_amount now)
            | NotMatched => request_loop n st req now rest
            end
        end
      else request_loop n st req now rest
  end.

Definition process_taker_request (n : Node) (st : OrdermatchContext) (from_pubkey : H256Json)
    (req : TakerRequest) (now : Z) (uuids : list Uuid) :
    option (OrdermatchContext * list Output) :=
  if bool_decide (n.(our_public_id) = from_pubkey) then Some (st, [])
  else if negb (can_match_with_maker_pubkey req n.(our_public_id)) then Some (st, [])
  else request_loop n st req now uuids.

Definition process_taker_connect (n : Node) (st : OrdermatchContext) (sender_pubkey : H256Json)
    (connect_msg : TakerConnect) : OrdermatchContext * list Output :=
  if bool_decide (n.(our_public_id) = sender_pubkey) then (st, [])
  else match st.(maker_orders) !! connect_msg.(tc_maker_order_uuid) with
  | None => (st, [])
  | Some my_order =>
  match my_order.(mo_matches) !! connect_msg.(tc_taker_order_uuid) with
  | None => (st, [])
  | Some order_match =>
  if negb (bool_decide (order_match.(mm_request).(tr_sender_pubkey) = sender_pubkey)) then (st, [])
  else if bool_decide (order_match.(mm_connected) = None ∧ order_match.(mm_connect) = None) then
    let connected := {|
      mc_taker_order_uuid := connect_msg.(tc_taker_order_uuid);
      mc_maker_order_uuid := connect_msg.(tc_maker_order_uuid);
      mc_sender_pubkey := n.(our_public_id);
      mc_dest_pub_key := connect_msg.(tc_sender_pubkey) |} in
    let m := {| mm_request := order_match.(mm_request);
                mm_reserved := order_match.(mm_reserved);
                mm_connect := Some connect_msg;
                mm_connected := Some connected;
                mm_last_updated := order_match.(mm_last_updated) |} in
    let o' := set_matches my_order (<[connect_msg.(tc_taker_order_uuid) := m]> my_order.(mo_matches))
                (my_order.(started_swaps) ++ [order_match.(mm_request).(tr_uuid)]) in
    (with_maker_orders st (<[connect_msg.(tc_maker_order_uuid) := o']>),
     [StartMakerSwap m o'; SendConnected connected]
     ++ if o'.(min_base_vol) <=?q available_amount o'
        then [SendUpdated o'.(mo_uuid) (available_amount o')] else [])
  else (st, [])
  end end.

Definition ORDER_MATCH_TIMEOUT : Z := 30.

Definition keep_match (now : Z) (m : MakerMatch) : bool :=
  (now <? u64 (m.(mm_last_updated) + ORDER_MATCH_TIMEOUT * 1000))%Z
  || bool_decide (is_Some m.(mm_connected)).

Definition handle_timed_out_maker_matches (st : OrdermatchContext) (now : Z) : OrdermatchContext :=
  with_maker_orders st (fmap (λ o : MakerOrder,
    set_matches o (filter (λ p, keep_match now p.2 = true) o.(mo_matches)) o.(started_swaps))).

(** Orders the maintenance removes: what is left is below the minimum and no
    match is under way. *)
Definition exhausted (o : MakerOrder) : bool :=
  negb ((o.(min_base_vol) <=?q available_amount o) || has_ongoing_matches o).

Definition check_balance_for_maker_orders (st : OrdermatchContext) :
    OrdermatchContext * list Output :=
  (with_maker_orders st (filter (λ p, exhausted p.2 = false)),
   (λ p, SendCancelled p.2.(mo_uuid))
     <$> map_to_list (filter (λ p, exhausted p.2 = true) st.(maker_orders))).

(** [balance_updated] for one order of the coin, [new_volume] being what
    [calc_max_maker_vol] found, or 0 on an insufficient balance: the order that
    stays, if it does, and the announcement. *)
Definition balance_updated_order (new_volume : MmNumber) (o : MakerOrder) :
    option MakerOrder * list Output :=
  if new_volume <?q o.(min_base_vol) then (None, [SendCancelled o.(mo_uuid)])
  else if new_volume <?q available_amount o then
    let o' := set_max_base_vol o (reserved_amount o + new_volume) in
    (Some o', [SendUpdated o.(mo_uuid) (available_amount o')])
  else (Some o, []).

Definition balance_updated (st : OrdermatchContext) (coin : string) (new_volume : MmNumber) :
    OrdermatchContext * list Output :=
  let visit (o : MakerOrder) :=
    if negb (bool_decide (o.(mo_base) = coin)) then (Some o, [])
    else balance_updated_order new_volume o in
  (with_maker_orders st (omap (λ o, (visit o).1)),
   map_to_list st.(maker_orders) ≫= λ p, (visit p.2).2).

(** *** Update and cancellation *)

Record MakerOrderUpdateReq := {
  ur_uuid : Uuid;
  ur_new_price : option MmNumber;
  ur_max : option bool;
  ur_volume_delta : option MmNumber;
  ur_min_volume : option MmNumber;
  ur_base_confs : option Z;
  ur_base_nota : option bool;
  ur_rel_confs : option Z;
  ur_rel_nota : option bool
}.

(** What the wallet answers while an update is checked: the pre-trade spend
    check, the maximum volume, and the balance check of a given volume. *)
Record UpdateEnv := {
  pre_trade_spend_safe : MmCoin → MmCoin → MmNumber → MmNumber → bool;
  max_volume_now : option MmNumber;
  balance_covers : MmNumber → bool
}.

Inductive UpdateError :=
| NoSuchOrder | HasOngoingMatches | CoinsNotActive | SwapKeyMismatch
| BadPrice (e : MakerOrderBuildError) | BadMinVolume (e : MakerOrderBuildError)
| SpendUnsafe | MaxVolumeFailed | VolumeNotPositive | BalanceTooLow
| VolumeBelowReserved | BadMaxVolume (e : MakerOrderBuildError).

Definition volume_after_update (env : UpdateEnv) (req : MakerOrderUpdateReq)
    (original reserved : MmNumber) : result (MmNumber * option MmNumber) UpdateError :=
  if default false req.(ur_max) then
    match env.(max_volume_now) with
    | None => Err MaxVolumeFailed
    | Some v => let max_volume := v + reserved in Ok (max_volume, Some max_volume)
    end
  else match req.(ur_volume_delta) with
  | Some delta =>
      let volume := original + delta in
      if volume <=?q 0 then Err VolumeNotPositive
      else if negb (env.(balance_covers) volume) then Err BalanceTooLow
      else Ok (volume, Some volume)
  | None => Ok (original, None)
  end.

(** [apply_updated] with the message the update builds. *)
Definition apply_updated (o : MakerOrder) (new_price new_max new_min : option MmNumber)
    (confs : OrderConfirmationsSettings) (now : Z) : MakerOrder :=
  update_order o (default o.(max_base_vol) new_max) (default o.(min_base_vol) new_min)
    (default o.(price) new_price) (Some confs) (Some now) o.(mo_matches) o.(started_swaps).

(** The outer option is the panic of [conf_settings.unwrap()]. *)
Definition update_maker_order (n : Node) (env : UpdateEnv) (o : MakerOrder)
    (req : MakerOrderUpdateReq) (now : Z) : option (result MakerOrder UpdateError) :=
  if has_ongoing_matches o then Some (Err HasOngoingMatches)
  else match find_pair n o.(mo_base) o.(mo_rel) with
  | None => Some (Err CoinsNotActive)
  | Some (base_coin, rel_coin) =>
  match swap_key_mismatch n.(key_ctx) base_coin rel_coin with
  | Some _ => Some (Err SwapKeyMismatch)
  | None =>
  original ← o.(conf_settings);
  let confs := {|
    base_confs := default original.(base_confs) req.(ur_base_confs);
    base_nota := default original.(base_nota) req.(ur_base_nota);
    rel_confs := default original.(rel_confs) req.(ur_rel_confs);
    rel_nota := default original.(rel_nota) req.(ur_rel_nota) |} in
  let reserved := reserved_amount o in
  match (match req.(ur_new_price) with
         | Some p => validate_price p | None => Ok () end) with
  | Err e => Some (Err (BadPrice e))
  | Ok _ =>
  let new_price := default o.(price) req.(ur_new_price) in
  let min_base_amount := base_coin.(min_trading_vol) in
  let min_rel_amount := rel_coin.(min_trading_vol) in
  new_min ← match req.(ur_min_volume) with
            | Some v =>
                r ← validate_and_get_min_vol min_base_amount min_rel_amount (Some v) new_price;
                Some (match r with Ok v => Ok (Some v) | Err e => Err e end)
            | None => Some (Ok None)
            end;
  match new_min with
  | Err e => Some (Err (BadMinVolume e))
  | Ok new_min =>
  if negb (env.(pre_trade_spend_safe) base_coin rel_coin
             (default o.(min_base_vol) req.(ur_min_volume)) new_price)
  then Some (Err SpendUnsafe)
  else match volume_after_update env req o.(max_base_vol) reserved with
  | Err e => Some (Err e)
  | Ok (new_volume, new_max) =>
  if new_volume <=?q reserved then Some (Err VolumeBelowReserved)
  else match validate_max_vol min_base_amount min_rel_amount (new_volume - reserved)
               req.(ur_min_volume) new_price with
  | Err e => Some (Err (BadMaxVolume e))
  | Ok _ => Some (Ok (apply_updated o req.(ur_new_price) new_max new_min confs now))
  end end end end end end.

Inductive CancelOrderError := OrderBeingMatched | UUIDNotFound.

Definition cancel_order (st : OrdermatchContext) (uuid : Uuid) :
    result (OrdermatchContext * list Output) CancelOrderError :=
  match st.(maker_orders) !! uuid with
  | Some order =>
      if negb (maker_is_cancellable order) then Err OrderBeingMatched
      else Ok (with_maker_orders st (delete order.(mo_uuid)), [SendCancelled order.(mo_uuid)])
  | None =>
      match st.(my_taker_orders) !! uuid with
      | Some order =>
          if negb (taker_is_cancellable order) then Err UUIDNotFound
          else Ok (with_taker_orders st (delete uuid), [])
      | None => Err UUIDNotFound
      end
  end.

(** ** The taker's side *)

(** A reservation is queued; the first one queued for an order starts the
    selection pass three seconds later. *)
Definition process_maker_reserved (n : Node) (st : OrdermatchContext) (from_pubkey : H256Json)
    (msg : MakerReserved) : OrdermatchContext * bool :=
  let uuid := msg.(mr_taker_order_uuid) in
  if negb (bool_decide (is_Some (st.(my_taker_orders) !! uuid))) then (st, false)
  else if bool_decide (n.(our_public_id) = from_pubkey) then (st, false)
  else
    let pending := default [] (st.(pending_maker_reserved) !! uuid) ++ [msg] in
    (with_pending st (<[uuid := pending]>), bool_decide (length pending = 1%nat)).

(** The reservation a pass takes: the first, in the order of the sorted list,
    that matches the order and that both coins accept, unless the pair fails
    the key check. *)
Definition selectable (n : Node) (o : TakerOrder) (base_coin rel_coin : MmCoin)
    (msg : MakerReserved) : bool :=
  bool_decide (match_reserved o msg = ReservedMatched)
  && bool_decide (o.(to_matches) = ∅)
  && bool_decide (declining_coin_ticker base_coin rel_coin msg.(mr_base_protocol_info)
       msg.(mr_rel_protocol_info) = None)
  && bool_decide (swap_key_mismatch n.(key_ctx) base_coin rel_coin = None).

Definition set_taker_matches (o : TakerOrder) (matches : gmap Uuid TakerMatch) : TakerOrder := {|
  to_created_at := o.(to_created_at);
  to_request := o.(to_request);
  to_matches := matches;
  to_min_volume := o.(to_min_volume);
  to_order_type := o.(to_order_type);
  to_timeout := o.(to_timeout);
  to_save_in_history := o.(to_save_in_history);
  to_base_orderbook_ticker := o.(to_base_orderbook_ticker);
  to_rel_orderbook_ticker := o.(to_rel_orderbook_ticker);
  to_p2p_privkey := o.(to_p2p_privkey)
|}.

(** Sorting evaluates the price of the messages as soon as there are two. *)
Definition sort_panics (msgs : list MakerReserved) : bool :=
  (2 <=? length msgs)%nat && existsb (λ m, bool_decide (mr_price m = None)) msgs.

(** The pass; [sorted] is the queue as [sort_unstable_by_key] leaves it. *)
Definition reserved_pass (n : Node) (st : OrdermatchContext) (uuid : Uuid) (now : Z)
    (sorted : list MakerReserved) : option (OrdermatchContext * list Output) :=
  match st.(my_taker_orders) !! uuid with
  | None => Some (st, [])
  | Some my_order =>
  match find_pair n (maker_coin_ticker my_order) (taker_coin_ticker my_order) with
  | None => Some (st, [])
  | Some (base_coin, rel_coin) =>
  match st.(pending_maker_reserved) !! uuid with
  | None => Some (st, [])
  | Some pending =>
  if sort_panics pending then None
  else
  let st := with_pending st (delete uuid) in
  match list_find (λ m, selectable n my_order base_coin rel_coin m = true) sorted with
  | None => Some (st, [])
  | Some (_, msg) =>
      let connect := {| tc_taker_order_uuid := msg.(mr_taker_order_uuid);
                        tc_maker_order_uuid := msg.(mr_maker_order_uuid);
                        tc_sender_pubkey := n.(our_public_id);
                        tc_dest_pub_key := msg.(mr_sender_pubkey) |} in
      let m := {| tm_reserved := msg; tm_connect := connect; tm_connected := None;
                  tm_last_updated := now |} in
      let o' := set_taker_matches my_order
                  (<[msg.(mr_maker_order_uuid) := m]> my_order.(to_matches)) in
      Some (with_taker_orders st (<[uuid := o']>), [SendConnect connect])
  end end end end.

Definition process_maker_connected (n : Node) (st : OrdermatchContext) (from_pubkey : H256Json)
    (connected : MakerConnected) : OrdermatchContext * list Output :=
  if bool_decide (n.(our_public_id) = from_pubkey) then (st, [])
  else match st.(my_taker_orders) !! connected.(mc_taker_order_uuid) with
  | None => (st, [])
  | Some order =>
  match order.(to_matches) !! connected.(mc_maker_order_uuid) with
  | None => (st, [])
  | Some order_match =>
  if negb (bool_decide (order_match.(tm_reserved).(mr_sender_pubkey) = from_pubkey)) then (st, [])
  else (with_taker_orders st (delete connected.(mc_taker_order_uuid)),
        [StartTakerSwap order order_match])
  end end.

(** [handle_timed_out_taker_orders] for one order: kept, deleted, or turned
    into a maker order. *)
Inductive TakerFate := Keep | Drop | ToMaker (o : MakerOrder).

Definition taker_fate (now : Z) (order : TakerOrder) : option TakerFate :=
  if (now <=? u64 (order.(to_created_at) + u64 (order.(to_timeout) * 1000)))%Z then Some Keep
  else if negb (bool_decide (order.(to_matches) = ∅))
          || match order.(to_order_type) with GoodTillCancelled => false | _ => true end
  then Some Drop
  else o ← maker_order_from_taker order now; Some (ToMaker o).

Definition handle_timed_out_taker_order (n : Node) (st : OrdermatchContext) (uuid : Uuid)
    (now : Z) : option (OrdermatchContext * list Output) :=
  match st.(my_taker_orders) !! uuid with
  | None => Some (st, [])
  | Some order =>
      fate ← taker_fate now order;
      Some match fate with
      | Keep => (st, [])
      | Drop => (with_taker_orders st (delete uuid), [])
      | ToMaker o => (with_maker_orders (with_taker_orders st (delete uuid))
                        (<[o.(mo_uuid) := o]>),
                      match find_pair n o.(mo_base) o.(mo_rel) with
                      | Some _ => [SendCreated o.(mo_uuid)]
                      | None => []
                      end)
      end
  end.

(** ** Executions *)

(** Every activated coin has a positive minimum trading volume. *)
Definition node_ok (n : Node) : Prop :=
  ∀ t c, n.(lp_coinfind) t = Some c → 0 < c.(min_trading_vol).

Definition empty_context : OrdermatchContext :=
  {| maker_orders := ∅; my_taker_orders := ∅; pending_maker_reserved := ∅ |}.

Inductive step : OrdermatchContext → OrdermatchContext → list Output → Prop :=
| StepTakerRequest n st from req now uuids st' out :
    process_taker_request n st from req now uuids = Some (st', out) → step st st' out
| StepTakerConnect n st sender msg st' out :
    process_taker_connect n st sender msg = (st', out) → step st st' out
| StepMatchTimeout st now :
    step st (handle_timed_out_maker_matches st now) []
| StepCheckBalance st st' out :
    check_balance_for_maker_orders st = (st', out) → step st st' out
| StepBalanceUpdated st coin v st' out :
    0 ≤ v → balance_updated st coin v = (st', out) → step st st' out
| StepUpdate n env st uuid o req now o' :
    node_ok n → st.(maker_orders) !! uuid = Some o →
    update_maker_order n env o req now = Some (Ok o') →
    step st (with_maker_orders st (<[uuid := o']>)) [SendUpdated uuid (available_amount o')]
| StepCancel st uuid st' out :
    cancel_order st uuid = Ok (st', out) → step st st' out
| StepCreateMaker st b env o :
    0 < b.(mb_base_coin).(min_trading_vol) → 0 < b.(mb_rel_coin).(min_trading_vol) →
    build_maker_order b env = Some (Ok o) →
    step st (with_maker_orders st (<[o.(mo_uuid) := o]>)) [SendCreated o.(mo_uuid)]
| StepCreateTaker st b env o :
    0 < b.(tb_base_coin).(min_trading_vol) → 0 < b.(tb_rel_coin).(min_trading_vol) →
    build_taker_order b env = Some (Ok o) →
    step st (with_taker_orders st (<[o.(to_request).(tr_uuid) := o]>)) []
| StepReserved n st from msg st' starts :
    process_maker_reserved n st from msg = (st', starts) → step st st' []
| StepReservedPass n st uuid now pending sorted st' out :
    st.(pending_maker_reserved) !! uuid = Some pending → sorted ≡ₚ pending →
    reserved_pass n st uuid now sorted = Some (st', out) → step st st' out
| StepConnected n st from msg st' out :
    process_maker_connected n st from msg = (st', out) → step st st' out
| StepTakerTimeout n st uuid now st' out :
    handle_timed_out_taker_order n st uuid now = Some (st', out) → step st st' out.

Inductive reachable : OrdermatchContext → Prop :=
| reach_start : reachable empty_context
| reach_step st st' out : reachable st → step st st' out → reachable st'.

(** ** Invariants *)

Record maker_order_inv (uuid : Uuid) (o : MakerOrder) : Prop := {
  moi_uuid : o.(mo_uuid) = uuid;
  moi_price : 0 < o.(price);
  moi_min : 0 ≤ o.(min_base_vol);
  moi_reserved : reserved_amount o ≤ o.(max_base_vol);
  moi_match k m : o.(mo_matches) !! k = Some m →
    0 < m.(mm_reserved).(mr_base_amount) ∧ m.(mm_request).(tr_uuid) = k;
  moi_started : NoDup o.(started_swaps);
  moi_connected u : u ∈ o.(started_swaps) →
    ∃ m, o.(mo_matches) !! u = Some m ∧ is_Some m.(mm_connected)
}.

Record taker_order_inv (uuid : Uuid) (o : TakerOrder) : Prop := {
  toi_uuid : o.(to_request).(tr_uuid) = uuid;
  toi_base : 0 < o.(to_request).(tr_base_amount);
  toi_rel : 0 < o.(to_request).(tr_rel_amount);
  toi_min : 0 ≤ o.(to_min_volume);
  toi_matches : o.(to_matches) = ∅ ∨
    ∃ m, o.(to_matches) = {[ m.(tm_reserved).(mr_maker_order_uuid) := m ]}
      ∧ match_reserved o m.(tm_reserved) = ReservedMatched
}.

Definition context_inv (st : OrdermatchContext) : Prop :=
  map_Forall maker_order_inv st.(maker_orders) ∧
  map_Forall taker_order_inv st.(my_taker_orders).

(** *** The reserved amount *)

Definition reserved_of (ms : gmap Uuid MakerMatch) : MmNumber :=
  map_fold (λ _ m reserved, reserved + m.(mm_reserved).(mr_base_amount)) 0 ms.

Lemma reserved_of_insert ms k m :
  ms !! k = None → reserved_of (<[k:=m]> ms) = reserved_of ms + m.(mm_reserved).(mr_base_amount).
Proof.
  intros Hk. unfold reserved_of. rewrite map_fold_insert_L; [done| |done].
  intros. ring.
Qed.

Lemma reserved_of_delete ms k m :
  ms !! k = Some m → reserved_of ms = reserved_of (delete k ms) + m.(mm_reserved).(mr_base_amount).
Proof.
  intros Hk. rewrite <-(insert_delete_id ms k m) at 1 by done.
  apply reserved_of_insert, lookup_delete_eq.
Qed.

(** Replacing a match by one with the same amount changes nothing. *)
Lemma reserved_of_replace ms k m m' :
  ms !! k = Some m → m'.(mm_reserved) = m.(mm_reserved) →
  reserved_of (<[k:=m']> ms) = reserved_of ms.
Proof.
  intros Hk Hm. rewrite <-insert_delete_eq, reserved_of_insert by apply lookup_delete_eq.
  by rewrite (reserved_of_delete ms k m), Hm.
Qed.

Lemma reserved_of_nonneg ms :
  map_Forall (λ _ m, 0 ≤ m.(mm_reserved).(mr_base_amount)) ms → 0 ≤ reserved_of ms.
Proof.
  induction ms as [|k m ms Hk IH] using map_ind; [done|].
  rewrite map_Forall_insert, reserved_of_insert by done. intros [? ?%IH]. qc.
Qed.

Lemma reserved_of_filter (P : Uuid * MakerMatch → Prop) `{!∀ x, Decision (P x)} ms :
  map_Forall (λ _ m, 0 ≤ m.(mm_reserved).(mr_base_amount)) ms →
  reserved_of (filter P ms) ≤ reserved_of ms.
Proof.
  induction ms as [|k m ms Hk IH] using map_ind; intros Hf.
  { rewrite map_filter_empty. apply Qcle_refl. }
  apply map_Forall_insert in Hf as [Hm Hf]; [|done].
  rewrite map_filter_insert, (reserved_of_insert ms) by done. specialize (IH Hf).
  case_decide.
  - rewrite reserved_of_insert by (by apply map_lookup_filter_None; left). qc.
  - rewrite delete_id by done. qc.
Qed.

(** *** Maker orders *)

Lemma maker_inv_amounts uuid o :
  maker_order_inv uuid o →
  map_Forall (λ _ m, 0 ≤ m.(mm_reserved).(mr_base_amount)) o.(mo_matches).
Proof. intros [] k m Hk. apply Qclt_le_weak. by eapply moi_match0. Qed.

(** A fresh match within the available amount. *)
Lemma maker_inv_reserve uuid o k m :
  maker_order_inv uuid o → o.(mo_matches) !! k = None →
  0 < m.(mm_reserved).(mr_base_amount) ≤ available_amount o → m.(mm_request).(tr_uuid) = k →
  maker_order_inv uuid (set_matches o (<[k:=m]> o.(mo_matches)) o.(started_swaps)).
Proof.
  intros [] Hk [Hpos Hav] Hu. split; cbn; try done.
  - unfold reserved_amount. cbn. change (reserved_of (<[k:=m]> (mo_matches o)) ≤ max_base_vol o).
    rewrite reserved_of_insert by done.
    unfold available_amount in Hav. change (reserved_amount o) with (reserved_of (mo_matches o)) in Hav.
    qc.
  - intros k' m' [[<- <-]|[? ?]]%lookup_insert_Some; [done|by eapply moi_match0].
  - intros u Hin. destruct (moi_connected0 u Hin) as (m' & Hm' & ?). exists m'. split; [|done].
    rewrite lookup_insert_ne; [done|]. intros ->. congruence.
Qed.

(** A match gets connected. *)
Lemma maker_inv_connect uuid o k m m' :
  maker_order_inv uuid o → o.(mo_matches) !! k = Some m → m.(mm_connected) = None →
  m'.(mm_reserved) = m.(mm_reserved) → m'.(mm_request) = m.(mm_request) →
  is_Some m'.(mm_connected) →
  maker_order_inv uuid
    (set_matches o (<[k:=m']> o.(mo_matches)) (o.(started_swaps) ++ [m.(mm_request).(tr_uuid)])).
Proof.
  intros [] Hk Hc Hr Hq Hs. destruct (moi_match0 k m Hk) as [Hpos <-].
  split; cbn; try done.
  - unfold reserved_amount. cbn. change (reserved_of (<[tr_uuid (mm_request m):=m']> (mo_matches o)) ≤ max_base_vol o).
    by rewrite (reserved_of_replace _ _ m) by done.
  - intros k' m'' [[<- <-]|[? ?]]%lookup_insert_Some; [by rewrite Hr, Hq|by eapply moi_match0].
  - apply NoDup_app. split_and!; [done| |apply NoDup_singleton].
    intros u Hu ->%list_elem_of_singleton. destruct (moi_connected0 _ Hu) as (m'' & ? & [? ?]).
    congruence.
  - intros u [Hu| ->%list_elem_of_singleton]%elem_of_app; [|by exists m'; rewrite lookup_insert_eq].
    destruct (decide (u = tr_uuid (mm_request m))) as [->|]; [by exists m'; rewrite lookup_insert_eq|].
    rewrite lookup_insert_ne by done. by apply moi_connected0.
Qed.

(** Timed-out matches are dropped; connected ones stay. *)
Lemma maker_inv_retain uuid o now :
  maker_order_inv uuid o →
  maker_order_inv uuid
    (set_matches o (filter (λ p, keep_match now p.2 = true) o.(mo_matches)) o.(started_swaps)).
Proof.
  intros Hinv. pose proof (maker_inv_amounts _ _ Hinv) as Ham. destruct Hinv. split; cbn; try done.
  - eapply Qcle_trans; [|exact moi_reserved0]. by apply (reserved_of_filter _ (mo_matches o)).
  - intros k m [? ?]%map_lookup_filter_Some. by eapply moi_match0.
  - intros u Hu. destruct (moi_connected0 u Hu) as (m & Hm & Hc). exists m. split; [|done].
    apply map_lookup_filter_Some. split; [done|]. cbn. unfold keep_match.
    by rewrite (bool_decide_eq_true_2 (is_Some _)), orb_true_r.
Qed.

(** Volume, price and minimum change, matches stay. *)
Lemma maker_inv_update uuid o v mn p confs upd :
  maker_order_inv uuid o → 0 < p → 0 ≤ mn → reserved_amount o ≤ v →
  maker_order_inv uuid (update_order o v mn p confs upd o.(mo_matches) o.(started_swaps)).
Proof. intros [] ? ? ?. by split. Qed.

Lemma maker_inv_balance uuid o v o' out :
  maker_order_inv uuid o → 0 ≤ v → balance_updated_order v o = (Some o', out) →
  maker_order_inv uuid o'.
Proof.
  intros Hinv Hv. unfold balance_updated_order. destruct (v <?q _) eqn:E1; [done|].
  destruct (v <?q available_amount o) eqn:E2; intros [= <- <-]; [|done].
  apply maker_inv_update; try done; try apply Hinv. qc.
Qed.

Lemma volume_after_update_spec env req original reserved v new_max :
  volume_after_update env req original reserved = Ok (v, new_max) → default original new_max = v.
Proof.
  unfold volume_after_update. repeat case_match; intros [= <- <-]; done.
Qed.

Lemma maker_inv_update_req n env uuid o req now o' :
  node_ok n → maker_order_inv uuid o → update_maker_order n env o req now = Some (Ok o') →
  maker_order_inv uuid o'.
Proof.
  intros Hn Hinv. unfold update_maker_order.
  destruct (has_ongoing_matches o); [done|].
  destruct (find_pair n (mo_base o) (mo_rel o)) as [[base_coin rel_coin]|] eqn:Ef; [|done].
  assert (0 < min_trading_vol base_coin) as Hb.
  { unfold find_pair in Ef. simplify_option_eq. by eapply Hn. }
  destruct (swap_key_mismatch _ _ _); [done|].
  destruct (conf_settings o) as [s|]; cbn; [|done].
  set (p := default (price o) (ur_new_price req)).
  assert (match ur_new_price req with Some p => validate_price p | None => Ok () end = Ok () → 0 < p) as Hp.
  { unfold p. destruct (ur_new_price req) as [q|]; cbn; [|intros; apply Hinv].
    pose proof (validate_price_spec q). intros Hq. rewrite Hq in *. naive_solver. }
  destruct (match ur_new_price req with Some p => validate_price p | None => Ok () end) as [[]|]; [|done].
  specialize (Hp eq_refl).
  assert (∀ nm, match ur_min_volume req with
    | Some v => r ← validate_and_get_min_vol (min_trading_vol base_coin) (min_trading_vol rel_coin) (Some v) p;
        Some (match r with Ok v => Ok (Some v) | Err e => Err e end)
    | None => Some (Ok None) end = Some (Ok nm) → 0 ≤ default (min_base_vol o) nm) as Hmin.
  { intros nm. destruct (ur_min_volume req) as [v|]; [|intros [= <-]; apply Hinv].
    destruct (validate_and_get_min_vol_spec base_coin rel_coin (Some v) p Hp) as ([v'|] & -> & Hv);
      cbn; [intros [= <-]|done].
    destruct Hv as [-> Hv]. cbn in *.
    pose proof (mm_max_ge_l (min_trading_vol base_coin) (min_trading_vol rel_coin / p)).
    unfold min_vol_threshold in Hv. qc. }
  destruct (match ur_min_volume req with Some _ => _ | None => _ end) as [[nm|]|]; cbn; try done.
  specialize (Hmin nm eq_refl). destruct (pre_trade_spend_safe _ _ _ _ _); cbn; [|done].
  destruct (volume_after_update env req (max_base_vol o) (reserved_amount o)) as [[v new_max]|] eqn:Ev; [|done].
  destruct (v <=?q reserved_amount o) eqn:Er; [done|].
  destruct (validate_max_vol _ _ _ _ _); [|done]. intros [= <-].
  apply volume_after_update_spec in Ev. apply maker_inv_update; try done. rewrite Ev. qc.
Qed.

Lemma reserved_amount_empty o : o.(mo_matches) = ∅ → reserved_amount o = 0.
Proof. intros Ho. unfold reserved_amount. by rewrite Ho, map_fold_empty. Qed.

Lemma maker_inv_build b env o :
  0 < b.(mb_base_coin).(min_trading_vol) →
  build_maker_order b env = Some (Ok o) → maker_order_inv o.(mo_uuid) o.
Proof.
  intros Hb H. destruct (build_maker_order_acceptable b env o H) as ((_&_&_&Hp&Ht&Hm) & ->).
  pose proof MIN_PRICE_pos as Hpos.
  pose proof (mm_max_ge_l (min_trading_vol (mb_base_coin b))
    (min_trading_vol (mb_rel_coin b) / mb_price b)) as Hl.
  unfold min_vol_threshold in *. split; cbn; try done; try qc.
  - rewrite reserved_amount_empty by done. qc.
  - constructor.
  - by intros ? ?%elem_of_nil.
Qed.

Lemma taker_inv_build b env o :
  0 < b.(tb_base_coin).(min_trading_vol) → 0 < b.(tb_rel_coin).(min_trading_vol) →
  build_taker_order b env = Some (Ok o) → taker_order_inv o.(to_request).(tr_uuid) o.
Proof.
  intros Hb Hr H. destruct (build_taker_order_acceptable b env o Hb Hr H) as ((_&_&?&_&_&?&Ht&_) & ->).
  pose proof (mm_max_ge_l (min_trading_vol (tb_base_coin b))
    (min_trading_vol (tb_rel_coin b) / (tb_rel_amount b / tb_base_amount b))) as Hl.
  unfold min_vol_threshold in *. split; cbn; try done; try qc. by left.
Qed.

Lemma maker_inv_from_taker uuid t now o :
  taker_order_inv uuid t → maker_order_from_taker t now = Some o → maker_order_inv o.(mo_uuid) o.
Proof.
  intros [] H. unfold maker_order_from_taker in H.
  destruct (tr_action (to_request t)); rewrite mm_div_Some in H by (by apply Qc_pos_neq); cbn in H.
  - rewrite mm_div_Some in H by (by apply Qc_pos_neq, Qc_div_pos). cbn in H. injection H as <-.
    split; cbn; try done.
    + by apply Qc_div_pos.
    + by apply Qc_div_nonneg, Qc_div_pos.
    + rewrite reserved_amount_empty by done. qc.
    + constructor.
    + by intros ? ?%elem_of_nil.
  - injection H as <-. split; cbn; try done.
    + by apply Qc_div_pos.
    + rewrite reserved_amount_empty by done. qc.
    + constructor.
    + by intros ? ?%elem_of_nil.
Qed.

Lemma match_reserved_set_matches o ms r :
  match_reserved (set_taker_matches o ms) r = match_reserved o r.
Proof. done. Qed.

Lemma selectable_spec n o bc rc m :
  selectable n o bc rc m = true → match_reserved o m = ReservedMatched ∧ o.(to_matches) = ∅.
Proof.
  unfold selectable. rewrite !andb_true_iff, !bool_decide_eq_true. naive_solver.
Qed.

Lemma taker_inv_select uuid o m :
  taker_order_inv uuid o → match_reserved o m.(tm_reserved) = ReservedMatched →
  o.(to_matches) = ∅ →
  taker_order_inv uuid
    (set_taker_matches o (<[m.(tm_reserved).(mr_maker_order_uuid) := m]> o.(to_matches))).
Proof.
  intros [] Hm He. split; cbn; try done. right. exists m. by rewrite He, insert_empty.
Qed.

(** *** Steps *)

Lemma request_loop_inv n st req now uuids :
  context_inv st →
  ∃ st' out, request_loop n st req now uuids = Some (st', out) ∧ context_inv st'.
Proof.
  intros Hinv. induction uuids as [|u us IH]; cbn; [by eauto|].
  destruct (can_match_with_uuid req u); [|done].
  destruct (maker_orders st !! u) as [o|] eqn:Eo; [|done].
  destruct Hinv as [Hm Ht]. pose proof (Hm u o Eo) as Ho.
  rewrite match_with_request_spec by apply Ho. cbn. case_bool_decide as Hc; [|done].
  unfold reserve. eexists _, _. split; [by rewrite <-surjective_pairing|].
  destruct (find_pair _ _ _) as [[bc rc]|]; [|done].
  destruct (swap_key_mismatch _ _ _).
  { split; [|done]. by apply map_Forall_delete. }
  case_match eqn:Eacc; [|done]. split; [|done]. cbn.
  apply map_Forall_insert_2; [|done].
  apply andb_true_iff in Eacc as [Eacc _].
  apply negb_true_iff, bool_decide_eq_false, eq_None_not_Some in Eacc.
  apply maker_inv_reserve; try done; cbn. destruct Hc as (_ & Hb & _ & Hv & _).
  split; [|apply Hv]. unfold asked_base. destruct (tr_action req); [done|].
  apply Qc_div_pos; [done|apply Ho].
Qed.

Lemma map_Forall_omap_2 {A B} (P : Uuid → A → Prop) (Q : Uuid → B → Prop) (f : A → option B)
    (m : gmap Uuid A) :
  map_Forall P m → (∀ k a b, P k a → f a = Some b → Q k b) → map_Forall Q (omap f m).
Proof. intros Hm Hf k b (a & ? & ?)%lookup_omap_Some. naive_solver. Qed.

Lemma taker_connect_inv n st sender msg st' out :
  context_inv st → process_taker_connect n st sender msg = (st', out) → context_inv st'.
Proof.
  intros [Hm Ht]. unfold process_taker_connect.
  case_bool_decide; [by intros [= <- <-]|].
  destruct (maker_orders st !! _) as [o|] eqn:Eo; [|by intros [= <- <-]].
  destruct (mo_matches o !! _) as [m|] eqn:Em; [|by intros [= <- <-]].
  destruct (negb _); [by intros [= <- <-]|].
  case_bool_decide as Hn; [|by intros [= <- <-]].
  intros [= <- <-]. split; [|done]. apply map_Forall_insert_2; [|done].
  eapply maker_inv_connect; naive_solver.
Qed.

Lemma reserved_pass_inv n st uuid now sorted st' out :
  context_inv st → reserved_pass n st uuid now sorted = Some (st', out) → context_inv st'.
Proof.
  intros [Hm Ht]. unfold reserved_pass.
  destruct (my_taker_orders st !! uuid) as [o|] eqn:Eo; [|by intros [= <- <-]].
  destruct (find_pair _ _ _) as [[bc rc]|]; [|by intros [= <- <-]].
  destruct (pending_maker_reserved st !! uuid); [|by intros [= <- <-]].
  destruct (sort_panics _); [done|].
  destruct (list_find _ _) as [[i msg]|] eqn:Ef; [|by intros [= <- <-]].
  apply list_find_Some in Ef as (_ & [Hsel He]%selectable_spec & _).
  intros [= <- <-]. split; [done|]. apply map_Forall_insert_2; [|done].
  by eapply (taker_inv_select uuid o {| tm_reserved := msg |}); [by eapply Ht|..].
Qed.

Lemma taker_timeout_inv n st uuid now st' out :
  context_inv st → handle_timed_out_taker_order n st uuid now = Some (st', out) → context_inv st'.
Proof.
  intros [Hm Ht]. unfold handle_timed_out_taker_order, taker_fate.
  destruct (my_taker_orders st !! uuid) as [o|] eqn:Eo; [|by intros [= <- <-]].
  destruct (_ <=? _)%Z; cbn; [by intros [= <- <-]|].
  destruct (_ || _); cbn.
  { intros [= <- <-]. split; [done|]. by apply map_Forall_delete. }
  destruct (maker_order_from_taker o now) as [mo|] eqn:Emo; [|done].
  intros [= <- <-]. split; [|by apply map_Forall_delete].
  apply map_Forall_insert_2; [|done]. eapply maker_inv_from_taker; [by eapply Ht|done].
Qed.

Lemma step_inv st st' out : context_inv st → step st st' out → context_inv st'.
Proof.
  intros [Hm Ht] Hs. destruct Hs as
    [n st from req now uuids st' out H|n st sender msg st' out H|st now|st st' out H
    |st coin v st' out Hv H|n env st uuid o req now o' Hn Ho H|st uuid st' out H
    |st b env o Hb Hr H|st b env o Hb Hr H|n st from msg st' b H
    |n st uuid now p sorted st' out Hp Hs H|n st from msg st' out H|n st uuid now st' out H].
  - unfold process_taker_request in H. repeat (case_match; [by simplify_eq|]).
    destruct (request_loop_inv n st req now uuids) as (?&?&?&?); [done|congruence].
  - by eapply taker_connect_inv.
  - split; [|done]. cbn. intros k o (o' & <- & Ho)%lookup_fmap_Some. by apply maker_inv_retain, Hm.
  - injection H as <- _. split; [|done]. cbn. intros k o [? _]%map_lookup_filter_Some. by apply Hm.
  - injection H as <- _. split; [|done]. cbn. apply (map_Forall_omap_2 maker_order_inv); [done|].
    intros k o o' Hk. case_match; cbn; [by intros [= <-]|].
    destruct (balance_updated_order v o) as [oo out'] eqn:E. cbn. intros ->.
    by eapply maker_inv_balance.
  - split; [|done]. apply map_Forall_insert_2; [|done].
    eapply maker_inv_update_req; [done|by apply Hm|done].
  - unfold cancel_order in H. repeat case_match; simplify_eq;
      split; cbn; first [done | by apply map_Forall_delete].
  - split; [|done]. apply map_Forall_insert_2; [|done]. by eapply maker_inv_build.
  - split; [done|]. apply map_Forall_insert_2; [|done]. by eapply taker_inv_build.
  - unfold process_maker_reserved in H. repeat case_match; by simplify_eq.
  - by eapply reserved_pass_inv.
  - unfold process_maker_connected in H. repeat case_match; simplify_eq; try done.
    split; [done|]. by apply map_Forall_delete.
  - by eapply taker_timeout_inv.
Qed.

Lemma reachable_inv st : reachable st → context_inv st.
Proof.
  induction 1; [split; apply map_Forall_empty|]. by eapply step_inv.
Qed.

(** ** Properties *)

(** C7: whatever the peers, the clock and the wallet do, an own maker order is
    never promised to takers beyond its volume: the amounts of its matches are
    positive and their sum stays within the maximum. *)
Theorem never_oversubscribed st uuid o :
  reachable st → st.(maker_orders) !! uuid = Some o →
  0 ≤ reserved_amount o ≤ o.(max_base_vol) ∧
  map_Forall (λ _ m, 0 < m.(mm_reserved).(mr_base_amount)) o.(mo_matches).
Proof.
  intros Hr Ho. destruct (reachable_inv st Hr) as [Hm _]. specialize (Hm _ _ Ho).
  split; [split|].
  - apply (reserved_of_nonneg (mo_matches o)). by eapply maker_inv_amounts.
  - apply Hm.
  - intros k m Hk. by eapply Hm.
Qed.

(** no message of a peer and no timeout makes the order code divide by
    zero: a request is processed and a timed-out taker order converted in every
    reachable state. *)
Theorem negotiation_never_panics n st from req now uuids uuid :
  reachable st →
  (∃ st' out, process_taker_request n st from req now uuids = Some (st', out)) ∧
  (∃ st' out, handle_timed_out_taker_order n st uuid now = Some (st', out)).
Proof.
  intros Hr. pose proof (reachable_inv st Hr) as Hinv. split.
  - unfold process_taker_request. repeat (case_match; [by eauto|]).
    destruct (request_loop_inv n st req now uuids Hinv) as (st' & out & ? & _). eauto.
  - unfold handle_timed_out_taker_order, taker_fate.
    destruct (my_taker_orders st !! uuid) as [t|] eqn:Et; [|by eauto].
    repeat (case_match; [by cbn; eauto|]). destruct Hinv as [_ Ht].
    destruct (Ht _ _ Et). unfold maker_order_from_taker.
    destruct (tr_action (to_request t)); rewrite mm_div_Some by (by apply Qc_pos_neq); cbn.
    + rewrite mm_div_Some by (by apply Qc_pos_neq, Qc_div_pos). cbn. eauto.
    + eauto.
Qed.

(** a taker order is committed to at most one maker, whose reservation is
    within the taker's own terms. *)
Theorem taker_commits_once st uuid t k m :
  reachable st → st.(my_taker_orders) !! uuid = Some t → t.(to_matches) !! k = Some m →
  t.(to_matches) = {[ k := m ]} ∧ match_reserved t m.(tm_reserved) = ReservedMatched.
Proof.
  intros Hr Ht Hk. destruct (reachable_inv st Hr) as [_ Hi].
  destruct (Hi _ _ Ht) as [_ _ _ _ [He|(m' & He & Hm)]].
  - rewrite He in Hk. by rewrite lookup_empty in Hk.
  - rewrite He in Hk. apply lookup_singleton_Some in Hk as [<- <-]. done.
Qed.

(** a maker swap is started only by the taker whose request was reserved,
    with the reserved amounts, and only once: the request was not started
    before and is recorded as started afterwards. *)
Theorem maker_swap_starts_once n st sender msg st' out m o :
  reachable st → process_taker_connect n st sender msg = (st', out) →
  StartMakerSwap m o ∈ out →
  m.(mm_request).(tr_sender_pubkey) = sender ∧ sender ≠ n.(our_public_id) ∧
  ∃ o0 m0, st.(maker_orders) !! msg.(tc_maker_order_uuid) = Some o0 ∧
    o0.(mo_matches) !! msg.(tc_taker_order_uuid) = Some m0 ∧
    m.(mm_reserved) = m0.(mm_reserved) ∧
    m.(mm_request).(tr_uuid) ∉ o0.(started_swaps) ∧
    st'.(maker_orders) !! msg.(tc_maker_order_uuid) = Some o ∧
    m.(mm_request).(tr_uuid) ∈ o.(started_swaps) ∧ NoDup o.(started_swaps).
Proof.
  intros Hr. pose proof (reachable_inv st Hr) as Hinv. intros H.
  pose proof (taker_connect_inv _ _ _ _ _ _ Hinv H) as [Hm' _]. destruct Hinv as [Hm _].
  revert H. unfold process_taker_connect.
  case_bool_decide as Hid; [by intros [= <- <-] ?%elem_of_nil|].
  destruct (maker_orders st !! _) as [o0|] eqn:Eo; [|by intros [= <- <-] ?%elem_of_nil].
  destruct (mo_matches o0 !! _) as [m0|] eqn:Em; [|by intros [= <- <-] ?%elem_of_nil].
  case_bool_decide as Hs; cbn; [|by intros [= <- <-] ?%elem_of_nil].
  case_bool_decide as Hn; [|by intros [= <- <-] ?%elem_of_nil].
  intros [= <- <-] Hin. apply elem_of_cons in Hin as [Hin|Hin].
  2: { exfalso. apply elem_of_cons in Hin as [|Hin]; [done|].
       case_match; [apply list_elem_of_singleton in Hin; done|by apply elem_of_nil in Hin]. }
  injection Hin as -> ->. cbn in *. specialize (Hm' (tc_maker_order_uuid msg)).
  cbn in Hm'. rewrite lookup_insert_eq in Hm'. specialize (Hm' _ eq_refl).
  split_and!; try done. exists o0, m0. split_and!; try done.
  - intros Hst. destruct (moi_connected _ _ (Hm _ _ Eo) _ Hst) as (m1 & Hm1 & [c Hc]).
    destruct (moi_match _ _ (Hm _ _ Eo) _ _ Em) as [_ Hu].
    rewrite Hu, Em in Hm1. injection Hm1 as <-. destruct Hn as [Hn _]. congruence.
  - apply lookup_insert_eq.
  - apply elem_of_app. right. by apply list_elem_of_singleton.
  - apply Hm'.
Qed.

(** ** A concrete negotiation

    The maker of [Orders.Sample] gets the taker's request, then its connect. *)
Module Negotiation.

Definition node (id : H256Json) : Node := {|
  our_public_id := id;
  key_ctx := {| swap_key_check_enabled := true; global_hd_account := false |};
  lp_coinfind t :=
    if bool_decide (t = "KMD"%string) then Some Sample.kmd
    else if bool_decide (t = "LTC"%string) then Some Sample.ltc else None
|}.
Definition maker_node : Node := node Sample.maker_id.
Definition taker_node : Node := node Sample.taker_id.

Definition order : MakerOrder :=
  maker_order_of Sample.maker_builder (Sample.env 2)
    (min_vol_threshold Sample.kmd Sample.ltc (big_rational 3 2)).
Definition created : OrdermatchContext :=
  with_maker_orders empty_context (<[2%Z := order]>).

Definition reserved_msg : MakerReserved :=
  reservation_for Sample.maker_id order 2 Sample.request Sample.kmd Sample.ltc
    (asked_base order Sample.request) (asked_base order Sample.request * order.(price)).
Definition reserved_match : MakerMatch :=
  {| mm_request := Sample.request; mm_reserved := reserved_msg; mm_connect := None;
     mm_connected := None; mm_last_updated := 1000 |}.
Definition reserved_order : MakerOrder :=
  set_matches order (<[1%Z := reserved_match]> order.(mo_matches)) [].
Definition reserved_ctx : OrdermatchContext :=
  with_maker_orders created (<[2%Z := reserved_order]>).

Definition connect_msg : TakerConnect :=
  {| tc_taker_order_uuid := 1; tc_maker_order_uuid := 2;
     tc_sender_pubkey := Sample.taker_id; tc_dest_pub_key := Sample.maker_id |}.

Lemma order_built : build_maker_order Sample.maker_builder (Sample.env 2) = Some (Ok order).
Proof.
  pose proof (build_maker_order_cases Sample.maker_builder (Sample.env 2)) as H.
  destruct (build_maker_order _ _) as [[o|e]|] eqn:E; [by destruct H as [_ ->]| |done].
  vm_compute in E. discriminate E.
Qed.

Lemma created_reachable : reachable created.
Proof.
  eapply reach_step; [apply reach_start|].
  by apply (StepCreateMaker empty_context Sample.maker_builder (Sample.env 2) order);
    [..|apply order_built].
Qed.

Lemma request_processed :
  process_taker_request maker_node created Sample.taker_id Sample.request 1000 [2%Z]
  = Some (reserved_ctx, [SendReserved reserved_msg]).
Proof.
  unfold process_taker_request. rewrite bool_decide_eq_false_2 by done.
  unfold created. cbn -[insert lookup]. rewrite lookup_insert_eq.
  rewrite match_with_request_spec by done. by rewrite bool_decide_eq_true_2.
Qed.

Lemma reserved_reachable : reachable reserved_ctx.
Proof.
  eapply reach_step; [apply created_reachable|].
  eapply StepTakerRequest, request_processed.
Qed.

Lemma connect_processed :
  ∃ m o out, process_taker_connect maker_node reserved_ctx Sample.taker_id connect_msg
    = (with_maker_orders reserved_ctx (<[2%Z := o]>), StartMakerSwap m o :: out).
Proof. eexists _, _, _. reflexivity. Qed.

End Negotiation.

Lemma never_oversubscribed_witness :
  reserved_amount Negotiation.reserved_order ≤ big_rational 100 1.
Proof.
  apply (never_oversubscribed Negotiation.reserved_ctx 2 Negotiation.reserved_order
    Negotiation.reserved_reachable). reflexivity.
Defined.

Lemma negotiation_never_panics_witness :
  ∃ st' out, process_taker_request Negotiation.maker_node Negotiation.reserved_ctx
    Sample.taker_id Sample.request 1000 [2%Z] = Some (st', out).
Proof.
  apply (negotiation_never_panics Negotiation.maker_node Negotiation.reserved_ctx
    Sample.taker_id Sample.request 1000 [2%Z] 7 Negotiation.reserved_reachable).
Defined.

Lemma maker_swap_starts_once_witness :
  ∃ m : MakerMatch, m.(mm_request).(tr_sender_pubkey) = Sample.taker_id.
Proof.
  destruct Negotiation.connect_processed as (m & o & out & H). exists m.
  eapply (maker_swap_starts_once Negotiation.maker_node Negotiation.reserved_ctx
    Sample.taker_id Negotiation.connect_msg _ _ m o Negotiation.reserved_reachable H).
  apply elem_of_cons. left. reflexivity.
Defined.

(** *** The taker of the same negotiation *)

Module TakerSide.

Definition order : TakerOrder :=
  taker_order_of Sample.taker_builder (Sample.env 1)
    (min_vol_threshold Sample.kmd Sample.ltc (big_rational 20 1 / big_rational 10 1)).
Definition placed : OrdermatchContext :=
  with_taker_orders empty_context (<[1%Z := order]>).
Definition queued : OrdermatchContext :=
  with_pending placed (<[1%Z := [Sample.received]]>).
Definition chosen : TakerMatch :=
  {| tm_reserved := Sample.received;
     tm_connect := {| tc_taker_order_uuid := 1; tc_maker_order_uuid := 2;
                      tc_sender_pubkey := Sample.taker_id; tc_dest_pub_key := Sample.maker_id |};
     tm_connected := None; tm_last_updated := 4000 |}.
Definition committed_order : TakerOrder :=
  set_taker_matches order (<[2%Z := chosen]> order.(to_matches)).
Definition committed : OrdermatchContext :=
  with_taker_orders (with_pending queued (delete 1%Z)) (<[1%Z := committed_order]>).

Lemma order_placed : build_taker_order Sample.taker_builder (Sample.env 1) = Some (Ok order).
Proof.
  pose proof (build_taker_order_cases Sample.taker_builder (Sample.env 1) eq_refl eq_refl) as H.
  destruct (build_taker_order _ _) as [[o|e]|] eqn:E; [by destruct H as [_ ->]| |done].
  vm_compute in E. discriminate E.
Qed.

Lemma placed_reachable : reachable placed.
Proof.
  eapply reach_step; [apply reach_start|].
  by apply (StepCreateTaker empty_context Sample.taker_builder (Sample.env 1) order);
    [..|apply order_placed].
Qed.

Lemma queued_reachable : reachable queued.
Proof.
  eapply reach_step; [apply placed_reachable|].
  by eapply (StepReserved Negotiation.taker_node placed Sample.maker_id Sample.received).
Qed.

Lemma pass_processed :
  reserved_pass Negotiation.taker_node queued 1 4000 [Sample.received]
  = Some (committed, [SendConnect chosen.(tm_connect)]).
Proof. reflexivity. Qed.

Lemma committed_reachable : reachable committed.
Proof.
  eapply reach_step; [apply queued_reachable|].
  by eapply (StepReservedPass Negotiation.taker_node queued 1 4000 [Sample.received]);
    [..|apply pass_processed].
Qed.

End TakerSide.

Lemma taker_commits_once_witness :
  TakerSide.committed_order.(to_matches) = {[ 2%Z := TakerSide.chosen ]}.
Proof.
  apply (taker_commits_once TakerSide.committed 1 TakerSide.committed_order 2 TakerSide.chosen
    TakerSide.committed_reachable); reflexivity.
Defined.

Lemma process_maker_reserved_queues n st from msg o :
  let uuid := msg.(mr_taker_order_uuid) in
  st.(my_taker_orders) !! uuid = Some o → from ≠ n.(our_public_id) →
  process_maker_reserved n st from msg
  = (let pending := default [] (st.(pending_maker_reserved) !! uuid) ++ [msg] in
     (with_pending st (<[uuid := pending]>), bool_decide (length pending = 1%nat))).
Proof.
  intros uuid Ho Hne. unfold process_maker_reserved. fold uuid. rewrite Ho.
  by rewrite (bool_decide_eq_true_2 (is_Some _)), bool_decide_eq_false_2.
Qed.

(** two reservations queued for a taker order, one of them with a zero
    base amount, stop the selection pass with a division by zero when it sorts
    them by price; nothing between the peer's message and the sort refuses such
    an amount. *)
Theorem zero_amount_reservation_panics n st from1 from2 bad good o now sorted :
  let uuid := good.(mr_taker_order_uuid) in
  st.(my_taker_orders) !! uuid = Some o → st.(pending_maker_reserved) !! uuid = None →
  bad.(mr_taker_order_uuid) = uuid → bad.(mr_base_amount) = 0 →
  from1 ≠ n.(our_public_id) → from2 ≠ n.(our_public_id) →
  is_Some (find_pair n (maker_coin_ticker o) (taker_coin_ticker o)) →
  let '(st1, starts) := process_maker_reserved n st from1 good in
  let '(st2, _) := process_maker_reserved n st1 from2 bad in
  starts = true ∧ reserved_pass n st2 uuid now sorted = None.
Proof.
  intros uuid Ho Hp Hb Hz H1 H2 [[bc rc] Hf].
  rewrite (process_maker_reserved_queues n st from1 good o) by done. fold uuid.
  cbv beta iota zeta.
  rewrite (process_maker_reserved_queues n _ from2 bad o) by (try done; by rewrite Hb).
  rewrite Hp, Hb. cbn -[insert lookup]. rewrite lookup_insert_eq. split; [done|].
  unfold reserved_pass. cbn -[insert lookup]. rewrite Ho, Hf, lookup_insert_eq.
  unfold sort_panics. cbn -[bool_decide].
  assert (mr_price bad = None) as -> by (unfold mr_price; by rewrite Hz).
  by rewrite (bool_decide_eq_true_2 (None = None)), orb_true_r.
Qed.

Lemma zero_amount_reservation_panics_witness :
  ∃ st2, reserved_pass Negotiation.taker_node st2 1 4000 [] = None.
Proof.
  set (bad := {| mr_taker_order_uuid := 1; mr_base_amount := 0;
    mr_base := "KMD"; mr_rel := "LTC"; mr_rel_amount := 0; mr_maker_order_uuid := 3;
    mr_sender_pubkey := []; mr_dest_pub_key := []; mr_conf_settings := None;
    mr_base_protocol_info := None; mr_rel_protocol_info := None;
    mr_swap_version := SwapVersion_default |}).
  pose proof (zero_amount_reservation_panics Negotiation.taker_node TakerSide.placed
    Sample.maker_id [] bad Sample.received TakerSide.order 4000 []
    eq_refl eq_refl eq_refl eq_refl) as H.
  specialize (H ltac:(done) ltac:(done) ltac:(by eexists)).
  destruct (process_maker_reserved _ _ _ _) as [st1 starts].
  destruct (process_maker_reserved _ st1 _ _) as [st2 b]. exists st2. apply H.
Defined.

(** a selection pass that ends because a coin of the pair is not active
    leaves the queue in place, and from then on no reservation for the order
    starts a pass: the order can only time out, even after the coin is back. *)
Theorem interrupted_pass_blocks_order n n' st uuid now sorted o pending from msg :
  st.(my_taker_orders) !! uuid = Some o → st.(pending_maker_reserved) !! uuid = Some pending →
  pending ≠ [] → find_pair n (maker_coin_ticker o) (taker_coin_ticker o) = None →
  msg.(mr_taker_order_uuid) = uuid →
  reserved_pass n st uuid now sorted = Some (st, []) ∧
  (process_maker_reserved n' st from msg).2 = false.
Proof.
  intros Ho Hp Hne Hf Hu. unfold reserved_pass, process_maker_reserved.
  rewrite Ho, Hf, Hu. split; [done|]. repeat case_match; try done. cbn.
  rewrite Hp. cbn. apply bool_decide_eq_false_2. rewrite length_app. cbn.
  destruct pending; [done|cbn; lia].
Qed.

Lemma interrupted_pass_blocks_order_witness :
  (process_maker_reserved Negotiation.taker_node TakerSide.queued Sample.maker_id
     Sample.received).2 = false.
Proof.
  eapply (interrupted_pass_blocks_order
    {| our_public_id := []; key_ctx := Negotiation.taker_node.(key_ctx);
       lp_coinfind := λ _, None |} Negotiation.taker_node TakerSide.queued 1 4000 []
    TakerSide.order [Sample.received]); done.
Defined.

(** an update that lowers the volume of an order but not its minimum is
    accepted even when nothing tradable is left: the volume is compared with
    the minimum of the request, not with the minimum the order keeps, and the
    next maintenance pass removes the order it has just confirmed. *)
Theorem update_below_own_minimum n env o req now base_coin rel_coin confs delta :
  find_pair n o.(mo_base) o.(mo_rel) = Some (base_coin, rel_coin) →
  swap_key_mismatch n.(key_ctx) base_coin rel_coin = None →
  o.(conf_settings) = Some confs → o.(mo_matches) = ∅ →
  req = {| ur_uuid := o.(mo_uuid); ur_new_price := None; ur_max := None;
           ur_volume_delta := Some delta; ur_min_volume := None;
           ur_base_confs := None; ur_base_nota := None;
           ur_rel_confs := None; ur_rel_nota := None |} →
  env.(pre_trade_spend_safe) base_coin rel_coin o.(min_base_vol) o.(price) = true →
  (∀ v, env.(balance_covers) v = true) →
  0 < o.(max_base_vol) + delta →
  base_coin.(min_trading_vol) ≤ o.(max_base_vol) + delta →
  rel_coin.(min_trading_vol) ≤ (o.(max_base_vol) + delta) * o.(price) →
  o.(max_base_vol) + delta < o.(min_base_vol) →
  ∃ o', update_maker_order n env o req now = Some (Ok o') ∧ exhausted o' = true.
Proof.
  intros Hf Hk Hc Hm -> Hs Hb Hpos Hb1 Hb2 Hlt.
  set (v := max_base_vol o + delta) in *.
  assert (has_ongoing_matches o = false) as Hg by (unfold has_ongoing_matches; by rewrite Hm).
  unfold update_maker_order. rewrite Hg, Hf, Hk, Hc. cbn. rewrite Hs. cbn.
  rewrite reserved_amount_empty by done. fold v.
  assert ((v <=?q 0) = false) as E1 by qc. rewrite E1, Hb. cbn. rewrite E1.
  assert (v - 0 = v) as E0 by ring. rewrite E0.
  assert ((v <?q min_trading_vol base_coin) = false) as -> by qc.
  assert ((v * price o <?q min_trading_vol rel_coin) = false) as -> by qc.
  eexists. split; [done|]. unfold exhausted, available_amount. cbn.
  rewrite reserved_amount_empty by done. unfold has_ongoing_matches. cbn. rewrite Hm. cbn.
  rewrite E0. assert ((min_base_vol o <=?q v) = false) as -> by qc. done.
Qed.

Lemma update_below_own_minimum_witness :
  ∃ o', exhausted o' = true ∧ o'.(max_base_vol) <?q o'.(min_base_vol) = true.
Proof.
  set (o := set_max_base_vol
    (maker_order_of Sample.maker_builder (Sample.env 2) (big_rational 5 1)) (big_rational 10 1)).
  set (env := {| pre_trade_spend_safe := λ _ _ _ _, true; max_volume_now := None;
                 balance_covers := λ _, true |}).
  destruct (update_below_own_minimum Negotiation.maker_node env o _ 2000 Sample.kmd Sample.ltc
    (reversed (reversed Sample.confs)) (big_rational (-8) 1)
    eq_refl eq_refl eq_refl eq_refl eq_refl eq_refl (λ _, eq_refl)
    eq_refl ltac:(done) ltac:(done) eq_refl) as (o' & Ho' & Hx).
  exists o'. split; [exact Hx|]. vm_compute in Ho'. injection Ho' as <-. vm_compute. reflexivity.
Defined.
