(* ===== verification/Effects.v ===== *)
(** * Programs with external calls

    The swap machines are asynchronous procedures that talk to coins, to the
    peer-to-peer network, to the clock and to the database.  A procedure is a
    finite tree of calls: [Vis c k] issues the call [c] and continues with
    [k] on the answer.  Nothing is assumed of the answers: [runs p tr o] says
    that [p] can produce the outcome [o] with the calls and answers [tr], and
    [prefix_run p tr] that [p] can have performed [tr] so far, which is what is
    known of a process that was stopped at some point.

    A Rust panic is the leaf [Panic].  A loop without a bound takes a fuel, and
    the leaf [NoFuel] marks the executions that are longer. *)

From S2P Require Import Prelude.
From stdpp Require Import base tactics list numbers.

Section programs.
Context {Call : Type} {Resp : Call → Type}.

Inductive prog (A : Type) : Type :=
| Ret (a : A)
| Panic
| NoFuel
| Vis (c : Call) (k : Resp c → prog A).

Inductive outcome (A : Type) : Type :=
| Val (a : A)
| Panicked
| Starved.

(** One call with the answer it got. *)
Record event := Ev { ev_call : Call; ev_resp : Resp ev_call }.

End programs.

Arguments prog {Call} Resp A.
Arguments Ret {Call Resp A} a.
Arguments Panic {Call Resp A}.
Arguments NoFuel {Call Resp A}.
Arguments Vis {Call Resp A} c k.
Arguments Val {A} a.
Arguments Panicked {A}.
Arguments Starved {A}.
Arguments event {Call} Resp.
Arguments Ev {Call Resp} ev_call ev_resp.

Section semantics.
Context {Call : Type} {Resp : Call → Type}.
Implicit Types (h tr : list (event Resp)) (c : Call).

Fixpoint prog_bind {A B} (f : A → prog Resp B) (p : prog Resp A) : prog Resp B :=
  match p with
  | Ret a => f a
  | Panic => Panic
  | NoFuel => NoFuel
  | Vis c k => Vis c (λ x, prog_bind f (k x))
  end.

#[global] Instance prog_mret : MRet (prog Resp) := λ A a, Ret a.
#[global] Instance prog_mbind : MBind (prog Resp) := λ A B f p, prog_bind f p.

Definition call c : prog Resp (Resp c) := Vis c Ret.

(** [Option::unwrap]. *)
Definition unwrap {A} (o : option A) : prog Resp A :=
  match o with Some a => Ret a | None => Panic end.

Fixpoint runs {A} (p : prog Resp A) tr (o : outcome A) : Prop :=
  match p with
  | Ret a => tr = [] ∧ o = Val a
  | Panic => tr = [] ∧ o = Panicked
  | NoFuel => tr = [] ∧ o = Starved
  | Vis c k => ∃ x tr', tr = Ev c x :: tr' ∧ runs (k x) tr' o
  end.

Fixpoint prefix_run {A} (p : prog Resp A) tr {struct tr} : Prop :=
  match tr with
  | [] => True
  | e :: tr' =>
      match p with
      | Vis c k => ∃ x, e = Ev c x ∧ prefix_run (k x) tr'
      | _ => False
      end
  end.

(** Execution against an environment, whose answers may depend on everything
    that happened before. *)
Fixpoint exec {A} (env : list (event Resp) → ∀ c, Resp c) h (p : prog Resp A)
    : list (event Resp) * outcome A :=
  match p with
  | Ret a => ([], Val a)
  | Panic => ([], Panicked)
  | NoFuel => ([], Starved)
  | Vis c k =>
      let x := env h c in
      let '(tr, o) := exec env (h ++ [Ev c x]) (k x) in
      (Ev c x :: tr, o)
  end.

(** [safe I h p Q]: after the history [h], every call [p] issues satisfies [I]
    of the history up to it, and every outcome satisfies [Q]. *)
Fixpoint safe {A} (I : list (event Resp) → Call → Prop) h (p : prog Resp A)
    (Q : list (event Resp) → outcome A → Prop) : Prop :=
  match p with
  | Ret a => Q h (Val a)
  | Panic => Q h Panicked
  | NoFuel => Q h Starved
  | Vis c k => I h c ∧ ∀ x, safe I (h ++ [Ev c x]) (k x) Q
  end.

Lemma exec_runs {A} env h (p : prog Resp A) :
  runs p (exec env h p).1 (exec env h p).2.
Proof.
  revert h; induction p as [| | |c k IH]; intros h; cbn; try done.
  specialize (IH (env h c) (h ++ [Ev c (env h c)])).
  destruct (exec env _ _) as [tr o]; cbn in *; eauto.
Qed.

Lemma runs_prefix {A} (p : prog Resp A) tr o : runs p tr o → prefix_run p tr.
Proof.
  revert tr; induction p as [| | |c k IH]; intros tr; cbn; try by intros [-> _].
  intros (x & tr' & -> & H); cbn; eauto.
Qed.

Lemma prefix_run_app {A} (p : prog Resp A) tr1 tr2 :
  prefix_run p (tr1 ++ tr2) → prefix_run p tr1.
Proof.
  revert p; induction tr1 as [|e tr1 IH]; intros p; [done|].
  destruct p; cbn; try done. intros (x & -> & H); eauto.
Qed.

Lemma runs_bind {A B} (p : prog Resp A) (f : A → prog Resp B) tr o :
  runs (p ≫= f) tr o ↔
  (∃ a tr1 tr2, tr = tr1 ++ tr2 ∧ runs p tr1 (Val a) ∧ runs (f a) tr2 o)
  ∨ (runs p tr Panicked ∧ o = Panicked) ∨ (runs p tr Starved ∧ o = Starved).
Proof.
  change (p ≫= f) with (prog_bind f p).
  revert tr; induction p as [a| | |c k IH]; intros tr; cbn.
  - split; [intros H; left; by exists a, [], tr|].
    intros [(b & tr1 & tr2 & -> & [-> [= ->]] & Hb)|[[[? ?] _]|[[? ?] _]]]; done.
  - split; [naive_solver|].
    intros [(b & tr1 & tr2 & -> & [? ?] & Hb)|[[[? ?] ?]|[[? ?] _]]]; naive_solver.
  - split; [naive_solver|].
    intros [(b & tr1 & tr2 & -> & [? ?] & Hb)|[[[? ?] ?]|[[? ?] ?]]]; naive_solver.
  - split.
    + intros (x & tr' & -> & [(a & tr1 & tr2 & -> & ? & ?)|[[??]|[??]]]%IH); [left|naive_solver..].
      exists a, (Ev c x :: tr1), tr2. naive_solver.
    + intros [(a & ? & tr2 & -> & (x & tr1 & -> & ?) & ?)|[[(x & tr1 & -> & ?) ?]|[(x & tr1 & -> & ?) ?]]];
        exists x; eexists; (split; [done|]); apply IH; naive_solver.
Qed.

Lemma safe_mono {A} (I J : list (event Resp) → Call → Prop) h (p : prog Resp A) Q R :
  (∀ h c, I h c → J h c) → (∀ h o, Q h o → R h o) → safe I h p Q → safe J h p R.
Proof.
  intros HI HQ. revert h; induction p as [| | |c k IH]; intros h; cbn; eauto.
  intros [? H]; split; eauto.
Qed.

Lemma safe_and {A} (I J : list (event Resp) → Call → Prop) h (p : prog Resp A) Q R :
  safe I h p Q → safe J h p R →
  safe (λ h c, I h c ∧ J h c) h p (λ h o, Q h o ∧ R h o).
Proof.
  revert h; induction p as [| | |c k IH]; intros h; cbn; eauto.
  intros [? H1] [? H2]; eauto.
Qed.

Lemma safe_bind {A B} (I : list (event Resp) → Call → Prop) h (p : prog Resp A)
    (f : A → prog Resp B) Q :
  safe I h p (λ h' o, match o with
                      | Val a => safe I h' (f a) Q
                      | Panicked => Q h' Panicked
                      | Starved => Q h' Starved
                      end) →
  safe I h (p ≫= f) Q.
Proof.
  change (p ≫= f) with (prog_bind f p).
  revert h; induction p as [| | |c k IH]; intros h; cbn; eauto.
  intros [? H]; eauto.
Qed.

Lemma safe_runs {A} (I : list (event Resp) → Call → Prop) h (p : prog Resp A) Q tr o :
  safe I h p Q → runs p tr o → Q (h ++ tr) o.
Proof.
  revert h tr; induction p as [| | |c k IH]; intros h tr; cbn.
  1-3: intros ? [-> ->]; by rewrite app_nil_r.
  intros [_ H] (x & tr' & -> & Hr). rewrite cons_middle, app_assoc. eauto.
Qed.

Lemma runs_safe {A} h (p : prog Resp A) (Q : list (event Resp) → outcome A → Prop) :
  (∀ tr o, runs p tr o → Q (h ++ tr) o) → safe (λ _ _, True) h p Q.
Proof.
  revert h; induction p as [| | |c k IH]; intros h H; cbn.
  1-3: rewrite <-(app_nil_r h); by apply H.
  split; [done|]. intros x. apply IH. intros tr o Hr.
  rewrite <-app_assoc. apply H. cbn; eauto.
Qed.

(** A property of the history that every call allowed by [I] keeps holds
    throughout. *)
Lemma safe_inv {A} (I : list (event Resp) → Call → Prop) (J : list (event Resp) → Prop)
    h (p : prog Resp A) Q :
  (∀ h c x, J h → I h c → J (h ++ [Ev c x])) →
  J h → safe I h p Q → safe (λ h c, J h ∧ I h c) h p (λ h o, J h ∧ Q h o).
Proof.
  intros HJ. revert h; induction p as [| | |c k IH]; intros h Hh; cbn; eauto.
  intros [? H]; split; [done|]. intros x. apply IH; eauto.
Qed.

Lemma safe_prefix_inv {A} (I : list (event Resp) → Call → Prop) (J : list (event Resp) → Prop)
    h (p : prog Resp A) Q tr :
  (∀ h c, I h c → J h) → (∀ h o, Q h o → J h) →
  safe I h p Q → prefix_run p tr → J (h ++ tr).
Proof.
  intros HI HQ. revert h p; induction tr as [|e tr IH]; intros h p Hs Hp.
  - rewrite app_nil_r. destruct p; cbn in Hs; eauto. destruct Hs; eauto.
  - destruct p; try done. destruct Hp as (x & -> & Hp), Hs as [_ Hs].
    rewrite cons_middle, app_assoc. by eapply IH.
Qed.

Lemma safe_prefix {A} (I : list (event Resp) → Call → Prop) h (p : prog Resp A) Q pre e post :
  safe I h p Q → prefix_run p (pre ++ e :: post) → I (h ++ pre) (ev_call e).
Proof.
  revert h p; induction pre as [|e' pre IH]; intros h p Hs Hp; cbn in Hp.
  - destruct p; try done. destruct Hp as (x & -> & _), Hs as [? _].
    by rewrite app_nil_r.
  - destruct p; try done. destruct Hp as (x & -> & Hp), Hs as [_ Hs].
    rewrite cons_middle, app_assoc. by eapply IH.
Qed.

End semantics.

(** One symbolic step of a [safe] goal: the call on top is issued, its answer
    is introduced, and the matches on it are split. *)
Ltac safe_step :=
  match goal with
  | |- safe _ _ (Vis _ _) _ => cbn [safe]; split
  | |- safe _ _ (mbind _ _) _ => apply safe_bind
  | |- safe _ _ (prog_bind _ _) _ => apply (safe_bind _ _ _ _)
  | |- safe _ _ (call _) _ => cbn [call safe]; split
  | |- safe _ _ (Ret _) _ => cbn [safe]
  | |- ∀ _, _ => intro
  end.
