(* ===== verification/SwapEnv.v ===== *)
(** * What a swap machine is surrounded by

    The coins as a swap sees them, the keys it uses, and the calls it makes.
    A coin answers some questions the same way for the whole life of a swap
    (its ticker, its contract address, how its HTLC key is made): those are the
    fields of [SwapCoin].  Everything that reads or changes the world (a
    broadcast, a confirmation wait, the clock, the message store, the database)
    is a call of [SwapCall], answered by the environment.

    Sources: [coins/lp_coins_traits.rs] ([SwapOps]), [coins/lp_coins_types.rs],
    [mm2_main/src/lp_swap.rs], [lp_swap/swap_msg.rs], [lp_swap/refund_retry.rs],
    [crypto/src/secret_hash_algo.rs].  The text of an error is kept without the
    source location the [ERRL!] macro puts before it and without the quotes the
    format [{:?}] puts around it. *)

From Stdlib Require Import ZArith.
From S2P Require Import Prelude MmNumber NetConfig DexFee SwapCommon LockedAmounts Effects.
From stdpp Require Import base tactics strings list numbers pretty.
From coqutil Require Import Byte Word.LittleEndianList.

Local Open Scope Z_scope.

(** ** Third-party code

    The hash functions of [kdf_crypto] and the division [bigdecimal] does when
    a rational is turned into a decimal. *)
Class Externals := {
  dhash160 : bytes → bytes;
  sha256 : bytes → bytes;
  mm_to_decimal : MmNumber → BigDecimal
}.

(** ** Keys *)

Record KeyPair := { kp_private : bytes; kp_public : bytes }.

#[global] Instance KeyPair_eq_dec : EqDecision KeyPair.
Proof. solve_decision. Defined.

(** [H264::from(&[u8])] of a public key, which has 33 or 65 bytes. *)
Definition h264 (b : bytes) : bytes := take 33 b.

(** The node's own keys and settings. *)
Record MmCtx := {
  secp256k1_key_pair : KeyPair;
  legacy_passphrase_key_pair : KeyPair;
  ctx_net_cfg : NetConfig;
  ctx_gui : option string;
  ctx_mm_version : string
}.

(** ** Coins *)

Inductive MmCoinVariant :=
| SiaCoin | TendermintCoin | TendermintToken | LightningCoin | OtherCoin.

Record SwapCoin := {
  sc_coin :> FeeCoin;
  sc_variant : MmCoinVariant;
  swap_contract_address : option bytes;
  sc_requires_notarization : bool;
  get_htlc_key_pair : option KeyPair;
  own_signing_key_pair : option KeyPair;
  derives_swap_htlc_key : bool;
  derive_swap_htlc_key_pair : bytes → result KeyPair string;
  derive_htlc_pubkey : bytes → result bytes string;
  htlc_key_is_random_per_swap : bool;
  is_supported_by_watchers : bool
}.

Inductive SecretHashAlgo := DHASH160 | SHA256.

Definition commits_to_a_native_32_byte_hash (coin : SwapCoin) : bool :=
  match coin.(sc_variant) with
  | SiaCoin | TendermintCoin | TendermintToken | LightningCoin => true
  | OtherCoin => false
  end.

Definition select_secret_hash_algo (maker_coin taker_coin : SwapCoin) : SecretHashAlgo :=
  if commits_to_a_native_32_byte_hash maker_coin
     || commits_to_a_native_32_byte_hash taker_coin
  then SHA256 else DHASH160.

Definition hash_secret `{Externals} (a : SecretHashAlgo) (secret : bytes) : bytes :=
  match a with DHASH160 => dhash160 secret | SHA256 => sha256 secret end.

(** ** The HTLC keys of a swap *)

(** [Uuid::as_bytes]: the sixteen bytes of the identifier, most significant
    first. *)
Definition uuid_bytes (u : Uuid) : bytes := rev (le_split 16 u).

Definition start_htlc_key_pair (coin : SwapCoin) (node_pubkey swap_unique_input : bytes)
    : result (option KeyPair * option KeyPair) string :=
  if coin.(derives_swap_htlc_key) then
    match coin.(derive_swap_htlc_key_pair) swap_unique_input with
    | Ok kp => Ok (Some kp, None)
    | Err e => Err ("!" +:+ coin.(ticker) +:+ ".derive_swap_htlc_key_pair " +:+ e)%string
    end
  else
    let kp :=
      match coin.(get_htlc_key_pair) with
      | Some p => Some p
      | None =>
          match coin.(own_signing_key_pair) with
          | Some own => if bool_decide (own.(kp_public) ≠ node_pubkey) then Some own else None
          | None => None
          end
      end in
    Ok (kp, kp).

Definition pubkey_or (node_pubkey : bytes) (kp : option KeyPair) : bytes :=
  match kp with Some k => k.(kp_public) | None => node_pubkey end.

Definition derive_htlc_pubkeys (node_pubkey : bytes)
    (maker_coin : SwapCoin) (maker_coin_htlc_key_pair : option KeyPair)
    (taker_coin : SwapCoin) (taker_coin_htlc_key_pair : option KeyPair)
    : result (bytes * bytes) string :=
  match maker_coin.(derive_htlc_pubkey) (pubkey_or node_pubkey maker_coin_htlc_key_pair) with
  | Err e => Err ("!" +:+ maker_coin.(ticker) +:+ ".derive_htlc_pubkey " +:+ e)%string
  | Ok m =>
      match taker_coin.(derive_htlc_pubkey) (pubkey_or node_pubkey taker_coin_htlc_key_pair) with
      | Err e => Err ("!" +:+ taker_coin.(ticker) +:+ ".derive_htlc_pubkey " +:+ e)%string
      | Ok t => Ok (m, t)
      end
  end.

Definition swap_node_key_pair (ctx : MmCtx) (recorded_persistent_pub : bytes)
    : result KeyPair string :=
  if bool_decide (ctx.(secp256k1_key_pair).(kp_public) = recorded_persistent_pub)
  then Ok ctx.(secp256k1_key_pair)
  else if bool_decide (ctx.(legacy_passphrase_key_pair).(kp_public) = recorded_persistent_pub)
  then Ok ctx.(legacy_passphrase_key_pair)
  else Err "the persistent key it recorded is neither the node key nor the legacy passphrase key"%string.

Definition htlc_keypair_owns_pubkey (coin : SwapCoin) (keypair : KeyPair) (pubkey : bytes) : bool :=
  match coin.(derive_htlc_pubkey) keypair.(kp_public) with
  | Ok derived => bool_decide (derived = pubkey)
  | Err _ => false
  end.

Definition restored_htlc_key_pair (coin : SwapCoin) (swap_unique_input : bytes)
    (saved_pair : option KeyPair) (saved_pubkey : option bytes) : option KeyPair :=
  if negb coin.(derives_swap_htlc_key) then saved_pair
  else match coin.(derive_swap_htlc_key_pair) swap_unique_input with
  | Err _ => saved_pair
  | Ok derived =>
      match (match saved_pubkey with
             | Some p => Some p
             | None => (λ kp, h264 kp.(kp_public)) <$> saved_pair
             end) with
      | None => Some derived
      | Some pubkey =>
          if htlc_keypair_owns_pubkey coin derived pubkey then Some derived
          else match saved_pair with
               | Some saved =>
                   if htlc_keypair_owns_pubkey coin saved pubkey then Some saved
                   else Some derived
               | None => Some derived
               end
      end
  end.

Definition check_held_htlc_key (coin : SwapCoin) (held : KeyPair) (saved_pubkey : bytes)
    : result unit string :=
  if negb coin.(derives_swap_htlc_key) || htlc_keypair_owns_pubkey coin held saved_pubkey
  then Ok ()
  else Err ("the " +:+ coin.(ticker) +:+
            " HTLC key re-derived from this wallet is not the HTLC public key saved with the swap")%string.

Definition skips_already_sent_question (coin : SwapCoin)
    (started_in_this_process has_payment_event : bool) : bool :=
  started_in_this_process && negb has_payment_event && coin.(htlc_key_is_random_per_swap).

(** ** Transactions and messages *)

(** [TransactionEnum], by what a swap reads of it. *)
Record Transaction := { tx_hex : bytes; tx_hash : bytes }.

Record TransactionIdentifier := { ti_tx_hex : bytes; ti_tx_hash : bytes }.

Definition identifier (tx : Transaction) : TransactionIdentifier :=
  {| ti_tx_hex := tx.(tx_hex); ti_tx_hash := tx.(tx_hash) |}.

Inductive TransactionErr :=
| TxRecoverable (tx : Transaction) (e : string)
| PlainErr (e : string)
| FeeCapBelowBaseFee (rejection : string) (tx : option Transaction).

Definition get_tx (e : TransactionErr) : option Transaction :=
  match e with
  | TxRecoverable tx _ => Some tx
  | FeeCapBelowBaseFee _ tx => tx
  | PlainErr _ => None
  end.

Definition get_plain_text_format (e : TransactionErr) : string :=
  match e with
  | TxRecoverable _ err => err
  | PlainErr err => err
  | FeeCapBelowBaseFee rejection _ => rejection
  end.

Inductive CanRefundHtlc := CanRefundNow | HaveToWait (secs : Z).

Inductive FoundSwapTxSpend := Spent (tx : Transaction) | Refunded (tx : Transaction).

Inductive SwapMsg :=
| Negotiation (d : NegotiationDataMsg)
| NegotiationReply (d : NegotiationDataMsg)
| Negotiated (b : bool)
| TakerFee (payload : bytes)
| MakerPayment (payload : bytes)
| TakerPayment (payload : bytes).

Record ValidateFeeArgs := {
  fee_tx : Transaction;
  expected_sender : bytes;
  fee_addr : bytes;
  vf_dex_fee : DexFee;
  min_block_number : Z;
  vf_uuid : Uuid
}.

Record ValidatePaymentInput := {
  payment_tx : bytes;
  time_lock : Z;
  taker_pub : bytes;
  maker_pub : bytes;
  vp_secret_hash : bytes;
  vp_amount : BigDecimal;
  vp_swap_contract_address : option bytes;
  try_spv_proof_until : Z;
  vp_confirmations : Z
}.

(** The arguments of [send_*_payment], [check_if_my_payment_sent] and of the
    refund share the HTLC they describe. *)
Record HtlcArgs := {
  ha_time_lock : Z;
  ha_my_pub : bytes;
  ha_other_pub : bytes;
  ha_secret_hash : bytes;
  ha_swap_contract_address : option bytes
}.

Inductive HtlcPaymentCheck := Pays | PaysAnotherScript (payment_id : string).

(** What a taker hands to the watchers. *)
Record TakerSwapWatcherData := {
  wd_uuid : Uuid;
  wd_secret_hash : bytes;
  wd_maker_payment_spend_preimage : bytes;
  wd_taker_payment_refund_preimage : bytes;
  wd_swap_started_at : Z;
  wd_lock_duration : Z;
  wd_taker_coin : string;
  wd_taker_fee_hash : bytes;
  wd_taker_payment_hash : bytes;
  wd_taker_coin_start_block : Z;
  wd_taker_payment_confirmations : Z;
  wd_taker_payment_requires_nota : option bool;
  wd_maker_coin : string;
  wd_maker_pub : bytes;
  wd_maker_payment_hash : bytes;
  wd_maker_coin_start_block : Z
}.

(** ** Calls *)

Inductive Side := MakerCoin | TakerCoin.

Inductive Slot := SlotNegotiation | SlotNegotiationReply | SlotNegotiated
| SlotTakerFee | SlotMakerPayment | SlotTakerPayment.

Definition slot_type (s : Slot) : Type :=
  match s with
  | SlotNegotiation | SlotNegotiationReply => NegotiationDataMsg
  | SlotNegotiated => bool
  | SlotTakerFee | SlotMakerPayment | SlotTakerPayment => bytes
  end.

(** [E] is the type of the events the machine saves. *)
Inductive SwapCall (E : Type) :=
(* the coins *)
| GetSenderTradeFee (s : Side) (amount : BigDecimal)
| GetReceiverTradeFee (s : Side)
| CurrentBlock (s : Side)
| NegotiateSwapContractAddr (s : Side) (other_side_address : option bytes)
| ValidateOtherPubkey (s : Side) (raw_pubkey : bytes)
| TxEnumFromBytes (s : Side) (payload : bytes)
| ValidateFee (s : Side) (args : ValidateFeeArgs)
| CheckIfMyPaymentSent (s : Side) (htlc : HtlcArgs) (search_from_block : Z)
| SendPayment (s : Side) (htlc : HtlcArgs) (amount : BigDecimal)
| WaitForConfirmations (s : Side) (tx : bytes) (confirmations : Z) (requires_nota : bool)
    (wait_until check_every : Z)
| ValidatePayment (s : Side) (input : ValidatePaymentInput)
| SpendPayment (s : Side) (payment_tx : bytes) (time_lock : Z) (other_pub secret
    htlc_privkey : bytes) (swap_contract_address : option bytes)
| CanRefund (s : Side) (locktime : Z)
| RefundPayment (s : Side) (payment_tx : bytes) (time_lock : Z) (other_pub secret_hash
    htlc_privkey : bytes) (swap_contract_address : option bytes)
| RetriableRefundRejection (s : Side) (rejection : string)
| GetFeeToSendTakerFee (s : Side) (dex_fee_amount : BigDecimal)
| EnsureOwnPaymentWatchable (s : Side)
| SendTakerFee (s : Side) (dex_fee : DexFee) (fee_addr uuid : bytes)
| WaitForTxSpend (s : Side) (tx : bytes) (wait_until from_block : Z)
    (swap_contract_address : option bytes)
| ExtractSecret (s : Side) (secret_hash spend_tx : bytes)
(* a search that does not finish within [timeout] is answered with an error *)
| SearchForSwapTxSpendMy (s : Side) (htlc : HtlcArgs) (tx : bytes) (search_from_block : Z)
    (timeout : option Z)
| SearchForSwapTxSpendOther (s : Side) (htlc : HtlcArgs) (tx : bytes) (search_from_block : Z)
| CreateMakerPaymentSpendPreimage (s : Side) (maker_payment_tx : bytes) (time_lock : Z)
    (maker_pub secret_hash : bytes)
| CreateTakerPaymentRefundPreimage (s : Side) (taker_payment_tx : bytes) (time_lock : Z)
    (maker_pub secret_hash : bytes)
| CheckPaymentPaysHtlc (s : Side) (time_lock : Z) (first_pub second_pub secret_hash
    payment_tx : bytes)
| RefundGateClosedNote (s : Side) (locktime : Z)
(* the node *)
| BroadcastWatcherMsg (data : TakerSwapWatcherData) (interval : Z)
| CheckTakerBalance (volume dex_fee : MmNumber) (fee_to_send_dex_fee taker_payment_trade_fee
    maker_payment_spend_trade_fee : TradeFee)
| CheckBalance (maker_amount : BigDecimal) (fee1 fee2 : TradeFee)
| GenerateSecret
| NowMs
| Sleep (secs : Z)
| BroadcastEvery (m : SwapMsg) (interval : Z)
| RecvSwapMsg (s : Slot) (timeout : Z)
| BroadcastTx (s : Side) (tx : Transaction)
| LockSwap
| DispatchStatus (status : string)
| SaveSwapEvent (timestamp : Z) (e : E)
| BanPubkey (pubkey : bytes) (reason : E)
| BroadcastMySwapStatus.

Arguments GetSenderTradeFee {E} s amount.
Arguments GetReceiverTradeFee {E} s.
Arguments CurrentBlock {E} s.
Arguments NegotiateSwapContractAddr {E} s other_side_address.
Arguments ValidateOtherPubkey {E} s raw_pubkey.
Arguments TxEnumFromBytes {E} s payload.
Arguments ValidateFee {E} s args.
Arguments CheckIfMyPaymentSent {E} s htlc search_from_block.
Arguments SendPayment {E} s htlc amount.
Arguments WaitForConfirmations {E} s tx confirmations requires_nota wait_until check_every.
Arguments ValidatePayment {E} s input.
Arguments SpendPayment {E} s payment_tx time_lock other_pub secret htlc_privkey
  swap_contract_address.
Arguments CanRefund {E} s locktime.
Arguments RefundPayment {E} s payment_tx time_lock other_pub secret_hash htlc_privkey
  swap_contract_address.
Arguments RetriableRefundRejection {E} s rejection.
Arguments GetFeeToSendTakerFee {E} s dex_fee_amount.
Arguments EnsureOwnPaymentWatchable {E} s.
Arguments SendTakerFee {E} s dex_fee fee_addr uuid.
Arguments WaitForTxSpend {E} s tx wait_until from_block swap_contract_address.
Arguments ExtractSecret {E} s secret_hash spend_tx.
Arguments SearchForSwapTxSpendMy {E} s htlc tx search_from_block timeout.
Arguments SearchForSwapTxSpendOther {E} s htlc tx search_from_block.
Arguments CreateMakerPaymentSpendPreimage {E} s maker_payment_tx time_lock maker_pub secret_hash.
Arguments CreateTakerPaymentRefundPreimage {E} s taker_payment_tx time_lock maker_pub secret_hash.
Arguments CheckPaymentPaysHtlc {E} s time_lock first_pub second_pub secret_hash payment_tx.
Arguments RefundGateClosedNote {E} s locktime.
Arguments BroadcastWatcherMsg {E} data interval.
Arguments CheckTakerBalance {E} volume dex_fee fee_to_send_dex_fee taker_payment_trade_fee
  maker_payment_spend_trade_fee.
Arguments CheckBalance {E} maker_amount fee1 fee2.
Arguments GenerateSecret {E}.
Arguments NowMs {E}.
Arguments Sleep {E} secs.
Arguments BroadcastEvery {E} m interval.
Arguments RecvSwapMsg {E} s timeout.
Arguments BroadcastTx {E} s tx.
Arguments LockSwap {E}.
Arguments DispatchStatus {E} status.
Arguments SaveSwapEvent {E} timestamp e.
Arguments BanPubkey {E} pubkey reason.
Arguments BroadcastMySwapStatus {E}.

Definition SwapResp {E} (c : SwapCall E) : Type :=
  match c with
  | GetSenderTradeFee _ _ | GetReceiverTradeFee _
  | GetFeeToSendTakerFee _ _ => result TradeFee string
  | CurrentBlock _ => result Z string
  | NegotiateSwapContractAddr _ _ => result (option bytes) string
  | ValidateOtherPubkey _ _ | ValidateFee _ _ | ValidatePayment _ _
  | WaitForConfirmations _ _ _ _ _ _ | CheckBalance _ _ _ | EnsureOwnPaymentWatchable _
  | CheckTakerBalance _ _ _ _ _ => result unit string
  | TxEnumFromBytes _ _ => result Transaction string
  | CheckIfMyPaymentSent _ _ _ => result (option Transaction) string
  | SendPayment _ _ _ | SpendPayment _ _ _ _ _ _ _ | SendTakerFee _ _ _ _
  | WaitForTxSpend _ _ _ _ _ | CreateMakerPaymentSpendPreimage _ _ _ _ _
  | CreateTakerPaymentRefundPreimage _ _ _ _ _
  | RefundPayment _ _ _ _ _ _ _ => result Transaction TransactionErr
  | CanRefund _ _ => result CanRefundHtlc string
  | RetriableRefundRejection _ _ => option string
  | ExtractSecret _ _ _ => result bytes string
  | SearchForSwapTxSpendMy _ _ _ _ _
  | SearchForSwapTxSpendOther _ _ _ _ => result (option FoundSwapTxSpend) string
  | CheckPaymentPaysHtlc _ _ _ _ _ _ => result HtlcPaymentCheck string
  | RefundGateClosedNote _ _ => result (option string) string
  | GenerateSecret => bytes
  | NowMs => Z
  | LockSwap => result bool string
  | RecvSwapMsg s _ => result (slot_type s) string
  | SaveSwapEvent _ _ | BroadcastMySwapStatus => result unit string
  | Sleep _ | BroadcastEvery _ _ | BroadcastTx _ _ | DispatchStatus _
  | BanPubkey _ _ | BroadcastWatcherMsg _ _ => unit
  end.

Definition WAIT_CONFIRM_INTERVAL : Z := 15.
Definition NON_FINAL_REFUND_RETRY_SECS : Z := 30.

(** [now_ms() / 1000]. *)
Definition now_secs {E} : prog (@SwapResp E) Z :=
  ms ← call (Resp:=SwapResp) NowMs; Ret (ms / 1000).

Definition retried_refund_rejection {E} (coin : Side) (rejection : string)
    (now refund_deadline : Z) : prog (@SwapResp E) (option string) :=
  if refund_deadline <=? now then Ret None
  else call (Resp:=SwapResp) (RetriableRefundRejection coin rejection).

(** [(a as i64 - b as i64).abs()]. *)
Definition started_at_dif (a b : Z) : Z := i64 (Z.abs (i64 (i64 a - i64 b))).

(** [H264Json::from] of a slice, which indexes its first 33 bytes. *)
Definition h264_checked {E} (b : bytes) : prog (@SwapResp E) bytes :=
  if (length b <? 33)%nat then Panic else Ret (h264 b).

(** [H256Json::from] of a slice, which indexes its first 32 bytes. *)
Definition h256_checked {E} (b : bytes) : prog (@SwapResp E) bytes :=
  if (length b <? 32)%nat then Panic else Ret (take 32 b).

(** ** Amounts and defaults *)

Record SavedTradeFee := {
  sf_coin : string;
  sf_amount : BigDecimal;
  sf_paid_from_trading_vol : bool
}.

Definition TradeFee_from_saved (f : SavedTradeFee) : TradeFee := {|
  tf_coin := f.(sf_coin);
  tf_amount := dec_to_rational f.(sf_amount);
  tf_paid_from_trading_vol := f.(sf_paid_from_trading_vol)
|}.

Definition SavedTradeFee_from `{Externals} (f : TradeFee) : SavedTradeFee := {|
  sf_coin := f.(tf_coin);
  sf_amount := mm_to_decimal f.(tf_amount);
  sf_paid_from_trading_vol := f.(tf_paid_from_trading_vol)
|}.

Definition zero_decimal : BigDecimal := {| int_val := 0; scale := 0 |}.
Definition zero_bytes (n : nat) : bytes := replicate n (z2b 0).

(** The comparison of the two starting times, with the wrap-around of its casts. *)
Lemma started_at_dif_spec a b :
  is_u 64 a → is_u 64 b →
  started_at_dif a b ≤ 60 ↔
  (a - b) mod 2 ^ 64 ≤ 60 ∨ 2 ^ 64 - 60 ≤ (a - b) mod 2 ^ 64 ∨ (a - b) mod 2 ^ 64 = 2 ^ 63.
Proof. unfold started_at_dif. intros Ha Hb. split; zwrap. Qed.

(** ** What restoring a swap gives back *)

Lemma derive_htlc_pubkeys_Ok node mc mk tc tk m t :
  derive_htlc_pubkeys node mc mk tc tk = Ok (m, t) →
  mc.(derive_htlc_pubkey) (pubkey_or node mk) = Ok m
  ∧ tc.(derive_htlc_pubkey) (pubkey_or node tk) = Ok t.
Proof. unfold derive_htlc_pubkeys. intros Hd. by case_in Hd. Qed.

Lemma skips_true coin b e :
  skips_already_sent_question coin b e = true →
  b = true ∧ coin.(htlc_key_is_random_per_swap) = true.
Proof. unfold skips_already_sent_question. by destruct b, e, (htlc_key_is_random_per_swap coin). Qed.

Section keys.
Context (coin : SwapCoin) (node_key : KeyPair) (input : bytes).

(** The key a leg of a new swap is announced with is the key it holds again
    after a restart from the saved event. *)
Lemma restored_started kp saved pub :
  start_htlc_key_pair coin node_key.(kp_public) input = Ok (kp, saved) →
  coin.(derive_htlc_pubkey) (pubkey_or node_key.(kp_public) kp) = Ok pub →
  restored_htlc_key_pair coin input saved (Some pub) = kp
  ∧ check_held_htlc_key coin (default node_key kp) pub = Ok ().
Proof.
  unfold start_htlc_key_pair, restored_htlc_key_pair, check_held_htlc_key,
    htlc_keypair_owns_pubkey.
  destruct (derives_swap_htlc_key coin) eqn:Hd; cbn [negb orb].
  - destruct (derive_swap_htlc_key_pair coin input) as [p|e]; [|done].
    intros [= <- <-] Hpub. cbn in *. rewrite Hpub.
    by rewrite !bool_decide_eq_true_2.
  - by intros [= <- <-] _.
Qed.

End keys.
