(* ===== verification/SwapLoop.v ===== *)
(** * The loop of a version-one swap

    [run_maker_swap] and [run_taker_swap] have one shape: the swap's lock is
    taken, the swap is new or restored from its log, and then, command by
    command, a handler runs, each of its events is saved and applied, and the
    next command follows.  This file has that loop once, for a [Role] that
    supplies the handlers, and proves of it what does not depend on the role.

    A swap lives in one process, is stopped at an arbitrary point and is started
    again from what the database holds, any number of times: a [history] is the
    sequence of all calls of all these processes.  A role states what must hold
    before each command ([r_ready]), which calls a handler may make
    ([r_call_ok]) and which events fit ([r_fits]); [RoleLaws] is what it has to
    prove of its handlers, and the lemmas of this file carry that to every
    history. *)

From Stdlib Require Import ZArith.
From S2P Require Import Prelude MmNumber DexFee SwapCommon LockedAmounts Effects SwapEnv.
From stdpp Require Import base tactics strings list numbers pretty sets.

Local Open Scope Z_scope.

Notation swap_prog E := (prog (@SwapResp E)).
Notation call_event E := (event (@SwapResp E)).
Notation trace E := (list (event (@SwapResp E))).

(** Continues with the value of a successful call, or returns early. *)
Notation "'let!' x := c 'orelse' e => f 'in' k" :=
  (prog_bind (λ r, match r with Ok x => k | Err e => f end) c)
  (at level 200, x name, e name, c at level 100, f at level 200, k at level 200).

(** The last element of a list that has one. *)
Lemma list_last_last {A} (l : list A) (d : A) : l ≠ [] → last l = Some (List.last l d).
Proof.
  induction l as [|a l IH]; [done|]. intros _. destruct l as [|b l]; [done|].
  rewrite last_cons_cons. rewrite IH by done. done.
Qed.

(** ** The log a history leaves *)

Section log.
Context {E : Type}.
Implicit Types (h tr : trace E) (c : SwapCall E).

Definition saved_of (e : call_event E) : option (Z * E) :=
  match e with
  | Ev c x =>
      match c return SwapResp c → option (Z * E) with
      | SaveSwapEvent ts ev => λ x : result unit string,
          match x with Ok _ => Some (ts, ev) | Err _ => None end
      | _ => λ _, None
      end x
  end.

Definition saved_log h : list (Z * E) := omap saved_of h.
Definition logged h : list E := snd <$> saved_log h.

Definition is_save c : bool := match c with SaveSwapEvent _ _ => true | _ => false end.
Definition is_send c : bool := match c with SendPayment _ _ _ => true | _ => false end.

(** The calls of the loop itself. *)
Definition loop_call c : bool :=
  match c with
  | NowMs | Sleep _ | LockSwap | DispatchStatus _ | SaveSwapEvent _ _ | BanPubkey _ _
  | BroadcastMySwapStatus => true
  | _ => false
  end.

(** No payment was attempted. *)
Definition unsent h : Prop := Forall (λ e, is_send (ev_call e) = false) h.

(** An answer that sends a refund back to its gate. *)
Definition refusal (e : call_event E) : bool :=
  match e with
  | Ev c x =>
      match c return SwapResp c → bool with
      | CanRefund _ _ => λ x : result CanRefundHtlc string,
          match x with Ok CanRefundNow => false | _ => true end
      | RetriableRefundRejection _ _ => λ x : option string,
          match x with Some _ => true | None => false end
      | _ => λ _, false
      end x
  end.
Fixpoint refusals h : nat :=
  match h with [] => 0 | e :: h => Nat.b2n (refusal e) + refusals h end%nat.

(** The last call was a save that failed. *)
Definition save_failed h : Prop :=
  ∃ ts e err, last h = Some (Ev (SaveSwapEvent ts e) (Err err)).

Lemma logged_app h tr : logged (h ++ tr) = logged h ++ logged tr.
Proof. unfold logged, saved_log. by rewrite omap_app, fmap_app. Qed.

Lemma logged_snoc h e : saved_of e = None → logged (h ++ [e]) = logged h.
Proof. intros He. rewrite logged_app. unfold logged at 2. cbn. rewrite He. cbn. by rewrite app_nil_r. Qed.

Lemma saved_of_not_save c x : is_save c = false → saved_of (Ev c x) = None.
Proof. by destruct c. Qed.

Lemma unsent_snoc h c x : unsent h → is_send c = false → unsent (h ++ [Ev c x]).
Proof. intros. apply Forall_app; split; [done|]. by apply Forall_singleton. Qed.

Lemma refusals_app h tr : refusals (h ++ tr) = (refusals h + refusals tr)%nat.
Proof. induction h as [|e h IH]; cbn; [done|]. lia. Qed.

Lemma refusals_prefix h tr : (refusals h ≤ refusals (h ++ tr))%nat.
Proof. rewrite refusals_app. lia. Qed.

(** A stretch of calls that leaves no trace in the log. *)
Definition quiet h h' : Prop :=
  logged h' = logged h ∧ (unsent h → unsent h') ∧ refusals h' = refusals h ∧ ∃ tr, h' = h ++ tr.

Lemma quiet_snoc h h' c x :
  loop_call c = true → saved_of (Ev c x) = None → quiet h h' → quiet h (h' ++ [Ev c x]).
Proof.
  intros Hc Hs (HL & Hu & Hr & tr & ->). split_and!.
  - by rewrite logged_snoc.
  - intros. apply unsent_snoc; [by apply Hu|by destruct c].
  - rewrite refusals_app, Hr. destruct c; cbn; done || lia.
  - exists (tr ++ [Ev c x]). by rewrite app_assoc.
Qed.

Lemma quiet_refl h : quiet h h.
Proof. split_and!; [done..|exists []; by rewrite app_nil_r]. Qed.

Lemma quiet_trans h1 h2 h3 : quiet h1 h2 → quiet h2 h3 → quiet h1 h3.
Proof.
  intros (HL & Hu & Hr & tr & ->) (HL' & Hu' & Hr' & tr' & ->).
  split_and!; [congruence|auto|congruence|exists (tr ++ tr'); by rewrite app_assoc].
Qed.

End log.


(** ** The loop *)

Section loop.
Context {E C S : Type}.
Context (apply_event : Z → S → E → S) (save_event : S → E → swap_prog E Z)
  (handle_command : nat → S → C → swap_prog E (option C * list E)).

(** The events of one step: each is saved and applied before the next.
    [save_event] answers the clock [apply_event] reads. *)
Fixpoint save_events (s : S) (evs : list E) : swap_prog E S :=
  match evs with
  | [] => Ret s
  | event :: evs =>
      now ← save_event s event;
      save_events (apply_event now s event) evs
  end.

(** [n] bounds the number of commands, [fuel] the loop of a refund. *)
Fixpoint drive (n fuel : nat) (s : S) (command : C) : swap_prog E S :=
  match n with
  | O => NoFuel
  | Datatypes.S n =>
      res ← handle_command fuel s command;
      s ← save_events s res.2;
      match res.1 with
      | Some c => drive n fuel s c
      | None => _ ← call (Resp:=@SwapResp E) BroadcastMySwapStatus; Ret s
      end
  end.

(** The swap's lock, asked for at most twice. *)
Definition locked (go : swap_prog E unit) : swap_prog E unit :=
  let! l := call (Resp:=@SwapResp E) LockSwap orelse e => Ret () in
  if (l : bool) then go
  else
    _ ← call (Resp:=@SwapResp E) (Sleep 40);
    let! l := call (Resp:=@SwapResp E) LockSwap orelse e => Ret () in
    if (l : bool) then go else Ret ().

(** [prepared] is the swap and its first command, when there is one to run. *)
Definition run_swap (n fuel : nat) (prepared : option (S * C)) : swap_prog E unit :=
  locked (match prepared with
          | Some (swap, command) => _ ← drive n fuel swap command; Ret ()
          | None => Ret ()
          end).

End loop.

(** ** Roles *)

Record Role (E C S : Type) := {
  r_start : C;
  r_finish : C;
  r_finished : E;
  r_get_command : E → option C;
  r_apply : Z → S → E → S;
  r_handle : nat → S → C → swap_prog E (option C * list E);
  r_save : S → E → swap_prog E Z;
  (** the swap a match creates, and the same swap as a restart builds it *)
  r_new : S;
  r_restored : S;
  (** what a restart at a time finds in the database a history left *)
  r_restart : Z → trace E → option (S * C);
  (** events after which the process finishes although a restart would go on *)
  r_stops_early : E → bool;
  r_is_started : E → bool;
  r_first : E → Prop;
  r_ready : trace E → S → option C → Prop;
  (** [r_call_ok s cmd h0 h c]: the handler of [cmd], started after [h0], may
      call [c] after [h] *)
  r_call_ok : S → C → trace E → trace E → SwapCall E → Prop;
  r_fits : S → E → Prop;
  r_may_panic : trace E → Prop;
  (** the commands in the order a swap meets them, and the place of the payment *)
  r_rank : C → nat;
  r_pay : nat
}.

Arguments r_start {E C S}.
Arguments r_finish {E C S}.
Arguments r_finished {E C S}.
Arguments r_get_command {E C S}.
Arguments r_apply {E C S}.
Arguments r_handle {E C S}.
Arguments r_save {E C S}.
Arguments r_new {E C S}.
Arguments r_restored {E C S}.
Arguments r_restart {E C S}.
Arguments r_stops_early {E C S}.
Arguments r_is_started {E C S}.
Arguments r_first {E C S}.
Arguments r_ready {E C S}.
Arguments r_call_ok {E C S}.
Arguments r_fits {E C S}.
Arguments r_may_panic {E C S}.
Arguments r_rank {E C S}.
Arguments r_pay {E C S}.

Section role.
Context {E C S : Type} (R : Role E C S).
Implicit Types (h tr : trace E) (c : C) (s : S) (e : E) (next : option C) (L evs : list E).

Definition run_role (n fuel : nat) (prepared : option (S * C)) : swap_prog E unit :=
  run_swap R.(r_apply) R.(r_save) R.(r_handle) n fuel prepared.

(** One process after another; each may be stopped anywhere. *)
Inductive history : trace E → Prop :=
| history_new n fuel tr :
    prefix_run (run_role n fuel (Some (R.(r_new), R.(r_start)))) tr →
    history tr
| history_restart n fuel now h tr :
    history h →
    prefix_run (run_role n fuel (R.(r_restart) now h)) tr →
    history (h ++ tr).

(** The state the events of a log lead to, in the first process or a later one. *)
Definition replayed (b : bool) L : S :=
  foldl (R.(r_apply) 0) (if b then R.(r_new) else R.(r_restored)) L.

Definition last_command L : option C := last L ≫= R.(r_get_command).

(** After [e] the process goes on with [next]. *)
Definition leads e next : Prop :=
  R.(r_get_command) e = next ∨ (next = Some R.(r_finish) ∧ R.(r_stops_early) e = true).
Definition leads_last L next : Prop := ∃ e, last L = Some e ∧ leads e next.

(** Each event of a step leads to the step's next command, and the state it
    leaves is ready for it and for what a restart would do: the log may be cut
    after any of them. *)
Fixpoint posts h s next evs : Prop :=
  match evs with
  | [] => True
  | e :: evs =>
      leads e next ∧ R.(r_ready) h (R.(r_apply) 0 s e) next
      ∧ (R.(r_stops_early) e = true →
         R.(r_ready) h (R.(r_apply) 0 s e) (R.(r_get_command) e))
      ∧ R.(r_fits) s e ∧ posts h (R.(r_apply) 0 s e) next evs
  end.

Definition goes_up c next : Prop :=
  match next with Some c' => (R.(r_rank) c < R.(r_rank) c')%nat | None => c = R.(r_finish) end.

(** The last steps have one event. *)
Definition last_alone next evs : Prop :=
  next = None ∨ next = Some R.(r_finish) → length evs = 1%nat.

Definition first_step c evs : Prop :=
  (c = R.(r_start) → ∃ e, evs = [e] ∧ R.(r_first) e)
  ∧ (c ≠ R.(r_start) → Forall (λ e, R.(r_is_started) e = false) evs).

Definition step_post s (fuel : nat) c h0 h (o : outcome (option C * list E)) : Prop :=
  match o with
  | Val (next, evs) =>
      evs ≠ [] ∧ posts h s next evs ∧ goes_up c next ∧ last_alone next evs ∧ first_step c evs
  | Panicked => R.(r_may_panic) h
  | Starved => (refusals h0 + fuel ≤ refusals h)%nat
  end.

(** [Finished] follows exactly where a swap ends, and nothing follows it. *)
Definition wf_log L : Prop :=
  ∀ L1 e e' L2, L = L1 ++ e :: e' :: L2 →
    ∃ c, leads e (Some c) ∧ (c = R.(r_finish) ↔ e' = R.(r_finished)).

Record log_inv h : Prop := {
  li_started : Forall (λ e, R.(r_is_started) e = false) (tail (logged h));
  li_head : ∃ e, head (logged h) = Some e ∧ R.(r_first) e;
  li_wf : wf_log (logged h);
  li_fits : ∀ L1 e L2, logged h = L1 ++ e :: L2 → R.(r_fits) (replayed true L1) e;
  li_ready : R.(r_ready) h (replayed true (logged h)) (last_command (logged h))
}.

Definition inv h : Prop := logged h = [] ∨ log_inv h.

(** What is known when the call [k] is issued after the history [h]. *)
Definition call_inv h (k : SwapCall E) : Prop :=
  inv h ∧ (loop_call k = true ∨
    ∃ b cmd h0, R.(r_call_ok) (replayed b (logged h)) cmd h0 h k
      ∧ ((logged h = [] ∧ cmd = R.(r_start)) ∨ (log_inv h ∧ leads_last (logged h) (Some cmd)))
      ∧ (b = true → is_send k = true → unsent h)).

(** The state of a process about to execute [c]. *)
Definition running (b : bool) h s c : Prop :=
  s = replayed b (logged h)
  ∧ ((logged h = [] ∧ c = R.(r_start) ∧ b = true)
     ∨ (log_inv h ∧ leads_last (logged h) (Some c)))
  ∧ (b = true → (R.(r_rank) c ≤ R.(r_pay))%nat → unsent h).

(** Saving [e] after [h]: it is saved once, and nothing else is. *)
Definition save_call h e h' (k : SwapCall E) : Prop :=
  loop_call k = true ∧ (is_save k = true → quiet h h' ∧ ∃ ts, k = SaveSwapEvent ts e).
Definition save_done h e h' (o : outcome Z) : Prop :=
  match o with
  | Val _ => ∃ h1 ts, quiet h h1 ∧ quiet (h1 ++ [Ev (SaveSwapEvent ts e) (Ok ())]) h'
  | Panicked => ∃ h1 ts err, quiet h h1 ∧ h' = h1 ++ [Ev (SaveSwapEvent ts e) (Err err)]
  | Starved => False
  end.

(** What a role has to show. *)
Class RoleLaws : Prop := {
  law_finished : R.(r_get_command) R.(r_finished) = None;
  law_finished_last : R.(r_stops_early) R.(r_finished) = false;
  law_None e : R.(r_get_command) e = None → e = R.(r_finished);
  law_not_start e : R.(r_get_command) e ≠ Some R.(r_start);
  law_clock now now' s e : e ≠ R.(r_finished) → R.(r_apply) now s e = R.(r_apply) now' s e;
  law_ready_mono h tr s next : R.(r_ready) h s next → R.(r_ready) (h ++ tr) s next;
  law_ready_start h s : R.(r_ready) h s (Some R.(r_start));
  law_ready_finish h s : R.(r_ready) h s (Some R.(r_finish));
  law_ready_restored h b b' L next :
    R.(r_ready) h (replayed b L) next → R.(r_ready) h (replayed b' L) next;
  law_fits_restored b b' L e : R.(r_fits) (replayed b L) e → R.(r_fits) (replayed b' L) e;
  law_finish_not_start : R.(r_finish) ≠ R.(r_start);
  law_rank c : (R.(r_rank) c ≤ R.(r_rank) R.(r_finish))%nat;
  law_call_save s c h0 h ts e : ¬ R.(r_call_ok) s c h0 h (SaveSwapEvent ts e);
  law_call_send s c h0 h k : is_send k = true → R.(r_call_ok) s c h0 h k →
    R.(r_rank) c = R.(r_pay) ∧ (unsent h0 → unsent h);
  law_handle fuel s c h :
    (c = R.(r_start) → s = R.(r_new)) → R.(r_ready) h s (Some c) →
    safe (R.(r_call_ok) s c h) h (R.(r_handle) fuel s c) (step_post s fuel c h);
  law_save h s e : safe (save_call h e) h (R.(r_save) s e) (save_done h e);
  law_restart now h s c : inv h → R.(r_restart) now h = Some (s, c) →
    s = foldl (R.(r_apply) now) R.(r_restored) (logged h) ∧ log_inv h
    ∧ last_command (logged h) = Some c
}.

End role.

Arguments history {E C S}.
Arguments RoleLaws {E C S}.

(** Walks through a handler call by call. *)
Ltac walk :=
  repeat first
    [ progress cbn [safe prog_bind mbind prog_mbind call unwrap]
    | match goal with
      | |- safe _ _ (match ?x with _ => _ end) _ => destruct x eqn:?
      | |- safe _ _ (prog_bind _ (match ?x with _ => _ end)) _ => destruct x eqn:?
      | |- safe _ _ (mbind _ (match ?x with _ => _ end)) _ => destruct x eqn:?
      | |- _ ∧ (∀ _ : SwapResp _, _) => split
      | |- ∀ _ : SwapResp _, _ => let x := fresh "x" in intros x; cbn in x
      end
    | exact I ].

(** Walks through the saving of one event. *)
Ltac quiet_tac :=
  solve [apply quiet_refl | apply quiet_snoc; [reflexivity|reflexivity|]; quiet_tac].
Ltac save_walk :=
  repeat first
    [ progress cbn [safe prog_bind mbind prog_mbind call]
    | match goal with
      | u : () |- _ => destruct u
      | |- safe _ _ (match ?x with _ => _ end) _ => destruct x eqn:?
      | |- safe _ _ (prog_bind _ (match ?x with _ => _ end)) _ => destruct x eqn:?
      | |- safe _ _ (mbind _ (match ?x with _ => _ end)) _ => destruct x eqn:?
      | |- _ ∧ (∀ _ : SwapResp _, _) => split
      | |- ∀ _ : SwapResp _, _ => let x := fresh "x" in intros x; cbn in x
      | |- save_call _ _ _ _ =>
          split; [reflexivity|intros Hsave;
            first [discriminate Hsave|split; [quiet_tac|eexists; reflexivity]]]
      | |- save_done _ _ _ (Val _) => do 2 eexists; split; [|quiet_tac]; quiet_tac
      | |- save_done _ _ _ Panicked => do 3 eexists; split; [|reflexivity]; quiet_tac
      end ].

(** Closes what is left of a handler at its end. *)
Ltac step_ends :=
  cbn [step_post]; split_and!;
  [done
  |cbn [posts]; split_and!; try done; try (left; reflexivity); try (right; split; reflexivity);
   try (intros [=])
  |cbn; try lia; try done
  |by intros [?|?]
  |split; [try done; try (intros _; eexists; split; [reflexivity|exact I])
          |try done; intros _; try by repeat constructor]].

(** ** What holds of every history *)

Section laws.
Context {E C S : Type} (R : Role E C S) {HR : RoleLaws R}.
Implicit Types (h tr : trace E) (c : C) (s : S) (e : E) (next : option C) (L evs : list E).

Notation replayed := (replayed R).
Notation inv := (inv R).
Notation log_inv := (log_inv R).
Notation call_inv := (call_inv R).
Notation leads := (leads R).
Notation leads_last := (leads_last R).
Notation last_command := (last_command R).
Notation posts := (posts R).
Notation finish := (R.(r_finish)).
Notation finished := (R.(r_finished)).

Lemma replayed_snoc b L e : replayed b (L ++ [e]) = R.(r_apply) 0 (replayed b L) e.
Proof. unfold SwapLoop.replayed. by rewrite foldl_app. Qed.

Lemma last_command_snoc L e : last_command (L ++ [e]) = R.(r_get_command) e.
Proof. unfold SwapLoop.last_command. by rewrite last_snoc. Qed.

Lemma last_command_leads L c : last_command L = Some c → leads_last L (Some c).
Proof.
  unfold SwapLoop.last_command, SwapLoop.leads_last. destruct (last L) as [e|]; [|done].
  intros He. exists e. split; [done|by left].
Qed.

Lemma leads_None e : leads e None → e = finished.
Proof. intros [He|[? _]]; [by apply (law_None R)|done]. Qed.

Lemma finished_leads next : leads finished next → next = None.
Proof.
  intros [<-|[_ Hs]]; [by rewrite (law_finished R)|]. by rewrite (law_finished_last R) in Hs.
Qed.

Lemma leads_last_not_start L : ¬ leads_last L (Some R.(r_start)).
Proof.
  intros (e & _ & [He|[[=He] _]]); [by apply (law_not_start R) in He|].
  by apply (law_finish_not_start R).
Qed.

Lemma wf_log_snoc L e :
  wf_log R L →
  (L = [] ∨ ∃ c, leads_last L (Some c) ∧ (c = finish ↔ e = finished)) →
  wf_log R (L ++ [e]).
Proof.
  intros Hwf Hl L1 e1 e2 L2 HL.
  destruct L2 as [|e3 L2 _] using rev_ind.
  - rewrite (cons_middle e1), app_assoc in HL. apply app_inj_tail in HL as [-> ->].
    destruct Hl as [HL|(c & (e0 & He0 & Hc) & Hfin)]; [by destruct L1|].
    rewrite last_snoc in He0. injection He0 as ->. eauto.
  - rewrite !app_comm_cons, app_assoc in HL. apply app_inj_tail in HL as [-> ->]. by eapply Hwf.
Qed.

Lemma log_inv_mono h tr : logged (h ++ tr) = logged h → log_inv h → log_inv (h ++ tr).
Proof. intros HL [? ? ? ? ?]. constructor; rewrite HL; auto. by apply (law_ready_mono R). Qed.

Lemma inv_mono h tr : logged (h ++ tr) = logged h → inv h → inv (h ++ tr).
Proof. intros HL [HL0|Hi]; [left; by rewrite HL|right; by apply log_inv_mono]. Qed.

Lemma quiet_inv h h' : quiet h h' → inv h → inv h'.
Proof. intros (HL & _ & _ & tr & ->). by apply inv_mono. Qed.

Lemma loop_call_inv h k : inv h → loop_call k = true → call_inv h k.
Proof. intros Hi Hc. split; [done|by left]. Qed.

(** Saving one more event. *)
Lemma inv_snoc h h' e :
  inv h → logged h' = logged h ++ [e] →
  (logged h = [] → R.(r_first) e) →
  (logged h = [] ∨ R.(r_is_started) e = false) →
  (logged h = [] ∨ ∃ c, leads_last (logged h) (Some c) ∧ (c = finish ↔ e = finished)) →
  R.(r_fits) (replayed true (logged h)) e →
  R.(r_ready) h' (replayed true (logged h ++ [e])) (R.(r_get_command) e) →
  log_inv h'.
Proof.
  intros Hinv HL' Hfirst Hst Hlast Hfail Hready. constructor; rewrite HL'.
  - destruct Hinv as [HL|Hi]; [by rewrite HL|]. destruct Hst as [HL|Hst]; [by rewrite HL|].
    pose proof (li_started _ _ Hi). destruct (logged h); [done|]. cbn.
    apply Forall_app; split; [done|]. by apply Forall_singleton.
  - destruct Hinv as [HL|Hi]; [rewrite HL; eauto|].
    destruct (li_head _ _ Hi) as (e0 & He0 & ?). exists e0. split; [|done]. by destruct (logged h).
  - apply wf_log_snoc; [|done]. destruct Hinv as [->|[? ? ? ? ?]]; [|done].
    intros [|? ?] ? ? ? ?; done.
  - intros L1 e' L2 HL. destruct L2 as [|e2 L2 _] using rev_ind.
    + apply app_inj_tail in HL as [<- <-]. done.
    + rewrite app_comm_cons, app_assoc in HL. apply app_inj_tail in HL as [HL <-].
      destruct Hinv as [HL0|Hi]; [by rewrite HL0 in HL; destruct L1|by eapply (li_fits _ _ Hi)].
  - by rewrite last_command_snoc.
Qed.

Lemma posts_mono h tr s next evs : posts h s next evs → posts (h ++ tr) s next evs.
Proof.
  revert s; induction evs as [|e evs IH]; intros s; cbn; [done|].
  intros (? & ? & ? & ? & ?). split_and!; [done|..|done|by apply IH].
  - by apply (law_ready_mono R).
  - intros. apply (law_ready_mono R); auto.
Qed.

Lemma posts_quiet h h' s next evs : quiet h h' → posts h s next evs → posts h' s next evs.
Proof. intros (_ & _ & _ & tr & ->). apply posts_mono. Qed.

Lemma posts_last h s next evs L : posts h s next evs → evs ≠ [] → leads_last (L ++ evs) next.
Proof.
  intros Hp Hne. destruct evs as [|e evs _] using rev_ind; [done|]. clear Hne.
  exists e. rewrite app_assoc, last_snoc. split; [done|].
  revert s Hp; induction evs as [|e' evs IH]; intros s; cbn; [by intros [? _]|].
  intros (_ & _ & _ & _ & ?); eauto.
Qed.

Lemma posts_app h s next evs evs' : posts h s next (evs ++ evs') → posts h s next evs.
Proof. revert s; induction evs as [|e evs IH]; intros s; cbn; naive_solver. Qed.

(** A handler run by a process: the log stays, the calls are allowed. *)
Definition handler_keeps c h h' : Prop :=
  logged h' = logged h ∧ (∃ tr, h' = h ++ tr)
  ∧ ((R.(r_rank) c < R.(r_pay))%nat → unsent h → unsent h').

Lemma running_inv b h s c : running R b h s c → inv h.
Proof. intros (_ & [[? _]|[? _]] & _); [by left|by right]. Qed.

Lemma running_ready b h s c : running R b h s c → R.(r_ready) h s (Some c).
Proof.
  intros (-> & [(_ & -> & _)|[Hi (e & He & Hl)]] & _); [apply (law_ready_start R)|].
  destruct Hl as [Hc|[[= ->] _]]; [|apply (law_ready_finish R)].
  pose proof (li_ready _ _ Hi) as Hr. unfold SwapLoop.last_command in Hr. rewrite He in Hr.
  cbn in Hr. rewrite Hc in Hr. by apply (law_ready_restored R h true).
Qed.

Lemma running_start b h s c : running R b h s c → c = R.(r_start) → s = R.(r_new).
Proof.
  intros (-> & [(HL & _ & ->)|[_ Hl]] & _) ->; [by rewrite HL|].
  by apply leads_last_not_start in Hl.
Qed.

Lemma handler_run b h s c fuel :
  running R b h s c →
  safe call_inv h (R.(r_handle) fuel s c)
    (λ h' o, handler_keeps c h h' ∧ inv h' ∧ step_post R s fuel c h h' o).
Proof.
  intros Hrun. pose proof (running_inv _ _ _ _ Hrun) as Hinv.
  pose proof (law_handle R fuel s c h (running_start _ _ _ _ Hrun) (running_ready _ _ _ _ Hrun))
    as Hsafe.
  destruct Hrun as (Hs & Hc & Hun).
  apply (safe_inv _ (handler_keeps c h)) in Hsafe.
  - eapply safe_mono; [| |exact Hsafe]; cbn.
    + intros h' k ((HL & [tr ->] & _) & Hok). split; [by apply inv_mono|]. right.
      exists b, c, h. rewrite HL, <-Hs. split_and!; [done| |].
      { destruct Hc as [(? & ? & _)|[? ?]]; [by left|right]. split; [by apply log_inv_mono|done]. }
      intros -> Hsend. destruct (law_call_send R _ _ _ _ _ Hsend Hok) as [Hpay Hu].
      apply Hu, Hun; [done|lia].
    + intros h' o ((HL & [tr ->] & ?) & Hpost). split_and!; [by split_and!; eauto|by apply inv_mono|done].
  - intros h' k x (HL & [tr ->] & Hu) Hok. split_and!.
    + rewrite logged_snoc; [done|]. apply saved_of_not_save. destruct k; try done.
      by apply (law_call_save R) in Hok.
    + exists (tr ++ [Ev k x]). by rewrite app_assoc.
    + intros Hr Hh. apply unsent_snoc; [by apply Hu|]. destruct (is_send k) eqn:Hk; [|done].
      destruct (law_call_send R _ _ _ _ _ Hk Hok). lia.
  - split_and!; [done|exists []; by rewrite app_nil_r|done].
Qed.

(** What saving the events of a step leaves. *)
Definition saved_post (b : bool) next evs h h' (o : outcome S) : Prop :=
  inv h' ∧ (unsent h → unsent h') ∧ refusals h' = refusals h ∧
  match o with
  | Val s' => logged h' = logged h ++ evs
      ∧ (next ≠ None → s' = replayed b (logged h'))
  | Panicked => save_failed h'
  | Starved => False
  end.

Section one_event.
Context (b : bool) (next : option C) (e : E) (evs : list E) (h : trace E) (s : S).
Context (Hs : s = replayed b (logged h)) (Hinv : inv h) (Hposts : posts h s next (e :: evs))
  (Hfirst : logged h = [] → R.(r_first) e)
  (Hst : logged h = [] ∨ R.(r_is_started) e = false)
  (Hlast : logged h = [] ∨
     ∃ c, leads_last (logged h) (Some c) ∧ (c = finish ↔ e = finished)).

(** The history [h'] has saved [e] and nothing else since [h]. *)
Definition has_saved h' : Prop :=
  log_inv h' ∧ logged h' = logged h ++ [e] ∧ (unsent h → unsent h')
  ∧ refusals h' = refusals h ∧ posts h' (R.(r_apply) 0 s e) next evs.

Lemma has_saved_save h2 ts :
  quiet h h2 → has_saved (h2 ++ [Ev (SaveSwapEvent ts e) (Ok ())]).
Proof.
  intros Hq. pose proof Hq as (HL2 & Hu2 & Hr2 & tr & Htr).
  destruct Hposts as (Hget & Hnext & Hearly & Hfail & Hrest).
  assert (R.(r_ready) h (R.(r_apply) 0 s e) (R.(r_get_command) e)) as Hready
    by (destruct Hget as [<-|[_ ?]]; auto).
  assert (logged (h2 ++ [Ev (SaveSwapEvent ts e) (Ok ())]) = logged h ++ [e]) as HL3
    by by rewrite logged_app, HL2.
  split_and!; [|done|..].
  - apply (inv_snoc h _ e); try done.
    { rewrite Hs in Hfail. by eapply (law_fits_restored R). }
    rewrite Hs, <-replayed_snoc in Hready. rewrite Htr, <-app_assoc.
    apply (law_ready_mono R). by eapply (law_ready_restored R).
  - intros. apply unsent_snoc; [by apply Hu2|done].
  - rewrite refusals_app, Hr2. cbn. lia.
  - apply posts_mono. by eapply posts_quiet.
Qed.

Lemma has_saved_quiet h3 h' : has_saved h3 → quiet h3 h' → has_saved h'.
Proof.
  intros (Hi & HL & Hu & Hr & Hp) Hq. pose proof Hq as (HL' & Hu' & Hr' & tr & ->).
  split_and!; [by apply log_inv_mono|congruence|auto|congruence|by eapply posts_quiet].
Qed.

Lemma save_event_safe :
  safe call_inv h (R.(r_save) s e) (λ h' o,
    match o with
    | Val _ => has_saved h'
    | Panicked => saved_post b next (e :: evs) h h' Panicked
    | Starved => False
    end).
Proof.
  pose proof (law_save R h s e) as Hsafe.
  apply (safe_inv _ (λ h', quiet h h' ∨ has_saved h')) in Hsafe; [|clear Hsafe..].
  - eapply safe_mono; [| |exact Hsafe]; cbn.
    + intros h' k [HJ [Hk _]]. apply loop_call_inv; [|done].
      destruct HJ as [Hq|[Hi _]]; [by eapply quiet_inv|by right].
    + intros h' [now| |] [_ Hd]; [|destruct Hd as (h1 & ts & err & Hq & ->)|done].
      { destruct Hd as (h1 & ts & Hq & Hq'). eapply has_saved_quiet; [|done]. by apply has_saved_save. }
      pose proof (quiet_snoc h h1 (SaveSwapEvent ts e) (Err err) eq_refl eq_refl Hq) as Hq3.
      split_and!; [by eapply quiet_inv|apply Hq3..|]. exists ts, e, err. by rewrite last_snoc.
  - intros h' k x HJ [Hk Hsave]. destruct (is_save k) eqn:Ek.
    + destruct (Hsave eq_refl) as (Hq & ts & ->). destruct x as [[]|err].
      * right. by apply has_saved_save.
      * left. by apply quiet_snoc.
    + destruct HJ as [Hq|Hsv]; [left|right].
      * apply quiet_snoc; auto using saved_of_not_save.
      * eapply has_saved_quiet; [done|]. apply quiet_snoc; auto using saved_of_not_save, quiet_refl.
  - left. apply quiet_refl.
Qed.

End one_event.

Lemma save_events_safe b next evs h s :
  s = replayed b (logged h) → inv h → posts h s next evs →
  (logged h = [] → ∃ e, evs = [e] ∧ R.(r_first) e) →
  (logged h = [] ∨ Forall (λ e, R.(r_is_started) e = false) evs) →
  (logged h = [] ∨ ∃ c, leads_last (logged h) (Some c) ∧ (c = finish ↔ next = None)) →
  last_alone R next evs ∨ evs = [] →
  safe call_inv h (save_events R.(r_apply) R.(r_save) s evs) (saved_post b next evs h).
Proof.
  revert h s; induction evs as [|e evs IH]; intros h s Hs Hinv Hposts Hfirst Hst Hlast Halone.
  { cbn. split_and!; [done..|by rewrite app_nil_r|]. intros _. by rewrite Hs. }
  pose proof Hposts as (Hget & _).
  assert (e = finished ↔ next = None) as Hfin.
  { split; [intros ->; by apply finished_leads|intros ->; by apply leads_None]. }
  cbn [save_events]. apply safe_bind.
  eapply safe_mono; [done| |apply (save_event_safe b next e evs h s)]; [|done..| | |].
  - intros h' [now| |] Hsv; [|done..]. pose proof Hsv as (Hi' & HL' & Hu' & Hr' & Hp').
    assert (next ≠ None → R.(r_apply) now s e = replayed b (logged h')) as Hs'.
    { intros Hn. rewrite HL', replayed_snoc, <-Hs. apply (law_clock R). by rewrite Hfin. }
    destruct evs as [|e2 evs]; [cbn; split_and!; [by right|done..]|].
    destruct Halone as [Ha|]; [|done].
    assert (next ≠ None ∧ next ≠ Some finish) as [Hn1 Hn2].
    { split; intros Hn; specialize (Ha (ltac:(auto))); done. }
    eapply safe_mono; [done| |apply (IH h' (R.(r_apply) now s e))].
    + intros h4 o (Hi4 & Hu4 & Hr4 & Ho). split_and!; [done|auto|congruence|].
      destruct o; [|done..]. by rewrite HL', <-app_assoc in Ho.
    + by apply Hs'.
    + by right.
    + rewrite (law_clock R now 0); [done|]. by rewrite Hfin.
    + rewrite HL'. by destruct (logged h).
    + right. destruct Hst as [HL|Hst]; [|by inversion Hst].
      destruct (Hfirst HL) as (? & [=] & _).
    + right. destruct next as [c|]; [|done]. exists c. split; [|naive_solver].
      exists e. by rewrite HL', last_snoc.
    + left. intros [?|?]; congruence.
  - intros HL. by destruct (Hfirst HL) as (? & [= -> ->] & ?).
  - destruct Hst as [?|Hst]; [by left|right]. by inversion Hst.
  - destruct Hlast as [?|(c & ? & Hc)]; [by left|right]. exists c. split; [done|]. by rewrite Hfin.
Qed.

(** What a run of the loop leaves: the invariant, and a finished log unless a
    save failed, a handler panicked or a bound was met. *)
Definition drive_post (n fuel : nat) c h h' (o : outcome S) : Prop :=
  inv h' ∧
  match o with
  | Val _ => last (logged h') = Some finished
  | Panicked => save_failed h' ∨ R.(r_may_panic) h'
  | Starved => (n + R.(r_rank) c ≤ R.(r_rank) finish)%nat ∨ (refusals h + fuel ≤ refusals h')%nat
  end.

(** Between a handler and the next command. *)
Lemma step_saved b h h1 h2 s s2 c next evs fuel :
  running R b h s c → handler_keeps c h h1 → step_post R s fuel c h h1 (Val (next, evs)) →
  saved_post b next evs h1 h2 (Val s2) →
  log_inv h2 ∧ leads_last (logged h2) next ∧ (∀ c', next = Some c' → running R b h2 s2 c').
Proof.
  intros (_ & _ & Hun) (HL1 & _ & Hu1) (Hne & Hposts & Hup & _) (Hi2 & Hu2 & _ & HL2 & Hs2).
  assert (leads_last (logged h2) next) as Hl by (rewrite HL2; by eapply posts_last).
  assert (log_inv h2) as Hli.
  { destruct Hi2 as [HL|]; [|done]. rewrite HL in HL2. by destruct evs, (logged h1). }
  split_and!; [done..|]. intros c' ->. cbn in Hup. split_and!; [by apply Hs2|by right|].
  intros -> Hr. apply Hu2, Hu1; [lia|]. apply Hun; [done|lia].
Qed.

Lemma drive_safe n fuel b h s c :
  running R b h s c →
  safe call_inv h (drive R.(r_apply) R.(r_save) R.(r_handle) n fuel s c) (drive_post n fuel c h).
Proof.
  revert b h s c; induction n as [|n IH]; intros b h s c Hrun.
  { split; [by eapply running_inv|]. left. apply (law_rank R). }
  cbn [drive]. apply safe_bind.
  eapply safe_mono; [done| |by apply (handler_run b h s c fuel)].
  intros h1 [[next evs]| |] (Hkeep & Hi1 & Hpost); [|split; [done|by right]..].
  pose proof Hpost as (Hne & Hposts & Hup & Halone & Hfirst & Hrest).
  pose proof Hrun as (Hs & Hc & _). pose proof Hkeep as (HL1 & [tr Htr] & _). apply safe_bind.
  eapply safe_mono; [done| |apply (save_events_safe b next evs h1 s)]; [..|by left].
  - intros h2 [s2| |] Hsv; [|destruct Hsv as (? & _ & _ & ?); split; [done|by left]|by destruct Hsv as (_ & _ & _ & [])].
    destruct (step_saved _ _ _ _ _ _ _ _ _ _ Hrun Hkeep Hpost Hsv) as (Hli & Hl & Hnext).
    destruct Hsv as (Hi2 & _ & Hr2 & _). destruct next as [c'|]; cbn [fst].
    + eapply safe_mono; [done| |apply (IH b h2 s2 c'); by apply Hnext].
      intros h3 o [Hi3 Ho3]. split; [done|]. destruct o; [done..|]. cbn in Hup.
      pose proof (refusals_prefix h tr). rewrite Htr in Hr2. destruct Ho3; [left; lia|right; lia].
    + split; [by apply loop_call_inv; [right|]|]. intros r. cbn [safe].
      assert (logged (h2 ++ [Ev BroadcastMySwapStatus r]) = logged h2) as HL3 by by rewrite logged_snoc.
      split; [by apply inv_mono|]. rewrite HL3. destruct Hl as (e & He & ->%leads_None). done.
  - by rewrite HL1.
  - done.
  - done.
  - rewrite HL1. intros HL. apply Hfirst. destruct Hc as [(_ & ? & _)|[_ (e & He & _)]]; [done|].
    by rewrite HL in He.
  - rewrite HL1. destruct Hc as [[? _]|[_ Hl]]; [by left|right]. apply Hrest. intros ->.
    by apply leads_last_not_start in Hl.
  - rewrite HL1. destruct Hc as [[? _]|[_ Hl]]; [by left|right]. exists c. split; [done|].
    split; [|intros ->; done]. intros ->. destruct next as [c'|]; [|done]. cbn in Hup.
    pose proof (law_rank R c'). lia.
Qed.

Lemma running_quiet b h h' s c : quiet h h' → running R b h s c → running R b h' s c.
Proof.
  intros (HL & Hu & _ & tr & ->) (Hs & Hc & Hun). split_and!; [by rewrite HL| |auto].
  rewrite HL. destruct Hc as [?|[? ?]]; [by left|right]. split; [by apply log_inv_mono|done].
Qed.

(** What a process leaves. *)
Definition run_post (n fuel : nat) h h' (o : outcome unit) : Prop :=
  inv h' ∧
  match o with
  | Val _ => last (logged h') = Some finished ∨ logged h' = logged h
  | Panicked => save_failed h' ∨ R.(r_may_panic) h'
  | Starved => (n ≤ R.(r_rank) finish)%nat ∨ (refusals h + fuel ≤ refusals h')%nat
  end.

Lemma locked_safe go h Q :
  inv h →
  (∀ h', quiet h h' → safe call_inv h' go Q) → (∀ h', quiet h h' → Q h' (Val ())) →
  safe call_inv h (locked go) Q.
Proof.
  intros Hinv Hgo Hret.
  assert (∀ h' k, quiet h h' → loop_call k = true → call_inv h' k) as Hcall.
  { intros h' k Hq Hl. apply loop_call_inv; [by eapply quiet_inv|done]. }
  unfold locked. pose proof (quiet_refl h) as Hq0.
  split; [by apply Hcall|]. intros l1.
  pose proof (quiet_snoc h _ LockSwap l1 eq_refl eq_refl Hq0) as Hq1.
  destruct l1 as [[]|]; [by apply Hgo| |by apply Hret].
  split; [by apply Hcall|]. intros u.
  pose proof (quiet_snoc h _ (Sleep 40) u eq_refl eq_refl Hq1) as Hq2.
  split; [by apply Hcall|]. intros l2.
  pose proof (quiet_snoc h _ LockSwap l2 eq_refl eq_refl Hq2) as Hq3.
  destruct l2 as [[]|]; [by apply Hgo|by apply Hret..].
Qed.

Lemma run_safe n fuel prepared h :
  inv h →
  (∀ s c, prepared = Some (s, c) → ∃ b, running R b h s c) →
  safe call_inv h (run_role R n fuel prepared) (run_post n fuel h).
Proof.
  intros Hinv Hprep. apply locked_safe; [done| |].
  - intros h' Hq. destruct prepared as [[s c]|].
    + destruct (Hprep s c eq_refl) as [b Hr]. apply (running_quiet _ _ h') in Hr; [|done].
      apply safe_bind. eapply safe_mono; [done| |by apply (drive_safe n fuel b)].
      intros h2 [s2| |] [Hi Ho]; (split; [done|]); [by left|done|].
      destruct Hq as (_ & _ & <- & _). destruct Ho; [left; lia|by right].
    + split; [by eapply quiet_inv|]. right. by destruct Hq.
  - intros h' Hq. split; [by eapply quiet_inv|]. right. by destruct Hq.
Qed.

Lemma new_safe n fuel :
  safe call_inv [] (run_role R n fuel (Some (R.(r_new), R.(r_start)))) (run_post n fuel []).
Proof.
  apply run_safe; [by left|]. intros s c [= <- <-]. exists true.
  split_and!; [done|by left|]. intros _ _. by apply Forall_nil.
Qed.

(** The replay of a log that is not finished does not read the clock. *)
Lemma replayed_clock now (b : bool) h c :
  log_inv h → last_command (logged h) = Some c →
  foldl (R.(r_apply) now) (if b then R.(r_new) else R.(r_restored)) (logged h)
  = replayed b (logged h).
Proof.
  intros Hi Hc. unfold SwapLoop.replayed. generalize (if b then R.(r_new) else R.(r_restored)).
  assert (Forall (.≠ finished) (logged h)) as HL.
  { apply Forall_forall. intros e (L1 & L2 & HL12)%list_elem_of_split ->.
    destruct L2 as [|e2 L2].
    - rewrite HL12, last_command_snoc, (law_finished R) in Hc. done.
    - destruct (li_wf _ _ Hi L1 finished e2 L2 HL12) as (? & Hf & _). by apply finished_leads in Hf. }
  clear Hi Hc. induction HL as [|e L He HL IH]; intros s; [done|].
  cbn. rewrite (law_clock R now 0 s e) by done. apply IH.
Qed.

Lemma restart_safe n fuel now h :
  inv h → safe call_inv h (run_role R n fuel (R.(r_restart) now h)) (run_post n fuel h).
Proof.
  intros Hinv. apply run_safe; [done|]. intros s c Hp. exists false.
  destruct (law_restart R _ _ _ _ Hinv Hp) as (-> & Hi & Hc).
  split_and!; [by apply (replayed_clock now false h c)| |done]. right. split; [done|by apply last_command_leads].
Qed.

Lemma history_inv h : history R h → inv h.
Proof.
  induction 1 as [n fuel tr Hp|n fuel now h tr Hh IH Hp].
  - eapply (safe_prefix_inv _ inv []); [| |by apply new_safe|done]; by intros ? ? [? _].
  - eapply (safe_prefix_inv _ inv h); [| |by apply restart_safe|done]; by intros ? ? [? _].
Qed.

(** Every call of a history was allowed when it was made. *)
Lemma history_call pre (e : call_event E) post : history R (pre ++ e :: post) → call_inv pre (ev_call e).
Proof.
  intros Hh. remember (pre ++ e :: post) as h eqn:Eh.
  revert pre post Eh; induction Hh as [n fuel tr Hp|n fuel now h tr Hh IH Hp]; intros pre post Eh.
  - rewrite Eh in Hp. by eapply (safe_prefix _ []); [apply new_safe|].
  - apply app_eq_inv in Eh as [(k & -> & Hk)|(k & -> & ->)].
    + destruct k as [|e' k]; cbn in Hk.
      * rewrite app_nil_r in *. rewrite <-Hk in Hp.
        rewrite <-(app_nil_r pre). eapply (safe_prefix _ pre); [|exact Hp].
        apply restart_safe. by apply history_inv.
      * injection Hk as -> Hk. by eapply IH.
    + eapply (safe_prefix _ h); [|exact Hp]. apply restart_safe. by apply history_inv.
Qed.

(** What a process of the swap is started with, after which history. *)
Inductive process : trace E → option (S * C) → Prop :=
| process_new : process [] (Some (R.(r_new), R.(r_start)))
| process_restart h now : history R h → process h (R.(r_restart) now h).

(** A process with enough fuel ends, with the swap finished or nothing saved. *)
Lemma process_ends_with h prepared fuel tr o :
  process h prepared →
  runs (run_role R (Datatypes.S (R.(r_rank) finish)) fuel prepared) tr o →
  (refusals tr < fuel)%nat →
  (o = Val () ∧ (last (logged (h ++ tr)) = Some finished ∨ logged tr = []))
  ∨ (o = Panicked ∧ (save_failed (h ++ tr) ∨ R.(r_may_panic) (h ++ tr))).
Proof.
  intros Hproc Hrun Hfuel.
  assert (safe call_inv h (run_role R (Datatypes.S (R.(r_rank) finish)) fuel prepared)
            (run_post (Datatypes.S (R.(r_rank) finish)) fuel h)) as Hsafe.
  { destruct Hproc as [|h now Hh]; [apply new_safe|]. apply restart_safe; by apply history_inv. }
  destruct (safe_runs _ _ _ _ _ _ Hsafe Hrun) as [_ Ho]. destruct o as [[]| |].
  - left. split; [done|]. destruct Ho as [?|HL]; [by left|right].
    rewrite logged_app in HL. rewrite <-(app_nil_r (logged h)) in HL at 2.
    by apply app_inv_head in HL.
  - by right.
  - rewrite refusals_app in Ho. destruct Ho; lia.
Qed.

(** The state behind a call that is not one of the loop's own. *)
Lemma history_guard pre (e : call_event E) post :
  history R (pre ++ e :: post) → loop_call (ev_call e) = false →
  ∃ b cmd h0, R.(r_call_ok) (replayed b (logged pre)) cmd h0 pre (ev_call e)
    ∧ (b = true → is_send (ev_call e) = true → unsent pre)
    ∧ (cmd = R.(r_start) ∨ (log_inv pre ∧ leads_last (logged pre) (Some cmd))).
Proof.
  intros Hh Hloop. apply history_call in Hh as [_ [?|(b & cmd & h0 & Hok & Hc & Hu)]];
    [congruence|].
  exists b, cmd, h0. split_and!; [done..|]. destruct Hc as [[_ ->]|?]; [by left|by right].
Qed.

(** An event with two more after it does not end the swap. *)
Lemma wf_log_inner L1 e e2 e3 L2 :
  wf_log R (L1 ++ e :: e2 :: e3 :: L2) → R.(r_get_command) e ≠ Some finish.
Proof.
  intros Hwf Hc. destruct (Hwf L1 e e2 (e3 :: L2) eq_refl) as (c & Hc' & He2).
  destruct (Hwf (L1 ++ [e]) e2 e3 L2) as (c2 & Hc2 & _); [by rewrite <-app_assoc|].
  assert (c = finish) as -> by (destruct Hc' as [Hc'|[? _]]; congruence).
  rewrite (proj1 He2 eq_refl) in Hc2. by apply finished_leads in Hc2.
Qed.

(** The last two events of a finished log. *)
Lemma finished_split h :
  log_inv h → ¬ R.(r_first) finished → last (logged h) = Some finished →
  ∃ L t, logged h = L ++ [t; finished] ∧ leads t (Some finish) ∧ R.(r_fits) (replayed true L) t.
Proof.
  intros Hi Hnf Hlast. apply last_Some in Hlast as [L0 HL].
  destruct (li_head _ _ Hi) as (e0 & He0 & Hfirst).
  destruct L0 as [|t L _] using rev_ind.
  { rewrite HL in He0. injection He0 as <-. done. }
  rewrite <-app_assoc in HL. exists L, t. split; [done|].
  destruct (li_wf _ _ Hi L t finished [] HL) as (c & Ht & Hc).
  rewrite (proj2 Hc eq_refl) in Ht. split; [done|]. by eapply (li_fits _ _ Hi).
Qed.

End laws.
