(* ===== verification/SwapSample.v ===== *)
(** * A sample world

    Two UTXO coins, the keys of a node, and the answers an honest counterparty
    and working coins give, on which the properties of both roles are evaluated.
    The hash functions are stand-ins. *)

From Stdlib Require Import ZArith QArith Qcanon.
From S2P Require Import Prelude MmNumber NetConfig DexFee SwapCommon LockedAmounts Effects SwapEnv SwapLoop.
From stdpp Require Import base tactics strings list numbers.

Local Open Scope Z_scope.

Module World.

#[local] Instance externals : Externals := {|
  dhash160 := take 20;
  sha256 := take 32;
  mm_to_decimal q := {| int_val := Qnum q; scale := 0 |}
|}.

Definition key (b : Z) : KeyPair :=
  {| kp_private := replicate 32 (z2b b); kp_public := replicate 33 (z2b b) |}.

Definition ctx : MmCtx := {|
  secp256k1_key_pair := key 2; legacy_passphrase_key_pair := key 3;
  ctx_net_cfg := Netid8762; ctx_gui := None; ctx_mm_version := "test"%string
|}.

Definition coin (tick : string) : SwapCoin := {|
  sc_coin := utxo_standard_coin tick (Q2Qc (1 # 1000000));
  sc_variant := OtherCoin;
  swap_contract_address := None;
  sc_requires_notarization := false;
  get_htlc_key_pair := None;
  own_signing_key_pair := None;
  derives_swap_htlc_key := false;
  derive_swap_htlc_key_pair _ := Err "This coin does not derive a per-swap HTLC key"%string;
  derive_htlc_pubkey := Ok;
  htlc_key_is_random_per_swap := false;
  is_supported_by_watchers := true
|}.

Definition conf_settings : SwapConfirmationsSettings :=
  {| maker_coin_confs := 1; maker_coin_nota := false;
     taker_coin_confs := 2; taker_coin_nota := false |}.

Definition now : Z := 1700000000000.
Definition tx (b : Z) : Transaction := {| tx_hex := [z2b b]; tx_hash := [z2b (b + 1)] |}.
Definition fee (tick : string) : TradeFee :=
  {| tf_coin := tick; tf_amount := Q2Qc (1 # 100000); tf_paid_from_trading_vol := false |}.
Definition secret : bytes := replicate 32 (z2b 5).

(** [locks] is how many lock durations the other side's payment is locked. *)
Definition negotiation_data (start locks : Z) : NegotiationDataMsg := V2 {|
  v2_started_at := start;
  v2_payment_locktime := start + locks * 7800;
  v2_secret_hash := take 20 secret;
  v2_persistent_pubkey := replicate 33 (z2b 9);
  v2_maker_coin_swap_contract := [];
  v2_taker_coin_swap_contract := []
|}.

(** The answers, with the starting time the other side claims. *)
Definition env_at {E} (start : Z) (h : trace E) (c : SwapCall E) : SwapResp c :=
  match c with
  | GetSenderTradeFee MakerCoin _ | GetReceiverTradeFee MakerCoin
  | GetFeeToSendTakerFee MakerCoin _ => Ok (fee "LTC")
  | GetSenderTradeFee TakerCoin _ | GetReceiverTradeFee TakerCoin
  | GetFeeToSendTakerFee TakerCoin _ => Ok (fee "KMD")
  | CurrentBlock _ => Ok 1000
  | NegotiateSwapContractAddr _ _ => Ok None
  | ValidateOtherPubkey _ _ | ValidateFee _ _ | ValidatePayment _ _
  | WaitForConfirmations _ _ _ _ _ _ | CheckBalance _ _ _ | EnsureOwnPaymentWatchable _
  | CheckTakerBalance _ _ _ _ _ => Ok ()
  | TxEnumFromBytes _ payload => Ok {| tx_hex := payload; tx_hash := payload |}
  | CheckIfMyPaymentSent _ _ _ => Ok None
  | SendTakerFee _ _ _ _ => Ok (tx 20)
  | SendPayment _ _ _ => Ok (tx 30)
  | SpendPayment _ _ _ _ _ _ _ => Ok (tx 40)
  | RefundPayment _ _ _ _ _ _ _ => Ok (tx 50)
  | WaitForTxSpend _ _ _ _ _ => Ok (tx 60)
  | CreateMakerPaymentSpendPreimage _ _ _ _ _ => Ok (tx 70)
  | CreateTakerPaymentRefundPreimage _ _ _ _ _ => Ok (tx 80)
  | ExtractSecret _ _ _ => Ok secret
  | SearchForSwapTxSpendMy _ _ _ _ _ | SearchForSwapTxSpendOther _ _ _ _ => Ok None
  | CheckPaymentPaysHtlc _ _ _ _ _ _ => Ok Pays
  | RefundGateClosedNote _ _ => Ok None
  | CanRefund _ _ => Ok CanRefundNow
  | RetriableRefundRejection _ _ => None
  | GenerateSecret => secret
  | NowMs => now
  | RecvSwapMsg s _ =>
      match s return result (slot_type s) string with
      | SlotNegotiation => Ok (negotiation_data start 2)
      | SlotNegotiationReply => Ok (negotiation_data start 1)
      | SlotNegotiated => Ok true
      | SlotTakerFee | SlotMakerPayment | SlotTakerPayment => Ok [z2b 21]
      end
  | LockSwap => Ok true
  | SaveSwapEvent _ _ | BroadcastMySwapStatus => Ok ()
  | Sleep _ | BroadcastEvery _ _ | BroadcastTx _ _ | DispatchStatus _ | BanPubkey _ _
  | BroadcastWatcherMsg _ _ => ()
  end.

Definition env {E} : ∀ (h : trace E) (c : SwapCall E), SwapResp c :=
  env_at (now / 1000 + 3).

End World.
