(* ===== verification/MakerSwap.v ===== *)
(** * The maker's swap

    [mm2_main/src/lp_swap/maker_swap.rs]: the state of a maker swap, the events
    it saves, the handler of every command, the restart from a saved log and
    the loop that drives a swap to its end.  A handler is a program over
    [SwapCall] that returns the next command and the events to save, exactly as
    the method of [MakerSwap] it models; a message field of an event is the
    text the code builds. *)

From Stdlib Require Import ZArith Qcanon.
From S2P Require Import Prelude MmNumber NetConfig DexFee SwapCommon LockedAmounts Effects SwapEnv SwapLoop.
From stdpp Require Import base tactics strings list numbers pretty.
From coqutil Require Import Datatypes.RecordSettersUsingExistingGetters.

Local Open Scope Z_scope.

Definition MAKER_SUCCESS_EVENTS : list string := [
  "Started"; "Negotiated"; "MakerPaymentInstructionsReceived"; "TakerFeeValidated";
  "MakerPaymentSent"; "TakerPaymentReceived"; "TakerPaymentWaitConfirmStarted";
  "TakerPaymentValidatedAndConfirmed"; "TakerPaymentSpent";
  "TakerPaymentSpendConfirmStarted"; "TakerPaymentSpendConfirmed";
  "MakerPaymentRefundStarted"; "MakerPaymentRefundFinished"; "Finished"]%string.

Definition MAKER_ERROR_EVENTS : list string := [
  "StartFailed"; "NegotiateFailed"; "TakerFeeValidateFailed";
  "MakerPaymentTransactionFailed"; "MakerPaymentDataSendFailed";
  "MakerPaymentWaitConfirmFailed"; "TakerPaymentValidateFailed";
  "TakerPaymentWaitConfirmFailed"; "TakerPaymentSpendFailed";
  "TakerPaymentSpendConfirmFailed"; "MakerPaymentWaitRefundStarted";
  "MakerPaymentRefunded"; "MakerPaymentRefundFailed"]%string.

(** ** Data *)

Record TakerNegotiationData := {
  tn_taker_payment_locktime : Z;
  tn_taker_pubkey : bytes;
  tn_maker_coin_swap_contract_addr : option bytes;
  tn_taker_coin_swap_contract_addr : option bytes;
  tn_maker_coin_htlc_pubkey : option bytes;
  tn_taker_coin_htlc_pubkey : option bytes
}.

Definition other_maker_coin_htlc_pub (d : TakerNegotiationData) : bytes :=
  default d.(tn_taker_pubkey) d.(tn_maker_coin_htlc_pubkey).
Definition other_taker_coin_htlc_pub (d : TakerNegotiationData) : bytes :=
  default d.(tn_taker_pubkey) d.(tn_taker_coin_htlc_pubkey).

Record MakerSwapData := {
  d_taker_coin : string;
  d_maker_coin : string;
  d_taker : bytes;
  d_secret : bytes;
  d_secret_hash : option bytes;
  d_my_persistent_pub : bytes;
  d_lock_duration : Z;
  d_maker_amount : BigDecimal;
  d_taker_amount : BigDecimal;
  d_maker_payment_confirmations : Z;
  d_maker_payment_requires_nota : option bool;
  d_taker_payment_confirmations : Z;
  d_taker_payment_requires_nota : option bool;
  d_maker_payment_lock : Z;
  d_uuid : Uuid;
  d_started_at : Z;
  d_maker_coin_start_block : Z;
  d_taker_coin_start_block : Z;
  d_maker_payment_trade_fee : option SavedTradeFee;
  d_taker_payment_spend_trade_fee : option SavedTradeFee;
  d_maker_coin_swap_contract_address : option bytes;
  d_taker_coin_swap_contract_address : option bytes;
  d_maker_coin_htlc_privkey : option KeyPair;
  d_maker_coin_htlc_pubkey : option bytes;
  d_taker_coin_htlc_privkey : option KeyPair;
  d_taker_coin_htlc_pubkey : option bytes;
  d_p2p_privkey : option KeyPair
}.

Definition MakerSwapData_default : MakerSwapData := {|
  d_taker_coin := EmptyString; d_maker_coin := EmptyString;
  d_taker := zero_bytes 32; d_secret := zero_bytes 32; d_secret_hash := None;
  d_my_persistent_pub := zero_bytes 33; d_lock_duration := 0;
  d_maker_amount := zero_decimal; d_taker_amount := zero_decimal;
  d_maker_payment_confirmations := 0; d_maker_payment_requires_nota := None;
  d_taker_payment_confirmations := 0; d_taker_payment_requires_nota := None;
  d_maker_payment_lock := 0; d_uuid := 0; d_started_at := 0;
  d_maker_coin_start_block := 0; d_taker_coin_start_block := 0;
  d_maker_payment_trade_fee := None; d_taker_payment_spend_trade_fee := None;
  d_maker_coin_swap_contract_address := None; d_taker_coin_swap_contract_address := None;
  d_maker_coin_htlc_privkey := None; d_maker_coin_htlc_pubkey := None;
  d_taker_coin_htlc_privkey := None; d_taker_coin_htlc_pubkey := None;
  d_p2p_privkey := None
|}.

Inductive MakerSwapCommand :=
| CStart | CNegotiate | CWaitForTakerFee | CSendPayment | CWaitForTakerPayment
| CValidateTakerPayment | CSpendTakerPayment | CConfirmTakerPaymentSpend
| CRefundMakerPayment | CFinish.

#[global] Instance MakerSwapCommand_eq_dec : EqDecision MakerSwapCommand.
Proof. solve_decision. Defined.

Notation SwapError := string.

(** The instructions of a historical log are kept as their JSON text. *)
Inductive MakerSwapEvent :=
| Started (d : MakerSwapData)
| StartFailed (e : SwapError)
| NegotiatedEv (d : TakerNegotiationData)
| NegotiateFailed (e : SwapError)
| MakerPaymentInstructionsReceived (instructions : option string)
| TakerFeeValidated (tx : TransactionIdentifier)
| TakerFeeValidateFailed (e : SwapError)
| MakerPaymentSent (tx : TransactionIdentifier)
| MakerPaymentTransactionFailed (e : SwapError)
| MakerPaymentDataSendFailed (e : SwapError)
| MakerPaymentWaitConfirmFailed (e : SwapError)
| TakerPaymentReceived (tx : TransactionIdentifier)
| TakerPaymentWaitConfirmStarted
| TakerPaymentValidatedAndConfirmed
| TakerPaymentValidateFailed (e : SwapError)
| TakerPaymentWaitConfirmFailed (e : SwapError)
| TakerPaymentSpent (tx : TransactionIdentifier)
| TakerPaymentSpendFailed (e : SwapError)
| TakerPaymentSpendConfirmStarted
| TakerPaymentSpendConfirmed
| TakerPaymentSpendConfirmFailed (e : SwapError)
| MakerPaymentWaitRefundStarted (wait_until : Z)
| MakerPaymentRefundStarted
| MakerPaymentRefunded (tx : TransactionIdentifier)
| MakerPaymentRefundFailed (e : SwapError)
| MakerPaymentRefundFinished
| Finished.

(** ** State *)

Record MakerSwapMut := {
  m_data : MakerSwapData;
  m_other_maker_coin_htlc_pub : bytes;
  m_other_taker_coin_htlc_pub : bytes;
  m_taker_fee : option TransactionIdentifier;
  m_maker_payment : option TransactionIdentifier;
  m_taker_payment : option TransactionIdentifier;
  m_taker_payment_spend : option TransactionIdentifier;
  m_taker_payment_spend_confirmed : bool;
  m_maker_payment_refund : option TransactionIdentifier;
  m_my_maker_coin_htlc_keypair : KeyPair;
  m_my_taker_coin_htlc_keypair : KeyPair;
  m_my_maker_coin_htlc_pub : bytes;
  m_my_taker_coin_htlc_pub : bytes
}.

Record MakerSwap := {
  s_ctx : MmCtx;
  s_maker_coin : SwapCoin;
  s_taker_coin : SwapCoin;
  s_maker_amount : BigDecimal;
  s_taker_amount : BigDecimal;
  s_my_persistent_pub : bytes;
  s_node_key_pair : KeyPair;
  s_taker : bytes;
  s_uuid : Uuid;
  s_my_order_uuid : option Uuid;
  s_taker_payment_lock : Z;
  s_taker_payment_confirmed : bool;
  s_errors : list SwapError;
  s_finished_at : Z;
  s_mutable : MakerSwapMut;
  s_conf_settings : SwapConfirmationsSettings;
  s_payment_locktime : Z;
  s_p2p_privkey : option KeyPair;
  s_started_in_this_process : bool
}.

(** ** Construction and events *)

Section maker.
Context `{Externals}.

Definition new (ctx : MmCtx) (taker : bytes) (maker_amount taker_amount : BigDecimal)
    (node_key_pair : KeyPair) (uuid : Uuid) (my_order_uuid : option Uuid)
    (conf_settings : SwapConfirmationsSettings) (maker_coin taker_coin : SwapCoin)
    (payment_locktime : Z) (p2p_privkey : option KeyPair) : MakerSwap := {|
  s_ctx := ctx;
  s_maker_coin := maker_coin;
  s_taker_coin := taker_coin;
  s_maker_amount := maker_amount;
  s_taker_amount := taker_amount;
  s_my_persistent_pub := h264 node_key_pair.(kp_public);
  s_node_key_pair := node_key_pair;
  s_taker := taker;
  s_uuid := uuid;
  s_my_order_uuid := my_order_uuid;
  s_taker_payment_lock := 0;
  s_taker_payment_confirmed := false;
  s_errors := [];
  s_finished_at := 0;
  s_mutable := {|
    m_data := MakerSwapData_default;
    m_other_maker_coin_htlc_pub := zero_bytes 33;
    m_other_taker_coin_htlc_pub := zero_bytes 33;
    m_taker_fee := None;
    m_maker_payment := None;
    m_taker_payment := None;
    m_taker_payment_spend := None;
    m_taker_payment_spend_confirmed := false;
    m_maker_payment_refund := None;
    m_my_maker_coin_htlc_keypair := node_key_pair;
    m_my_taker_coin_htlc_keypair := node_key_pair;
    m_my_maker_coin_htlc_pub := h264 node_key_pair.(kp_public);
    m_my_taker_coin_htlc_pub := h264 node_key_pair.(kp_public)
  |};
  s_conf_settings := conf_settings;
  s_payment_locktime := payment_locktime;
  s_p2p_privkey := p2p_privkey;
  s_started_in_this_process := false
|}.

Definition maker_htlc_key_input (d : MakerSwapData) : bytes :=
  default (dhash160 d.(d_secret)) d.(d_secret_hash).

Definition wait_refund_until (s : MakerSwap) : Z :=
  u64 (s.(s_mutable).(m_data).(d_maker_payment_lock) + 3700).

Definition push_error (s : MakerSwap) (e : SwapError) : MakerSwap :=
  s <| s_errors ::= (λ l, l ++ [e]) |>.

Definition apply_started (s : MakerSwap) (data : MakerSwapData) : MakerSwap :=
  let swap_unique_input := maker_htlc_key_input data in
  let s :=
    match restored_htlc_key_pair s.(s_maker_coin) swap_unique_input
            data.(d_maker_coin_htlc_privkey) data.(d_maker_coin_htlc_pubkey) with
    | Some keypair => s <| s_mutable ::= (λ m, m <| m_my_maker_coin_htlc_keypair := keypair |>) |>
    | None => s
    end in
  let s :=
    match restored_htlc_key_pair s.(s_taker_coin) swap_unique_input
            data.(d_taker_coin_htlc_privkey) data.(d_taker_coin_htlc_pubkey) with
    | Some keypair => s <| s_mutable ::= (λ m, m <| m_my_taker_coin_htlc_keypair := keypair |>) |>
    | None => s
    end in
  let my_maker_coin_htlc_pub :=
    default (h264 s.(s_mutable).(m_my_maker_coin_htlc_keypair).(kp_public))
      data.(d_maker_coin_htlc_pubkey) in
  let my_taker_coin_htlc_pub :=
    default (h264 s.(s_mutable).(m_my_taker_coin_htlc_keypair).(kp_public))
      data.(d_taker_coin_htlc_pubkey) in
  s <| s_mutable ::= (λ m, m <| m_my_maker_coin_htlc_pub := my_maker_coin_htlc_pub |>) |>
       <| s_mutable ::= (λ m, m <| m_my_taker_coin_htlc_pub := my_taker_coin_htlc_pub |>) |>
       <| s_mutable ::= (λ m, m <| m_data := data |>) |>.

Definition apply_negotiated (s : MakerSwap) (data : TakerNegotiationData) : MakerSwap :=
  let s := s <| s_taker_payment_lock := data.(tn_taker_payment_locktime) |>
       <| s_mutable ::= (λ m, m <| m_other_maker_coin_htlc_pub := other_maker_coin_htlc_pub data |>) |>
       <| s_mutable ::= (λ m, m <| m_other_taker_coin_htlc_pub := other_taker_coin_htlc_pub data |>) |> in
  let s :=
    match data.(tn_maker_coin_swap_contract_addr) with
    | Some _ as a => s <| s_mutable ::= (λ m, m <| m_data ::= (λ d, d <| d_maker_coin_swap_contract_address := a |>) |>) |>
    | None => s
    end in
  match data.(tn_taker_coin_swap_contract_addr) with
  | Some _ as a => s <| s_mutable ::= (λ m, m <| m_data ::= (λ d, d <| d_taker_coin_swap_contract_address := a |>) |>) |>
  | None => s
  end.

(** [now] is the clock [apply_event] reads for [Finished], in milliseconds. *)
Definition apply_event (now : Z) (s : MakerSwap) (event : MakerSwapEvent) : MakerSwap :=
  match event with
  | Started data => apply_started s data
  | StartFailed err => push_error s err
  | NegotiatedEv data => apply_negotiated s data
  | NegotiateFailed err => push_error s err
  | MakerPaymentInstructionsReceived _ => s
  | TakerFeeValidated tx => s <| s_mutable ::= (λ m, m <| m_taker_fee := Some tx |>) |>
  | TakerFeeValidateFailed err => push_error s err
  | MakerPaymentSent tx => s <| s_mutable ::= (λ m, m <| m_maker_payment := Some tx |>) |>
  | MakerPaymentTransactionFailed err => push_error s err
  | MakerPaymentDataSendFailed err => push_error s err
  | MakerPaymentWaitConfirmFailed err => push_error s err
  | TakerPaymentReceived tx => s <| s_mutable ::= (λ m, m <| m_taker_payment := Some tx |>) |>
  | TakerPaymentWaitConfirmStarted => s
  | TakerPaymentValidatedAndConfirmed => s <| s_taker_payment_confirmed := true |>
  | TakerPaymentValidateFailed err => push_error s err
  | TakerPaymentWaitConfirmFailed err => push_error s err
  | TakerPaymentSpent tx => s <| s_mutable ::= (λ m, m <| m_taker_payment_spend := Some tx |>) |>
  | TakerPaymentSpendFailed err => push_error s err
  | TakerPaymentSpendConfirmStarted => s
  | TakerPaymentSpendConfirmed => s <| s_mutable ::= (λ m, m <| m_taker_payment_spend_confirmed := true |>) |>
  | TakerPaymentSpendConfirmFailed err => push_error s err
  | MakerPaymentWaitRefundStarted _ => s
  | MakerPaymentRefundStarted => s
  | MakerPaymentRefunded tx => s <| s_mutable ::= (λ m, m <| m_maker_payment_refund := Some tx |>) |>
  | MakerPaymentRefundFailed err => push_error s err
  | MakerPaymentRefundFinished => s
  | Finished => s <| s_finished_at := now / 1000 |>
  end.

End maker.

(** ** Commands *)

Notation maker_prog := (swap_prog MakerSwapEvent).
Notation step_result := (option MakerSwapCommand * list MakerSwapEvent)%type.
Notation ask c := (call (Resp:=@SwapResp MakerSwapEvent) c).

Section handlers.
Context `{Externals} (s : MakerSwap).

Let r : MakerSwapMut := s.(s_mutable).
Let data : MakerSwapData := r.(m_data).

Definition secret_hash : bytes := default (dhash160 data.(d_secret)) data.(d_secret_hash).

Definition get_my_negotiation_data : NegotiationDataMsg :=
  let maker_coin_swap_contract := default [] s.(s_maker_coin).(swap_contract_address) in
  let taker_coin_swap_contract := default [] s.(s_taker_coin).(swap_contract_address) in
  if bool_decide (r.(m_my_maker_coin_htlc_pub) ≠ r.(m_my_taker_coin_htlc_pub)) then
    V3 {| v3_started_at := data.(d_started_at);
          v3_payment_locktime := data.(d_maker_payment_lock);
          v3_secret_hash := secret_hash;
          v3_maker_coin_swap_contract := maker_coin_swap_contract;
          v3_taker_coin_swap_contract := taker_coin_swap_contract;
          v3_maker_coin_htlc_pub := r.(m_my_maker_coin_htlc_pub);
          v3_taker_coin_htlc_pub := r.(m_my_taker_coin_htlc_pub) |}
  else
    V2 {| v2_started_at := data.(d_started_at);
          v2_payment_locktime := data.(d_maker_payment_lock);
          v2_secret_hash := secret_hash;
          v2_persistent_pubkey := r.(m_my_maker_coin_htlc_pub);
          v2_maker_coin_swap_contract := maker_coin_swap_contract;
          v2_taker_coin_swap_contract := taker_coin_swap_contract |}.

Definition start_failed (e : string) : maker_prog step_result :=
  Ret (Some CFinish, [StartFailed e]).

Definition start : maker_prog step_result :=
  let! maker_payment_trade_fee := ask (GetSenderTradeFee MakerCoin s.(s_maker_amount))
    orelse e => start_failed ("!maker_coin.get_sender_trade_fee " +:+ e) in
  let! taker_payment_spend_trade_fee := ask (GetReceiverTradeFee TakerCoin)
    orelse e => start_failed ("!taker_coin.get_receiver_trade_fee " +:+ e) in
  let! _ := ask (CheckBalance s.(s_maker_amount) maker_payment_trade_fee
                   taker_payment_spend_trade_fee)
    orelse e => start_failed ("!check_balance_for_maker_swap " +:+ e) in
  secret ← ask GenerateSecret;
  started_at ← now_secs;
  let! maker_coin_start_block := ask (CurrentBlock MakerCoin)
    orelse e => start_failed ("!maker_coin.current_block " +:+ e) in
  let! taker_coin_start_block := ask (CurrentBlock TakerCoin)
    orelse e => start_failed ("!taker_coin.current_block " +:+ e) in
  let secret_hash :=
    hash_secret (select_secret_hash_algo s.(s_maker_coin) s.(s_taker_coin)) secret in
  let node_pub := s.(s_node_key_pair).(kp_public) in
  match start_htlc_key_pair s.(s_maker_coin) node_pub secret_hash with
  | Err e => start_failed e
  | Ok (maker_coin_htlc_key_pair, maker_coin_htlc_privkey) =>
  match start_htlc_key_pair s.(s_taker_coin) node_pub secret_hash with
  | Err e => start_failed e
  | Ok (taker_coin_htlc_key_pair, taker_coin_htlc_privkey) =>
  match derive_htlc_pubkeys node_pub s.(s_maker_coin) maker_coin_htlc_key_pair
          s.(s_taker_coin) taker_coin_htlc_key_pair with
  | Err e => start_failed e
  | Ok (maker_coin_htlc_pubkey, taker_coin_htlc_pubkey) =>
  Ret (Some CNegotiate, [Started {|
    d_taker_coin := s.(s_taker_coin).(ticker);
    d_maker_coin := s.(s_maker_coin).(ticker);
    d_taker := s.(s_taker);
    d_secret := secret;
    d_secret_hash := Some secret_hash;
    d_my_persistent_pub := s.(s_my_persistent_pub);
    d_lock_duration := s.(s_payment_locktime);
    d_maker_amount := s.(s_maker_amount);
    d_taker_amount := s.(s_taker_amount);
    d_maker_payment_confirmations := s.(s_conf_settings).(maker_coin_confs);
    d_maker_payment_requires_nota := Some s.(s_conf_settings).(maker_coin_nota);
    d_taker_payment_confirmations := s.(s_conf_settings).(taker_coin_confs);
    d_taker_payment_requires_nota := Some s.(s_conf_settings).(taker_coin_nota);
    d_maker_payment_lock := u64 (started_at + s.(s_payment_locktime) * 2);
    d_uuid := s.(s_uuid);
    d_started_at := started_at;
    d_maker_coin_start_block := maker_coin_start_block;
    d_taker_coin_start_block := taker_coin_start_block;
    d_maker_payment_trade_fee := Some (SavedTradeFee_from maker_payment_trade_fee);
    d_taker_payment_spend_trade_fee := Some (SavedTradeFee_from taker_payment_spend_trade_fee);
    d_maker_coin_swap_contract_address := s.(s_maker_coin).(swap_contract_address);
    d_taker_coin_swap_contract_address := s.(s_taker_coin).(swap_contract_address);
    d_maker_coin_htlc_privkey := maker_coin_htlc_privkey;
    d_maker_coin_htlc_pubkey := Some maker_coin_htlc_pubkey;
    d_taker_coin_htlc_privkey := taker_coin_htlc_privkey;
    d_taker_coin_htlc_pubkey := Some taker_coin_htlc_pubkey;
    d_p2p_privkey := s.(s_p2p_privkey)
  |}])
  end end end.

Definition NEGOTIATION_TIMEOUT : Z := 90.

Definition negotiate_failed (e : string) : maker_prog step_result :=
  Ret (Some CFinish, [NegotiateFailed e]).

Definition negotiate : maker_prog step_result :=
  _ ← ask (BroadcastEvery (Negotiation get_my_negotiation_data) (NEGOTIATION_TIMEOUT / 6));
  let! taker_data := ask (RecvSwapMsg SlotNegotiationReply NEGOTIATION_TIMEOUT)
    orelse e => negotiate_failed e in
  let time_dif := started_at_dif data.(d_started_at) (nd_started_at taker_data) in
  if 60 <? time_dif then
    negotiate_failed ("Started_at time_dif over 60 " +:+ pretty time_dif)
  else
  let expected_lock_time := u64 (nd_started_at taker_data + data.(d_lock_duration)) in
  if negb (nd_payment_locktime taker_data =? expected_lock_time) then
    negotiate_failed ("taker_data.payment_locktime " +:+ pretty (nd_payment_locktime taker_data)
      +:+ " not equal to expected " +:+ pretty expected_lock_time)
  else
  let! maker_coin_swap_contract_addr :=
      ask (NegotiateSwapContractAddr MakerCoin (nd_maker_coin_swap_contract taker_data))
    orelse e => negotiate_failed ("!maker_coin.negotiate_swap_contract_addr " +:+ e) in
  let! taker_coin_swap_contract_addr :=
      ask (NegotiateSwapContractAddr TakerCoin (nd_taker_coin_swap_contract taker_data))
    orelse e => negotiate_failed ("!taker_coin.negotiate_swap_contract_addr " +:+ e) in
  match validate_wire_pubkey (nd_maker_coin_htlc_pub taker_data) "maker_coin_htlc_pub" with
  | Err e => negotiate_failed e
  | Ok _ =>
  match validate_wire_pubkey (nd_taker_coin_htlc_pub taker_data) "taker_coin_htlc_pub" with
  | Err e => negotiate_failed e
  | Ok _ =>
  let! _ := ask (ValidateOtherPubkey MakerCoin (nd_maker_coin_htlc_pub taker_data))
    orelse e => negotiate_failed ("!" +:+ s.(s_maker_coin).(ticker)
                  +:+ ".validate_other_pubkey maker_coin_htlc_pub: " +:+ e) in
  let! _ := ask (ValidateOtherPubkey TakerCoin (nd_taker_coin_htlc_pub taker_data))
    orelse e => negotiate_failed ("!" +:+ s.(s_taker_coin).(ticker)
                  +:+ ".validate_other_pubkey taker_coin_htlc_pub: " +:+ e) in
  maker_pub ← h264_checked (nd_maker_coin_htlc_pub taker_data);
  taker_pub ← h264_checked (nd_taker_coin_htlc_pub taker_data);
  Ret (Some CWaitForTakerFee, [NegotiatedEv {|
    tn_taker_payment_locktime := nd_payment_locktime taker_data;
    tn_taker_pubkey := zero_bytes 33;
    tn_maker_coin_swap_contract_addr := maker_coin_swap_contract_addr;
    tn_taker_coin_swap_contract_addr := taker_coin_swap_contract_addr;
    tn_maker_coin_htlc_pubkey := Some maker_pub;
    tn_taker_coin_htlc_pubkey := Some taker_pub
  |}])
  end end.

Definition TAKER_FEE_RECV_TIMEOUT : Z := 600.

Definition taker_fee_failed (e : string) : maker_prog step_result :=
  Ret (Some CFinish, [TakerFeeValidateFailed e]).

(** The validation of the fee with up to [more] further attempts. *)
Fixpoint validate_fee_loop (more : nat) (args : ValidateFeeArgs)
    (ok : maker_prog step_result) : maker_prog step_result :=
  let! _ := ask (ValidateFee TakerCoin args)
    orelse err =>
      match more with
      | O => taker_fee_failed err
      | S more => _ ← ask (Sleep 10); validate_fee_loop more args ok
      end in
  ok.

Definition expected_dex_fee : DexFee :=
  compute_dex_fee_with_taker_pubkey s.(s_ctx).(ctx_net_cfg) s.(s_taker_coin)
    data.(d_maker_coin) (dec_to_rational s.(s_taker_amount)) r.(m_other_taker_coin_htlc_pub).

Definition wait_taker_fee : maker_prog step_result :=
  _ ← ask (BroadcastEvery (Negotiated true) (TAKER_FEE_RECV_TIMEOUT / 6));
  let! payload := ask (RecvSwapMsg SlotTakerFee TAKER_FEE_RECV_TIMEOUT)
    orelse e => taker_fee_failed e in
  match expected_dex_fee with
  | NoFee =>
      Ret (Some CSendPayment,
           [TakerFeeValidated {| ti_tx_hex := []; ti_tx_hash := [] |}])
  | dex_fee =>
      let! taker_fee := ask (TxEnumFromBytes TakerCoin payload)
        orelse e => taker_fee_failed e in
      validate_fee_loop 3 {|
        fee_tx := taker_fee;
        expected_sender := r.(m_other_taker_coin_htlc_pub);
        fee_addr := s.(s_ctx).(ctx_net_cfg).(dex_fee_addr_raw_pubkey);
        vf_dex_fee := dex_fee;
        min_block_number := data.(d_taker_coin_start_block);
        vf_uuid := s.(s_uuid)
      |} (Ret (Some CSendPayment, [TakerFeeValidated (identifier taker_fee)]))
  end.

Definition payment_failed (e : string) : maker_prog step_result :=
  Ret (Some CFinish, [MakerPaymentTransactionFailed e]).

(** The HTLC of the maker's own payment. *)
Definition my_htlc : HtlcArgs := {|
  ha_time_lock := u32 data.(d_maker_payment_lock);
  ha_my_pub := r.(m_my_maker_coin_htlc_pub);
  ha_other_pub := r.(m_other_maker_coin_htlc_pub);
  ha_secret_hash := secret_hash;
  ha_swap_contract_address := data.(d_maker_coin_swap_contract_address)
|}.

Definition maker_payment : maker_prog step_result :=
  let sent (transaction : Transaction) : maker_prog step_result :=
    Ret (Some CWaitForTakerPayment, [MakerPaymentSent (identifier transaction)]) in
  let! already_sent :=
      (if skips_already_sent_question s.(s_maker_coin) s.(s_started_in_this_process)
            (bool_decide (is_Some r.(m_maker_payment)))
       then Ret (Ok None)
       else ask (CheckIfMyPaymentSent MakerCoin my_htlc data.(d_maker_coin_start_block)))
    orelse e => payment_failed e in
  match already_sent with
  | Some tx => sent tx
  | None =>
      let timeout := u64 (data.(d_started_at) + data.(d_lock_duration) / 3) in
      now ← now_secs;
      if timeout <? now then
        payment_failed ("Timeout " +:+ pretty now +:+ " > " +:+ pretty timeout)
      else
        let! t := ask (SendPayment MakerCoin my_htlc s.(s_maker_amount))
          orelse err => payment_failed (get_plain_text_format err) in
        sent t
  end.

Definition refund_after (e : MakerSwapEvent) : maker_prog step_result :=
  Ret (Some CRefundMakerPayment, [e; MakerPaymentWaitRefundStarted (wait_refund_until s)]).

Definition wait_for_taker_payment : maker_prog step_result :=
  payment ← unwrap r.(m_maker_payment);
  _ ← ask (BroadcastEvery (MakerPayment payment.(ti_tx_hex)) 600);
  let maker_payment_wait_confirm :=
    u64 (data.(d_started_at) + u64 (data.(d_lock_duration) * 2) / 5) in
  let! _ := ask (WaitForConfirmations MakerCoin payment.(ti_tx_hex)
                   data.(d_maker_payment_confirmations)
                   (default false data.(d_maker_payment_requires_nota))
                   maker_payment_wait_confirm WAIT_CONFIRM_INTERVAL)
    orelse err => refund_after (MakerPaymentWaitConfirmFailed
                    ("!wait for maker payment confirmations: " +:+ err)) in
  let wait_duration := u64 (data.(d_lock_duration) * 3) / 5 in
  let! payload := ask (RecvSwapMsg SlotTakerPayment wait_duration)
    orelse e => refund_after (TakerPaymentValidateFailed e) in
  let! taker_payment := ask (TxEnumFromBytes TakerCoin payload)
    orelse err => refund_after (TakerPaymentValidateFailed
                    ("!taker_coin.tx_enum_from_bytes: " +:+ err)) in
  Ret (Some CValidateTakerPayment,
       [TakerPaymentReceived (identifier taker_payment); TakerPaymentWaitConfirmStarted]).

(** Four fifths of the way to the taker's lock time. *)
Definition taker_payment_deadline : Z :=
  u64 (data.(d_started_at) + u64 (data.(d_lock_duration) * 4) / 5).

Definition validate_taker_payment : maker_prog step_result :=
  let confirmations := data.(d_taker_payment_confirmations) in
  payment ← unwrap r.(m_taker_payment);
  let! _ := ask (WaitForConfirmations TakerCoin payment.(ti_tx_hex) confirmations
                   (default false data.(d_taker_payment_requires_nota))
                   taker_payment_deadline WAIT_CONFIRM_INTERVAL)
    orelse err => refund_after (TakerPaymentWaitConfirmFailed
                    ("!taker_coin.wait_for_confirmations: " +:+ err)) in
  let! _ := ask (ValidatePayment TakerCoin {|
      payment_tx := payment.(ti_tx_hex);
      time_lock := u32 s.(s_taker_payment_lock);
      taker_pub := r.(m_other_taker_coin_htlc_pub);
      maker_pub := r.(m_my_taker_coin_htlc_pub);
      vp_secret_hash := secret_hash;
      vp_amount := s.(s_taker_amount);
      vp_swap_contract_address := data.(d_taker_coin_swap_contract_address);
      try_spv_proof_until := taker_payment_deadline;
      vp_confirmations := confirmations |})
    orelse e => refund_after (TakerPaymentValidateFailed
                  ("!taker_coin.validate_taker_payment: " +:+ e)) in
  Ret (Some CSpendTakerPayment, [TakerPaymentValidatedAndConfirmed]).

Definition spend_taker_payment : maker_prog step_result :=
  now ← now_secs;
  if taker_payment_deadline <? now then
    refund_after (TakerPaymentSpendFailed
      ("Timeout " +:+ pretty now +:+ " > " +:+ pretty taker_payment_deadline))
  else
  payment ← unwrap r.(m_taker_payment);
  let! transaction := ask (SpendPayment TakerCoin payment.(ti_tx_hex)
                             (u32 s.(s_taker_payment_lock)) r.(m_other_taker_coin_htlc_pub)
                             data.(d_secret)
                             r.(m_my_taker_coin_htlc_keypair).(kp_private)
                             data.(d_taker_coin_swap_contract_address))
    orelse err =>
      _ ← (match get_tx err with
           | Some tx => ask (BroadcastTx TakerCoin tx)
           | None => Ret ()
           end);
      refund_after (TakerPaymentSpendFailed
        ("!taker_coin.send_maker_spends_taker_payment: " +:+ get_plain_text_format err)) in
  _ ← ask (BroadcastTx TakerCoin transaction);
  Ret (Some CConfirmTakerPaymentSpend,
       [TakerPaymentSpent (identifier transaction); TakerPaymentSpendConfirmStarted]).

Definition confirm_taker_payment_spend : maker_prog step_result :=
  spend ← unwrap r.(m_taker_payment_spend);
  let! _ := ask (WaitForConfirmations TakerCoin spend.(ti_tx_hex)
                   (Z.min 1 data.(d_taker_payment_confirmations)) false
                   (wait_refund_until s) WAIT_CONFIRM_INTERVAL)
    orelse err => refund_after (TakerPaymentSpendConfirmFailed
                    ("!wait for taker payment spend confirmations: " +:+ err)) in
  Ret (Some CFinish, [TakerPaymentSpendConfirmed]).

(** The two nested loops of the refund: the gate [can_refund_htlc], and the
    return to it after a rejection that is retried.  [fuel] bounds the number of
    questions asked at the gate. *)
Fixpoint refund_maker_payment_retrying (fuel : nat) (non_final_retry_secs : Z)
    : maker_prog step_result :=
  match fuel with
  | O => NoFuel
  | S fuel =>
      gate ← ask (CanRefund MakerCoin data.(d_maker_payment_lock));
      match gate with
      | Ok (HaveToWait to_sleep) =>
          _ ← ask (Sleep to_sleep);
          refund_maker_payment_retrying fuel non_final_retry_secs
      | Err _ =>
          _ ← ask (Sleep 30);
          refund_maker_payment_retrying fuel non_final_retry_secs
      | Ok CanRefundNow =>
          payment ← unwrap r.(m_maker_payment);
          let! transaction := ask (RefundPayment MakerCoin payment.(ti_tx_hex)
                                     (u32 data.(d_maker_payment_lock))
                                     r.(m_other_maker_coin_htlc_pub) secret_hash
                                     r.(m_my_maker_coin_htlc_keypair).(kp_private)
                                     data.(d_maker_coin_swap_contract_address))
            orelse err =>
              let rejection := get_plain_text_format err in
              now ← now_secs;
              retried ← retried_refund_rejection MakerCoin rejection now (wait_refund_until s);
              match retried with
              | Some _ =>
                  _ ← ask (Sleep non_final_retry_secs);
                  refund_maker_payment_retrying fuel non_final_retry_secs
              | None =>
                  _ ← (match get_tx err with
                       | Some tx => ask (BroadcastTx MakerCoin tx)
                       | None => Ret ()
                       end);
                  Ret (Some CFinish, [MakerPaymentRefundFailed
                    ("!maker_coin.send_maker_refunds_payment: " +:+ rejection)])
              end in
          _ ← ask (BroadcastTx MakerCoin transaction);
          Ret (Some CFinish, [MakerPaymentRefunded (identifier transaction)])
      end
  end.

Definition refund_maker_payment (fuel : nat) : maker_prog step_result :=
  refund_maker_payment_retrying fuel NON_FINAL_REFUND_RETRY_SECS.

Definition handle_command (fuel : nat) (command : MakerSwapCommand) : maker_prog step_result :=
  match command with
  | CStart => start
  | CNegotiate => negotiate
  | CWaitForTakerFee => wait_taker_fee
  | CSendPayment => maker_payment
  | CWaitForTakerPayment => wait_for_taker_payment
  | CValidateTakerPayment => validate_taker_payment
  | CSpendTakerPayment => spend_taker_payment
  | CConfirmTakerPaymentSpend => confirm_taker_payment_spend
  | CRefundMakerPayment => refund_maker_payment fuel
  | CFinish => Ret (None, [Finished])
  end.

End handlers.

(** ** The saved log *)

Definition status_str (e : MakerSwapEvent) : string :=
  match e with
  | Started _ => "Started..."
  | StartFailed _ => "Start failed..."
  | NegotiatedEv _ => "Negotiated..."
  | NegotiateFailed _ => "Negotiate failed..."
  | MakerPaymentInstructionsReceived _ => "Maker payment instructions obtained..."
  | TakerFeeValidated _ => "Taker fee validated..."
  | TakerFeeValidateFailed _ => "Taker fee validate failed..."
  | MakerPaymentSent _ => "Maker payment sent..."
  | MakerPaymentTransactionFailed _ => "Maker payment failed..."
  | MakerPaymentDataSendFailed _ => "Maker payment failed..."
  | MakerPaymentWaitConfirmFailed _ => "Maker payment wait for confirmation failed..."
  | TakerPaymentReceived _ => "Taker payment received..."
  | TakerPaymentWaitConfirmStarted => "Taker payment wait confirm started..."
  | TakerPaymentValidatedAndConfirmed => "Taker payment validated and confirmed..."
  | TakerPaymentValidateFailed _ => "Taker payment validate failed..."
  | TakerPaymentWaitConfirmFailed _ => "Taker payment wait for confirmation failed..."
  | TakerPaymentSpent _ => "Taker payment spent..."
  | TakerPaymentSpendFailed _ => "Taker payment spend failed..."
  | TakerPaymentSpendConfirmStarted => "Taker payment send wait confirm started..."
  | TakerPaymentSpendConfirmed => "Taker payment spend confirmed..."
  | TakerPaymentSpendConfirmFailed _ => "Taker payment spend confirm failed..."
  | MakerPaymentWaitRefundStarted wait_until =>
      "Maker payment wait refund till " +:+ pretty wait_until +:+ " started..."
  | MakerPaymentRefundStarted => "Maker payment refund started..."
  | MakerPaymentRefunded _ => "Maker payment refunded..."
  | MakerPaymentRefundFailed _ => "Maker payment refund failed..."
  | MakerPaymentRefundFinished => "Maker payment refund finished..."
  | Finished => "Finished"
  end%string.

Definition should_ban_taker (e : MakerSwapEvent) : bool :=
  match e with
  | TakerFeeValidateFailed _ | TakerPaymentValidateFailed _ => true
  | _ => false
  end.

Definition is_success (e : MakerSwapEvent) : bool :=
  match e with
  | Started _ | NegotiatedEv _ | MakerPaymentInstructionsReceived _ | TakerFeeValidated _
  | MakerPaymentSent _ | TakerPaymentReceived _ | TakerPaymentWaitConfirmStarted
  | TakerPaymentValidatedAndConfirmed | TakerPaymentSpent _
  | TakerPaymentSpendConfirmStarted | TakerPaymentSpendConfirmed
  | MakerPaymentRefundStarted | MakerPaymentRefundFinished | Finished => true
  | _ => false
  end.

Definition is_error (e : MakerSwapEvent) : bool := negb (is_success e).

Record MakerSavedEvent := { se_timestamp : Z; se_event : MakerSwapEvent }.

(** The next command after a restart. *)
Definition get_command (e : MakerSwapEvent) : option MakerSwapCommand :=
  match e with
  | Started _ => Some CNegotiate
  | StartFailed _ => Some CFinish
  | NegotiatedEv _ => Some CWaitForTakerFee
  | NegotiateFailed _ => Some CFinish
  | MakerPaymentInstructionsReceived _ => Some CWaitForTakerFee
  | TakerFeeValidated _ => Some CSendPayment
  | TakerFeeValidateFailed _ => Some CFinish
  | MakerPaymentSent _ => Some CWaitForTakerPayment
  | MakerPaymentTransactionFailed _ => Some CFinish
  | MakerPaymentDataSendFailed _ => Some CRefundMakerPayment
  | MakerPaymentWaitConfirmFailed _ => Some CRefundMakerPayment
  | TakerPaymentReceived _ => Some CValidateTakerPayment
  | TakerPaymentWaitConfirmStarted => Some CValidateTakerPayment
  | TakerPaymentValidatedAndConfirmed => Some CSpendTakerPayment
  | TakerPaymentValidateFailed _ => Some CRefundMakerPayment
  | TakerPaymentWaitConfirmFailed _ => Some CRefundMakerPayment
  | TakerPaymentSpent _ => Some CConfirmTakerPaymentSpend
  | TakerPaymentSpendFailed _ => Some CRefundMakerPayment
  | TakerPaymentSpendConfirmStarted => Some CConfirmTakerPaymentSpend
  | TakerPaymentSpendConfirmed => Some CFinish
  | TakerPaymentSpendConfirmFailed _ => Some CRefundMakerPayment
  | MakerPaymentWaitRefundStarted _ => Some CRefundMakerPayment
  | MakerPaymentRefundStarted => Some CRefundMakerPayment
  | MakerPaymentRefunded _ => Some CFinish
  | MakerPaymentRefundFailed _ => Some CFinish
  | MakerPaymentRefundFinished => Some CFinish
  | Finished => None
  end.

Record MakerSavedSwap := {
  ss_uuid : Uuid;
  ss_my_order_uuid : option Uuid;
  ss_events : list MakerSavedEvent;
  ss_maker_amount : option BigDecimal;
  ss_maker_coin : option string;
  ss_taker_amount : option BigDecimal;
  ss_taker_coin : option string;
  ss_gui : option string;
  ss_mm_version : option string;
  ss_success_events : list string;
  ss_error_events : list string
}.

(** [save_my_maker_swap_event] on what the database holds for the swap. *)
Definition save_my_maker_swap_event (s : MakerSwap) (db : option MakerSavedSwap)
    (e : MakerSavedEvent) : MakerSavedSwap :=
  let saved :=
    match db with
    | Some saved => saved
    | None => {|
        ss_uuid := s.(s_uuid);
        ss_my_order_uuid := s.(s_my_order_uuid);
        ss_events := [];
        ss_maker_amount := Some s.(s_maker_amount);
        ss_maker_coin := Some s.(s_maker_coin).(ticker);
        ss_taker_amount := Some s.(s_taker_amount);
        ss_taker_coin := Some s.(s_taker_coin).(ticker);
        ss_gui := s.(s_ctx).(ctx_gui);
        ss_mm_version := Some s.(s_ctx).(ctx_mm_version);
        ss_success_events := MAKER_SUCCESS_EVENTS;
        ss_error_events := MAKER_ERROR_EVENTS
      |}
    end in
  saved <| ss_events ::= (λ l, l ++ [e]) |>.

Section saved_swap.
Context (saved : MakerSavedSwap).

Definition swap_data : result MakerSwapData string :=
  match head saved.(ss_events) with
  | Some event =>
      match event.(se_event) with
      | Started data => Ok data
      | _ => Err "First swap event must be Started"%string
      end
  | None => Err "Can't get swap_data, events are empty"%string
  end.

Definition is_finished_event (e : MakerSwapEvent) : bool :=
  match e with Finished => true | _ => false end.

Definition is_finished : bool :=
  match last saved.(ss_events) with
  | Some event => is_finished_event event.(se_event)
  | None => false
  end.

Definition finished_at : result Z string :=
  match last saved.(ss_events) with
  | Some event =>
      match event.(se_event) with
      | Finished => Ok (event.(se_timestamp) / 1000)
      | _ => Err "Last swap event must be Finished"%string
      end
  | None => Err "Can't get finished_at, events are empty"%string
  end.

Definition settles (e : MakerSwapEvent) : bool :=
  match e with
  | StartFailed _ | NegotiateFailed _ | TakerFeeValidateFailed _
  | TakerPaymentSpendConfirmed | MakerPaymentRefunded _ => true
  | _ => false
  end.

Definition is_recoverable : bool :=
  is_finished && forallb (λ e, negb (settles e.(se_event))) saved.(ss_events).

Definition saved_is_success : result bool string :=
  if negb is_finished
  then Err "Can not determine is_success state for not finished swap"%string
  else Ok (forallb (λ e, negb (is_error e.(se_event))) saved.(ss_events)).

End saved_swap.

(** ** Restart *)

Section restart.
Context `{Externals}.

Definition fold_events (now : Z) (s : MakerSwap) (evs : list MakerSwapEvent) : MakerSwap :=
  foldl (apply_event now) s evs.

Definition refresh_contract_addresses (maker_coin taker_coin : SwapCoin)
    (d : MakerSwapData) : MakerSwapData :=
  let d := match d.(d_maker_coin_swap_contract_address) with
           | None => d <| d_maker_coin_swap_contract_address := maker_coin.(swap_contract_address) |>
           | Some _ => d
           end in
  match d.(d_taker_coin_swap_contract_address) with
  | None => d <| d_taker_coin_swap_contract_address := taker_coin.(swap_contract_address) |>
  | Some _ => d
  end.

Definition load_from_saved (now : Z) (ctx : MmCtx) (maker_coin taker_coin : SwapCoin)
    (saved : MakerSavedSwap) : result (MakerSwap * option MakerSwapCommand) string :=
  match saved.(ss_events) with
  | [] => Err "Can't restore swap from empty events set"%string
  | first :: rest =>
      match first.(se_event) with
      | Started data0 =>
          let data := refresh_contract_addresses maker_coin taker_coin data0 in
          match swap_node_key_pair ctx data.(d_my_persistent_pub) with
          | Err e => Err e
          | Ok node_key_pair =>
              let conf_settings := {|
                maker_coin_confs := data.(d_maker_payment_confirmations);
                maker_coin_nota := default maker_coin.(sc_requires_notarization)
                                     data.(d_maker_payment_requires_nota);
                taker_coin_confs := data.(d_taker_payment_confirmations);
                taker_coin_nota := default taker_coin.(sc_requires_notarization)
                                     data.(d_taker_payment_requires_nota)
              |} in
              let swap := new ctx data.(d_taker) data.(d_maker_amount) data.(d_taker_amount)
                            node_key_pair saved.(ss_uuid) saved.(ss_my_order_uuid)
                            conf_settings maker_coin taker_coin data.(d_lock_duration)
                            data.(d_p2p_privkey) in
              let command := get_command (List.last (first :: rest) first).(se_event) in
              Ok (fold_events now swap (Started data :: (se_event <$> rest)), command)
          end
      | _ => Err "First swap event must be Started"%string
      end
  end.

Definition check_rederived_htlc_keys (s : MakerSwap) : result unit string :=
  let r := s.(s_mutable) in
  match check_held_htlc_key s.(s_maker_coin) r.(m_my_maker_coin_htlc_keypair)
          r.(m_my_maker_coin_htlc_pub) with
  | Err e => Err e
  | Ok _ => check_held_htlc_key s.(s_taker_coin) r.(m_my_taker_coin_htlc_keypair)
              r.(m_my_taker_coin_htlc_pub)
  end.

Definition locked_amount (s : MakerSwap) : list LockedAmount :=
  let r := s.(s_mutable) in
  if 0 <? s.(s_finished_at) then []
  else
    (if bool_decide (r.(m_maker_payment) = None) then [{|
       la_coin := s.(s_maker_coin).(ticker);
       la_amount := dec_to_rational s.(s_maker_amount);
       la_trade_fee := TradeFee_from_saved <$> r.(m_data).(d_maker_payment_trade_fee) |}]
     else [])
    ++ (if bool_decide (r.(m_taker_payment_spend) = None) then [{|
       la_coin := s.(s_taker_coin).(ticker);
       la_amount := 0%Qc;
       la_trade_fee := TradeFee_from_saved <$> r.(m_data).(d_taker_payment_spend_trade_fee) |}]
     else []).

(** ** The loop *)

(** What is done with one event before it is applied: it is dispatched, saved
    and acted upon.  The answer is the clock [apply_event] reads. *)
Definition save_event (s : MakerSwap) (event : MakerSwapEvent) : maker_prog Z :=
  timestamp ← ask NowMs;
  _ ← ask (DispatchStatus (status_str event));
  let! _ := ask (SaveSwapEvent timestamp event) orelse e => Panic in
  _ ← (if should_ban_taker event then ask (BanPubkey s.(s_taker) event) else Ret ());
  match event with Finished => ask NowMs | _ => Ret 0 end.

(** [db] is what the database answers when a swap is kick-started. *)
Inductive RunMakerSwapInput :=
| StartNew (swap : MakerSwap)
| KickStart (now : Z) (ctx : MmCtx) (maker_coin taker_coin : SwapCoin)
    (db : result (option MakerSavedSwap) string).

Definition prepare (input : RunMakerSwapInput) : option (MakerSwap * MakerSwapCommand) :=
  match input with
  | StartNew swap => Some (swap <| s_started_in_this_process := true |>, CStart)
  | KickStart now ctx maker_coin taker_coin (Ok (Some saved)) =>
      match load_from_saved now ctx maker_coin taker_coin saved with
      | Ok (swap, Some c) =>
          match check_rederived_htlc_keys swap with
          | Ok _ => Some (swap, c)
          | Err _ => None
          end
      | _ => None
      end
  | KickStart _ _ _ _ _ => None
  end.

Definition run_maker_swap (n fuel : nat) (input : RunMakerSwapInput) : maker_prog unit :=
  run_swap apply_event save_event (λ fuel s c, handle_command s fuel c) n fuel (prepare input).

End restart.
