(* ===== verification/MakerSwapInv.v ===== *)
(** * The maker's role

    What the maker's handlers promise ([maker_role]), and the proof that they
    keep it, so that [SwapLoop] carries it to every history of a maker swap:
    whatever the coins, the network, the clock and the taker answer, and however
    often the process is stopped and started again from its log. *)

From Stdlib Require Import ZArith Qcanon.
From S2P Require Import Prelude MmNumber NetConfig DexFee SwapCommon LockedAmounts Effects SwapEnv SwapLoop MakerSwap.
From stdpp Require Import base tactics strings list numbers pretty sets.
From coqutil Require Import Datatypes.RecordSettersUsingExistingGetters.

Local Open Scope Z_scope.

Notation maker_trace := (trace MakerSwapEvent).

(** ** The log in the database *)

Definition saved_event (e : Z * MakerSwapEvent) : MakerSavedEvent :=
  {| se_timestamp := e.1; se_event := e.2 |}.

Definition db_of (s : MakerSwap) (h : maker_trace) : option MakerSavedSwap :=
  foldl (λ db e, Some (save_my_maker_swap_event s db (saved_event e))) None (saved_log h).

Lemma saved_events_logged (h : maker_trace) : se_event <$> (saved_event <$> saved_log h) = logged h.
Proof. unfold logged. rewrite <-list_fmap_compose. by apply list_fmap_ext. Qed.

Lemma db_of_spec s h :
  match db_of s h with
  | None => saved_log h = []
  | Some db => saved_log h ≠ [] ∧ db.(ss_events) = saved_event <$> saved_log h
      ∧ db.(ss_uuid) = s.(s_uuid) ∧ db.(ss_my_order_uuid) = s.(s_my_order_uuid)
  end.
Proof.
  unfold db_of. induction (saved_log h) as [|e l IH] using rev_ind; [done|].
  rewrite foldl_app. cbn [foldl]. destruct (foldl _ _ l) as [db|]; unfold save_my_maker_swap_event; cbn.
  - destruct IH as (_ & -> & -> & ->). rewrite fmap_app. split_and!; [|done..]. by destruct l.
  - by rewrite IH.
Qed.

(** ** The swap and its replay *)

Section replay.
Context `{Externals}.

(** The swap an accepted match creates: its node key is the node's own. *)
Record SwapParams := {
  p_ctx : MmCtx;
  p_taker : bytes;
  p_maker_amount : BigDecimal;
  p_taker_amount : BigDecimal;
  p_uuid : Uuid;
  p_my_order_uuid : option Uuid;
  p_conf_settings : SwapConfirmationsSettings;
  p_maker_coin : SwapCoin;
  p_taker_coin : SwapCoin;
  p_payment_locktime : Z;
  p_p2p_privkey : option KeyPair
}.

Definition new_swap (p : SwapParams) : MakerSwap :=
  new p.(p_ctx) p.(p_taker) p.(p_maker_amount) p.(p_taker_amount)
    p.(p_ctx).(secp256k1_key_pair) p.(p_uuid) p.(p_my_order_uuid) p.(p_conf_settings)
    p.(p_maker_coin) p.(p_taker_coin) p.(p_payment_locktime) p.(p_p2p_privkey).

(** A secp256k1 node key is a compressed point. *)
Definition node_key_ok (p : SwapParams) : Prop :=
  length p.(p_ctx).(secp256k1_key_pair).(kp_public) = 33%nat.
Existing Class node_key_ok.

Definition replay (p : SwapParams) (L : list MakerSwapEvent) : MakerSwap :=
  fold_events 0 (new_swap p) L.

Definition with_flag (b : bool) (s : MakerSwap) : MakerSwap :=
  s <| s_started_in_this_process := b |>.

Lemma apply_event_flag b now s e :
  apply_event now (with_flag b s) e = with_flag b (apply_event now s e).
Proof.
  destruct e as [d| |d| | | | | | | | | | | | | | | | | | | | | | | |]; try reflexivity; cbn.
  - unfold apply_started. cbn.
    destruct (restored_htlc_key_pair (s_maker_coin s) _ _ _); cbn;
      by destruct (restored_htlc_key_pair (s_taker_coin s) _ _ _).
  - unfold apply_negotiated.
    by destruct (tn_maker_coin_swap_contract_addr d), (tn_taker_coin_swap_contract_addr d).
Qed.

Lemma apply_event_clock now now' s e :
  e ≠ Finished → apply_event now s e = apply_event now' s e.
Proof. by destruct e. Qed.

Lemma replay_snoc p L e : replay p (L ++ [e]) = apply_event 0 (replay p L) e.
Proof. unfold replay, fold_events. by rewrite foldl_app. Qed.

Lemma replay_flag p b L :
  foldl (apply_event 0) (with_flag b (new_swap p)) L = with_flag b (replay p L).
Proof.
  induction L as [|e L IH] using rev_ind; [done|].
  by rewrite replay_snoc, foldl_app, IH, <-apply_event_flag.
Qed.

(** The key a leg is started with: [saved] and [pub] are what is recorded. *)
Definition leg_key_ok (p : SwapParams) (coin : SwapCoin) (input : bytes)
    (saved : option KeyPair) (pub : option bytes) : Prop :=
  let node := p.(p_ctx).(secp256k1_key_pair).(kp_public) in
  ∃ kp k, start_htlc_key_pair coin node input = Ok (kp, saved)
    ∧ coin.(derive_htlc_pubkey) (pubkey_or node kp) = Ok k ∧ pub = Some k.

(** What the [Started] event of a swap records. *)
Record started_ok (p : SwapParams) (d : MakerSwapData) : Prop := {
  so_taker_coin : d.(d_taker_coin) = p.(p_taker_coin).(ticker);
  so_maker_coin : d.(d_maker_coin) = p.(p_maker_coin).(ticker);
  so_taker : d.(d_taker) = p.(p_taker);
  so_secret_hash : d.(d_secret_hash) =
    Some (hash_secret (select_secret_hash_algo p.(p_maker_coin) p.(p_taker_coin)) d.(d_secret));
  so_pub : d.(d_my_persistent_pub) = h264 p.(p_ctx).(secp256k1_key_pair).(kp_public);
  so_lock : d.(d_lock_duration) = p.(p_payment_locktime);
  so_maker_amount : d.(d_maker_amount) = p.(p_maker_amount);
  so_taker_amount : d.(d_taker_amount) = p.(p_taker_amount);
  so_maker_confs : d.(d_maker_payment_confirmations) = p.(p_conf_settings).(maker_coin_confs);
  so_maker_nota : d.(d_maker_payment_requires_nota) = Some p.(p_conf_settings).(maker_coin_nota);
  so_taker_confs : d.(d_taker_payment_confirmations) = p.(p_conf_settings).(taker_coin_confs);
  so_taker_nota : d.(d_taker_payment_requires_nota) = Some p.(p_conf_settings).(taker_coin_nota);
  so_maker_lock : d.(d_maker_payment_lock) = u64 (d.(d_started_at) + p.(p_payment_locktime) * 2);
  so_maker_contract : d.(d_maker_coin_swap_contract_address) = p.(p_maker_coin).(swap_contract_address);
  so_taker_contract : d.(d_taker_coin_swap_contract_address) = p.(p_taker_coin).(swap_contract_address);
  so_p2p : d.(d_p2p_privkey) = p.(p_p2p_privkey);
  so_maker_key : leg_key_ok p p.(p_maker_coin) (maker_htlc_key_input d)
    d.(d_maker_coin_htlc_privkey) d.(d_maker_coin_htlc_pubkey);
  so_taker_key : leg_key_ok p p.(p_taker_coin) (maker_htlc_key_input d)
    d.(d_taker_coin_htlc_privkey) d.(d_taker_coin_htlc_pubkey)
}.

Lemma refresh_started p d :
  started_ok p d → refresh_contract_addresses p.(p_maker_coin) p.(p_taker_coin) d = d.
Proof.
  intros [_ _ _ _ _ _ _ _ _ _ _ _ _ Hm Ht _ _ _]. unfold refresh_contract_addresses.
  rewrite <-Hm, <-Ht. destruct d as [?????????????????????? ?????]; cbn in *.
  repeat case_match; reflexivity.
Qed.

Definition last_command (L : list MakerSwapEvent) : option MakerSwapCommand :=
  last L ≫= get_command.

(** Restoring a log that begins with the swap's own [Started] gives the state
    its events lead to, and the command of the last one. *)
Lemma load_replay p now db d rest :
  node_key_ok p → started_ok p d →
  db.(ss_uuid) = p.(p_uuid) → db.(ss_my_order_uuid) = p.(p_my_order_uuid) →
  se_event <$> db.(ss_events) = Started d :: rest →
  load_from_saved now p.(p_ctx) p.(p_maker_coin) p.(p_taker_coin) db
  = Ok (fold_events now (new_swap p) (Started d :: rest), last_command (Started d :: rest)).
Proof.
  intros Hkey Hd Hu Ho HL. unfold load_from_saved.
  destruct (ss_events db) as [|first evs]; [done|]. cbn in HL.
  injection HL as Hfirst Hrest. rewrite Hfirst.
  rewrite refresh_started by done. unfold swap_node_key_pair.
  rewrite (so_pub _ _ Hd). unfold h264. rewrite take_ge by (rewrite Hkey; lia).
  rewrite bool_decide_eq_true_2 by done. rewrite Hrest. apply (f_equal Ok). f_equal.
  - unfold new_swap. destruct Hd as [_ _ Htk _ _ Hl Hma Hta Hmc Hmn Htc Htn _ _ _ Hp2 _ _].
    rewrite Hu, Ho, Htk, Hl, Hma, Hta, Hmc, Hmn, Htc, Htn, Hp2. cbn. by destruct (p_conf_settings p).
  - unfold last_command. rewrite <-Hrest, <-Hfirst, <-fmap_cons, fmap_last.
    by rewrite (list_last_last _ first) by done.
Qed.

End replay.

(** ** What a step may do *)

Section steps.
Context `{Externals} (p : SwapParams).

Definition taker_payment_input (s : MakerSwap) (tx : TransactionIdentifier) : ValidatePaymentInput :=
  let r := s.(s_mutable) in
  {| payment_tx := tx.(ti_tx_hex);
     time_lock := u32 s.(s_taker_payment_lock);
     taker_pub := r.(m_other_taker_coin_htlc_pub);
     maker_pub := r.(m_my_taker_coin_htlc_pub);
     vp_secret_hash := secret_hash s;
     vp_amount := s.(s_taker_amount);
     vp_swap_contract_address := r.(m_data).(d_taker_coin_swap_contract_address);
     try_spv_proof_until := taker_payment_deadline s;
     vp_confirmations := r.(m_data).(d_taker_payment_confirmations) |}.

(** The taker's fee was validated, or none is due. *)
Definition fee_settled (h : maker_trace) (s : MakerSwap) : Prop :=
  expected_dex_fee s = NoFee ∨
  ∃ args, Ev (ValidateFee TakerCoin args) (Ok ()) ∈ h
    ∧ args.(vf_dex_fee) = expected_dex_fee s
    ∧ args.(expected_sender) = s.(s_mutable).(m_other_taker_coin_htlc_pub)
    ∧ args.(fee_addr) = s.(s_ctx).(ctx_net_cfg).(dex_fee_addr_raw_pubkey).

(** The taker's payment was confirmed and validated. *)
Definition validated (h : maker_trace) (s : MakerSwap) : Prop :=
  ∃ tx, s.(s_mutable).(m_taker_payment) = Some tx
    ∧ Ev (ValidatePayment TakerCoin (taker_payment_input s tx)) (Ok ()) ∈ h.

(** What holds of the history and of the state when a command is next. *)
Definition ready (h : maker_trace) (s : MakerSwap) (c : option MakerSwapCommand) : Prop :=
  let r := s.(s_mutable) in
  match c with
  | None | Some CFinish | Some CStart => True
  | Some CNegotiate | Some CWaitForTakerFee => r.(m_maker_payment) = None
  | Some CSendPayment => r.(m_maker_payment) = None ∧ fee_settled h s
  | Some CWaitForTakerPayment | Some CRefundMakerPayment => is_Some r.(m_maker_payment)
  | Some CValidateTakerPayment => is_Some r.(m_maker_payment) ∧ is_Some r.(m_taker_payment)
  | Some CSpendTakerPayment => is_Some r.(m_maker_payment) ∧ validated h s
  | Some CConfirmTakerPaymentSpend =>
      is_Some r.(m_maker_payment) ∧ is_Some r.(m_taker_payment_spend)
  end.

Definition payment_deadline (s : MakerSwap) : Z :=
  let d := s.(s_mutable).(m_data) in u64 (d.(d_started_at) + d.(d_lock_duration) / 3).

(** The calls the handler of [cmd], started after the history [h0], may issue
    after the history [h]. *)
Definition call_ok (s : MakerSwap) (cmd : MakerSwapCommand) (h0 h : maker_trace)
    (c : SwapCall MakerSwapEvent) : Prop :=
  let r := s.(s_mutable) in
  match c with
  | SaveSwapEvent _ _ => False
  | SendPayment side htlc amount =>
      cmd = CSendPayment
      ∧ side = MakerCoin ∧ htlc = my_htlc s ∧ amount = s.(s_maker_amount)
      ∧ r.(m_maker_payment) = None ∧ fee_settled h s
      ∧ ∃ h' ms, h = h' ++ [Ev NowMs ms] ∧ ms / 1000 ≤ payment_deadline s
        ∧ ((∃ b, h' = h0 ++ [Ev (CheckIfMyPaymentSent MakerCoin htlc b) (Ok None)])
           ∨ (h' = h0 ∧ s.(s_started_in_this_process) = true
              ∧ s.(s_maker_coin).(htlc_key_is_random_per_swap) = true))
  | SpendPayment side tx lock other secret priv addr =>
      cmd = CSpendTakerPayment ∧ side = TakerCoin ∧ secret = r.(m_data).(d_secret)
      ∧ (∃ t, r.(m_taker_payment) = Some t ∧ tx = t.(ti_tx_hex)
          ∧ Ev (ValidatePayment TakerCoin (taker_payment_input s t)) (Ok ()) ∈ h)
      ∧ lock = u32 s.(s_taker_payment_lock) ∧ other = r.(m_other_taker_coin_htlc_pub)
      ∧ ∃ h' ms, h = h' ++ [Ev NowMs ms] ∧ ms / 1000 ≤ taker_payment_deadline s
  | RefundPayment side tx lock _ _ _ _ =>
      cmd = CRefundMakerPayment ∧ side = MakerCoin
      ∧ lock = u32 r.(m_data).(d_maker_payment_lock)
      ∧ (∃ t, r.(m_maker_payment) = Some t ∧ tx = t.(ti_tx_hex))
      ∧ ∃ h', h = h' ++ [Ev (CanRefund MakerCoin r.(m_data).(d_maker_payment_lock))
                            (Ok CanRefundNow)]
  | _ => True
  end.

(** The commands in the order a swap meets them. *)
Definition rank (c : MakerSwapCommand) : nat :=
  match c with
  | CStart => 0 | CNegotiate => 1 | CWaitForTakerFee => 2 | CSendPayment => 3
  | CWaitForTakerPayment => 4 | CValidateTakerPayment => 5 | CSpendTakerPayment => 6
  | CConfirmTakerPaymentSpend => 7 | CRefundMakerPayment => 8 | CFinish => 9
  end%nat.

(** The failures that end a swap before the maker paid. *)
Definition early_failure (e : MakerSwapEvent) : bool :=
  match e with
  | StartFailed _ | NegotiateFailed _ | TakerFeeValidateFailed _
  | MakerPaymentTransactionFailed _ => true
  | _ => false
  end.

(** The events only a log of an earlier build holds. *)
Definition legacy (e : MakerSwapEvent) : bool :=
  match e with
  | MakerPaymentInstructionsReceived _ | MakerPaymentDataSendFailed _
  | MakerPaymentRefundStarted | MakerPaymentRefundFinished => true
  | _ => false
  end.

Definition event_fits (s : MakerSwap) (e : MakerSwapEvent) : Prop :=
  legacy e = false ∧ (early_failure e = true → s.(s_mutable).(m_maker_payment) = None).


(** What the first event of a swap records. *)
Definition first_ok (e : MakerSwapEvent) : Prop :=
  match e with Started d => started_ok p d | StartFailed _ => True | _ => False end.

Definition is_started (e : MakerSwapEvent) : bool :=
  match e with Started _ => true | _ => false end.

Definition restart (now : Z) (h : maker_trace) : option (MakerSwap * MakerSwapCommand) :=
  prepare (KickStart now p.(p_ctx) p.(p_maker_coin) p.(p_taker_coin)
             (Ok (db_of (new_swap p) h))).

Definition maker_role : Role MakerSwapEvent MakerSwapCommand MakerSwap := {|
  r_start := CStart;
  r_finish := CFinish;
  r_finished := Finished;
  r_get_command := get_command;
  r_apply := apply_event;
  r_handle fuel s c := handle_command s fuel c;
  r_save := save_event;
  r_new := with_flag true (new_swap p);
  r_restored := new_swap p;
  r_restart := restart;
  r_stops_early _ := false;
  r_is_started := is_started;
  r_first := first_ok;
  r_ready := ready;
  r_call_ok := call_ok;
  r_fits := event_fits;
  r_may_panic _ := False;
  r_rank := rank;
  r_pay := 3
|}.

(** All the calls of all the processes of a maker swap. *)
Definition history : maker_trace → Prop := SwapLoop.history maker_role.

Lemma replayed_replay b L : replayed maker_role b L = with_flag b (replay p L).
Proof. rewrite <-replay_flag. by destruct b. Qed.

End steps.

(** Closes the end of a handler. *)
Ltac ends := step_ends; cbn [ready r_ready maker_role r_apply apply_event].

Section handlers.
Context `{Externals} (p : SwapParams).

Lemma apply_started_payment s d :
  (apply_started s d).(s_mutable).(m_maker_payment) = s.(s_mutable).(m_maker_payment).
Proof. unfold apply_started. by repeat case_match. Qed.

Lemma apply_negotiated_payment s d :
  (apply_negotiated s d).(s_mutable).(m_maker_payment) = s.(s_mutable).(m_maker_payment).
Proof. unfold apply_negotiated. by repeat case_match. Qed.

Lemma start_safe fuel h :
  let s := with_flag true (new_swap p) in
  safe (call_ok s CStart h) h (handle_command s fuel CStart) (step_post (maker_role p) s fuel CStart h).
Proof.
  intros s. cbn [handle_command]. unfold start, start_failed, now_secs. walk; ends.
  - cbn [ready apply_event]. by rewrite apply_started_payment.
  - intros _. eexists; split; [done|]. apply derive_htlc_pubkeys_Ok in Heqr6 as [Hm Ht].
    constructor; try done; cbn; do 2 eexists; eauto.
Qed.

Lemma negotiate_safe s fuel h :
  ready h s (Some CNegotiate) →
  safe (call_ok s CNegotiate h) h (handle_command s fuel CNegotiate) (step_post (maker_role p) s fuel CNegotiate h).
Proof.
  intros Hr. cbn [handle_command ready] in *.
  unfold negotiate, negotiate_failed, h264_checked. walk.
  all: repeat match goal with
       | Hv : validate_wire_pubkey _ _ = Ok _ |- _ => apply validate_wire_pubkey_len in Hv
       | Hl : (_ <? _)%nat = true |- _ => apply Nat.ltb_lt in Hl; lia
       end.
  all: ends. cbn [ready apply_event]. by rewrite apply_negotiated_payment.
Qed.

Lemma fee_loop_safe s fuel h0 h more args ok :
  let I := call_ok s CWaitForTakerFee h0 in
  let Q := step_post (maker_role p) s fuel CWaitForTakerFee h0 in
  s.(s_mutable).(m_maker_payment) = None →
  (∀ h', Ev (ValidateFee TakerCoin args) (Ok ()) ∈ h' → safe I h' ok Q) →
  safe I h (validate_fee_loop more args ok) Q.
Proof.
  intros I Q Hmp Hok. subst I Q. revert h; induction more as [|more IH]; intros h;
    cbn [validate_fee_loop]; unfold taker_fee_failed; walk; try (by ends).
  1, 2: apply Hok; destruct a; set_solver.
  apply IH.
Qed.

Lemma wait_taker_fee_safe s fuel h :
  ready h s (Some CWaitForTakerFee) →
  safe (call_ok s CWaitForTakerFee h) h (handle_command s fuel CWaitForTakerFee) (step_post (maker_role p) s fuel CWaitForTakerFee h).
Proof.
  intros Hr. cbn [handle_command ready] in *.
  unfold wait_taker_fee, taker_fee_failed.
  walk; try (by ends).
  1: ends; split; [done|by left].
  all: apply fee_loop_safe; [done|]; intros h' Hh'; cbn [safe]; ends.
  all: split; [done|right; eexists; split_and!; [exact Hh'|symmetry; eassumption|done..]].
Qed.

Lemma fee_settled_mono h tr s : fee_settled h s → fee_settled (h ++ tr) s.
Proof. intros [?|(args & Ha & ?)]; [by left|right]. exists args. split; [|done]. set_solver. Qed.

Lemma validated_mono h tr s : validated h s → validated (h ++ tr) s.
Proof. intros (tx & ? & ?). exists tx. split; [done|]. set_solver. Qed.

Lemma ready_mono h tr s c : ready h s c → ready (h ++ tr) s c.
Proof.
  destruct c as [[]|]; cbn; try done; intros [? ?]; split;
    auto using fee_settled_mono, validated_mono.
Qed.

Lemma maker_payment_safe s fuel h :
  ready h s (Some CSendPayment) →
  safe (call_ok s CSendPayment h) h (handle_command s fuel CSendPayment) (step_post (maker_role p) s fuel CSendPayment h).
Proof.
  intros [Hr Hfee]. cbn [handle_command] in *.
  unfold maker_payment, payment_failed, now_secs.
  walk; try (by ends); try (ends; cbn; by eauto).
  all: unfold call_ok; split_and!; try done; try (repeat apply fee_settled_mono; done).
  all: do 2 eexists; split_and!; [done|by apply Z.ltb_ge|].
  - right. by apply skips_true in Heqb.
  - left; eauto.
Qed.

Lemma wait_for_taker_payment_safe s fuel h :
  ready h s (Some CWaitForTakerPayment) →
  safe (call_ok s CWaitForTakerPayment h) h (handle_command s fuel CWaitForTakerPayment)
    (step_post (maker_role p) s fuel CWaitForTakerPayment h).
Proof.
  intros [mp Hmp]. cbn [handle_command].
  unfold wait_for_taker_payment, refund_after. rewrite Hmp. walk; ends; cbn; rewrite Hmp; eauto.
Qed.

Lemma validate_taker_payment_safe s fuel h :
  ready h s (Some CValidateTakerPayment) →
  safe (call_ok s CValidateTakerPayment h) h (handle_command s fuel CValidateTakerPayment)
    (step_post (maker_role p) s fuel CValidateTakerPayment h).
Proof.
  intros [[mp Hmp] [tp Htp]]. cbn [handle_command].
  unfold validate_taker_payment, refund_after. rewrite Htp. walk; ends; cbn; rewrite ?Hmp; eauto.
  split; [done|]. exists tp. split; [done|]. destruct a0. apply elem_of_app; right.
  by apply list_elem_of_singleton.
Qed.

Lemma spend_taker_payment_safe s fuel h :
  ready h s (Some CSpendTakerPayment) →
  safe (call_ok s CSpendTakerPayment h) h (handle_command s fuel CSpendTakerPayment) (step_post (maker_role p) s fuel CSpendTakerPayment h).
Proof.
  intros [[mp Hmp] (tp & Htp & Hval)]. cbn [handle_command].
  unfold spend_taker_payment, refund_after, now_secs. rewrite Htp.
  walk; try (ends; cbn; rewrite ?Hmp; by eauto).
  unfold call_ok. split_and!; try done.
  - exists tp. split_and!; [done..|]. apply elem_of_app; by left.
  - do 2 eexists; split; [done|by apply Z.ltb_ge].
Qed.

Lemma confirm_taker_payment_spend_safe s fuel h :
  ready h s (Some CConfirmTakerPaymentSpend) →
  safe (call_ok s CConfirmTakerPaymentSpend h) h (handle_command s fuel CConfirmTakerPaymentSpend)
    (step_post (maker_role p) s fuel CConfirmTakerPaymentSpend h).
Proof.
  intros [[mp Hmp] [sp Hsp]]. cbn [handle_command].
  unfold confirm_taker_payment_spend, refund_after. rewrite Hsp. walk; ends; cbn; rewrite Hmp; eauto.
Qed.

Lemma refund_maker_payment_safe s fuel h :
  ready h s (Some CRefundMakerPayment) →
  safe (call_ok s CRefundMakerPayment h) h (handle_command s fuel CRefundMakerPayment)
    (step_post (maker_role p) s fuel CRefundMakerPayment h).
Proof.
  intros [mp Hmp]. cbn [handle_command]. unfold refund_maker_payment.
  assert (∀ f h', (refusals h + fuel ≤ refusals h' + f)%nat →
    safe (call_ok s CRefundMakerPayment h) h'
      (refund_maker_payment_retrying s f NON_FINAL_REFUND_RETRY_SECS)
      (step_post (maker_role p) s fuel CRefundMakerPayment h)) as Hloop; [|by apply Hloop].
  induction f as [|f IH]; intros h' Hf; [cbn; lia|].
  cbn [refund_maker_payment_retrying]. unfold now_secs, retried_refund_rejection.
  rewrite Hmp. walk; try (by ends).
  all: try (apply IH; rewrite !refusals_app; cbn; lia).
  unfold call_ok. split_and!; eauto.
Qed.

(** Every handler makes only the calls it may, never panics, and ends with
    events after each of which the next command is ready. *)
Lemma handler_safe s fuel c h :
  (c = CStart → s = with_flag true (new_swap p)) → ready h s (Some c) →
  safe (call_ok s c h) h (handle_command s fuel c) (step_post (maker_role p) s fuel c h).
Proof.
  intros Hs Hr. destruct c.
  - rewrite Hs by done. apply start_safe.
  - by apply negotiate_safe.
  - by apply wait_taker_fee_safe.
  - by apply maker_payment_safe.
  - by apply wait_for_taker_payment_safe.
  - by apply validate_taker_payment_safe.
  - by apply spend_taker_payment_safe.
  - by apply confirm_taker_payment_spend_safe.
  - by apply refund_maker_payment_safe.
  - by cbn [handle_command safe]; ends.
Qed.

(** ** The maker's role is lawful *)

Lemma ready_flag h b b' s c : ready h (with_flag b s) c → ready h (with_flag b' s) c.
Proof. by destruct c as [[]|]. Qed.

Lemma save_event_once h s e :
  safe (save_call h e) h (save_event s e) (save_done h e).
Proof. unfold save_event. save_walk. Qed.

Lemma prepare_restart now h s c :
  node_key_ok p → inv (maker_role p) h → restart p now h = Some (s, c) →
  s = fold_events now (new_swap p) (logged h) ∧ log_inv (maker_role p) h
  ∧ last_command (logged h) = Some c.
Proof.
  intros Hkey Hinv. unfold restart. cbn [prepare]. pose proof (db_of_spec (new_swap p) h) as Hdb.
  destruct (db_of (new_swap p) h) as [db|]; [|done]. destruct Hdb as (Hne & HL & Hu & Ho).
  destruct Hinv as [HL0|Hi]; [by unfold logged in HL0; destruct (saved_log h)|].
  destruct (li_head _ _ Hi) as (e & Hhead & Hfirst).
  assert (se_event <$> ss_events db = logged h) as HLdb by (by rewrite HL, saved_events_logged).
  destruct (logged h) as [|e' rest] eqn:El; [done|]. injection Hhead as ->.
  destruct e; try done.
  - rewrite (load_replay p now db d rest) by done.
    destruct (last_command _) as [c'|] eqn:Ec; [|done].
    destruct (check_rederived_htlc_keys _); [|done]. by intros [= <- <-].
  - unfold load_from_saved. destruct (ss_events db) as [|f l]; [done|].
    cbn in HLdb. injection HLdb as Hf _. by rewrite Hf.
Qed.

#[global] Instance maker_laws : node_key_ok p → RoleLaws (maker_role p).
Proof.
  intros Hkey. constructor; try done; cbn.
  - by intros [].
  - by intros [].
  - intros. by apply apply_event_clock.
  - apply ready_mono.
  - intros h b b' L next. rewrite !replayed_replay. apply ready_flag.
  - intros b b' L e. rewrite !replayed_replay. done.
  - intros []; cbn; lia.
  - by intros s c h0 h ts e [].
  - intros s c h0 h k Hk Hok. destruct k; try done.
    destruct Hok as (-> & _ & _ & _ & _ & _ & h' & ms & -> & _ & Hor). split; [done|]. intros Hu.
    apply unsent_snoc; [|done]. destruct Hor as [[blk ->]|[-> _]]; [by apply unsent_snoc|done].
  - intros. by apply handler_safe.
  - intros. apply save_event_once.
  - intros. by apply prepare_restart.
Qed.

End handlers.
