(* ===== verification/MakerSwapSafety.v ===== *)
(** * What a maker swap guarantees

    The properties of every history of a maker swap ([MakerSwapInv]): what the
    calls that move money or reveal the secret are preceded by, what a restart
    resumes, that a swap ends, and what the log of a finished swap says. *)

From Stdlib Require Import ZArith QArith Qcanon.
From S2P Require Import Prelude MmNumber NetConfig DexFee SwapCommon LockedAmounts Effects SwapEnv SwapLoop SwapSample MakerSwap MakerSwapInv.
From stdpp Require Import base tactics strings list numbers pretty sets.
From coqutil Require Import Datatypes.RecordSettersUsingExistingGetters.

Local Open Scope Z_scope.

(** ** What replaying a log gives *)

Section replayed.
Context `{Externals} (p : SwapParams).

(** What no event changes. *)
Definition fixed (s : MakerSwap) :=
  (s.(s_ctx), s.(s_maker_coin), s.(s_taker_coin), s.(s_maker_amount), s.(s_taker_amount)).

(** What only [Started] sets. *)
Definition core (d : MakerSwapData) :=
  (d.(d_secret), d.(d_secret_hash), d.(d_started_at), d.(d_lock_duration),
   d.(d_maker_payment_lock), d.(d_maker_coin)).
Definition keys (s : MakerSwap) :=
  let m := s.(s_mutable) in
  (m.(m_my_maker_coin_htlc_keypair), m.(m_my_maker_coin_htlc_pub),
   m.(m_my_taker_coin_htlc_keypair), m.(m_my_taker_coin_htlc_pub)).

Lemma fixed_apply now s e : fixed (apply_event now s e) = fixed s.
Proof.
  destruct e; try reflexivity; cbn [apply_event];
    unfold apply_started, apply_negotiated; by repeat case_match.
Qed.

Lemma core_apply now s e :
  is_started e = false →
  core (apply_event now s e).(s_mutable).(m_data) = core s.(s_mutable).(m_data)
  ∧ keys (apply_event now s e) = keys s.
Proof.
  destruct e; try done; intros _; cbn [apply_event]. unfold apply_negotiated.
  by repeat case_match.
Qed.

Lemma payment_apply now s e :
  is_Some s.(s_mutable).(m_maker_payment) →
  is_Some (apply_event now s e).(s_mutable).(m_maker_payment).
Proof.
  destruct e; try done; cbn [apply_event].
  - by rewrite apply_started_payment.
  - by rewrite apply_negotiated_payment.
Qed.

Lemma replay_fixed L : fixed (replay p L) = fixed (new_swap p).
Proof.
  induction L as [|e L IH] using rev_ind; [done|]. by rewrite replay_snoc, fixed_apply.
Qed.

Lemma replay_core d rest :
  Forall (λ e, is_started e = false) rest →
  core (replay p (Started d :: rest)).(s_mutable).(m_data) = core d
  ∧ keys (replay p (Started d :: rest)) = keys (apply_started (new_swap p) d).
Proof.
  induction rest as [|e rest IH] using rev_ind; intros Hrest.
  - split; [|done]. unfold replay, fold_events. cbn [foldl apply_event].
    unfold apply_started. by repeat case_match.
  - apply Forall_app in Hrest as [Hrest [He _]%Forall_cons].
    rewrite app_comm_cons, replay_snoc.
    destruct (core_apply 0 (replay p (Started d :: rest)) e He) as [-> ->]. by apply IH.
Qed.

Lemma replay_payment L tx :
  MakerPaymentSent tx ∈ L → is_Some (replay p L).(s_mutable).(m_maker_payment).
Proof.
  induction L as [|e L IH] using rev_ind; intros Hin; [by apply elem_of_nil in Hin|].
  rewrite replay_snoc. apply elem_of_app in Hin as [Hin|<-%list_elem_of_singleton].
  - by apply payment_apply, IH.
  - cbn. eauto.
Qed.

(** A log that is past its first event begins with the swap's [Started]. *)
Lemma log_head h c :
  log_inv (maker_role p) h → leads_last (maker_role p) (logged h) (Some c) → c ≠ CFinish →
  ∃ d rest, logged h = Started d :: rest ∧ started_ok p d
    ∧ Forall (λ e, is_started e = false) rest.
Proof.
  intros Hi (el & Hel & [Hc|[[= ->] _]]) Hne; [|by destruct Hne].
  destruct (li_head _ _ Hi) as (e0 & Hh & Hfirst). pose proof (li_started _ _ Hi) as Hs.
  destruct (logged h) as [|e rest] eqn:El; [done|]. injection Hh as ->.
  destruct e0; try done; [by exists d, rest|].
  destruct rest as [|e2 rest]; [injection Hel as <-; cbn in Hc; congruence|].
  destruct (li_wf _ _ Hi [] (StartFailed e) e2 rest El) as (c' & [[= <-]|[_ [=]]] & Hf).
  rewrite (proj1 Hf eq_refl) in *. destruct rest as [|e3 rest]; [by injection Hel as <-|].
  by destruct (li_wf _ _ Hi [StartFailed e] Finished e3 rest El) as (? & [[=]|[_ [=]]] & _).
Qed.

Lemma check_keys_eq s s' :
  fixed s = fixed s' → keys s = keys s' →
  check_rederived_htlc_keys s = check_rederived_htlc_keys s'.
Proof.
  intros Hfix Hkeys. injection Hfix as _ Hmc Htc _ _. injection Hkeys as H1 H2 H3 H4.
  unfold check_rederived_htlc_keys. by rewrite Hmc, Htc, H1, H2, H3, H4.
Qed.

(** The keys held after a restart pass the pre-check. *)
Lemma started_keys d :
  started_ok p d → check_rederived_htlc_keys (apply_started (new_swap p) d) = Ok ().
Proof.
  intros Hd. destruct (so_maker_key _ _ Hd) as (mk & mp & Hm1 & Hm2 & Hm3).
  destruct (so_taker_key _ _ Hd) as (tk & tp & Ht1 & Ht2 & Ht3).
  destruct (restored_started _ _ _ _ _ _ Hm1 Hm2) as [Hm4 Hm5].
  destruct (restored_started _ _ _ _ _ _ Ht1 Ht2) as [Ht4 Ht5].
  unfold apply_started. rewrite Hm3, Ht3. cbn [new_swap new s_maker_coin s_taker_coin].
  unfold check_rederived_htlc_keys.
  rewrite Hm4. destruct mk; cbn -[check_held_htlc_key restored_htlc_key_pair] in *;
    rewrite Ht4; destruct tk; cbn -[check_held_htlc_key] in *; unfold const;
    by rewrite Hm5, Ht5.
Qed.

Lemma replay_keys d rest :
  started_ok p d → Forall (λ e, is_started e = false) rest →
  check_rederived_htlc_keys (replay p (Started d :: rest)) = Ok ().
Proof.
  intros Hd Hrest. rewrite <-(started_keys d Hd). apply check_keys_eq.
  - rewrite replay_fixed. symmetry. apply (fixed_apply 0 _ (Started d)).
  - by apply replay_core.
Qed.

Lemma forallb_unsettled L t :
  node_key_ok p → wf_log (maker_role p) (L ++ [t; Finished]) →
  forallb (λ e, negb (settles e)) L = true.
Proof.
  intros Hkey Hwf. apply forallb_forall. intros e (L1 & L2 & ->)%list_elem_of_In%list_elem_of_split.
  rewrite <-app_assoc in Hwf. cbn in Hwf.
  assert (get_command e ≠ Some CFinish) as Hne
    by (destruct L2 as [|e2 [|e3 L2]]; cbn in Hwf; eapply (wf_log_inner (maker_role p)); exact Hwf).
  by destruct e.
Qed.

Lemma forallb_logged (f : MakerSwapEvent → bool) h :
  forallb (λ e, f e.(se_event)) (saved_event <$> saved_log h) = forallb f (logged h).
Proof. unfold logged. induction (saved_log h) as [|e l IH]; cbn; [done|]. by rewrite IH. Qed.

Lemma is_finished_logged db h :
  db.(ss_events) = saved_event <$> saved_log h → is_finished db = true →
  last (logged h) = Some Finished.
Proof.
  unfold is_finished. intros ->. rewrite <-saved_events_logged, !fmap_last.
  destruct (last (saved_log h)) as [[ts []]|]; done.
Qed.

(** The state behind a call that is not one of the loop's own. *)
Lemma history_state pre e post :
  node_key_ok p → history p (pre ++ e :: post) → loop_call (ev_call e) = false →
  ∃ b cmd h0, call_ok (with_flag b (replay p (logged pre))) cmd h0 pre (ev_call e)
    ∧ (b = true → is_send (ev_call e) = true → unsent pre)
    ∧ (cmd = CStart ∨ cmd = CFinish ∨
       ∃ d rest, logged pre = Started d :: rest ∧ started_ok p d
         ∧ core (replay p (logged pre)).(s_mutable).(m_data) = core d).
Proof.
  intros Hkey Hh Hloop.
  apply (history_guard (maker_role p)) in Hh as (b & cmd & h0 & Hok & Hu & Hc); [|done].
  rewrite replayed_replay in Hok. exists b, cmd, h0. split_and!; [done..|].
  destruct Hc as [->|[Hi Hl]]; [by left|right].
  destruct (decide (cmd = CFinish)) as [->|Hne]; [by left|right].
  destruct (log_head _ _ Hi Hl Hne) as (d & rest & HL & Hd & Hrest).
  exists d, rest. rewrite HL. split_and!; [done..|]. by apply replay_core.
Qed.

End replayed.

(** ** A sample swap

    Two UTXO coins, an honest taker, and the answers of a swap that succeeds. *)

Module Sample.

#[local] Existing Instance World.externals.

Definition params : SwapParams := {|
  p_ctx := World.ctx;
  p_taker := replicate 32 (z2b 7);
  p_maker_amount := {| int_val := 15; scale := 1 |};
  p_taker_amount := {| int_val := 40; scale := 0 |};
  p_uuid := 77;
  p_my_order_uuid := Some 78;
  p_conf_settings := World.conf_settings;
  p_maker_coin := World.coin "LTC";
  p_taker_coin := World.coin "KMD";
  p_payment_locktime := 7800;
  p_p2p_privkey := None
|}.

Definition run : maker_trace := (exec World.env [] (run_maker_swap 10 3 (StartNew (new_swap params)))).1.

Lemma run_runs :
  runs (run_maker_swap 10 3 (StartNew (new_swap params))) run
    (exec World.env [] (run_maker_swap 10 3 (StartNew (new_swap params)))).2.
Proof. apply exec_runs. Qed.

Lemma run_history : history params run.
Proof. eapply history_new, runs_prefix, run_runs. Qed.

(** A process stopped after [k] calls. *)
Lemma cut_history k : history params (take k run).
Proof.
  eapply history_new, prefix_run_app. rewrite take_drop. eapply runs_prefix, run_runs.
Qed.

(** What the sample saved. *)
Definition data : MakerSwapData :=
  match logged run with Started d :: _ => d | _ => MakerSwapData_default end.
Definition saved : MakerSavedSwap :=
  default (save_my_maker_swap_event (new_swap params) None
             {| se_timestamp := 0; se_event := Finished |}) (db_of (new_swap params) run).

(** The state in which the sample negotiates, and what it negotiates. *)
Definition negotiating : MakerSwap := replay params [Started data].
Definition negotiation : TakerNegotiationData := {|
  tn_taker_payment_locktime := World.now / 1000 + 3 + 7800;
  tn_taker_pubkey := zero_bytes 33;
  tn_maker_coin_swap_contract_addr := None;
  tn_taker_coin_swap_contract_addr := None;
  tn_maker_coin_htlc_pubkey := Some (replicate 33 (z2b 9));
  tn_taker_coin_htlc_pubkey := Some (replicate 33 (z2b 9))
|}.

(** The history at its [k]-th call. *)
Lemma run_split k e : run !! k = Some e → history params (take k run ++ e :: drop (S k) run).
Proof. intros Hk. rewrite (take_drop_middle _ _ _ Hk). apply run_history. Qed.

Lemma key_ok : node_key_ok params.
Proof. reflexivity. Qed.

End Sample.

Section claims.
Context `{Externals}.

(** C2: the secret leaves the node only in a spend of the taker's payment, and a
    spend is only made of a payment that was validated before, in this process
    or in an earlier one: for the agreed amount, for the same lock time and
    taker key, and for the hash of the very secret that is revealed. It is
    made while the clock is within four fifths of the way to the lock time. *)
Theorem secret_only_for_validated_payment (p : SwapParams) pre side tx lock other secret priv
    addr x post :
  node_key_ok p →
  history p (pre ++ Ev (SpendPayment side tx lock other secret priv addr) x :: post) →
  side = TakerCoin
  ∧ (∃ input, Ev (ValidatePayment TakerCoin input) (Ok ()) ∈ pre
      ∧ input.(payment_tx) = tx ∧ input.(time_lock) = lock ∧ input.(taker_pub) = other
      ∧ input.(vp_amount) = p.(p_taker_amount)
      ∧ input.(vp_secret_hash) =
          hash_secret (select_secret_hash_algo p.(p_maker_coin) p.(p_taker_coin)) secret)
  ∧ ∃ pre' ms d, pre = pre' ++ [Ev NowMs ms] ∧ Started d ∈ logged pre
      ∧ ms / 1000 ≤ u64 (d.(d_started_at) + u64 (p.(p_payment_locktime) * 4) / 5).
Proof.
  intros Hkey Hh. apply history_state in Hh as (b & cmd & h0 & Hok & _ & Hd); [|done..].
  destruct Hok as (-> & -> & -> & (t & Htp & -> & Hval) & -> & -> & pre' & ms & Hpre & Hms).
  destruct Hd as [|[|(d & rest & HL & Hd & Hcore)]]; [done..|].
  injection Hcore as Hsec Hhash Hst Hlock _ _.
  pose proof (replay_fixed p (logged pre)) as Hfix. injection Hfix as _ _ _ _ Hta.
  split; [done|]. split.
  - eexists. split_and!; [exact Hval|done..| |]; cbn [taker_payment_input vp_amount vp_secret_hash].
    + exact Hta.
    + change (secret_hash (replay p (logged pre)) = hash_secret (select_secret_hash_algo
        p.(p_maker_coin) p.(p_taker_coin)) (replay p (logged pre)).(s_mutable).(m_data).(d_secret)).
      unfold secret_hash. by rewrite Hhash, (so_secret_hash _ _ Hd), Hsec.
  - exists pre', ms, d. split_and!; [done|rewrite HL; set_solver|].
    change (ms / 1000 ≤ taker_payment_deadline (replay p (logged pre))) in Hms.
    unfold taker_payment_deadline in Hms. rewrite Hst, Hlock in Hms. by rewrite (so_lock _ _ Hd) in Hms.
Qed.

(** C13: the maker pays at most once per swap as far as the chain can tell: a
    payment is sent only while the log holds no payment, and directly after the
    coin answered that no payment to this very HTLC exists; only a swap whose
    HTLC key is unique to it, and which has not tried to pay before, may skip
    the question. The amount is the agreed one. *)
Theorem payment_only_when_none_exists (p : SwapParams) pre side htlc amount x post :
  node_key_ok p →
  history p (pre ++ Ev (SendPayment side htlc amount) x :: post) →
  side = MakerCoin ∧ amount = p.(p_maker_amount)
  ∧ (∀ tx, MakerPaymentSent tx ∉ logged pre)
  ∧ ((∃ pre' b ms, pre = (pre' ++ [Ev (CheckIfMyPaymentSent MakerCoin htlc b) (Ok None)])
                           ++ [Ev NowMs ms])
     ∨ (p.(p_maker_coin).(htlc_key_is_random_per_swap) = true ∧ unsent pre)).
Proof.
  intros Hkey Hh. apply history_state in Hh as (b & cmd & h0 & Hok & Hu & _); [|done..].
  destruct Hok as (-> & -> & -> & -> & Hmp & _ & pre' & ms & Hpre & _ & Hor).
  pose proof (replay_fixed p (logged pre)) as Hfix. injection Hfix as _ Hmc _ Hma _.
  split_and!; [done|exact Hma| |].
  - intros tx Htx%(replay_payment p). change (m_maker_payment (s_mutable (replay p (logged pre))) = None) in Hmp.
    rewrite Hmp in Htx. by destruct Htx.
  - destruct Hor as [(blk & ->)|(-> & Hb & Hrand)].
    + left. eauto.
    + right. split; [|by apply Hu]. by rewrite <-Hmc.
Qed.

(** the maker pays only after the taker's fee: when the network's rules make
    a fee due from the key the taker negotiated with, a fee transaction was
    validated before, against that fee, that key and the network's fee address.
    The payment is sent within the first third of the lock duration. *)
Theorem payment_only_after_fee (p : SwapParams) pre side htlc amount x post :
  node_key_ok p →
  history p (pre ++ Ev (SendPayment side htlc amount) x :: post) →
  (∃ pub, let fee := compute_dex_fee_with_taker_pubkey p.(p_ctx).(ctx_net_cfg) p.(p_taker_coin)
                       p.(p_maker_coin).(ticker) (dec_to_rational p.(p_taker_amount)) pub in
     fee = NoFee ∨
     ∃ args, Ev (ValidateFee TakerCoin args) (Ok ()) ∈ pre
       ∧ args.(vf_dex_fee) = fee ∧ args.(expected_sender) = pub
       ∧ args.(fee_addr) = p.(p_ctx).(ctx_net_cfg).(dex_fee_addr_raw_pubkey))
  ∧ ∃ pre' ms d, pre = pre' ++ [Ev NowMs ms] ∧ Started d ∈ logged pre
      ∧ ms / 1000 ≤ u64 (d.(d_started_at) + p.(p_payment_locktime) / 3).
Proof.
  intros Hkey Hh. apply history_state in Hh as (b & cmd & h0 & Hok & _ & Hd); [|done..].
  destruct Hok as (-> & _ & _ & _ & _ & Hfee & pre' & ms & Hpre & Hms & _).
  destruct Hd as [|[|(d & rest & HL & Hd & Hcore)]]; [done..|].
  injection Hcore as _ _ Hst Hlock _ Hmcoin.
  pose proof (replay_fixed p (logged pre)) as Hfix. injection Hfix as Hctx _ Htc _ Hta.
  split.
  - exists ((replay p (logged pre)).(s_mutable).(m_other_taker_coin_htlc_pub)).
    change (fee_settled pre (replay p (logged pre))) in Hfee.
    unfold fee_settled, expected_dex_fee in Hfee.
    by rewrite Hctx, Htc, Hta, Hmcoin, (so_maker_coin _ _ Hd) in Hfee.
  - exists pre', ms, d. split_and!; [done|rewrite HL; set_solver|].
    change (ms / 1000 ≤ payment_deadline (replay p (logged pre))) in Hms.
    unfold payment_deadline in Hms. rewrite Hst, Hlock in Hms. by rewrite (so_lock _ _ Hd) in Hms.
Qed.

(** C24: a stop is harmless: when the log holds [Started] and the swap is not
    finished, a restart gives exactly the state the saved events lead to and the
    command that was next, and the key pre-check never holds it up. *)
Theorem restart_resumes (p : SwapParams) h now d rest c :
  node_key_ok p → history p h →
  logged h = Started d :: rest → last_command (logged h) = Some c →
  prepare (KickStart now p.(p_ctx) p.(p_maker_coin) p.(p_taker_coin)
             (Ok (db_of (new_swap p) h))) = Some (replay p (logged h), c).
Proof.
  intros Hkey Hh HL Hc. pose proof (history_inv (maker_role p) h Hh) as [HL0|Hi]; [congruence|].
  destruct (li_head _ _ Hi) as (e0 & Hhead & Hd). pose proof (li_started _ _ Hi) as Hst.
  pose proof (replayed_clock (maker_role p) now false h c Hi Hc) as Hnow.
  change (fold_events now (new_swap p) (logged h) = replay p (logged h)) in Hnow.
  rewrite HL in *. injection Hhead as <-.
  cbn. pose proof (db_of_spec (new_swap p) h) as Hdb.
  destruct (db_of (new_swap p) h) as [db|]; [|by unfold logged in HL; rewrite Hdb in HL].
  destruct Hdb as (_ & HLdb & Hu & Ho).
  rewrite (load_replay p now db d rest), Hc by (done || by rewrite HLdb, saved_events_logged).
  by rewrite Hnow, replay_keys.
Qed.

(** a step that is cut while its events are being saved loses nothing:
    whichever of them reached the database, the restart applies those and goes
    on with the very command the step had chosen. *)
Theorem interrupted_step_resumes (p : SwapParams) h d rest c fuel tr next evs k now db :
  node_key_ok p → history p h →
  logged h = Started d :: rest → last_command (logged h) = Some c →
  runs (handle_command (replay p (logged h)) fuel c) tr (Val (next, evs)) →
  (0 < k)%nat →
  db.(ss_uuid) = p.(p_uuid) → db.(ss_my_order_uuid) = p.(p_my_order_uuid) →
  se_event <$> db.(ss_events) = logged h ++ take k evs →
  load_from_saved now p.(p_ctx) p.(p_maker_coin) p.(p_taker_coin) db
  = Ok (fold_events now (replay p (logged h)) (take k evs), next).
Proof.
  intros Hkey Hh HL Hc Hrun Hk Hu Ho Hdb.
  destruct (history_inv (maker_role p) h Hh) as [?|Hi]; [congruence|].
  pose proof (li_ready _ _ Hi) as Hready.
  apply (law_ready_restored (maker_role p) h true false) in Hready.
  change (ready h (replay p (logged h)) (last_command (logged h))) in Hready.
  rewrite Hc in Hready.
  assert (c ≠ CStart) as Hns.
  { intros ->. unfold last_command in Hc. destruct (last (logged h)) as [e|]; [|done].
    by destruct e. }
  pose proof (safe_runs _ _ _ _ _ _ (handler_safe p _ fuel c h (λ E, False_ind _ (Hns E)) Hready)
    Hrun) as (Hne & Hposts & _).
  destruct (li_head _ _ Hi) as (e0 & Hhead & Hd). rewrite HL in Hhead. injection Hhead as <-.
  rewrite (load_replay p now db d (rest ++ take k evs)); [|done..|by rewrite Hdb, HL].
  pose proof (replayed_clock (maker_role p) now false h c Hi Hc) as Hnow.
  apply (f_equal Ok). f_equal.
  - rewrite app_comm_cons, <-HL. unfold fold_events. rewrite foldl_app. by f_equal.
  - rewrite app_comm_cons, <-HL.
    destruct (posts_last (maker_role p) (h ++ tr) (replay p (logged h)) next (take k evs) (logged h))
      as (el & Hel & [Hl|[_ [=]]]).
    + rewrite <-(take_drop k evs) in Hposts. by eapply posts_app.
    + destruct k, evs; done || lia.
    + unfold last_command. by rewrite Hel.
Qed.

(** What a process of the swap is started with. *)
Inductive process (p : SwapParams) : maker_trace → RunMakerSwapInput → Prop :=
| process_new : process p [] (StartNew (new_swap p))
| process_restart h now :
    history p h →
    process p h (KickStart now p.(p_ctx) p.(p_maker_coin) p.(p_taker_coin)
      (Ok (db_of (new_swap p) h))).

(** C35: every process of a swap ends: ten commands are enough, and the refund's
    loop ends once it is refused fewer times than the fuel counts. It ends with
    the swap finished, or without having saved anything (the swap was locked by
    another process, or there was nothing to resume); it panics only when the
    database refuses to save. *)
Theorem process_ends (p : SwapParams) h input fuel tr o :
  node_key_ok p → process p h input →
  runs (run_maker_swap 10 fuel input) tr o →
  (refusals tr < fuel)%nat →
  (o = Val () ∧ (last (logged (h ++ tr)) = Some Finished ∨ logged tr = []))
  ∨ (o = Panicked ∧ save_failed (h ++ tr)).
Proof.
  intros Hkey Hproc Hrun Hfuel.
  assert (SwapLoop.process (maker_role p) h (prepare input)) as Hp.
  { destruct Hproc as [|h now Hh]; [apply (SwapLoop.process_new (maker_role p))|by apply (SwapLoop.process_restart (maker_role p))]. }
  destruct (process_ends_with (maker_role p) h (prepare input) fuel tr o Hp Hrun Hfuel)
    as [?|[-> [?|[]]]]; [by left|by right].
Qed.

(** the log of a finished swap tells how it ended: [Finished] comes right
    after the one event [t] that ends a swap. A swap whose payment was sent
    ended in the confirmed spend of the taker's payment, in the refund, or in a
    failed refund; and the swaps [recover_funds_of_swap] is offered for are
    exactly those whose payment may be on chain and was neither spent for nor
    refunded. *)
Theorem finished_log (p : SwapParams) h db :
  node_key_ok p → history p h → db_of (new_swap p) h = Some db → is_finished db = true →
  ∃ L t, logged h = L ++ [t; Finished]
    ∧ ((∃ tx, MakerPaymentSent tx ∈ L) →
        t = TakerPaymentSpendConfirmed ∨ (∃ tx, t = MakerPaymentRefunded tx)
        ∨ (∃ e, t = MakerPaymentRefundFailed e))
    ∧ (is_recoverable db = true ↔
        (∃ e, t = MakerPaymentTransactionFailed e) ∨ (∃ e, t = MakerPaymentRefundFailed e)).
Proof.
  intros Hkey Hh Hdb Hfin. pose proof (db_of_spec (new_swap p) h) as Hspec.
  rewrite Hdb in Hspec. destruct Hspec as (_ & Hevs & _).
  pose proof (is_finished_logged db h Hevs Hfin) as Hlast.
  destruct (history_inv (maker_role p) h Hh) as [HL0|Hi]; [by rewrite HL0 in Hlast|].
  destruct (finished_split (maker_role p) h Hi id Hlast) as (L & t & HL & [Ht|[_ [=]]] & Hleg & Hearly).
  pose proof (li_wf _ _ Hi) as Hwf. rewrite HL in Hwf. exists L, t.
  split_and!; [done| |].
  - intros [tx Htx%(replay_payment p)].
    assert (early_failure t = false) as Hno.
    { destruct (early_failure t) eqn:Et; [|done]. specialize (Hearly eq_refl).
      rewrite replayed_replay in Hearly. cbn in Hearly. rewrite Hearly in Htx. by destruct Htx. }
    destruct t; try done; eauto.
  - unfold is_recoverable. rewrite Hfin, Hevs, (forallb_logged (λ e, negb (settles e))), HL.
    rewrite forallb_app, (forallb_unsettled p L t Hkey Hwf). cbn.
    destruct t; try done; cbn; naive_solver.
Qed.

(** What a successful negotiation has checked. *)
Lemma negotiate_checked s tr n :
  runs (negotiate s) tr (Val (Some CWaitForTakerFee, [NegotiatedEv n])) →
  let d := s.(s_mutable).(m_data) in
  ∃ m, Ev (RecvSwapMsg SlotNegotiationReply NEGOTIATION_TIMEOUT) (Ok m) ∈ tr
    ∧ started_at_dif d.(d_started_at) (nd_started_at m) ≤ 60
    ∧ n.(tn_taker_payment_locktime) = u64 (nd_started_at m + d.(d_lock_duration)).
Proof.
  assert (safe (λ _ _, True) [] (negotiate s) (λ tr o,
    match o with
    | Val (Some CWaitForTakerFee, [NegotiatedEv n]) =>
        ∃ m, Ev (RecvSwapMsg SlotNegotiationReply NEGOTIATION_TIMEOUT) (Ok m) ∈ tr
          ∧ started_at_dif s.(s_mutable).(m_data).(d_started_at) (nd_started_at m) ≤ 60
          ∧ n.(tn_taker_payment_locktime) =
              u64 (nd_started_at m + s.(s_mutable).(m_data).(d_lock_duration))
    | _ => True
    end)) as Hsafe; [|intros Hrun; by apply (safe_runs _ _ _ _ _ _ Hsafe Hrun)].
  unfold negotiate, negotiate_failed, h264_checked. walk.
  eexists. split_and!; [|by apply Z.ltb_ge|].
  - set_solver.
  - cbn. by apply Z.eqb_eq, negb_false_iff.
Qed.

(** The starting time a negotiation reply claims. *)
Definition reply_started_at (e : call_event MakerSwapEvent) : option Z :=
  match e with
  | Ev c x =>
      match c return SwapResp c → option Z with
      | RecvSwapMsg SlotNegotiationReply _ => λ x : result NegotiationDataMsg string,
          match x with Ok m => Some (nd_started_at m) | Err _ => None end
      | _ => λ _, None
      end x
  end.

Definition replies_in_range (tr : maker_trace) : bool :=
  forallb (λ e, match reply_started_at e with
                | Some z => bool_decide (is_u 64 z)
                | None => true
                end) tr.

(** a negotiated swap leaves the maker room. Whatever starting time the taker
    claims, the lock time its payment is checked against on chain (32 bits) is
    within a minute of one lock duration after the maker's start; so the taker
    cannot take its payment back before the maker's last moment to spend it has
    passed, a fifth of the duration earlier, and the maker's own payment is
    locked for at least another duration less a minute. *)
Theorem negotiated_lock_times s tr n :
  let d := s.(s_mutable).(m_data) in
  let start := d.(d_started_at) in
  let T := d.(d_lock_duration) in
  let taker_lock := u32 n.(tn_taker_payment_locktime) in
  60 ≤ start → 0 ≤ T → start + 2 * T + 60 < 2 ^ 32 →
  d.(d_maker_payment_lock) = u64 (start + T * 2) →
  replies_in_range tr = true →
  runs (negotiate s) tr (Val (Some CWaitForTakerFee, [NegotiatedEv n])) →
  start + T - 60 ≤ taker_lock ≤ start + T + 60
  ∧ taker_payment_deadline s + T / 5 - 60 ≤ taker_lock
  ∧ taker_lock + T - 60 ≤ u32 d.(d_maker_payment_lock).
Proof.
  intros d start T taker_lock Hstart HT Hmax Hlock Hmsg Hrun.
  destruct (negotiate_checked s tr n Hrun) as (m & Hm & Hdif & Hn).
  apply list_elem_of_In in Hm.
  pose proof (proj1 (forallb_forall _ _) Hmsg _ Hm) as Hm64. apply bool_decide_eq_true in Hm64.
  fold d in Hdif, Hn. fold start in Hdif. fold T in Hn.
  unfold taker_lock, taker_payment_deadline. rewrite Hn, Hlock. fold d start T.
  assert (is_u 64 start) as Hs by zwrap.
  apply started_at_dif_spec in Hdif; [|done..].
  revert Hm64 Hdif. generalize (nd_started_at m). intros b Hb Hdif.
  clearbody start T. clear -Hstart HT Hmax Hs Hb Hdif.
  change (2 ^ 63) with 9223372036854775808 in *. zwrap.
Qed.

End claims.

(** ** The properties at the sample *)

#[local] Existing Instance World.externals.

Lemma secret_only_for_validated_payment_witness :
  ∃ input, Ev (ValidatePayment TakerCoin input) (Ok ()) ∈ take 49 Sample.run
    ∧ input.(payment_tx) = [z2b 21] ∧ input.(vp_amount) = {| int_val := 40; scale := 0 |}.
Proof.
  destruct (secret_only_for_validated_payment Sample.params (take 49 Sample.run) TakerCoin
    [z2b 21] 1700007803 (replicate 33 (z2b 9)) (replicate 32 (z2b 5)) (replicate 32 (z2b 2)) None
    (Ok (World.tx 40)) (drop 50 Sample.run) Sample.key_ok) as (_ & (input & ? & ? & _ & _ & ? & _) & _).
  - apply (Sample.run_split 49). vm_compute. reflexivity.
  - eauto.
Defined.

Definition sample_htlc : HtlcArgs := my_htlc (replay Sample.params (logged (take 29 Sample.run))).

Lemma payment_only_when_none_exists_witness :
  ∃ pre' b ms, take 29 Sample.run =
    (pre' ++ [Ev (CheckIfMyPaymentSent MakerCoin sample_htlc b) (Ok None)]) ++ [Ev NowMs ms].
Proof.
  destruct (payment_only_when_none_exists Sample.params (take 29 Sample.run) MakerCoin
    sample_htlc {| int_val := 15; scale := 1 |} (Ok (World.tx 30)) (drop 30 Sample.run)
    Sample.key_ok) as (_ & _ & _ & [?|[Hr _]]).
  - apply (Sample.run_split 29). vm_compute. reflexivity.
  - done.
  - discriminate Hr.
Defined.

Lemma payment_only_after_fee_witness :
  ∃ pre' ms d, take 29 Sample.run = pre' ++ [Ev NowMs ms] ∧ Started d ∈ logged (take 29 Sample.run)
    ∧ ms / 1000 ≤ u64 (d.(d_started_at) + 7800 / 3).
Proof.
  apply (payment_only_after_fee Sample.params (take 29 Sample.run) MakerCoin
    sample_htlc {| int_val := 15; scale := 1 |} (Ok (World.tx 30)) (drop 30 Sample.run)
    Sample.key_ok).
  apply (Sample.run_split 29). vm_compute. reflexivity.
Defined.

Lemma restart_resumes_witness :
  prepare (KickStart 0 Sample.params.(p_ctx) Sample.params.(p_maker_coin)
    Sample.params.(p_taker_coin) (Ok (db_of (new_swap Sample.params) (take 40 Sample.run))))
  = Some (replay Sample.params (logged (take 40 Sample.run)), CValidateTakerPayment).
Proof.
  apply (restart_resumes Sample.params (take 40 Sample.run) 0 Sample.data
    (tail (logged (take 40 Sample.run))));
    [apply Sample.key_ok|apply Sample.cut_history|vm_compute; reflexivity..].
Defined.

Lemma interrupted_step_resumes_witness :
  let L := logged (take 33 Sample.run) in
  let e := TakerPaymentReceived {| ti_tx_hex := [z2b 21]; ti_tx_hash := [z2b 21] |} in
  let db := Sample.saved <| ss_events := (saved_event <$> saved_log (take 33 Sample.run))
                              ++ [{| se_timestamp := 1; se_event := e |}] |> in
  load_from_saved 0 Sample.params.(p_ctx) Sample.params.(p_maker_coin)
    Sample.params.(p_taker_coin) db
  = Ok (fold_events 0 (replay Sample.params L) [e], Some CValidateTakerPayment).
Proof.
  intros L e db.
  apply (interrupted_step_resumes Sample.params (take 33 Sample.run) Sample.data (tail L)
    CWaitForTakerPayment 0
    (exec World.env [] (handle_command (replay Sample.params L) 0 CWaitForTakerPayment)).1
    (Some CValidateTakerPayment) [e; TakerPaymentWaitConfirmStarted] 1);
    [apply Sample.key_ok|apply Sample.cut_history|vm_compute; reflexivity| | |lia|..].
  - vm_compute; reflexivity.
  - assert ((exec World.env [] (handle_command (replay Sample.params L) 0 CWaitForTakerPayment)).2
      = Val (Some CValidateTakerPayment, [e; TakerPaymentWaitConfirmStarted])) as <-
      by (vm_compute; reflexivity).
    apply exec_runs.
  - vm_compute; reflexivity.
  - vm_compute; reflexivity.
  - vm_compute; reflexivity.
Defined.

Lemma process_ends_witness :
  (Val () = Val () ∧ (last (logged ([] ++ Sample.run)) = Some Finished ∨ logged Sample.run = []))
  ∨ (Val () = Panicked ∧ save_failed ([] ++ Sample.run)).
Proof.
  apply (process_ends Sample.params [] (StartNew (new_swap Sample.params)) 3 Sample.run (Val ()));
    [apply Sample.key_ok|constructor| |vm_compute; lia].
  assert ((exec World.env [] (run_maker_swap 10 3 (StartNew (new_swap Sample.params)))).2
    = Val ()) as <- by (vm_compute; reflexivity).
  apply Sample.run_runs.
Defined.

Lemma finished_log_witness :
  ∃ L t, logged Sample.run = L ++ [t; Finished].
Proof.
  destruct (finished_log Sample.params Sample.run Sample.saved) as (L & t & HL & _);
    [apply Sample.key_ok|apply Sample.run_history|vm_compute; reflexivity..|eauto].
Defined.

Lemma negotiated_lock_times_witness :
  let s := Sample.negotiating in
  let taker_lock := u32 Sample.negotiation.(tn_taker_payment_locktime) in
  1700000000 + 7800 - 60 ≤ taker_lock ≤ 1700000000 + 7800 + 60.
Proof.
  apply (negotiated_lock_times Sample.negotiating
    (exec World.env [] (negotiate Sample.negotiating)).1 Sample.negotiation);
    [vm_compute; congruence..|vm_compute; reflexivity|vm_compute; reflexivity| |].
  - vm_compute. reflexivity.
  - assert ((exec World.env [] (negotiate Sample.negotiating)).2
      = Val (Some CWaitForTakerFee, [NegotiatedEv Sample.negotiation])) as <-
      by (vm_compute; reflexivity).
    apply exec_runs.
Defined.

(** the check that the taker's clock is within a minute of the maker's lets
    one more claim through: a starting time exactly 2^63 seconds away, whose
    distance has no absolute value in 64 bits. The negotiation goes on. *)
Theorem far_start_accepted :
  let s := Sample.negotiating in
  let start := s.(s_mutable).(m_data).(d_started_at) in
  ∃ tr n, runs (negotiate s) tr (Val (Some CWaitForTakerFee, [NegotiatedEv n]))
    ∧ Ev (RecvSwapMsg SlotNegotiationReply NEGOTIATION_TIMEOUT)
         (Ok (World.negotiation_data (start + 2 ^ 63) 1)) ∈ tr.
Proof.
  intros s start. pose (env := World.env_at (E:=MakerSwapEvent) (start + 2 ^ 63)).
  exists (exec env [] (negotiate s)).1, (Sample.negotiation <| tn_taker_payment_locktime :=
    start + 2 ^ 63 + 7800 |>). split.
  - assert ((exec env [] (negotiate s)).2 = Val (Some CWaitForTakerFee, [NegotiatedEv
      (Sample.negotiation <| tn_taker_payment_locktime := start + 2 ^ 63 + 7800 |>)])) as <-
      by (vm_compute; reflexivity).
    apply exec_runs.
  - apply (list_elem_of_lookup_2 _ 1). vm_compute. reflexivity.
Qed.
