(* ===== verification/TakerSwap.v ===== *)
(** * The taker's swap

    [mm2_main/src/lp_swap/taker_swap.rs]: the state of a taker swap, the events
    it saves, the handler of every command, the refund with its looks at the
    chain, the data handed to the watchers, the restart from a saved log and the
    run of a swap to its end, in the loop of [SwapLoop].  A handler is a program
    over [SwapCall] that returns the next command and the events to save, as the
    method of [TakerSwap] it models. *)

From Stdlib Require Import ZArith Qcanon.
From S2P Require Import Prelude MmNumber NetConfig DexFee SwapCommon LockedAmounts Effects SwapEnv SwapLoop.
From stdpp Require Import base tactics strings list numbers pretty.
From coqutil Require Import Datatypes.RecordSettersUsingExistingGetters.

Local Open Scope Z_scope.

Definition TAKER_SUCCESS_EVENTS : list string := [
  "Started"; "Negotiated"; "TakerFeeSent"; "TakerPaymentInstructionsReceived";
  "MakerPaymentReceived"; "MakerPaymentWaitConfirmStarted";
  "MakerPaymentValidatedAndConfirmed"; "TakerPaymentSent"; "WatcherMessageSent";
  "TakerPaymentSpent"; "MakerPaymentSpent"; "MakerPaymentSpendConfirmed";
  "MakerPaymentSpentByWatcher"; "TakerPaymentRefundStarted";
  "TakerPaymentRefundFinished"; "TakerPaymentRefundedByWatcher"; "Finished"]%string.

Definition TAKER_ERROR_EVENTS : list string := [
  "StartFailed"; "NegotiateFailed"; "TakerFeeSendFailed"; "MakerPaymentValidateFailed";
  "MakerPaymentWaitConfirmFailed"; "TakerPaymentTransactionFailed";
  "TakerPaymentWaitConfirmFailed"; "TakerPaymentDataSendFailed";
  "TakerPaymentWaitForSpendFailed"; "MakerPaymentSpendFailed";
  "MakerPaymentSpendConfirmFailed"; "TakerPaymentWaitRefundStarted";
  "TakerPaymentRefunded"; "TakerPaymentRefundFailed"]%string.

(** The waits of the refund, in seconds. *)
Record RefundPacing := {
  non_final_retry_secs : Z;
  max_wait_step_secs : Z;
  min_wait_step_secs : Z;
  chain_look_interval_secs : Z;
  chain_look_timeout_secs : Z
}.

Definition REFUND_PACING : RefundPacing := {|
  non_final_retry_secs := NON_FINAL_REFUND_RETRY_SECS;
  max_wait_step_secs := 300;
  min_wait_step_secs := 5;
  chain_look_interval_secs := 60;
  chain_look_timeout_secs := 120
|}.

(** ** Data *)

Record MakerNegotiationData := {
  mn_maker_payment_locktime : Z;
  mn_maker_pubkey : bytes;
  mn_secret_hash : bytes;
  mn_maker_coin_swap_contract_addr : option bytes;
  mn_taker_coin_swap_contract_addr : option bytes;
  mn_maker_coin_htlc_pubkey : option bytes;
  mn_taker_coin_htlc_pubkey : option bytes
}.

Definition other_maker_coin_htlc_pub (d : MakerNegotiationData) : bytes :=
  default d.(mn_maker_pubkey) d.(mn_maker_coin_htlc_pubkey).
Definition other_taker_coin_htlc_pub (d : MakerNegotiationData) : bytes :=
  default d.(mn_maker_pubkey) d.(mn_taker_coin_htlc_pubkey).

Record TakerPaymentSpentData := {
  sp_transaction : TransactionIdentifier;
  sp_secret : bytes
}.

Record TakerSwapData := {
  td_taker_coin : string;
  td_maker_coin : string;
  td_maker : bytes;
  td_my_persistent_pub : bytes;
  td_lock_duration : Z;
  td_maker_amount : BigDecimal;
  td_taker_amount : BigDecimal;
  td_maker_payment_confirmations : Z;
  td_maker_payment_requires_nota : option bool;
  td_taker_payment_confirmations : Z;
  td_taker_payment_requires_nota : option bool;
  td_taker_payment_lock : Z;
  td_uuid : Uuid;
  td_started_at : Z;
  td_maker_payment_wait : Z;
  td_maker_coin_start_block : Z;
  td_taker_coin_start_block : Z;
  td_fee_to_send_taker_fee : option SavedTradeFee;
  td_taker_payment_trade_fee : option SavedTradeFee;
  td_maker_payment_spend_trade_fee : option SavedTradeFee;
  td_maker_coin_swap_contract_address : option bytes;
  td_taker_coin_swap_contract_address : option bytes;
  td_maker_coin_htlc_privkey : option KeyPair;
  td_maker_coin_htlc_pubkey : option bytes;
  td_taker_coin_htlc_privkey : option KeyPair;
  td_taker_coin_htlc_pubkey : option bytes;
  td_p2p_privkey : option KeyPair
}.

Definition TakerSwapData_default : TakerSwapData := {|
  td_taker_coin := EmptyString; td_maker_coin := EmptyString;
  td_maker := zero_bytes 32; td_my_persistent_pub := zero_bytes 33; td_lock_duration := 0;
  td_maker_amount := zero_decimal; td_taker_amount := zero_decimal;
  td_maker_payment_confirmations := 0; td_maker_payment_requires_nota := None;
  td_taker_payment_confirmations := 0; td_taker_payment_requires_nota := None;
  td_taker_payment_lock := 0; td_uuid := 0; td_started_at := 0; td_maker_payment_wait := 0;
  td_maker_coin_start_block := 0; td_taker_coin_start_block := 0;
  td_fee_to_send_taker_fee := None; td_taker_payment_trade_fee := None;
  td_maker_payment_spend_trade_fee := None;
  td_maker_coin_swap_contract_address := None; td_taker_coin_swap_contract_address := None;
  td_maker_coin_htlc_privkey := None; td_maker_coin_htlc_pubkey := None;
  td_taker_coin_htlc_privkey := None; td_taker_coin_htlc_pubkey := None;
  td_p2p_privkey := None
|}.

Inductive TakerSwapCommand :=
| CStart | CNegotiate | CSendTakerFee | CWaitForMakerPayment | CValidateMakerPayment
| CSendTakerPayment | CWaitForTakerPaymentSpend | CSpendMakerPayment
| CRefundTakerPayment | CFinish.

#[global] Instance TakerSwapCommand_eq_dec : EqDecision TakerSwapCommand.
Proof. solve_decision. Defined.

Notation SwapError := string.

(** The instructions of a historical log are kept as their JSON text. *)
Inductive TakerSwapEvent :=
| Started (d : TakerSwapData)
| StartFailed (e : SwapError)
| NegotiatedEv (d : MakerNegotiationData)
| NegotiateFailed (e : SwapError)
| TakerFeeSent (tx : TransactionIdentifier)
| TakerFeeSendFailed (e : SwapError)
| TakerPaymentInstructionsReceived (instructions : option string)
| MakerPaymentReceived (tx : TransactionIdentifier)
| MakerPaymentWaitConfirmStarted
| MakerPaymentValidatedAndConfirmed
| MakerPaymentValidateFailed (e : SwapError)
| MakerPaymentWaitConfirmFailed (e : SwapError)
| TakerPaymentSent (tx : TransactionIdentifier)
| WatcherMessageSent
| TakerPaymentTransactionFailed (e : SwapError)
| TakerPaymentDataSendFailed (e : SwapError)
| TakerPaymentWaitConfirmFailed (e : SwapError)
| TakerPaymentSpent (data : TakerPaymentSpentData)
| TakerPaymentWaitForSpendFailed (e : SwapError)
| MakerPaymentSpent (tx : TransactionIdentifier)
| MakerPaymentSpendConfirmed
| MakerPaymentSpendConfirmFailed (e : SwapError)
| MakerPaymentSpentByWatcher (tx : TransactionIdentifier)
| MakerPaymentSpendFailed (e : SwapError)
| TakerPaymentWaitRefundStarted (wait_until : Z)
| TakerPaymentRefundStarted
| TakerPaymentRefunded (tx : TransactionIdentifier)
| TakerPaymentRefundFinished
| TakerPaymentRefundedByWatcher (tx : TransactionIdentifier)
| TakerPaymentRefundFailed (e : SwapError)
| Finished.

(** ** State *)

Record TakerSwapMut := {
  tm_data : TakerSwapData;
  tm_other_maker_coin_htlc_pub : bytes;
  tm_other_taker_coin_htlc_pub : bytes;
  tm_taker_fee : option TransactionIdentifier;
  tm_maker_payment : option TransactionIdentifier;
  tm_taker_payment : option TransactionIdentifier;
  tm_maker_payment_spend : option TransactionIdentifier;
  tm_taker_payment_spend : option TransactionIdentifier;
  tm_taker_payment_refund : option TransactionIdentifier;
  tm_secret_hash : bytes;
  tm_secret : bytes;
  tm_my_maker_coin_htlc_keypair : KeyPair;
  tm_my_taker_coin_htlc_keypair : KeyPair;
  tm_my_maker_coin_htlc_pub : bytes;
  tm_my_taker_coin_htlc_pub : bytes
}.

Record TakerSwap := {
  ts_ctx : MmCtx;
  ts_maker_coin : SwapCoin;
  ts_taker_coin : SwapCoin;
  ts_maker_amount : MmNumber;
  ts_taker_amount : MmNumber;
  ts_my_persistent_pub : bytes;
  ts_node_key_pair : KeyPair;
  ts_maker : bytes;
  ts_uuid : Uuid;
  ts_my_order_uuid : option Uuid;
  ts_maker_payment_lock : Z;
  ts_maker_payment_confirmed : bool;
  ts_errors : list SwapError;
  ts_finished_at : Z;
  ts_mutable : TakerSwapMut;
  ts_conf_settings : SwapConfirmationsSettings;
  ts_payment_locktime : Z;
  ts_p2p_privkey : option KeyPair;
  ts_started_in_this_process : bool
}.

(** ** Construction and events *)

Definition new (ctx : MmCtx) (maker : bytes) (maker_amount taker_amount : MmNumber)
    (node_key_pair : KeyPair) (uuid : Uuid) (my_order_uuid : option Uuid)
    (conf_settings : SwapConfirmationsSettings) (maker_coin taker_coin : SwapCoin)
    (payment_locktime : Z) (p2p_privkey : option KeyPair) : TakerSwap := {|
  ts_ctx := ctx;
  ts_maker_coin := maker_coin;
  ts_taker_coin := taker_coin;
  ts_maker_amount := maker_amount;
  ts_taker_amount := taker_amount;
  ts_my_persistent_pub := h264 node_key_pair.(kp_public);
  ts_node_key_pair := node_key_pair;
  ts_maker := maker;
  ts_uuid := uuid;
  ts_my_order_uuid := my_order_uuid;
  ts_maker_payment_lock := 0;
  ts_maker_payment_confirmed := false;
  ts_errors := [];
  ts_finished_at := 0;
  ts_mutable := {|
    tm_data := TakerSwapData_default;
    tm_other_maker_coin_htlc_pub := zero_bytes 33;
    tm_other_taker_coin_htlc_pub := zero_bytes 33;
    tm_taker_fee := None;
    tm_maker_payment := None;
    tm_taker_payment := None;
    tm_maker_payment_spend := None;
    tm_taker_payment_spend := None;
    tm_taker_payment_refund := None;
    tm_secret_hash := [];
    tm_secret := zero_bytes 32;
    tm_my_maker_coin_htlc_keypair := node_key_pair;
    tm_my_taker_coin_htlc_keypair := node_key_pair;
    tm_my_maker_coin_htlc_pub := h264 node_key_pair.(kp_public);
    tm_my_taker_coin_htlc_pub := h264 node_key_pair.(kp_public)
  |};
  ts_conf_settings := conf_settings;
  ts_payment_locktime := payment_locktime;
  ts_p2p_privkey := p2p_privkey;
  ts_started_in_this_process := false
|}.

Definition wait_refund_until (s : TakerSwap) : Z :=
  u64 (s.(ts_mutable).(tm_data).(td_taker_payment_lock) + 3700).

Definition push_error (s : TakerSwap) (e : SwapError) : TakerSwap :=
  s <| ts_errors ::= (λ l, l ++ [e]) |>.

Definition apply_started (s : TakerSwap) (data : TakerSwapData) : TakerSwap :=
  let swap_unique_input := uuid_bytes data.(td_uuid) in
  let s :=
    match restored_htlc_key_pair s.(ts_maker_coin) swap_unique_input
            data.(td_maker_coin_htlc_privkey) data.(td_maker_coin_htlc_pubkey) with
    | Some keypair => s <| ts_mutable ::= (λ m, m <| tm_my_maker_coin_htlc_keypair := keypair |>) |>
    | None => s
    end in
  let s :=
    match restored_htlc_key_pair s.(ts_taker_coin) swap_unique_input
            data.(td_taker_coin_htlc_privkey) data.(td_taker_coin_htlc_pubkey) with
    | Some keypair => s <| ts_mutable ::= (λ m, m <| tm_my_taker_coin_htlc_keypair := keypair |>) |>
    | None => s
    end in
  let my_maker_coin_htlc_pub :=
    default (h264 s.(ts_mutable).(tm_my_maker_coin_htlc_keypair).(kp_public))
      data.(td_maker_coin_htlc_pubkey) in
  let my_taker_coin_htlc_pub :=
    default (h264 s.(ts_mutable).(tm_my_taker_coin_htlc_keypair).(kp_public))
      data.(td_taker_coin_htlc_pubkey) in
  s <| ts_mutable ::= (λ m, m <| tm_my_maker_coin_htlc_pub := my_maker_coin_htlc_pub |>) |>
       <| ts_mutable ::= (λ m, m <| tm_my_taker_coin_htlc_pub := my_taker_coin_htlc_pub |>) |>
       <| ts_mutable ::= (λ m, m <| tm_data := data |>) |>.

Definition apply_negotiated (s : TakerSwap) (data : MakerNegotiationData) : TakerSwap :=
  let s := s <| ts_maker_payment_lock := data.(mn_maker_payment_locktime) |>
       <| ts_mutable ::= (λ m, m <| tm_other_maker_coin_htlc_pub := other_maker_coin_htlc_pub data |>) |>
       <| ts_mutable ::= (λ m, m <| tm_other_taker_coin_htlc_pub := other_taker_coin_htlc_pub data |>) |>
       <| ts_mutable ::= (λ m, m <| tm_secret_hash := data.(mn_secret_hash) |>) |> in
  let s :=
    match data.(mn_maker_coin_swap_contract_addr) with
    | Some _ as a => s <| ts_mutable ::= (λ m, m <| tm_data ::= (λ d, d <| td_maker_coin_swap_contract_address := a |>) |>) |>
    | None => s
    end in
  match data.(mn_taker_coin_swap_contract_addr) with
  | Some _ as a => s <| ts_mutable ::= (λ m, m <| tm_data ::= (λ d, d <| td_taker_coin_swap_contract_address := a |>) |>) |>
  | None => s
  end.

(** [now] is the clock [apply_event] reads for [Finished], in milliseconds. *)
Definition apply_event (now : Z) (s : TakerSwap) (event : TakerSwapEvent) : TakerSwap :=
  match event with
  | Started data => apply_started s data
  | StartFailed err => push_error s err
  | NegotiatedEv data => apply_negotiated s data
  | NegotiateFailed err => push_error s err
  | TakerFeeSent tx => s <| ts_mutable ::= (λ m, m <| tm_taker_fee := Some tx |>) |>
  | TakerFeeSendFailed err => push_error s err
  | TakerPaymentInstructionsReceived _ => s
  | MakerPaymentReceived tx => s <| ts_mutable ::= (λ m, m <| tm_maker_payment := Some tx |>) |>
  | MakerPaymentWaitConfirmStarted => s
  | MakerPaymentValidatedAndConfirmed => s <| ts_maker_payment_confirmed := true |>
  | MakerPaymentValidateFailed err => push_error s err
  | MakerPaymentWaitConfirmFailed err => push_error s err
  | TakerPaymentSent tx => s <| ts_mutable ::= (λ m, m <| tm_taker_payment := Some tx |>) |>
  | WatcherMessageSent => s
  | TakerPaymentTransactionFailed err => push_error s err
  | TakerPaymentDataSendFailed err => push_error s err
  | TakerPaymentWaitConfirmFailed err => push_error s err
  | TakerPaymentSpent data =>
      s <| ts_mutable ::= (λ m, m <| tm_taker_payment_spend := Some data.(sp_transaction) |>) |>
        <| ts_mutable ::= (λ m, m <| tm_secret := data.(sp_secret) |>) |>
  | TakerPaymentWaitForSpendFailed err => push_error s err
  | MakerPaymentSpent tx => s <| ts_mutable ::= (λ m, m <| tm_maker_payment_spend := Some tx |>) |>
  | MakerPaymentSpendConfirmed => s
  | MakerPaymentSpendConfirmFailed err => push_error s err
  | MakerPaymentSpentByWatcher tx => s <| ts_mutable ::= (λ m, m <| tm_maker_payment_spend := Some tx |>) |>
  | MakerPaymentSpendFailed err => push_error s err
  | TakerPaymentWaitRefundStarted _ => s
  | TakerPaymentRefundStarted => s
  | TakerPaymentRefunded tx => s <| ts_mutable ::= (λ m, m <| tm_taker_payment_refund := Some tx |>) |>
  | TakerPaymentRefundFinished => s
  | TakerPaymentRefundedByWatcher tx => s <| ts_mutable ::= (λ m, m <| tm_taker_payment_refund := Some tx |>) |>
  | TakerPaymentRefundFailed err => push_error s err
  | Finished => s <| ts_finished_at := now / 1000 |>
  end.

(** ** Commands *)

Notation taker_prog := (swap_prog TakerSwapEvent).
Notation step_result := (option TakerSwapCommand * list TakerSwapEvent)%type.
Notation ask c := (call (Resp:=@SwapResp TakerSwapEvent) c).

Definition maker_payment_wait (swap_started_at payment_locktime : Z) : Z :=
  u64 (swap_started_at + u64 (payment_locktime * 2) / 5).

Section handlers.
Context `{Externals} (s : TakerSwap).

Let r : TakerSwapMut := s.(ts_mutable).
Let data : TakerSwapData := r.(tm_data).

Definition get_my_negotiation_data (secret_hash maker_coin_swap_contract
    taker_coin_swap_contract : bytes) : NegotiationDataMsg :=
  if bool_decide (r.(tm_my_maker_coin_htlc_pub) ≠ r.(tm_my_taker_coin_htlc_pub)) then
    V3 {| v3_started_at := data.(td_started_at);
          v3_payment_locktime := data.(td_taker_payment_lock);
          v3_secret_hash := secret_hash;
          v3_maker_coin_swap_contract := maker_coin_swap_contract;
          v3_taker_coin_swap_contract := taker_coin_swap_contract;
          v3_maker_coin_htlc_pub := r.(tm_my_maker_coin_htlc_pub);
          v3_taker_coin_htlc_pub := r.(tm_my_taker_coin_htlc_pub) |}
  else
    V2 {| v2_started_at := data.(td_started_at);
          v2_secret_hash := secret_hash;
          v2_payment_locktime := data.(td_taker_payment_lock);
          v2_persistent_pubkey := r.(tm_my_maker_coin_htlc_pub);
          v2_maker_coin_swap_contract := maker_coin_swap_contract;
          v2_taker_coin_swap_contract := taker_coin_swap_contract |}.

Definition start_failed (e : string) : taker_prog step_result :=
  Ret (Some CFinish, [StartFailed e]).

Definition refuse_if_own_payment_unwatchable : taker_prog (option step_result) :=
  let! _ := ask (EnsureOwnPaymentWatchable TakerCoin)
    orelse e => Ret (Some (Some CFinish,
                  [StartFailed ("!taker_coin.ensure_own_payment_watchable " +:+ e)])) in
  Ret None.

(** The dex fee [start] computes, of the public key it has just derived. *)
Definition start_dex_fee (my_taker_coin_htlc_pub : bytes) : DexFee :=
  compute_dex_fee_with_taker_pubkey s.(ts_ctx).(ctx_net_cfg) s.(ts_taker_coin)
    s.(ts_maker_coin).(ticker) s.(ts_taker_amount) my_taker_coin_htlc_pub.

(** The part of [start] after the keys: the fees, the balance, the blocks. *)
Definition start_funded (maker_coin_htlc_privkey taker_coin_htlc_privkey : option KeyPair)
    (maker_coin_htlc_pubkey taker_coin_htlc_pubkey : bytes) : taker_prog step_result :=
  let dex_fee := start_dex_fee taker_coin_htlc_pubkey in
  let! fee_to_send_dex_fee :=
      ask (GetFeeToSendTakerFee TakerCoin (mm_to_decimal (total_spend_amount dex_fee)))
    orelse e => start_failed ("!taker_coin.get_fee_to_send_taker_fee " +:+ e) in
  let! taker_payment_trade_fee :=
      ask (GetSenderTradeFee TakerCoin (mm_to_decimal s.(ts_taker_amount)))
    orelse e => start_failed ("!taker_coin.get_sender_trade_fee " +:+ e) in
  let! maker_payment_spend_trade_fee := ask (GetReceiverTradeFee MakerCoin)
    orelse e => start_failed ("!maker_coin.get_receiver_trade_fee " +:+ e) in
  let! _ := ask (CheckTakerBalance s.(ts_taker_amount) (total_spend_amount dex_fee)
                   fee_to_send_dex_fee taker_payment_trade_fee maker_payment_spend_trade_fee)
    orelse e => start_failed ("!check_balance_for_taker_swap " +:+ e) in
  refusal ← refuse_if_own_payment_unwatchable;
  match refusal with
  | Some res => Ret res
  | None =>
  started_at ← now_secs;
  let! maker_coin_start_block := ask (CurrentBlock MakerCoin)
    orelse e => start_failed ("!maker_coin.current_block " +:+ e) in
  let! taker_coin_start_block := ask (CurrentBlock TakerCoin)
    orelse e => start_failed ("!taker_coin.current_block " +:+ e) in
  Ret (Some CNegotiate, [Started {|
    td_taker_coin := s.(ts_taker_coin).(ticker);
    td_maker_coin := s.(ts_maker_coin).(ticker);
    td_maker := s.(ts_maker);
    td_my_persistent_pub := s.(ts_my_persistent_pub);
    td_lock_duration := s.(ts_payment_locktime);
    td_maker_amount := mm_to_decimal s.(ts_maker_amount);
    td_taker_amount := mm_to_decimal s.(ts_taker_amount);
    td_maker_payment_confirmations := s.(ts_conf_settings).(maker_coin_confs);
    td_maker_payment_requires_nota := Some s.(ts_conf_settings).(maker_coin_nota);
    td_taker_payment_confirmations := s.(ts_conf_settings).(taker_coin_confs);
    td_taker_payment_requires_nota := Some s.(ts_conf_settings).(taker_coin_nota);
    td_taker_payment_lock := u64 (started_at + s.(ts_payment_locktime));
    td_uuid := s.(ts_uuid);
    td_started_at := started_at;
    td_maker_payment_wait := maker_payment_wait started_at s.(ts_payment_locktime);
    td_maker_coin_start_block := maker_coin_start_block;
    td_taker_coin_start_block := taker_coin_start_block;
    td_fee_to_send_taker_fee := Some (SavedTradeFee_from fee_to_send_dex_fee);
    td_taker_payment_trade_fee := Some (SavedTradeFee_from taker_payment_trade_fee);
    td_maker_payment_spend_trade_fee := Some (SavedTradeFee_from maker_payment_spend_trade_fee);
    td_maker_coin_swap_contract_address := s.(ts_maker_coin).(swap_contract_address);
    td_taker_coin_swap_contract_address := s.(ts_taker_coin).(swap_contract_address);
    td_maker_coin_htlc_privkey := maker_coin_htlc_privkey;
    td_maker_coin_htlc_pubkey := Some maker_coin_htlc_pubkey;
    td_taker_coin_htlc_privkey := taker_coin_htlc_privkey;
    td_taker_coin_htlc_pubkey := Some taker_coin_htlc_pubkey;
    td_p2p_privkey := s.(ts_p2p_privkey)
  |}])
  end.

Definition start : taker_prog step_result :=
  let swap_unique_input := uuid_bytes s.(ts_uuid) in
  let node_pub := s.(ts_node_key_pair).(kp_public) in
  match start_htlc_key_pair s.(ts_maker_coin) node_pub swap_unique_input with
  | Err e => start_failed e
  | Ok (maker_coin_htlc_key_pair, maker_coin_htlc_privkey) =>
  match start_htlc_key_pair s.(ts_taker_coin) node_pub swap_unique_input with
  | Err e => start_failed e
  | Ok (taker_coin_htlc_key_pair, taker_coin_htlc_privkey) =>
  match derive_htlc_pubkeys node_pub s.(ts_maker_coin) maker_coin_htlc_key_pair
          s.(ts_taker_coin) taker_coin_htlc_key_pair with
  | Err e => start_failed e
  | Ok (maker_coin_htlc_pubkey, taker_coin_htlc_pubkey) =>
      start_funded maker_coin_htlc_privkey taker_coin_htlc_privkey
        maker_coin_htlc_pubkey taker_coin_htlc_pubkey
  end end end.

Definition NEGOTIATE_TIMEOUT : Z := 90.

Definition negotiate_failed (e : string) : taker_prog step_result :=
  Ret (Some CFinish, [NegotiateFailed e]).

(** The part of [negotiate] after the maker's acknowledgement. *)
Definition negotiate_accepted (maker_data : NegotiationDataMsg)
    (maker_coin_swap_contract_addr taker_coin_swap_contract_addr : option bytes)
    : taker_prog step_result :=
  match validate_wire_pubkey (nd_maker_coin_htlc_pub maker_data) "maker_coin_htlc_pub" with
  | Err e => negotiate_failed e
  | Ok _ =>
  match validate_wire_pubkey (nd_taker_coin_htlc_pub maker_data) "taker_coin_htlc_pub" with
  | Err e => negotiate_failed e
  | Ok _ =>
  match validate_wire_field_len (nd_secret_hash maker_data) SWAP_WIRE_SECRET_HASH_MIN_LEN
          "secret_hash" with
  | Err e => negotiate_failed e
  | Ok _ =>
  let! _ := ask (ValidateOtherPubkey MakerCoin (nd_maker_coin_htlc_pub maker_data))
    orelse e => negotiate_failed ("!" +:+ s.(ts_maker_coin).(ticker)
                  +:+ ".validate_other_pubkey maker_coin_htlc_pub: " +:+ e) in
  let! _ := ask (ValidateOtherPubkey TakerCoin (nd_taker_coin_htlc_pub maker_data))
    orelse e => negotiate_failed ("!" +:+ s.(ts_taker_coin).(ticker)
                  +:+ ".validate_other_pubkey taker_coin_htlc_pub: " +:+ e) in
  maker_pub ← h264_checked (nd_maker_coin_htlc_pub maker_data);
  taker_pub ← h264_checked (nd_taker_coin_htlc_pub maker_data);
  Ret (Some CSendTakerFee, [NegotiatedEv {|
    mn_maker_payment_locktime := nd_payment_locktime maker_data;
    mn_maker_pubkey := zero_bytes 33;
    mn_secret_hash := nd_secret_hash maker_data;
    mn_maker_coin_swap_contract_addr := maker_coin_swap_contract_addr;
    mn_taker_coin_swap_contract_addr := taker_coin_swap_contract_addr;
    mn_maker_coin_htlc_pubkey := Some maker_pub;
    mn_taker_coin_htlc_pubkey := Some taker_pub
  |}])
  end end end.

Definition negotiate : taker_prog step_result :=
  let! maker_data := ask (RecvSwapMsg SlotNegotiation NEGOTIATE_TIMEOUT)
    orelse e => negotiate_failed e in
  let time_dif := started_at_dif data.(td_started_at) (nd_started_at maker_data) in
  if 60 <? time_dif then
    negotiate_failed ("Started_at time_dif over 60 " +:+ pretty time_dif)
  else
  let expected_lock_time := u64 (nd_started_at maker_data + u64 (data.(td_lock_duration) * 2)) in
  if negb (nd_payment_locktime maker_data =? expected_lock_time) then
    negotiate_failed ("maker_data.payment_locktime " +:+ pretty (nd_payment_locktime maker_data)
      +:+ " not equal to expected " +:+ pretty expected_lock_time)
  else
  let! maker_coin_swap_contract_addr :=
      ask (NegotiateSwapContractAddr MakerCoin (nd_maker_coin_swap_contract maker_data))
    orelse e => negotiate_failed ("!maker_coin.negotiate_swap_contract_addr " +:+ e) in
  let! taker_coin_swap_contract_addr :=
      ask (NegotiateSwapContractAddr TakerCoin (nd_taker_coin_swap_contract maker_data))
    orelse e => negotiate_failed ("!taker_coin.negotiate_swap_contract_addr " +:+ e) in
  let my_negotiation_data := get_my_negotiation_data (nd_secret_hash maker_data)
    (default [] maker_coin_swap_contract_addr) (default [] taker_coin_swap_contract_addr) in
  _ ← ask (BroadcastEvery (NegotiationReply my_negotiation_data) (NEGOTIATE_TIMEOUT / 6));
  let! negotiated := ask (RecvSwapMsg SlotNegotiated NEGOTIATE_TIMEOUT)
    orelse e => negotiate_failed e in
  if negb negotiated then negotiate_failed "Maker sent negotiated = false"
  else negotiate_accepted maker_data maker_coin_swap_contract_addr taker_coin_swap_contract_addr.

Definition fee_failed (e : string) : taker_prog step_result :=
  Ret (Some CFinish, [TakerFeeSendFailed e]).

Definition my_dex_fee : DexFee :=
  compute_dex_fee_with_taker_pubkey s.(ts_ctx).(ctx_net_cfg) s.(ts_taker_coin)
    data.(td_maker_coin) s.(ts_taker_amount) r.(tm_my_taker_coin_htlc_pub).

(** A third of the way to the taker's lock time. *)
Definition taker_fee_deadline : Z := u64 (data.(td_started_at) + data.(td_lock_duration) / 3).

Definition send_taker_fee : taker_prog step_result :=
  now ← now_secs;
  if taker_fee_deadline <? now then
    fee_failed ("Timeout " +:+ pretty now +:+ " > " +:+ pretty taker_fee_deadline)
  else
  match my_dex_fee with
  | NoFee =>
      Ret (Some CWaitForMakerPayment, [TakerFeeSent {| ti_tx_hex := []; ti_tx_hash := [] |}])
  | dex_fee =>
      let! transaction := ask (SendTakerFee TakerCoin dex_fee
            s.(ts_ctx).(ctx_net_cfg).(dex_fee_addr_raw_pubkey) (uuid_bytes s.(ts_uuid)))
        orelse err => fee_failed (get_plain_text_format err) in
      Ret (Some CWaitForMakerPayment, [TakerFeeSent (identifier transaction)])
  end.

Definition MAKER_PAYMENT_WAIT_TIMEOUT : Z := 600.

Definition maker_payment_failed (e : string) : taker_prog step_result :=
  Ret (Some CFinish, [MakerPaymentValidateFailed e]).

Definition wait_for_maker_payment : taker_prog step_result :=
  fee ← unwrap r.(tm_taker_fee);
  _ ← ask (BroadcastEvery (TakerFee fee.(ti_tx_hex)) (MAKER_PAYMENT_WAIT_TIMEOUT / 6));
  let! payload := ask (RecvSwapMsg SlotMakerPayment MAKER_PAYMENT_WAIT_TIMEOUT)
    orelse e => maker_payment_failed ("Error waiting for 'maker-payment' data: " +:+ e) in
  let! maker_payment := ask (TxEnumFromBytes MakerCoin payload)
    orelse e => maker_payment_failed ("Error parsing the 'maker-payment': " +:+ e) in
  Ret (Some CValidateMakerPayment,
       [MakerPaymentReceived (identifier maker_payment); MakerPaymentWaitConfirmStarted]).

Definition validate_maker_payment : taker_prog step_result :=
  let confirmations := data.(td_maker_payment_confirmations) in
  payment ← unwrap r.(tm_maker_payment);
  let! _ := ask (WaitForConfirmations MakerCoin payment.(ti_tx_hex) confirmations
                   (default false data.(td_maker_payment_requires_nota))
                   data.(td_maker_payment_wait) WAIT_CONFIRM_INTERVAL)
    orelse err => Ret (Some CFinish, [MakerPaymentWaitConfirmFailed
                    ("!wait for maker payment confirmations: " +:+ err)]) in
  let! _ := ask (ValidatePayment MakerCoin {|
      payment_tx := payment.(ti_tx_hex);
      time_lock := u32 s.(ts_maker_payment_lock);
      taker_pub := r.(tm_my_maker_coin_htlc_pub);
      maker_pub := r.(tm_other_maker_coin_htlc_pub);
      vp_secret_hash := r.(tm_secret_hash);
      vp_amount := mm_to_decimal s.(ts_maker_amount);
      vp_swap_contract_address := data.(td_maker_coin_swap_contract_address);
      try_spv_proof_until := data.(td_maker_payment_wait);
      vp_confirmations := confirmations |})
    orelse e => maker_payment_failed ("!validate maker payment: " +:+ e) in
  Ret (Some CSendTakerPayment, [MakerPaymentValidatedAndConfirmed]).

Definition payment_failed (e : string) : taker_prog step_result :=
  Ret (Some CFinish, [TakerPaymentTransactionFailed e]).

(** The HTLC of the taker's own payment. *)
Definition my_htlc : HtlcArgs := {|
  ha_time_lock := u32 data.(td_taker_payment_lock);
  ha_my_pub := r.(tm_my_taker_coin_htlc_pub);
  ha_other_pub := r.(tm_other_taker_coin_htlc_pub);
  ha_secret_hash := r.(tm_secret_hash);
  ha_swap_contract_address := data.(td_taker_coin_swap_contract_address)
|}.

Definition send_taker_payment : taker_prog step_result :=
  let sent (transaction : Transaction) : taker_prog step_result :=
    Ret (Some CWaitForTakerPaymentSpend, [TakerPaymentSent (identifier transaction)]) in
  let! already_sent :=
      (if skips_already_sent_question s.(ts_taker_coin) s.(ts_started_in_this_process)
            (bool_decide (is_Some r.(tm_taker_payment)))
       then Ret (Ok None)
       else ask (CheckIfMyPaymentSent TakerCoin my_htlc data.(td_taker_coin_start_block)))
    orelse e => payment_failed e in
  match already_sent with
  | Some tx => sent tx
  | None =>
      let timeout := data.(td_maker_payment_wait) in
      now ← now_secs;
      if timeout <? now then
        payment_failed ("Timeout " +:+ pretty now +:+ " > " +:+ pretty timeout)
      else
        let! t := ask (SendPayment TakerCoin my_htlc (mm_to_decimal s.(ts_taker_amount)))
          orelse err => payment_failed (get_plain_text_format err) in
        sent t
  end.

Definition WATCHER_MSG_INTERVAL : Z := 10.

(** The broadcast to the watchers; [false] is the answer [None] of the code, no
    broadcast. *)
Definition maybe_broadcast_watcher_data (taker_payment_hex : bytes) : taker_prog bool :=
  if negb s.(ts_taker_coin).(is_supported_by_watchers)
     || negb s.(ts_maker_coin).(is_supported_by_watchers) then Ret false
  else
  match r.(tm_taker_fee), r.(tm_maker_payment) with
  | None, _ | _, None => Ret false
  | Some fee, Some mp =>
      let time_lock := u32 data.(td_taker_payment_lock) in
      let maker_pub := r.(tm_other_maker_coin_htlc_pub) in
      let my_pub := r.(tm_my_taker_coin_htlc_keypair).(kp_public) in
      let! maker_preimage_tx := ask (CreateMakerPaymentSpendPreimage TakerCoin mp.(ti_tx_hex)
                                       time_lock maker_pub r.(tm_secret_hash))
        orelse e => Ret false in
      let! taker_refund_tx := ask (CreateTakerPaymentRefundPreimage TakerCoin taker_payment_hex
                                     time_lock my_pub r.(tm_secret_hash))
        orelse e => Ret false in
      _ ← ask (BroadcastWatcherMsg {|
        wd_uuid := s.(ts_uuid);
        wd_secret_hash := r.(tm_secret_hash);
        wd_maker_payment_spend_preimage := maker_preimage_tx.(tx_hex);
        wd_taker_payment_refund_preimage := taker_refund_tx.(tx_hex);
        wd_swap_started_at := data.(td_started_at);
        wd_lock_duration := data.(td_lock_duration);
        wd_taker_coin := s.(ts_taker_coin).(ticker);
        wd_taker_fee_hash := fee.(ti_tx_hex);
        wd_taker_payment_hash := taker_payment_hex;
        wd_taker_coin_start_block := data.(td_taker_coin_start_block);
        wd_taker_payment_confirmations := data.(td_taker_payment_confirmations);
        wd_taker_payment_requires_nota := data.(td_taker_payment_requires_nota);
        wd_maker_coin := s.(ts_maker_coin).(ticker);
        wd_maker_pub := maker_pub;
        wd_maker_payment_hash := mp.(ti_tx_hex);
        wd_maker_coin_start_block := data.(td_maker_coin_start_block) |} WATCHER_MSG_INTERVAL);
      Ret true
  end.

Definition refund_after (e : TakerSwapEvent) : taker_prog step_result :=
  Ret (Some CRefundTakerPayment, [e; TakerPaymentWaitRefundStarted (wait_refund_until s)]).

Definition payment_spent (tx : Transaction) (secret : bytes) : step_result :=
  (Some CSpendMakerPayment,
   [TakerPaymentSpent {| sp_transaction := identifier tx; sp_secret := secret |}]).

Definition wait_for_taker_payment_spend : taker_prog step_result :=
  payment ← unwrap r.(tm_taker_payment);
  _ ← ask (BroadcastEvery (TakerPayment payment.(ti_tx_hex)) 600);
  _ ← maybe_broadcast_watcher_data payment.(ti_tx_hex);
  let wait_duration := u64 (data.(td_lock_duration) * 4) / 5 in
  let wait_taker_payment := u64 (data.(td_started_at) + wait_duration) in
  let! _ := ask (WaitForConfirmations TakerCoin payment.(ti_tx_hex)
                   data.(td_taker_payment_confirmations)
                   (default false data.(td_taker_payment_requires_nota))
                   wait_taker_payment WAIT_CONFIRM_INTERVAL)
    orelse err => refund_after (TakerPaymentWaitConfirmFailed
                    ("!taker_coin.wait_for_confirmations: " +:+ err)) in
  let! tx := ask (WaitForTxSpend TakerCoin payment.(ti_tx_hex) data.(td_taker_payment_lock)
                    data.(td_taker_coin_start_block) data.(td_taker_coin_swap_contract_address))
    orelse err => refund_after (TakerPaymentWaitForSpendFailed (get_plain_text_format err)) in
  let! secret_bytes := ask (ExtractSecret TakerCoin r.(tm_secret_hash) tx.(tx_hex))
    orelse e => Ret (Some CFinish, [TakerPaymentWaitForSpendFailed e]) in
  secret ← h256_checked secret_bytes;
  Ret (payment_spent tx secret).

Definition spend_maker_payment : taker_prog step_result :=
  payment ← unwrap r.(tm_maker_payment);
  let! transaction := ask (SpendPayment MakerCoin payment.(ti_tx_hex)
                             (u32 s.(ts_maker_payment_lock)) r.(tm_other_maker_coin_htlc_pub)
                             r.(tm_secret) r.(tm_my_maker_coin_htlc_keypair).(kp_private)
                             data.(td_maker_coin_swap_contract_address))
    orelse err =>
      _ ← (match get_tx err with
           | Some tx => ask (BroadcastTx MakerCoin tx)
           | None => Ret ()
           end);
      Ret (Some CFinish, [MakerPaymentSpendFailed (get_plain_text_format err)]) in
  _ ← ask (BroadcastTx MakerCoin transaction);
  Ret (Some CFinish, [MakerPaymentSpent (identifier transaction)]).

(** A look at the chain in the refund; [None] goes on with the refund. *)
Definition refund_outcome_from_chain (timeout_secs : Z) : taker_prog (option step_result) :=
  if bool_decide (is_Some r.(tm_taker_payment_spend)) then Ret None
  else match r.(tm_taker_payment) with
  | None => Ret None
  | Some taker_payment =>
      let! found := ask (SearchForSwapTxSpendMy TakerCoin my_htlc taker_payment.(ti_tx_hex)
                           data.(td_taker_coin_start_block) (Some timeout_secs))
        orelse e => Ret None in
      match found with
      | None => Ret None
      | Some (Spent tx) =>
          let! secret_bytes := ask (ExtractSecret TakerCoin r.(tm_secret_hash) tx.(tx_hex))
            orelse e => Ret None in
          secret ← h256_checked secret_bytes;
          Ret (Some (payment_spent tx secret))
      | Some (Refunded tx) =>
          Ret (Some (Some CFinish, [TakerPaymentRefunded (identifier tx)]))
      end
  end.

(** A look at the chain that ends the step when it finds something. *)
Definition look_at_chain (timeout_secs : Z) (go_on : taker_prog step_result)
    : taker_prog step_result :=
  outcome ← refund_outcome_from_chain timeout_secs;
  match outcome with
  | Some res => Ret res
  | None => go_on
  end.

(** The two nested loops of the refund: the gate [can_refund_htlc], with a look
    at the chain when the last one is old enough, and the return to the gate
    after a rejection that is retried.  [fuel] bounds the number of questions
    asked at the gate. *)
Fixpoint refund_taker_payment_loop (fuel : nat) (pacing : RefundPacing)
    (last_chain_look_ms : Z) : taker_prog step_result :=
  match fuel with
  | O => NoFuel
  | S fuel =>
      gate ← ask (CanRefund TakerCoin data.(td_taker_payment_lock));
      match gate with
      | Ok (HaveToWait to_sleep) =>
          let step := Z.min (Z.max to_sleep pacing.(min_wait_step_secs))
                        pacing.(max_wait_step_secs) in
          _ ← ask (Sleep step);
          now_ms ← ask NowMs;
          if Z.max 0 (now_ms - last_chain_look_ms) <? pacing.(chain_look_interval_secs) * 1000
          then refund_taker_payment_loop fuel pacing last_chain_look_ms
          else
            last_chain_look_ms ← ask NowMs;
            look_at_chain pacing.(chain_look_timeout_secs)
              (refund_taker_payment_loop fuel pacing last_chain_look_ms)
      | Err _ =>
          _ ← ask (Sleep 30);
          refund_taker_payment_loop fuel pacing last_chain_look_ms
      | Ok CanRefundNow =>
          payment ← unwrap r.(tm_taker_payment);
          let! transaction := ask (RefundPayment TakerCoin payment.(ti_tx_hex)
                                     (u32 data.(td_taker_payment_lock))
                                     r.(tm_other_taker_coin_htlc_pub) r.(tm_secret_hash)
                                     r.(tm_my_taker_coin_htlc_keypair).(kp_private)
                                     data.(td_taker_coin_swap_contract_address))
            orelse err =>
              let rejection := get_plain_text_format err in
              now ← now_secs;
              retried ← retried_refund_rejection TakerCoin rejection now (wait_refund_until s);
              match retried with
              | Some _ =>
                  _ ← ask (Sleep pacing.(non_final_retry_secs));
                  refund_taker_payment_loop fuel pacing last_chain_look_ms
              | None =>
                  look_at_chain pacing.(chain_look_timeout_secs)
                    (_ ← (match get_tx err with
                          | Some tx => ask (BroadcastTx TakerCoin tx)
                          | None => Ret ()
                          end);
                     Ret (Some CFinish, [TakerPaymentRefundFailed rejection]))
              end in
          _ ← ask (BroadcastTx TakerCoin transaction);
          Ret (Some CFinish, [TakerPaymentRefunded (identifier transaction)])
      end
  end.

Definition refund_taker_payment_paced (fuel : nat) (pacing : RefundPacing)
    : taker_prog step_result :=
  look_at_chain pacing.(chain_look_timeout_secs)
    (last_chain_look_ms ← ask NowMs;
     refund_taker_payment_loop fuel pacing last_chain_look_ms).

Definition refund_taker_payment (fuel : nat) : taker_prog step_result :=
  refund_taker_payment_paced fuel REFUND_PACING.

Definition handle_command (fuel : nat) (command : TakerSwapCommand) : taker_prog step_result :=
  match command with
  | CStart => start
  | CNegotiate => negotiate
  | CSendTakerFee => send_taker_fee
  | CWaitForMakerPayment => wait_for_maker_payment
  | CValidateMakerPayment => validate_maker_payment
  | CSendTakerPayment => send_taker_payment
  | CWaitForTakerPaymentSpend => wait_for_taker_payment_spend
  | CSpendMakerPayment => spend_maker_payment
  | CRefundTakerPayment => refund_taker_payment fuel
  | CFinish => Ret (None, [Finished])
  end.

End handlers.

(** ** The saved log *)

Definition status_str (e : TakerSwapEvent) : string :=
  match e with
  | Started _ => "Started..."
  | StartFailed _ => "Start failed..."
  | NegotiatedEv _ => "Negotiated..."
  | NegotiateFailed _ => "Negotiate failed..."
  | TakerFeeSent _ => "Taker fee sent..."
  | TakerFeeSendFailed _ => "Taker fee send failed..."
  | TakerPaymentInstructionsReceived _ => "Taker payment instructions obtained..."
  | MakerPaymentReceived _ => "Maker payment received..."
  | MakerPaymentWaitConfirmStarted => "Maker payment wait confirm started..."
  | MakerPaymentValidatedAndConfirmed => "Maker payment validated and confirmed..."
  | MakerPaymentValidateFailed _ => "Maker payment validate failed..."
  | MakerPaymentWaitConfirmFailed _ => "Maker payment wait for confirmation failed..."
  | TakerPaymentSent _ => "Taker payment sent..."
  | WatcherMessageSent => "Watcher message sent..."
  | TakerPaymentTransactionFailed _ => "Taker payment transaction failed..."
  | TakerPaymentDataSendFailed _ => "Taker payment data send failed..."
  | TakerPaymentWaitConfirmFailed _ => "Taker payment wait for confirmation failed..."
  | TakerPaymentSpent _ => "Taker payment spent..."
  | TakerPaymentWaitForSpendFailed _ => "Taker payment wait for spend failed..."
  | MakerPaymentSpent _ => "Maker payment spent..."
  | MakerPaymentSpendConfirmed => "Maker payment spend confirmed..."
  | MakerPaymentSpendConfirmFailed _ => "Maker payment spend confirm failed..."
  | MakerPaymentSpentByWatcher _ => "Maker payment spent by watcher..."
  | MakerPaymentSpendFailed _ => "Maker payment spend failed..."
  | TakerPaymentWaitRefundStarted wait_until =>
      "Taker payment wait refund till " +:+ pretty wait_until +:+ " started..."
  | TakerPaymentRefundStarted => "Taker payment refund started..."
  | TakerPaymentRefunded _ => "Taker payment refunded..."
  | TakerPaymentRefundFinished => "Taker payment refund finished..."
  | TakerPaymentRefundedByWatcher _ => "Taker payment refunded by watcher..."
  | TakerPaymentRefundFailed _ => "Taker payment refund failed..."
  | Finished => "Finished"
  end%string.

Definition should_ban_maker (e : TakerSwapEvent) : bool :=
  match e with
  | NegotiateFailed _ | MakerPaymentValidateFailed _ | TakerPaymentWaitForSpendFailed _ => true
  | _ => false
  end.

Definition is_success (e : TakerSwapEvent) : bool :=
  match e with
  | Started _ | NegotiatedEv _ | TakerFeeSent _ | TakerPaymentInstructionsReceived _
  | MakerPaymentReceived _ | MakerPaymentWaitConfirmStarted
  | MakerPaymentValidatedAndConfirmed | TakerPaymentSent _ | WatcherMessageSent
  | TakerPaymentSpent _ | MakerPaymentSpent _ | MakerPaymentSpendConfirmed
  | MakerPaymentSpentByWatcher _ | TakerPaymentRefundStarted
  | TakerPaymentRefundFinished | TakerPaymentRefundedByWatcher _ | Finished => true
  | _ => false
  end.

Definition is_error (e : TakerSwapEvent) : bool := negb (is_success e).

Record TakerSavedEvent := { te_timestamp : Z; te_event : TakerSwapEvent }.

(** The next command after a restart. *)
Definition get_command (e : TakerSwapEvent) : option TakerSwapCommand :=
  match e with
  | Started _ => Some CNegotiate
  | StartFailed _ => Some CFinish
  | NegotiatedEv _ => Some CSendTakerFee
  | NegotiateFailed _ => Some CFinish
  | TakerFeeSent _ => Some CWaitForMakerPayment
  | TakerFeeSendFailed _ => Some CFinish
  | TakerPaymentInstructionsReceived _ => Some CValidateMakerPayment
  | MakerPaymentReceived _ => Some CValidateMakerPayment
  | MakerPaymentWaitConfirmStarted => Some CValidateMakerPayment
  | MakerPaymentValidatedAndConfirmed => Some CSendTakerPayment
  | MakerPaymentValidateFailed _ => Some CFinish
  | MakerPaymentWaitConfirmFailed _ => Some CFinish
  | TakerPaymentSent _ => Some CWaitForTakerPaymentSpend
  | WatcherMessageSent => Some CWaitForTakerPaymentSpend
  | TakerPaymentTransactionFailed _ => Some CFinish
  | TakerPaymentDataSendFailed _ => Some CRefundTakerPayment
  | TakerPaymentSpent _ => Some CSpendMakerPayment
  | TakerPaymentWaitForSpendFailed _ => Some CRefundTakerPayment
  | TakerPaymentWaitConfirmFailed _ => Some CRefundTakerPayment
  | MakerPaymentSpent _ => Some CFinish
  | MakerPaymentSpendConfirmed => Some CFinish
  | MakerPaymentSpendConfirmFailed _ => Some CFinish
  | MakerPaymentSpentByWatcher _ => Some CFinish
  | MakerPaymentSpendFailed _ => Some CRefundTakerPayment
  | TakerPaymentWaitRefundStarted _ => Some CRefundTakerPayment
  | TakerPaymentRefundStarted => Some CRefundTakerPayment
  | TakerPaymentRefunded _ => Some CFinish
  | TakerPaymentRefundFinished => Some CFinish
  | TakerPaymentRefundedByWatcher _ => Some CFinish
  | TakerPaymentRefundFailed _ => Some CFinish
  | Finished => None
  end.

Record TakerSavedSwap := {
  tv_uuid : Uuid;
  tv_my_order_uuid : option Uuid;
  tv_events : list TakerSavedEvent;
  tv_maker_amount : option BigDecimal;
  tv_maker_coin : option string;
  tv_taker_amount : option BigDecimal;
  tv_taker_coin : option string;
  tv_gui : option string;
  tv_mm_version : option string;
  tv_success_events : list string;
  tv_error_events : list string
}.

(** [save_my_taker_swap_event] on what the database holds for the swap. *)
Definition save_my_taker_swap_event `{Externals} (s : TakerSwap) (db : option TakerSavedSwap)
    (e : TakerSavedEvent) : TakerSavedSwap :=
  let saved :=
    match db with
    | Some saved => saved
    | None => {|
        tv_uuid := s.(ts_uuid);
        tv_my_order_uuid := s.(ts_my_order_uuid);
        tv_events := [];
        tv_maker_amount := Some (mm_to_decimal s.(ts_maker_amount));
        tv_maker_coin := Some s.(ts_maker_coin).(ticker);
        tv_taker_amount := Some (mm_to_decimal s.(ts_taker_amount));
        tv_taker_coin := Some s.(ts_taker_coin).(ticker);
        tv_gui := s.(ts_ctx).(ctx_gui);
        tv_mm_version := Some s.(ts_ctx).(ctx_mm_version);
        tv_success_events := TAKER_SUCCESS_EVENTS;
        tv_error_events := TAKER_ERROR_EVENTS
      |}
    end in
  saved <| tv_events ::= (λ l, l ++ [e]) |>.

Section saved_swap.
Context (saved : TakerSavedSwap).

(** The data of the [Started] event a log begins with. *)
Definition swap_data : result TakerSwapData string :=
  match head saved.(tv_events) with
  | Some event =>
      match event.(te_event) with
      | Started data => Ok data
      | _ => Err "First swap event must be Started"%string
      end
  | None => Err "Can't get swap_data, events are empty"%string
  end.

Definition is_finished_event (e : TakerSwapEvent) : bool :=
  match e with Finished => true | _ => false end.

Definition is_finished : bool :=
  match last saved.(tv_events) with
  | Some event => is_finished_event event.(te_event)
  | None => false
  end.

Definition finished_at : result Z string :=
  match last saved.(tv_events) with
  | Some event =>
      match event.(te_event) with
      | Finished => Ok (event.(te_timestamp) / 1000)
      | _ => Err "Last swap event must be Finished"%string
      end
  | None => Err "Can't get finished_at, events are empty"%string
  end.

Definition settles (e : TakerSwapEvent) : bool :=
  match e with
  | StartFailed _ | NegotiateFailed _ | TakerFeeSendFailed _ | MakerPaymentValidateFailed _
  | TakerPaymentRefunded _ | MakerPaymentSpent _ | MakerPaymentSpendConfirmed
  | MakerPaymentSpentByWatcher _ | TakerPaymentRefundedByWatcher _
  | MakerPaymentWaitConfirmFailed _ => true
  | _ => false
  end.

Definition is_recoverable : bool :=
  is_finished && forallb (λ e, negb (settles e.(te_event))) saved.(tv_events).

Definition saved_is_success : result bool string :=
  if negb is_finished
  then Err "Can not determine is_success state for not finished swap"%string
  else Ok (forallb (λ e, negb (is_error e.(te_event))) saved.(tv_events)).

End saved_swap.

(** ** Restart *)

Section restart.
Context `{Externals}.

Definition fold_events (now : Z) (s : TakerSwap) (evs : list TakerSwapEvent) : TakerSwap :=
  foldl (apply_event now) s evs.

Definition refresh_contract_addresses (maker_coin taker_coin : SwapCoin)
    (d : TakerSwapData) : TakerSwapData :=
  let d := match d.(td_maker_coin_swap_contract_address) with
           | None => d <| td_maker_coin_swap_contract_address := maker_coin.(swap_contract_address) |>
           | Some _ => d
           end in
  match d.(td_taker_coin_swap_contract_address) with
  | None => d <| td_taker_coin_swap_contract_address := taker_coin.(swap_contract_address) |>
  | Some _ => d
  end.

Definition load_from_saved (now : Z) (ctx : MmCtx) (maker_coin taker_coin : SwapCoin)
    (saved : TakerSavedSwap) : result (TakerSwap * option TakerSwapCommand) string :=
  match saved.(tv_events) with
  | [] => Err "Can't restore swap from empty events set"%string
  | first :: rest =>
      match first.(te_event) with
      | Started data0 =>
          let data := refresh_contract_addresses maker_coin taker_coin data0 in
          match swap_node_key_pair ctx data.(td_my_persistent_pub) with
          | Err e => Err e
          | Ok node_key_pair =>
              let conf_settings := {|
                maker_coin_confs := data.(td_maker_payment_confirmations);
                maker_coin_nota := default maker_coin.(sc_requires_notarization)
                                     data.(td_maker_payment_requires_nota);
                taker_coin_confs := data.(td_taker_payment_confirmations);
                taker_coin_nota := default taker_coin.(sc_requires_notarization)
                                     data.(td_taker_payment_requires_nota)
              |} in
              let swap := new ctx data.(td_maker) (dec_to_rational data.(td_maker_amount))
                            (dec_to_rational data.(td_taker_amount)) node_key_pair
                            saved.(tv_uuid) (Some saved.(tv_uuid)) conf_settings
                            maker_coin taker_coin data.(td_lock_duration)
                            data.(td_p2p_privkey) in
              let command := get_command (List.last (first :: rest) first).(te_event) in
              Ok (fold_events now swap (Started data :: (te_event <$> rest)), command)
          end
      | _ => Err "First swap event must be Started"%string
      end
  end.

Definition check_rederived_htlc_keys (s : TakerSwap) : result unit string :=
  let r := s.(ts_mutable) in
  match check_held_htlc_key s.(ts_maker_coin) r.(tm_my_maker_coin_htlc_keypair)
          r.(tm_my_maker_coin_htlc_pub) with
  | Err e => Err e
  | Ok _ => check_held_htlc_key s.(ts_taker_coin) r.(tm_my_taker_coin_htlc_keypair)
              r.(tm_my_taker_coin_htlc_pub)
  end.

Definition locked_amount (s : TakerSwap) : list LockedAmount :=
  let r := s.(ts_mutable) in
  if 0 <? s.(ts_finished_at) then []
  else
    (if bool_decide (r.(tm_taker_fee) = None) then [{|
       la_coin := s.(ts_taker_coin).(ticker);
       la_amount := dex_fee_amount_from_taker_coin s.(ts_ctx).(ctx_net_cfg) s.(ts_taker_coin)
                      r.(tm_data).(td_maker_coin) s.(ts_taker_amount);
       la_trade_fee := TradeFee_from_saved <$> r.(tm_data).(td_fee_to_send_taker_fee) |}]
     else [])
    ++ (if bool_decide (r.(tm_taker_payment) = None) then [{|
       la_coin := s.(ts_taker_coin).(ticker);
       la_amount := s.(ts_taker_amount);
       la_trade_fee := TradeFee_from_saved <$> r.(tm_data).(td_taker_payment_trade_fee) |}]
     else [])
    ++ (if bool_decide (r.(tm_maker_payment_spend) = None) then [{|
       la_coin := s.(ts_maker_coin).(ticker);
       la_amount := 0%Qc;
       la_trade_fee := TradeFee_from_saved <$> r.(tm_data).(td_maker_payment_spend_trade_fee) |}]
     else []).

(** ** The loop *)

Definition penalise_maker_if_due (maker : bytes) (event : TakerSwapEvent) : taker_prog unit :=
  if should_ban_maker event then ask (BanPubkey maker event) else Ret ().

(** What is done with one event before it is applied: it is saved, acted upon
    and dispatched.  The answer is the clock [apply_event] reads. *)
Definition save_event (s : TakerSwap) (event : TakerSwapEvent) : taker_prog Z :=
  timestamp ← ask NowMs;
  let! _ := ask (SaveSwapEvent timestamp event) orelse e => Panic in
  _ ← penalise_maker_if_due s.(ts_maker) event;
  _ ← ask (DispatchStatus (status_str event));
  match event with Finished => ask NowMs | _ => Ret 0 end.

(** [db] is what the database answers when a swap is kick-started. *)
Inductive RunTakerSwapInput :=
| StartNew (swap : TakerSwap)
| KickStart (now : Z) (ctx : MmCtx) (maker_coin taker_coin : SwapCoin)
    (db : result (option TakerSavedSwap) string).

Definition prepare (input : RunTakerSwapInput) : option (TakerSwap * TakerSwapCommand) :=
  match input with
  | StartNew swap => Some (swap <| ts_started_in_this_process := true |>, CStart)
  | KickStart now ctx maker_coin taker_coin (Ok (Some saved)) =>
      match load_from_saved now ctx maker_coin taker_coin saved with
      | Ok (swap, Some c) =>
          match check_rederived_htlc_keys swap with
          | Ok _ => Some (swap, c)
          | Err _ => None
          end
      | _ => None
      end
  | KickStart _ _ _ _ _ => None
  end.

Definition run_taker_swap (n fuel : nat) (input : RunTakerSwapInput) : taker_prog unit :=
  run_swap apply_event save_event (λ fuel s c, handle_command s fuel c) n fuel (prepare input).

End restart.
