(* ===== verification/TakerSwapInv.v ===== *)
(** * The taker's role

    What the taker's handlers promise ([taker_role]), and the proof that they
    keep it, so that [SwapLoop] carries it to every history of a taker swap.  A
    taker's amounts are rationals that the log keeps as decimals: a restarted
    swap has the decimals read back ([restored_as]), and what is promised of
    amounts is promised of both. *)

From Stdlib Require Import ZArith Qcanon.
From S2P Require Import Prelude MmNumber NetConfig DexFee SwapCommon LockedAmounts Effects SwapEnv SwapLoop TakerSwap.
From stdpp Require Import base tactics strings list numbers pretty sets.
From coqutil Require Import Datatypes.RecordSettersUsingExistingGetters.

Local Open Scope Z_scope.

Notation taker_trace := (trace TakerSwapEvent).

(** ** The log in the database *)

Definition saved_event (e : Z * TakerSwapEvent) : TakerSavedEvent :=
  {| te_timestamp := e.1; te_event := e.2 |}.

Definition db_of `{Externals} (s : TakerSwap) (h : taker_trace) : option TakerSavedSwap :=
  foldl (λ db e, Some (save_my_taker_swap_event s db (saved_event e))) None (saved_log h).

Lemma taker_events_logged (h : taker_trace) : te_event <$> (saved_event <$> saved_log h) = logged h.
Proof. unfold logged. rewrite <-list_fmap_compose. by apply list_fmap_ext. Qed.

Lemma taker_db_of_spec `{Externals} s h :
  match db_of s h with
  | None => saved_log h = []
  | Some db => saved_log h ≠ [] ∧ db.(tv_events) = saved_event <$> saved_log h
      ∧ db.(tv_uuid) = s.(ts_uuid)
  end.
Proof.
  unfold db_of. induction (saved_log h) as [|e l IH] using rev_ind; [done|].
  rewrite foldl_app. cbn [foldl]. destruct (foldl _ _ l) as [db|]; unfold save_my_taker_swap_event; cbn.
  - destruct IH as (_ & -> & ->). rewrite fmap_app. split_and!; [|done..]. by destruct l.
  - by rewrite IH.
Qed.

(** ** The swap and its replay *)

Section replay.
Context `{Externals}.

(** The swap an accepted match creates: its node key is the node's own. *)
Record SwapParams := {
  p_ctx : MmCtx;
  p_maker : bytes;
  p_maker_amount : MmNumber;
  p_taker_amount : MmNumber;
  p_uuid : Uuid;
  p_my_order_uuid : option Uuid;
  p_conf_settings : SwapConfirmationsSettings;
  p_maker_coin : SwapCoin;
  p_taker_coin : SwapCoin;
  p_payment_locktime : Z;
  p_p2p_privkey : option KeyPair
}.

Definition new_swap (p : SwapParams) : TakerSwap :=
  new p.(p_ctx) p.(p_maker) p.(p_maker_amount) p.(p_taker_amount)
    p.(p_ctx).(secp256k1_key_pair) p.(p_uuid) p.(p_my_order_uuid) p.(p_conf_settings)
    p.(p_maker_coin) p.(p_taker_coin) p.(p_payment_locktime) p.(p_p2p_privkey).

(** A secp256k1 node key is a compressed point. *)
Definition node_key_ok (p : SwapParams) : Prop :=
  length p.(p_ctx).(secp256k1_key_pair).(kp_public) = 33%nat.
Existing Class node_key_ok.

Definition replay (p : SwapParams) (L : list TakerSwapEvent) : TakerSwap :=
  fold_events 0 (new_swap p) L.

(** An amount after a restart. *)
Definition read_back (a : MmNumber) : MmNumber := dec_to_rational (mm_to_decimal a).

(** What no event changes and a restart may: the amounts, the order and the
    process. *)
Definition with_identity (b : bool) (ma ta : MmNumber) (o : option Uuid) (s : TakerSwap) : TakerSwap :=
  s <| ts_started_in_this_process := b |> <| ts_maker_amount := ma |>
    <| ts_taker_amount := ta |> <| ts_my_order_uuid := o |>.

Definition started_as (p : SwapParams) : TakerSwap → TakerSwap :=
  with_identity true p.(p_maker_amount) p.(p_taker_amount) p.(p_my_order_uuid).
Definition restored_as (p : SwapParams) : TakerSwap → TakerSwap :=
  with_identity false (read_back p.(p_maker_amount)) (read_back p.(p_taker_amount)) (Some p.(p_uuid)).

Lemma taker_apply_identity b ma ta o now s e :
  apply_event now (with_identity b ma ta o s) e = with_identity b ma ta o (apply_event now s e).
Proof.
  destruct e as [d| |d| | | | | | | | | | | | | | | | | | | | | | | | | | | |]; try reflexivity; cbn.
  - unfold apply_started. cbn.
    destruct (restored_htlc_key_pair (ts_maker_coin s) _ _ _); cbn;
      by destruct (restored_htlc_key_pair (ts_taker_coin s) _ _ _).
  - unfold apply_negotiated.
    by destruct (mn_maker_coin_swap_contract_addr d), (mn_taker_coin_swap_contract_addr d).
Qed.

Lemma taker_apply_clock now now' s e :
  e ≠ Finished → apply_event now s e = apply_event now' s e.
Proof. by destruct e. Qed.

Lemma taker_replay_snoc p L e : replay p (L ++ [e]) = apply_event 0 (replay p L) e.
Proof. unfold replay, fold_events. by rewrite foldl_app. Qed.

Lemma taker_replay_identity p b ma ta o L :
  foldl (apply_event 0) (with_identity b ma ta o (new_swap p)) L
  = with_identity b ma ta o (replay p L).
Proof.
  induction L as [|e L IH] using rev_ind; [done|].
  by rewrite taker_replay_snoc, foldl_app, IH, <-taker_apply_identity.
Qed.

(** The key a leg is started with: [saved] and [pub] are what is recorded. *)
Definition leg_key_ok (p : SwapParams) (coin : SwapCoin)
    (saved : option KeyPair) (pub : option bytes) : Prop :=
  let node := p.(p_ctx).(secp256k1_key_pair).(kp_public) in
  ∃ kp k, start_htlc_key_pair coin node (uuid_bytes p.(p_uuid)) = Ok (kp, saved)
    ∧ coin.(derive_htlc_pubkey) (pubkey_or node kp) = Ok k ∧ pub = Some k.

(** What the [Started] event of a swap records. *)
Record started_ok (p : SwapParams) (d : TakerSwapData) : Prop := {
  so_taker_coin : d.(td_taker_coin) = p.(p_taker_coin).(ticker);
  so_maker_coin : d.(td_maker_coin) = p.(p_maker_coin).(ticker);
  so_maker : d.(td_maker) = p.(p_maker);
  so_pub : d.(td_my_persistent_pub) = h264 p.(p_ctx).(secp256k1_key_pair).(kp_public);
  so_lock : d.(td_lock_duration) = p.(p_payment_locktime);
  so_maker_amount : d.(td_maker_amount) = mm_to_decimal p.(p_maker_amount);
  so_taker_amount : d.(td_taker_amount) = mm_to_decimal p.(p_taker_amount);
  so_maker_confs : d.(td_maker_payment_confirmations) = p.(p_conf_settings).(maker_coin_confs);
  so_maker_nota : d.(td_maker_payment_requires_nota) = Some p.(p_conf_settings).(maker_coin_nota);
  so_taker_confs : d.(td_taker_payment_confirmations) = p.(p_conf_settings).(taker_coin_confs);
  so_taker_nota : d.(td_taker_payment_requires_nota) = Some p.(p_conf_settings).(taker_coin_nota);
  so_taker_lock : d.(td_taker_payment_lock) = u64 (d.(td_started_at) + p.(p_payment_locktime));
  so_wait : d.(td_maker_payment_wait) = maker_payment_wait d.(td_started_at) p.(p_payment_locktime);
  so_uuid : d.(td_uuid) = p.(p_uuid);
  so_maker_contract : d.(td_maker_coin_swap_contract_address) = p.(p_maker_coin).(swap_contract_address);
  so_taker_contract : d.(td_taker_coin_swap_contract_address) = p.(p_taker_coin).(swap_contract_address);
  so_p2p : d.(td_p2p_privkey) = p.(p_p2p_privkey);
  so_maker_key : leg_key_ok p p.(p_maker_coin) d.(td_maker_coin_htlc_privkey) d.(td_maker_coin_htlc_pubkey);
  so_taker_key : leg_key_ok p p.(p_taker_coin) d.(td_taker_coin_htlc_privkey) d.(td_taker_coin_htlc_pubkey)
}.

Lemma taker_refresh_started p d :
  started_ok p d → refresh_contract_addresses p.(p_maker_coin) p.(p_taker_coin) d = d.
Proof.
  intros [_ _ _ _ _ _ _ _ _ _ _ _ _ _ Hm Ht _ _ _]. unfold refresh_contract_addresses.
  rewrite <-Hm, <-Ht. destruct d as [???????????????????????????]; cbn in *.
  repeat case_match; reflexivity.
Qed.

Definition last_command (L : list TakerSwapEvent) : option TakerSwapCommand :=
  last L ≫= get_command.

(** Restoring a log that begins with the swap's own [Started] gives the state
    its events lead to, and the command of the last one. *)
Lemma taker_load_replay p now db d rest :
  node_key_ok p → started_ok p d → db.(tv_uuid) = p.(p_uuid) →
  te_event <$> db.(tv_events) = Started d :: rest →
  load_from_saved now p.(p_ctx) p.(p_maker_coin) p.(p_taker_coin) db
  = Ok (fold_events now (restored_as p (new_swap p)) (Started d :: rest),
        last_command (Started d :: rest)).
Proof.
  intros Hkey Hd Hu HL. unfold load_from_saved.
  destruct (tv_events db) as [|first evs]; [done|]. cbn in HL.
  injection HL as Hfirst Hrest. rewrite Hfirst.
  rewrite taker_refresh_started by done. unfold swap_node_key_pair.
  rewrite (so_pub _ _ Hd). unfold h264. rewrite take_ge by (rewrite Hkey; lia).
  rewrite bool_decide_eq_true_2 by done. rewrite Hrest. apply (f_equal Ok). f_equal.
  - unfold new_swap. destruct Hd as [_ _ Htk _ Hl Hma Hta Hmc Hmn Htc Htn _ _ _ _ _ Hp2 _ _].
    rewrite Hu, Htk, Hl, Hma, Hta, Hmc, Hmn, Htc, Htn, Hp2. cbn. by destruct (p_conf_settings p).
  - unfold last_command. rewrite <-Hrest, <-Hfirst, <-fmap_cons, fmap_last.
    by rewrite (list_last_last _ first) by done.
Qed.

End replay.

(** ** What a step may do *)

Section steps.
Context `{Externals} (p : SwapParams).

(** The swap's amounts, as matched or read back from the log. *)
Definition swap_amount (restored : bool) (a : MmNumber) : MmNumber :=
  if restored then read_back a else a.

Definition own (s : TakerSwap) : Prop :=
  let restored := negb s.(ts_started_in_this_process) in
  s.(ts_maker_amount) = swap_amount restored p.(p_maker_amount)
  ∧ s.(ts_taker_amount) = swap_amount restored p.(p_taker_amount).

Definition maker_payment_input (s : TakerSwap) (tx : TransactionIdentifier)
    (amount : MmNumber) : ValidatePaymentInput :=
  let r := s.(ts_mutable) in
  {| payment_tx := tx.(ti_tx_hex);
     time_lock := u32 s.(ts_maker_payment_lock);
     taker_pub := r.(tm_my_maker_coin_htlc_pub);
     maker_pub := r.(tm_other_maker_coin_htlc_pub);
     vp_secret_hash := r.(tm_secret_hash);
     vp_amount := mm_to_decimal amount;
     vp_swap_contract_address := r.(tm_data).(td_maker_coin_swap_contract_address);
     try_spv_proof_until := r.(tm_data).(td_maker_payment_wait);
     vp_confirmations := r.(tm_data).(td_maker_payment_confirmations) |}.

(** What the swap holds of the maker is what its negotiation message said: the lock
    time, which is twice the lock duration after its start, the keys and the secret
    hash. *)
Definition holds_terms (s : TakerSwap) (m : NegotiationDataMsg) : Prop :=
  let r := s.(ts_mutable) in
  s.(ts_maker_payment_lock) = nd_payment_locktime m
  ∧ nd_payment_locktime m = u64 (nd_started_at m + u64 (r.(tm_data).(td_lock_duration) * 2))
  ∧ r.(tm_other_maker_coin_htlc_pub) = h264 (nd_maker_coin_htlc_pub m)
  ∧ r.(tm_other_taker_coin_htlc_pub) = h264 (nd_taker_coin_htlc_pub m)
  ∧ r.(tm_secret_hash) = nd_secret_hash m.

Definition agreed (h : taker_trace) (s : TakerSwap) : Prop :=
  ∃ m, Ev (RecvSwapMsg SlotNegotiation NEGOTIATE_TIMEOUT) (Ok m) ∈ h ∧ holds_terms s m.

(** The maker's payment was confirmed and validated, for the terms agreed on and the
    swap's amount. *)
Definition validated (h : taker_trace) (s : TakerSwap) : Prop :=
  let d := s.(ts_mutable).(tm_data) in
  agreed h s ∧
  ∃ tx restored, s.(ts_mutable).(tm_maker_payment) = Some tx
    ∧ Ev (WaitForConfirmations MakerCoin tx.(ti_tx_hex) d.(td_maker_payment_confirmations)
            (default false d.(td_maker_payment_requires_nota)) d.(td_maker_payment_wait)
            WAIT_CONFIRM_INTERVAL) (Ok ()) ∈ h
    ∧ Ev (ValidatePayment MakerCoin
            (maker_payment_input s tx (swap_amount restored p.(p_maker_amount)))) (Ok ()) ∈ h.

(** The payment the swap holds is what the coin sent for its HTLC, or found there. *)
Definition paid (h : taker_trace) (s : TakerSwap) (tp : TransactionIdentifier) : Prop :=
  s.(ts_mutable).(tm_taker_payment) = Some tp
  ∧ ∃ tx, tp = identifier tx
    ∧ ((∃ amount, Ev (SendPayment TakerCoin (my_htlc s) amount) (Ok tx) ∈ h)
       ∨ ∃ b, Ev (CheckIfMyPaymentSent TakerCoin (my_htlc s) b) (Ok (Some tx)) ∈ h).

(** The taker's payment was seen spent: by the wait for it, or by a look. *)
Definition seen_spent (h : taker_trace) (s : TakerSwap) (spend : Transaction) : Prop :=
  let d := s.(ts_mutable).(tm_data) in
  ∃ tx, s.(ts_mutable).(tm_taker_payment) = Some tx
    ∧ (Ev (WaitForTxSpend TakerCoin tx.(ti_tx_hex) d.(td_taker_payment_lock)
             d.(td_taker_coin_start_block) d.(td_taker_coin_swap_contract_address)) (Ok spend) ∈ h
       ∨ ∃ t, Ev (SearchForSwapTxSpendMy TakerCoin (my_htlc s) tx.(ti_tx_hex)
                    d.(td_taker_coin_start_block) t) (Ok (Some (Spent spend))) ∈ h).

(** The secret the swap holds was extracted from that spend. *)
Definition revealed (h : taker_trace) (s : TakerSwap) : Prop :=
  ∃ spend b, seen_spent h s spend
    ∧ Ev (ExtractSecret TakerCoin s.(ts_mutable).(tm_secret_hash) spend.(tx_hex)) (Ok b) ∈ h
    ∧ (32 ≤ length b)%nat ∧ s.(ts_mutable).(tm_secret) = take 32 b.

(** The chain was looked at for a spend of the payment since [h0], unless one is
    recorded. *)
Definition looked (h0 h : taker_trace) (s : TakerSwap) (tx : bytes) : Prop :=
  is_Some s.(ts_mutable).(tm_taker_payment_spend) ∨
  ∃ tr from t x, h = h0 ++ tr ∧ Ev (SearchForSwapTxSpendMy TakerCoin (my_htlc s) tx from t) x ∈ tr.

(** What holds of the history and of the state when a command is next. *)
Definition ready_for (h : taker_trace) (s : TakerSwap) (c : TakerSwapCommand) : Prop :=
  let r := s.(ts_mutable) in
  match c with
  | CFinish | CStart => True
  | CNegotiate => r.(tm_taker_payment) = None ∧ r.(tm_taker_fee) = None
  | CSendTakerFee => r.(tm_taker_payment) = None ∧ r.(tm_taker_fee) = None ∧ agreed h s
  | CWaitForMakerPayment => r.(tm_taker_payment) = None ∧ is_Some r.(tm_taker_fee) ∧ agreed h s
  | CValidateMakerPayment => r.(tm_taker_payment) = None ∧ is_Some r.(tm_maker_payment) ∧ agreed h s
  | CSendTakerPayment => r.(tm_taker_payment) = None ∧ validated h s
  | CWaitForTakerPaymentSpend | CRefundTakerPayment => (∃ tp, paid h s tp) ∧ validated h s
  | CSpendMakerPayment => (∃ tp, paid h s tp) ∧ validated h s ∧ revealed h s
  end.

Definition ready (h : taker_trace) (s : TakerSwap) (c : option TakerSwapCommand) : Prop :=
  match c with
  | None | Some CFinish | Some CStart => True
  | Some c => own s ∧ ready_for h s c
  end.

(** The calls the handler of [cmd], started after the history [h0], may issue
    after the history [h]. *)
Definition call_ok (s : TakerSwap) (cmd : TakerSwapCommand) (h0 h : taker_trace)
    (c : SwapCall TakerSwapEvent) : Prop :=
  let r := s.(ts_mutable) in
  match c with
  | SaveSwapEvent _ _ => False
  | SendTakerFee side dex_fee addr uuid =>
      cmd = CSendTakerFee ∧ side = TakerCoin
      ∧ dex_fee = my_dex_fee s ∧ dex_fee ≠ NoFee
      ∧ addr = s.(ts_ctx).(ctx_net_cfg).(dex_fee_addr_raw_pubkey) ∧ uuid = uuid_bytes s.(ts_uuid)
      ∧ own s ∧ r.(tm_taker_fee) = None ∧ r.(tm_taker_payment) = None
      ∧ ∃ ms, h = h0 ++ [Ev NowMs ms] ∧ ms / 1000 ≤ taker_fee_deadline s
  | SendPayment side htlc amount =>
      cmd = CSendTakerPayment
      ∧ side = TakerCoin ∧ htlc = my_htlc s ∧ amount = mm_to_decimal s.(ts_taker_amount)
      ∧ own s ∧ r.(tm_taker_payment) = None ∧ validated h s
      ∧ ∃ h' ms, h = h' ++ [Ev NowMs ms] ∧ ms / 1000 ≤ r.(tm_data).(td_maker_payment_wait)
        ∧ ((∃ b, h' = h0 ++ [Ev (CheckIfMyPaymentSent TakerCoin htlc b) (Ok None)])
           ∨ (h' = h0 ∧ s.(ts_started_in_this_process) = true
              ∧ s.(ts_taker_coin).(htlc_key_is_random_per_swap) = true))
  | SpendPayment side tx lock other secret priv addr =>
      cmd = CSpendMakerPayment ∧ side = MakerCoin ∧ secret = r.(tm_secret)
      ∧ (∃ t, r.(tm_maker_payment) = Some t ∧ tx = t.(ti_tx_hex))
      ∧ lock = u32 s.(ts_maker_payment_lock) ∧ other = r.(tm_other_maker_coin_htlc_pub)
      ∧ addr = r.(tm_data).(td_maker_coin_swap_contract_address)
      ∧ (∃ tp, paid h s tp) ∧ validated h s ∧ revealed h s
  | RefundPayment side tx lock other hash _ _ =>
      cmd = CRefundTakerPayment ∧ side = TakerCoin
      ∧ lock = u32 r.(tm_data).(td_taker_payment_lock)
      ∧ other = r.(tm_other_taker_coin_htlc_pub) ∧ hash = r.(tm_secret_hash)
      ∧ (∃ t, r.(tm_taker_payment) = Some t ∧ tx = t.(ti_tx_hex)) ∧ looked h0 h s tx
      ∧ ∃ h', h = h' ++ [Ev (CanRefund TakerCoin r.(tm_data).(td_taker_payment_lock))
                            (Ok CanRefundNow)]
  | CreateMakerPaymentSpendPreimage side tx lock pub hash =>
      cmd = CWaitForTakerPaymentSpend
      ∧ side = TakerCoin ∧ lock = u32 r.(tm_data).(td_taker_payment_lock)
      ∧ (∃ t, r.(tm_maker_payment) = Some t ∧ tx = t.(ti_tx_hex)) ∧ validated h s
  | _ => True
  end.

(** The commands in the order a swap meets them. *)
Definition rank (c : TakerSwapCommand) : nat :=
  match c with
  | CStart => 0 | CNegotiate => 1 | CSendTakerFee => 2 | CWaitForMakerPayment => 3
  | CValidateMakerPayment => 4 | CSendTakerPayment => 5 | CWaitForTakerPaymentSpend => 6
  | CRefundTakerPayment => 7 | CSpendMakerPayment => 8 | CFinish => 9
  end%nat.

(** The failures that end a swap before the taker paid. *)
Definition early_failure (e : TakerSwapEvent) : bool :=
  match e with
  | StartFailed _ | NegotiateFailed _ | TakerFeeSendFailed _ | MakerPaymentValidateFailed _
  | MakerPaymentWaitConfirmFailed _ | TakerPaymentTransactionFailed _ => true
  | _ => false
  end.

(** The failures a restart goes on from with the refund, and the process does
    not. *)
Definition stops_early (e : TakerSwapEvent) : bool :=
  match e with TakerPaymentWaitForSpendFailed _ | MakerPaymentSpendFailed _ => true | _ => false end.

(** The events only a log of an earlier build holds. *)
Definition legacy (e : TakerSwapEvent) : bool :=
  match e with
  | TakerPaymentInstructionsReceived _ | WatcherMessageSent | TakerPaymentDataSendFailed _
  | MakerPaymentSpendConfirmed | MakerPaymentSpendConfirmFailed _
  | MakerPaymentSpentByWatcher _ | TakerPaymentRefundStarted | TakerPaymentRefundFinished
  | TakerPaymentRefundedByWatcher _ => true
  | _ => false
  end.

Definition event_fits (s : TakerSwap) (e : TakerSwapEvent) : Prop :=
  legacy e = false ∧ (early_failure e = true → s.(ts_mutable).(tm_taker_payment) = None).

(** What the first event of a swap records. *)
Definition first_ok (e : TakerSwapEvent) : Prop :=
  match e with Started d => started_ok p d | StartFailed _ => True | _ => False end.

Definition is_started (e : TakerSwapEvent) : bool :=
  match e with Started _ => true | _ => false end.

Definition restart (now : Z) (h : taker_trace) : option (TakerSwap * TakerSwapCommand) :=
  prepare (KickStart now p.(p_ctx) p.(p_maker_coin) p.(p_taker_coin)
             (Ok (db_of (new_swap p) h))).

(** A secret that is too short was extracted. *)
Definition short_secret (h : taker_trace) : Prop :=
  ∃ hash tx b, Ev (ExtractSecret TakerCoin hash tx) (Ok b) ∈ h ∧ (length b < 32)%nat.

Definition taker_role : Role TakerSwapEvent TakerSwapCommand TakerSwap := {|
  r_start := CStart;
  r_finish := CFinish;
  r_finished := Finished;
  r_get_command := get_command;
  r_apply := apply_event;
  r_handle fuel s c := handle_command s fuel c;
  r_save := save_event;
  r_new := started_as p (new_swap p);
  r_restored := restored_as p (new_swap p);
  r_restart := restart;
  r_stops_early := stops_early;
  r_is_started := is_started;
  r_first := first_ok;
  r_ready := ready;
  r_call_ok := call_ok;
  r_fits := event_fits;
  r_may_panic := short_secret;
  r_rank := rank;
  r_pay := 5
|}.

(** All the calls of all the processes of a taker swap. *)
Definition history : taker_trace → Prop := SwapLoop.history taker_role.

Lemma taker_replayed b L :
  replayed taker_role b L = (if b then started_as p else restored_as p) (replay p L).
Proof. unfold replayed. destruct b; apply taker_replay_identity. Qed.

Lemma own_replayed b L : own (replayed taker_role b L).
Proof. rewrite taker_replayed. by destruct b. Qed.

Lemma own_apply s e : own s → own (apply_event 0 s e).
Proof.
  destruct e as [d| |d| | | | | | | | | | | | | | | | | | | | | | | | | | | |]; try done; cbn.
  - unfold apply_started. cbn. by repeat case_match.
  - unfold apply_negotiated. by repeat case_match.
Qed.

End steps.

(** Closes the end of a handler. *)
Ltac taker_ends :=
  step_ends; cbn [ready ready_for r_ready taker_role r_apply apply_event stops_early get_command r_get_command r_stops_early].

Section handlers.
Context `{Externals} (p : SwapParams).

(** Neither the fee nor the payment was sent. *)
Definition nothing_sent (s : TakerSwap) : Prop :=
  s.(ts_mutable).(tm_taker_payment) = None ∧ s.(ts_mutable).(tm_taker_fee) = None.

Lemma nothing_sent_started s d : nothing_sent s → nothing_sent (apply_started s d).
Proof. unfold apply_started. by repeat case_match. Qed.

Lemma nothing_sent_negotiated s d : nothing_sent s → nothing_sent (apply_negotiated s d).
Proof. unfold apply_negotiated. by repeat case_match. Qed.

Lemma agreed_mono h tr s : agreed h s → agreed (h ++ tr) s.
Proof. intros (m & ? & ?). exists m. set_solver. Qed.

Lemma paid_mono h tr s tp : paid h s tp → paid (h ++ tr) s tp.
Proof.
  intros (? & tx & ? & [[a ?]|[b ?]]); (split; [done|]); exists tx; (split; [done|]);
    [left; exists a|right; exists b]; set_solver.
Qed.

(** What negotiation sets is what the message said. *)
Lemma negotiated_terms s m ma ta :
  nd_payment_locktime m = u64 (nd_started_at m + u64 (s.(ts_mutable).(tm_data).(td_lock_duration) * 2)) →
  holds_terms (apply_negotiated s {|
    mn_maker_payment_locktime := nd_payment_locktime m;
    mn_maker_pubkey := zero_bytes 33;
    mn_secret_hash := nd_secret_hash m;
    mn_maker_coin_swap_contract_addr := ma;
    mn_taker_coin_swap_contract_addr := ta;
    mn_maker_coin_htlc_pubkey := Some (h264 (nd_maker_coin_htlc_pub m));
    mn_taker_coin_htlc_pubkey := Some (h264 (nd_taker_coin_htlc_pub m)) |}) m.
Proof. intros E. unfold apply_negotiated, holds_terms. by destruct ma, ta. Qed.

Lemma taker_start_safe fuel h :
  let s := started_as p (new_swap p) in
  safe (call_ok p s CStart h) h (handle_command s fuel CStart) (step_post (taker_role p) s fuel CStart h).
Proof.
  intros s. cbn [handle_command].
  unfold start, start_funded, refuse_if_own_payment_unwatchable, start_failed, now_secs.
  walk; taker_ends.
  - split; [by apply (own_apply p s (Started _))|]. by apply nothing_sent_started.
  - intros _. eexists; split; [done|]. apply derive_htlc_pubkeys_Ok in Heqr1 as [Hm Ht].
    constructor; try done; cbn; do 2 eexists; eauto.
Qed.

Lemma taker_negotiate_safe s fuel h :
  ready p h s (Some CNegotiate) →
  safe (call_ok p s CNegotiate h) h (handle_command s fuel CNegotiate)
    (step_post (taker_role p) s fuel CNegotiate h).
Proof.
  intros [Hown [Hp Hf]]. cbn [handle_command].
  unfold negotiate, negotiate_accepted, negotiate_failed, h264_checked. walk.
  all: repeat match goal with
       | Hv : validate_wire_pubkey _ _ = Ok _ |- _ => apply validate_wire_pubkey_len in Hv
       | Hl : (_ <? _)%nat = true |- _ => apply Nat.ltb_lt in Hl; lia
       end.
  all: taker_ends. split; [by apply (own_apply p s (NegotiatedEv _))|].
  match goal with |- _ ∧ _ ∧ agreed _ ?s' => assert (nothing_sent s') as [? ?] by (by apply nothing_sent_negotiated) end.
  split_and!; [done..|]. eexists. split; [|apply negotiated_terms].
  - set_solver.
  - match goal with E : negb (_ =? _) = false |- _ => by apply negb_false_iff, Z.eqb_eq in E end.
Qed.

Lemma send_taker_fee_safe s fuel h :
  ready p h s (Some CSendTakerFee) →
  safe (call_ok p s CSendTakerFee h) h (handle_command s fuel CSendTakerFee)
    (step_post (taker_role p) s fuel CSendTakerFee h).
Proof.
  intros (Hown & Hp & Hf & Ha). cbn [handle_command]. unfold send_taker_fee, fee_failed, now_secs.
  walk; try (taker_ends; cbn; split_and!; [done..|by eauto|by repeat apply agreed_mono]).
  all: try by taker_ends.
  all: unfold call_ok; split_and!; try done.
  all: eexists; split; [done|by apply Z.ltb_ge].
Qed.

Lemma wait_for_maker_payment_safe s fuel h :
  ready p h s (Some CWaitForMakerPayment) →
  safe (call_ok p s CWaitForMakerPayment h) h (handle_command s fuel CWaitForMakerPayment)
    (step_post (taker_role p) s fuel CWaitForMakerPayment h).
Proof.
  intros (Hown & Hp & [fee Hf] & Ha). cbn [handle_command].
  unfold wait_for_maker_payment, maker_payment_failed. rewrite Hf.
  walk; taker_ends; try done.
  all: split_and!; [done..|by eexists|by repeat apply agreed_mono].
Qed.

Lemma validate_maker_payment_safe s fuel h :
  ready p h s (Some CValidateMakerPayment) →
  safe (call_ok p s CValidateMakerPayment h) h (handle_command s fuel CValidateMakerPayment)
    (step_post (taker_role p) s fuel CValidateMakerPayment h).
Proof.
  intros (Hown & Hp & [mp Hmp] & Ha). cbn [handle_command].
  unfold validate_maker_payment, maker_payment_failed. rewrite Hmp.
  walk; taker_ends.
  split; [done|]. split; [done|]. split; [by repeat apply agreed_mono|].
  exists mp, (negb s.(ts_started_in_this_process)).
  destruct a, a0, Hown as [Hm _]. unfold maker_payment_input. cbn. rewrite <-Hm. set_solver.
Qed.

Lemma seen_spent_mono h tr s tx : seen_spent h s tx → seen_spent (h ++ tr) s tx.
Proof.
  intros (t & ? & [?|(o & ?)]); exists t; (split; [done|]); [left|right; exists o]; set_solver.
Qed.

Lemma taker_validated_mono h tr s : validated p h s → validated p (h ++ tr) s.
Proof. intros (? & tx & b & ? & ? & ?). split; [by apply agreed_mono|]. exists tx, b. set_solver. Qed.

Lemma revealed_mono h tr s : revealed h s → revealed (h ++ tr) s.
Proof.
  intros (tx & b & ? & ? & ?). exists tx, b. split; [by apply seen_spent_mono|]. set_solver.
Qed.

Lemma taker_ready_mono h tr s c : ready p h s c → ready p (h ++ tr) s c.
Proof.
  destruct c as [[]|]; cbn; try done; naive_solver eauto using agreed_mono, paid_mono, taker_validated_mono, revealed_mono.
Qed.

(** Closes [ready] after the payment: the swap's own, paid and validated. *)
Ltac still_ready :=
  solve [split; [done|]; split;
    [eexists; repeat apply paid_mono; eassumption|repeat apply taker_validated_mono; assumption]].

Lemma send_taker_payment_safe s fuel h :
  ready p h s (Some CSendTakerPayment) →
  safe (call_ok p s CSendTakerPayment h) h (handle_command s fuel CSendTakerPayment)
    (step_post (taker_role p) s fuel CSendTakerPayment h).
Proof.
  intros [Hown [Hr Hval]]. cbn [handle_command].
  unfold send_taker_payment, payment_failed, now_secs.
  walk; try (by taker_ends).
  all: try (taker_ends; split; [done|]; split; [|by repeat apply taker_validated_mono]; eexists; split; [done|];
            eexists; split; [done|]; by first [left; eexists; apply elem_of_app; right; apply list_elem_of_singleton; reflexivity
                     |right; eexists; apply elem_of_app; right; apply list_elem_of_singleton; reflexivity]).
  all: unfold call_ok; split_and!; try done; try (repeat apply taker_validated_mono; done).
  all: do 2 eexists; split_and!; [done|by apply Z.ltb_ge|].
  - right. by apply skips_true in Heqb.
  - left; eauto.
Qed.

Lemma spend_maker_payment_safe s fuel h :
  ready p h s (Some CSpendMakerPayment) →
  safe (call_ok p s CSpendMakerPayment h) h (handle_command s fuel CSpendMakerPayment)
    (step_post (taker_role p) s fuel CSpendMakerPayment h).
Proof.
  intros (Hown & [tp Htp] & Hval & Hrev). pose proof Hval as (_ & mp & b & Hmp & _).
  cbn [handle_command]. unfold spend_maker_payment. rewrite Hmp. walk.
  1: unfold call_ok; split_and!; eauto.
  all: taker_ends; still_ready.
Qed.

(** The secret read from a spend of the payment. *)
Lemma payment_spent_post s fuel c h0 h tp spend b :
  own p s → paid h s tp → validated p h s →
  seen_spent h s spend → (32 ≤ length b)%nat →
  Ev (ExtractSecret TakerCoin s.(ts_mutable).(tm_secret_hash) spend.(tx_hex)) (Ok b) ∈ h →
  (rank c < 8)%nat → c ≠ CStart →
  step_post (taker_role p) s fuel c h0 h (Val (payment_spent spend (take 32 b))).
Proof.
  intros Hown Htp Hval Hseen Hlen Hex Hc Hs. unfold payment_spent. taker_ends.
  - split; [done|]. cbn. split_and!; [by exists tp|done|]. by exists spend, b.
Qed.

Lemma watcher_data_safe s h0 h hex :
  validated p h s →
  safe (call_ok p s CWaitForTakerPaymentSpend h0) h (maybe_broadcast_watcher_data s hex)
    (λ h' o, (∃ b, o = Val b) ∧ ∃ tr, h' = h ++ tr).
Proof.
  intros Hval. unfold maybe_broadcast_watcher_data. walk.
  all: try (split; [by eexists|]; first [by exists []; rewrite app_nil_r|
              rewrite <-?app_assoc; by eexists]).
  unfold call_ok. split_and!; eauto.
Qed.

Lemma wait_for_spend_safe s fuel h :
  ready p h s (Some CWaitForTakerPaymentSpend) →
  safe (call_ok p s CWaitForTakerPaymentSpend h) h (handle_command s fuel CWaitForTakerPaymentSpend)
    (step_post (taker_role p) s fuel CWaitForTakerPaymentSpend h).
Proof.
  intros (Hown & [tp Hpaid] & Hval). pose proof (proj1 Hpaid) as Htp. cbn [handle_command].
  unfold wait_for_taker_payment_spend, refund_after, h256_checked. rewrite Htp.
  walk. apply safe_bind. eapply safe_mono; [done| |apply watcher_data_safe; by apply taker_validated_mono].
  intros h' o ([b ->] & tr & ->). cbn beta iota.
  assert (validated p ((h ++ [Ev (BroadcastEvery (TakerPayment (ti_tx_hex tp)) 600) x]) ++ tr) s) as Hval'
    by (by repeat apply taker_validated_mono).
  assert (paid ((h ++ [Ev (BroadcastEvery (TakerPayment (ti_tx_hex tp)) 600) x]) ++ tr) s tp) as Hpaid'
    by (by repeat apply paid_mono).
  walk; try (taker_ends; still_ready).
  - cbn. exists (tm_secret_hash (ts_mutable s)), (tx_hex a0), a1. split; [set_solver|by apply Nat.ltb_lt].
  - apply (payment_spent_post _ _ _ _ _ tp); try done;
      [by repeat apply paid_mono|by repeat apply taker_validated_mono| | |..].
    + exists tp. split; [done|]. left. set_solver.
    + by apply Nat.ltb_ge.
    + set_solver.
    + cbn; lia.
Qed.

(** ** The refund *)

Section refund.
Context (s : TakerSwap) (fuel : nat) (h0 : taker_trace) (tp : TransactionIdentifier).
Context (Hown : own p s) (Hpaid : paid h0 s tp) (Hval : validated p h0 s).

Let Htp : s.(ts_mutable).(tm_taker_payment) = Some tp := proj1 Hpaid.

Notation I := (call_ok p s CRefundTakerPayment h0).
Notation Q := (step_post (taker_role p) s fuel CRefundTakerPayment h0).

Notation after h := (looked h0 h s tp.(ti_tx_hex)).

Lemma looked_mono h tr : after h → after (h ++ tr).
Proof.
  intros [?|(tr' & from & t & x & -> & ?)]; [by left|right].
  exists (tr' ++ tr), from, t, x. rewrite app_assoc. set_solver.
Qed.

Lemma looked_now tr from t x :
  after ((h0 ++ tr) ++ [Ev (SearchForSwapTxSpendMy TakerCoin (my_htlc s) tp.(ti_tx_hex) from t) x]).
Proof. right. eexists _, from, t, x. rewrite <-app_assoc. split; [done|]. set_solver. Qed.

(** A look ends the step well, or leaves everything as it was. *)
Lemma look_safe h go t :
  (∃ tr, h = h0 ++ tr) →
  (∀ h', (∃ tr, h' = h0 ++ tr) → after h' → refusals h' = refusals h → safe I h' go Q) →
  safe I h (look_at_chain s t go) Q.
Proof.
  intros [tr ->] Hgo. unfold look_at_chain, refund_outcome_from_chain, h256_checked.
  rewrite Htp. walk.
  all: try (apply Hgo; [rewrite <-?app_assoc; by eexists| |by rewrite !refusals_app; cbn; lia]).
  all: try (by repeat first [apply looked_now|apply looked_mono]).
  - left. by apply bool_decide_eq_true in Heqb.
  - destruct (length a0 <? 32)%nat eqn:Hl; cbn [safe prog_bind mbind prog_mbind].
    { exists (tm_secret_hash (ts_mutable s)), (tx_hex tx), a0.
      split; [set_solver|by apply Nat.ltb_lt]. }
    apply (payment_spent_post _ _ _ _ _ tp); try done.
    + by repeat apply paid_mono.
    + by repeat apply taker_validated_mono.
    + exists tp. split; [done|]. right. exists (Some t). set_solver.
    + by apply Nat.ltb_ge.
    + set_solver.
    + cbn; lia.
  - by taker_ends.
Qed.

(** Goes back to the gate. *)
Ltac again IH :=
  apply IH;
  [rewrite <-?app_assoc; by eexists|solve [repeat first [assumption|apply looked_mono]]
  |rewrite !refusals_app in *; cbn in *; lia].

Lemma refund_loop_safe pacing f h look_ms :
  (∃ tr, h = h0 ++ tr) → after h → (refusals h0 + fuel ≤ refusals h + f)%nat →
  safe I h (refund_taker_payment_loop s f pacing look_ms) Q.
Proof.
  revert h look_ms; induction f as [|f IH]; intros h look_ms [tr ->] Hlook Hf; [cbn; lia|].
  cbn [refund_taker_payment_loop]. unfold now_secs, retried_refund_rejection.
  rewrite Htp. walk; try (by taker_ends).
  all: try (again IH).
  all: try (apply look_safe; [rewrite <-?app_assoc; by eexists|]; intros h' Htr Hl Hr).
  - unfold call_ok. split_and!; eauto. by apply looked_mono.
  - walk; by taker_ends.
  - walk; by taker_ends.
  - apply IH; [done..|]. rewrite Hr, !refusals_app in *. cbn in *. lia.
Qed.

End refund.

Lemma refund_taker_payment_safe s fuel h :
  ready p h s (Some CRefundTakerPayment) →
  safe (call_ok p s CRefundTakerPayment h) h (handle_command s fuel CRefundTakerPayment)
    (step_post (taker_role p) s fuel CRefundTakerPayment h).
Proof.
  intros (Hown & [tp Htp] & Hval). cbn [handle_command].
  unfold refund_taker_payment, refund_taker_payment_paced.
  apply (look_safe s fuel h tp); [done..|by exists []; rewrite app_nil_r|].
  intros h' [tr ->] Hlook Hr. walk.
  apply (refund_loop_safe s fuel h tp); [done..|rewrite <-?app_assoc; by eexists|by apply looked_mono|].
  rewrite refusals_app, Hr. cbn. lia.
Qed.

(** Every handler makes only the calls it may, panics on nothing but a short
    secret, and ends with events after each of which the next command is
    ready. *)
Lemma taker_handler_safe s fuel c h :
  (c = CStart → s = started_as p (new_swap p)) → ready p h s (Some c) →
  safe (call_ok p s c h) h (handle_command s fuel c) (step_post (taker_role p) s fuel c h).
Proof.
  intros Hs Hr. destruct c.
  - rewrite Hs by done. apply taker_start_safe.
  - by apply taker_negotiate_safe.
  - by apply send_taker_fee_safe.
  - by apply wait_for_maker_payment_safe.
  - by apply validate_maker_payment_safe.
  - by apply send_taker_payment_safe.
  - by apply wait_for_spend_safe.
  - by apply spend_maker_payment_safe.
  - by apply refund_taker_payment_safe.
  - by cbn [handle_command safe]; taker_ends.
Qed.

(** ** The taker's role is lawful *)

Lemma ready_identity h b ma ta o b' ma' ta' o' s c :
  own p (with_identity b' ma' ta' o' s) →
  ready p h (with_identity b ma ta o s) c → ready p h (with_identity b' ma' ta' o' s) c.
Proof. intros Hown. destruct c as [[]|]; cbn; intros; destruct_and?; try done. Qed.

Lemma taker_save_event_once h s e :
  safe (save_call h e) h (save_event s e) (save_done h e).
Proof. unfold save_event, penalise_maker_if_due. save_walk. Qed.

Lemma taker_prepare_restart now h s c :
  node_key_ok p → inv (taker_role p) h → restart p now h = Some (s, c) →
  s = fold_events now (restored_as p (new_swap p)) (logged h) ∧ log_inv (taker_role p) h
  ∧ last_command (logged h) = Some c.
Proof.
  intros Hkey Hinv. unfold restart. cbn [prepare]. pose proof (taker_db_of_spec (new_swap p) h) as Hdb.
  destruct (db_of (new_swap p) h) as [db|]; [|done]. destruct Hdb as (Hne & HL & Hu).
  destruct Hinv as [HL0|Hi]; [by unfold logged in HL0; destruct (saved_log h)|].
  destruct (li_head _ _ Hi) as (e & Hhead & Hfirst).
  assert (te_event <$> tv_events db = logged h) as HLdb by (by rewrite HL, taker_events_logged).
  destruct (logged h) as [|e' rest] eqn:El; [done|]. injection Hhead as ->.
  destruct e; try done.
  - rewrite (taker_load_replay p now db d rest) by done.
    destruct (last_command _) as [c'|] eqn:Ec; [|done].
    destruct (check_rederived_htlc_keys _); [|done]. by intros [= <- <-].
  - unfold load_from_saved. destruct (tv_events db) as [|f l]; [done|].
    cbn in HLdb. injection HLdb as Hf _. by rewrite Hf.
Qed.

#[global] Instance taker_laws : node_key_ok p → RoleLaws (taker_role p).
Proof.
  intros Hkey. constructor; try done; cbn.
  - by intros [].
  - by intros [].
  - intros. by apply taker_apply_clock.
  - apply taker_ready_mono.
  - intros h b b' L next. pose proof (own_replayed p b' L) as Hown. rewrite !taker_replayed in *.
    destruct b, b'; by apply ready_identity.
  - intros b b' L e. rewrite !taker_replayed. by destruct b, b'.
  - intros []; cbn; lia.
  - by intros s c h0 h ts e [].
  - intros s c h0 h k Hk Hok. destruct k; try done.
    destruct Hok as (-> & _ & _ & _ & _ & _ & _ & h' & ms & -> & _ & Hor). split; [done|]. intros Hu.
    apply unsent_snoc; [|done]. destruct Hor as [[blk ->]|[-> _]]; [by apply unsent_snoc|done].
  - intros. by apply taker_handler_safe.
  - intros. apply taker_save_event_once.
  - intros. by apply taker_prepare_restart.
Qed.

End handlers.
