(* ===== verification/TakerSwapSafety.v ===== *)
(** * What a taker swap guarantees

    The properties of every history of a taker swap ([TakerSwapInv]): what the
    calls that move money are preceded by, what a restart resumes, that a swap
    ends, what the log of a finished swap says, and what a negotiated swap leaves
    the taker. *)

From Stdlib Require Import ZArith QArith Qcanon.
From S2P Require Import Prelude MmNumber NetConfig DexFee SwapCommon LockedAmounts Effects SwapEnv SwapLoop SwapSample TakerSwap TakerSwapInv.
From stdpp Require Import base tactics strings list numbers pretty sets.
From coqutil Require Import Datatypes.RecordSettersUsingExistingGetters.

Local Open Scope Z_scope.

(** ** What replaying a log gives *)

Section replayed.
Context `{Externals} (p : SwapParams).

(** What no event changes. *)
Definition fixed (s : TakerSwap) :=
  (s.(ts_ctx), s.(ts_maker_coin), s.(ts_taker_coin), s.(ts_uuid)).

(** What only [Started] sets. *)
Definition core (d : TakerSwapData) :=
  (d.(td_started_at), d.(td_lock_duration), d.(td_taker_payment_lock), d.(td_maker_payment_wait),
   d.(td_maker_coin), d.(td_maker_payment_confirmations), d.(td_maker_payment_requires_nota)).
Definition keys (s : TakerSwap) :=
  let m := s.(ts_mutable) in
  (m.(tm_my_maker_coin_htlc_keypair), m.(tm_my_maker_coin_htlc_pub),
   m.(tm_my_taker_coin_htlc_keypair), m.(tm_my_taker_coin_htlc_pub)).

Lemma taker_fixed_apply now s e : fixed (apply_event now s e) = fixed s.
Proof.
  destruct e; try reflexivity; cbn [apply_event];
    unfold apply_started, apply_negotiated; by repeat case_match.
Qed.

Lemma taker_core_apply now s e :
  is_started e = false →
  core (apply_event now s e).(ts_mutable).(tm_data) = core s.(ts_mutable).(tm_data)
  ∧ keys (apply_event now s e) = keys s.
Proof.
  destruct e; try done; intros _; cbn [apply_event]. unfold apply_negotiated.
  by repeat case_match.
Qed.

(** What was sent stays sent. *)
Lemma taker_sent_apply now s e :
  let r := s.(ts_mutable) in let r' := (apply_event now s e).(ts_mutable) in
  (is_Some r.(tm_taker_payment) → is_Some r'.(tm_taker_payment))
  ∧ (is_Some r.(tm_taker_fee) → is_Some r'.(tm_taker_fee)).
Proof.
  destruct e; try done; cbn [apply_event]; [unfold apply_started|unfold apply_negotiated];
    by repeat case_match.
Qed.

Lemma taker_replay_fixed L : fixed (replay p L) = fixed (new_swap p).
Proof.
  induction L as [|e L IH] using rev_ind; [done|]. by rewrite taker_replay_snoc, taker_fixed_apply.
Qed.

Lemma taker_replay_core d rest :
  Forall (λ e, is_started e = false) rest →
  core (replay p (Started d :: rest)).(ts_mutable).(tm_data) = core d
  ∧ keys (replay p (Started d :: rest)) = keys (apply_started (new_swap p) d).
Proof.
  induction rest as [|e rest IH] using rev_ind; intros Hrest.
  - split; [|done]. unfold replay, fold_events. cbn [foldl apply_event].
    unfold apply_started. by repeat case_match.
  - apply Forall_app in Hrest as [Hrest [He _]%Forall_cons].
    rewrite app_comm_cons, taker_replay_snoc.
    destruct (taker_core_apply 0 (replay p (Started d :: rest)) e He) as [-> ->]. by apply IH.
Qed.

Lemma taker_replay_sent L tx :
  (TakerPaymentSent tx ∈ L → is_Some (replay p L).(ts_mutable).(tm_taker_payment))
  ∧ (TakerFeeSent tx ∈ L → is_Some (replay p L).(ts_mutable).(tm_taker_fee)).
Proof.
  induction L as [|e L [IH1 IH2]] using rev_ind; [by split; intros ?%elem_of_nil|].
  rewrite taker_replay_snoc. destruct (taker_sent_apply 0 (replay p L) e).
  split; intros [?|<-%list_elem_of_singleton]%elem_of_app; auto; cbn; eauto.
Qed.

(** A log that is past its first event begins with the swap's [Started]. *)
Lemma taker_log_head h c :
  log_inv (taker_role p) h → leads_last (taker_role p) (logged h) (Some c) → c ≠ CFinish →
  ∃ d rest, logged h = Started d :: rest ∧ started_ok p d
    ∧ Forall (λ e, is_started e = false) rest.
Proof.
  intros Hi (el & Hel & [Hc|[[= ->] _]]) Hne; [|by destruct Hne].
  destruct (li_head _ _ Hi) as (e0 & Hh & Hfirst). pose proof (li_started _ _ Hi) as Hs.
  destruct (logged h) as [|e rest] eqn:El; [done|]. injection Hh as ->.
  destruct e0; try done; [by exists d, rest|].
  destruct rest as [|e2 rest]; [injection Hel as <-; cbn in Hc; congruence|].
  destruct (li_wf _ _ Hi [] (StartFailed e) e2 rest El) as (c' & [[= <-]|[_ [=]]] & Hf).
  rewrite (proj1 Hf eq_refl) in *. destruct rest as [|e3 rest]; [by injection Hel as <-|].
  by destruct (li_wf _ _ Hi [StartFailed e] Finished e3 rest El) as (? & [[=]|[_ [=]]] & _).
Qed.

(** The keys held after a restart pass the pre-check. *)
Lemma taker_started_keys d :
  started_ok p d → check_rederived_htlc_keys (apply_started (new_swap p) d) = Ok ().
Proof.
  intros Hd. destruct (so_maker_key _ _ Hd) as (mk & mp & Hm1 & Hm2 & Hm3).
  destruct (so_taker_key _ _ Hd) as (tk & tp & Ht1 & Ht2 & Ht3).
  destruct (restored_started _ _ _ _ _ _ Hm1 Hm2) as [Hm4 Hm5].
  destruct (restored_started _ _ _ _ _ _ Ht1 Ht2) as [Ht4 Ht5].
  unfold apply_started. rewrite Hm3, Ht3, (so_uuid _ _ Hd).
  cbn [new_swap new ts_maker_coin ts_taker_coin]. unfold check_rederived_htlc_keys.
  rewrite Hm4. destruct mk; cbn -[check_held_htlc_key restored_htlc_key_pair] in *;
    rewrite Ht4; destruct tk; cbn -[check_held_htlc_key] in *; unfold const;
    by rewrite Hm5, Ht5.
Qed.

Lemma taker_replay_keys d rest :
  started_ok p d → Forall (λ e, is_started e = false) rest →
  check_rederived_htlc_keys (replay p (Started d :: rest)) = Ok ().
Proof.
  intros Hd Hrest. rewrite <-(taker_started_keys d Hd).
  pose proof (taker_replay_fixed (Started d :: rest)) as Hfix.
  rewrite <-(taker_fixed_apply 0 (new_swap p) (Started d)) in Hfix. injection Hfix as _ Hmc Htc _.
  destruct (taker_replay_core d rest Hrest) as [_ Hkeys]. injection Hkeys as H1 H2 H3 H4.
  unfold check_rederived_htlc_keys. cbn [apply_event] in Hmc, Htc. by rewrite Hmc, Htc, H1, H2, H3, H4.
Qed.

(** The keys a swap announces are the ones it recorded. *)
Lemma taker_replay_pub d rest :
  started_ok p d → Forall (λ e, is_started e = false) rest →
  let r := (replay p (Started d :: rest)).(ts_mutable) in
  d.(td_maker_coin_htlc_pubkey) = Some r.(tm_my_maker_coin_htlc_pub)
  ∧ d.(td_taker_coin_htlc_pubkey) = Some r.(tm_my_taker_coin_htlc_pub).
Proof.
  intros Hd Hrest r. destruct (taker_replay_core d rest Hrest) as [_ Hkeys].
  injection Hkeys as _ Hm _ Ht. unfold r. rewrite Hm, Ht.
  destruct (so_maker_key _ _ Hd) as (mk & mp & _ & _ & ->), (so_taker_key _ _ Hd) as (tk & tp & _ & _ & ->).
  unfold apply_started. by repeat case_match.
Qed.

Lemma taker_forallb_unsettled L t :
  node_key_ok p → wf_log (taker_role p) (L ++ [t; Finished]) →
  forallb (λ e, negb (settles e)) L = true.
Proof.
  intros Hkey Hwf. apply forallb_forall. intros e (L1 & L2 & ->)%list_elem_of_In%list_elem_of_split.
  rewrite <-app_assoc in Hwf. cbn in Hwf.
  assert (get_command e ≠ Some CFinish) as Hne
    by (destruct L2 as [|e2 [|e3 L2]]; cbn in Hwf; eapply (wf_log_inner (taker_role p)); exact Hwf).
  by destruct e.
Qed.

Lemma taker_forallb_logged (f : TakerSwapEvent → bool) h :
  forallb (λ e, f e.(te_event)) (saved_event <$> saved_log h) = forallb f (logged h).
Proof. unfold logged. induction (saved_log h) as [|e l IH]; cbn; [done|]. by rewrite IH. Qed.

Lemma taker_finished_logged db h :
  db.(tv_events) = saved_event <$> saved_log h → is_finished db = true →
  last (logged h) = Some Finished.
Proof.
  unfold is_finished. intros ->. rewrite <-taker_events_logged, !fmap_last.
  destruct (last (saved_log h)) as [[ts []]|]; done.
Qed.

(** The state behind a call that is not one of the loop's own. *)
Lemma taker_history_state pre e post :
  node_key_ok p → history p (pre ++ e :: post) → loop_call (ev_call e) = false →
  ∃ b cmd h0, call_ok p ((if b : bool then started_as p else restored_as p) (replay p (logged pre)))
                cmd h0 pre (ev_call e)
    ∧ (b = true → is_send (ev_call e) = true → unsent pre)
    ∧ (cmd = CStart ∨ cmd = CFinish ∨
       ∃ d rest, logged pre = Started d :: rest ∧ started_ok p d
         ∧ Forall (λ e, is_started e = false) rest
         ∧ core (replay p (logged pre)).(ts_mutable).(tm_data) = core d).
Proof.
  intros Hkey Hh Hloop.
  apply (history_guard (taker_role p)) in Hh as (b & cmd & h0 & Hok & Hu & Hc); [|done].
  rewrite taker_replayed in Hok. exists b, cmd, h0. split_and!; [done..|].
  destruct Hc as [->|[Hi Hl]]; [by left|right].
  destruct (decide (cmd = CFinish)) as [->|Hne]; [by left|right].
  destruct (taker_log_head _ _ Hi Hl Hne) as (d & rest & HL & Hd & Hrest).
  exists d, rest. rewrite HL. split_and!; [done..|]. by apply taker_replay_core.
Qed.

End replayed.

(** ** A sample swap

    Two UTXO coins, an honest maker, and the answers of a swap that succeeds. *)

Module Sample.

#[local] Existing Instance World.externals.

Definition params : SwapParams := {|
  p_ctx := World.ctx;
  p_maker := replicate 32 (z2b 7);
  p_maker_amount := Q2Qc (3 # 1);
  p_taker_amount := Q2Qc (40 # 1);
  p_uuid := 77;
  p_my_order_uuid := None;
  p_conf_settings := World.conf_settings;
  p_maker_coin := World.coin "LTC";
  p_taker_coin := World.coin "KMD";
  p_payment_locktime := 7800;
  p_p2p_privkey := None
|}.

Definition run_in (env : ∀ (h : taker_trace) (c : SwapCall TakerSwapEvent), SwapResp c) : taker_trace :=
  (exec env [] (run_taker_swap 10 3 (StartNew (new_swap params)))).1.

Lemma runs_in env :
  runs (run_taker_swap 10 3 (StartNew (new_swap params))) (run_in env)
    (exec env [] (run_taker_swap 10 3 (StartNew (new_swap params)))).2.
Proof. apply exec_runs. Qed.

Lemma history_in env : history params (run_in env).
Proof. eapply history_new, runs_prefix, runs_in. Qed.

(** A process stopped after [k] calls. *)
Lemma cut_in env k : history params (take k (run_in env)).
Proof.
  eapply history_new, prefix_run_app. rewrite take_drop. eapply runs_prefix, runs_in.
Qed.

(** The history at its [k]-th call. *)
Lemma split_in env k e :
  run_in env !! k = Some e → history params (take k (run_in env) ++ e :: drop (S k) (run_in env)).
Proof. intros Hk. rewrite (take_drop_middle _ _ _ Hk). apply history_in. Qed.

Definition run : taker_trace := run_in World.env.

(** The same, with a maker that never spends. *)
Definition unspent_env (h : taker_trace) (c : SwapCall TakerSwapEvent) : SwapResp c :=
  match c return SwapResp c with
  | WaitForTxSpend _ _ _ _ _ => Err (PlainErr "not spent")
  | c => World.env h c
  end.
Definition refund_run : taker_trace := run_in unspent_env.

(** What the sample saved. *)
Definition data : TakerSwapData :=
  match logged run with Started d :: _ => d | _ => TakerSwapData_default end.
Definition saved : TakerSavedSwap :=
  default (save_my_taker_swap_event (new_swap params) None
             {| te_timestamp := 0; te_event := Finished |}) (db_of (new_swap params) run).

(** The state in which the sample negotiates, and what it negotiates. *)
Definition negotiating : TakerSwap := replay params [Started data].
Definition negotiation : MakerNegotiationData := {|
  mn_maker_payment_locktime := World.now / 1000 + 3 + 2 * 7800;
  mn_maker_pubkey := zero_bytes 33;
  mn_secret_hash := take 20 World.secret;
  mn_maker_coin_swap_contract_addr := None;
  mn_taker_coin_swap_contract_addr := None;
  mn_maker_coin_htlc_pubkey := Some (replicate 33 (z2b 9));
  mn_taker_coin_htlc_pubkey := Some (replicate 33 (z2b 9))
|}.

Lemma taker_key_ok : node_key_ok params.
Proof. reflexivity. Qed.

End Sample.
Section claims.
Context `{Externals}.

(** The terms of a swap: the message [m] of the maker the taker negotiated on, whose
    lock time is twice the lock duration after the maker's start, and what the taker
    recorded at its own start. *)
Definition terms (p : SwapParams) (pre : taker_trace) (m : NegotiationDataMsg) (d : TakerSwapData) : Prop :=
  Ev (RecvSwapMsg SlotNegotiation NEGOTIATE_TIMEOUT) (Ok m) ∈ pre ∧ Started d ∈ logged pre
  ∧ nd_payment_locktime m = u64 (nd_started_at m + u64 (p.(p_payment_locktime) * 2)).

(** The maker's payment [tx] was confirmed as often as agreed, and validated for the
    agreed lock time, the maker's key, the taker's own key, the secret hash and the
    swap's amount. *)
Definition maker_payment_checked (p : SwapParams) (pre : taker_trace) (m : NegotiationDataMsg)
    (d : TakerSwapData) (tx : bytes) : Prop :=
  ∃ input restored wait,
    Ev (ValidatePayment MakerCoin input) (Ok ()) ∈ pre
    ∧ input.(payment_tx) = tx
    ∧ input.(time_lock) = u32 (nd_payment_locktime m)
    ∧ input.(maker_pub) = h264 (nd_maker_coin_htlc_pub m)
    ∧ d.(td_maker_coin_htlc_pubkey) = Some input.(taker_pub)
    ∧ input.(vp_secret_hash) = nd_secret_hash m
    ∧ input.(vp_amount) = mm_to_decimal (swap_amount restored p.(p_maker_amount))
    ∧ input.(vp_confirmations) = p.(p_conf_settings).(maker_coin_confs)
    ∧ Ev (WaitForConfirmations MakerCoin tx p.(p_conf_settings).(maker_coin_confs)
            p.(p_conf_settings).(maker_coin_nota) wait WAIT_CONFIRM_INTERVAL) (Ok ()) ∈ pre.

(** The HTLC of the taker's payment: one lock duration after the taker's start, from
    the taker's own key to the maker's, for the maker's secret hash. *)
Definition own_htlc (p : SwapParams) (m : NegotiationDataMsg) (d : TakerSwapData) (htlc : HtlcArgs) : Prop :=
  htlc.(ha_time_lock) = u32 (u64 (d.(td_started_at) + p.(p_payment_locktime)))
  ∧ d.(td_taker_coin_htlc_pubkey) = Some htlc.(ha_my_pub)
  ∧ htlc.(ha_other_pub) = h264 (nd_taker_coin_htlc_pub m)
  ∧ htlc.(ha_secret_hash) = nd_secret_hash m.

(** What a validated payment was validated for. *)
Lemma validated_checked p pre d rest :
  let s := replay p (logged pre) in
  validated p pre s → logged pre = Started d :: rest → started_ok p d →
  Forall (λ e, is_started e = false) rest →
  ∃ m tx, terms p pre m d ∧ holds_terms s m ∧ s.(ts_mutable).(tm_maker_payment) = Some tx
    ∧ maker_payment_checked p pre m d tx.(ti_tx_hex) ∧ own_htlc p m d (my_htlc s).
Proof.
  intros s ((m & Hm & Hterms) & tx & restored & Htx & Hc & Hv) HL Hd Hrest. exists m, tx.
  destruct (taker_replay_core p d rest Hrest) as [Hcore _]. rewrite <-HL in Hcore. fold s in Hcore.
  destruct (taker_replay_pub p d rest Hd Hrest) as [Hmp Htp]. rewrite <-HL in Hmp, Htp. fold s in Hmp, Htp.
  injection Hcore as _ Hdur Hlock _ _ Hconf Hnota. pose proof Hterms as (Hl & Hl2 & Hmk & Htk & Hh).
  rewrite Hdur, (so_lock _ _ Hd) in Hl2. split_and!; [by unfold terms; rewrite HL; set_solver|done..| |].
  - rewrite Hconf, Hnota, (so_maker_confs _ _ Hd), (so_maker_nota _ _ Hd) in Hc.
    exists (maker_payment_input s tx (swap_amount restored p.(p_maker_amount))), restored. eexists.
    split_and!; [exact Hv|done|cbn; by rewrite Hl|exact Hmk|exact Hmp|exact Hh|done| |exact Hc].
    cbn. by rewrite Hconf, (so_maker_confs _ _ Hd).
  - split_and!; [|exact Htp|exact Htk|exact Hh]. cbn. by rewrite Hlock, (so_taker_lock _ _ Hd).
Qed.

(** C3: the taker locks its coins only against a payment it has checked: before
    a payment is sent, a payment of the maker was confirmed as often as agreed and
    validated, in this process or an earlier one, for the amount of the swap, for the
    lock time, the key and the secret hash of the message the maker negotiated with
    (the lock time being twice the lock duration after the maker's start) and for the
    key the taker recorded; what is sent is locked to the same secret hash, from the
    taker's recorded key to the key of that message, until one lock duration after
    the taker's start; and the clock is still before the end of the time the maker's
    payment was waited for, two fifths of the lock duration. *)
Theorem taker_pays_for_validated_payment (p : SwapParams) pre side htlc amount x post :
  node_key_ok p →
  history p (pre ++ Ev (SendPayment side htlc amount) x :: post) →
  side = TakerCoin
  ∧ ∃ m d, terms p pre m d ∧ (∃ tx, maker_payment_checked p pre m d tx) ∧ own_htlc p m d htlc
    ∧ ∃ pre' ms, pre = pre' ++ [Ev NowMs ms]
      ∧ ms / 1000 ≤ u64 (d.(td_started_at) + u64 (p.(p_payment_locktime) * 2) / 5).
Proof.
  intros Hkey Hh. apply taker_history_state in Hh as (b & cmd & h0 & Hok & _ & Hd); [|done..].
  destruct Hok as (-> & -> & -> & _ & _ & _ & Hval & pre' & ms & Hpre & Hms & _).
  destruct Hd as [|[|(d & rest & HL & Hd & Hrest & Hcore)]]; [done..|].
  assert (validated p pre (replay p (logged pre))) as Hval' by (destruct b; exact Hval).
  destruct (validated_checked p pre d rest Hval' HL Hd Hrest) as (m & tx & Ht & _ & _ & Hchk & Hown).
  injection Hcore as _ _ _ Hwait _ _ _. split; [done|]. exists m, d.
  split_and!; [done|by exists (ti_tx_hex tx)|by destruct b|]. exists pre', ms. split; [done|].
  change (u64 (td_started_at d + u64 (p_payment_locktime p * 2) / 5))
    with (maker_payment_wait d.(td_started_at) p.(p_payment_locktime)).
  rewrite <-(so_wait _ _ Hd), <-Hwait. by destruct b.
Qed.

(** the taker pays at most once per swap as far as the chain can tell: a
    payment is sent only while the log holds none, and directly after the coin
    answered that no payment to this very HTLC exists; only a swap whose HTLC
    key is unique to it, and which has not tried to pay before, may skip the
    question. The amount is the agreed one, or the decimal the log kept of it. *)
Theorem taker_payment_only_when_none_exists (p : SwapParams) pre side htlc amount x post :
  node_key_ok p →
  history p (pre ++ Ev (SendPayment side htlc amount) x :: post) →
  (∃ restored, amount = mm_to_decimal (swap_amount restored p.(p_taker_amount)))
  ∧ (∀ tx, TakerPaymentSent tx ∉ logged pre)
  ∧ ((∃ pre' b ms, pre = (pre' ++ [Ev (CheckIfMyPaymentSent TakerCoin htlc b) (Ok None)])
                           ++ [Ev NowMs ms])
     ∨ (p.(p_taker_coin).(htlc_key_is_random_per_swap) = true ∧ unsent pre)).
Proof.
  intros Hkey Hh. apply taker_history_state in Hh as (b & cmd & h0 & Hok & Hu & _); [|done..].
  destruct Hok as (-> & -> & -> & -> & [_ Hown] & Htp & _ & pre' & ms & Hpre & _ & Hor).
  pose proof (taker_replay_fixed p (logged pre)) as Hfix. injection Hfix as _ _ Htc _.
  split_and!.
  - eexists. by rewrite Hown.
  - intros tx [y Htx]%(taker_replay_sent p). destruct b; cbn in Htp; by rewrite Htx in Htp.
  - destruct Hor as [(blk & ->)|(-> & Hb & Hrand)]; [left; eauto|].
    right. split; [rewrite <-Htc; by destruct b|by apply Hu; destruct b].
Qed.

(** the dex fee is sent only while the log holds none, in the first third of
    the lock duration, to the network's fee address, and it is the fee of the
    key the swap recorded; nothing is sent when the fee is waived. *)
Theorem taker_fee_guarded (p : SwapParams) pre side dex_fee addr uuid x post :
  node_key_ok p →
  history p (pre ++ Ev (SendTakerFee side dex_fee addr uuid) x :: post) →
  side = TakerCoin ∧ addr = p.(p_ctx).(ctx_net_cfg).(dex_fee_addr_raw_pubkey)
  ∧ uuid = uuid_bytes p.(p_uuid) ∧ dex_fee ≠ NoFee
  ∧ (∀ tx, TakerFeeSent tx ∉ logged pre ∧ TakerPaymentSent tx ∉ logged pre)
  ∧ ∃ pre' ms d pub restored, pre = pre' ++ [Ev NowMs ms] ∧ Started d ∈ logged pre
      ∧ ms / 1000 ≤ u64 (d.(td_started_at) + p.(p_payment_locktime) / 3)
      ∧ d.(td_taker_coin_htlc_pubkey) = Some pub
      ∧ dex_fee = compute_dex_fee_with_taker_pubkey p.(p_ctx).(ctx_net_cfg) p.(p_taker_coin)
                    p.(p_maker_coin).(ticker) (swap_amount restored p.(p_taker_amount)) pub.
Proof.
  intros Hkey Hh. apply taker_history_state in Hh as (b & cmd & h0 & Hok & _ & Hd); [|done..].
  destruct Hok as (-> & -> & -> & Hfee & -> & -> & _ & Hf & Htp & ms & Hpre & Hms).
  destruct Hd as [|[|(d & rest & HL & Hd & Hrest & Hcore)]]; [done..|].
  pose proof (proj2 (taker_replay_pub p d rest Hd Hrest)) as Hpub. rewrite <-HL in Hpub.
  injection Hcore as Hst Hlock _ _ Hmc _ _.
  pose proof (taker_replay_fixed p (logged pre)) as Hfix. injection Hfix as Hctx _ Htc Hu.
  split_and!; [done|rewrite <-Hctx; by destruct b|rewrite <-Hu; by destruct b|done| |].
  - intros tx. destruct (taker_replay_sent p (logged pre) tx) as [Hs1 Hs2]. split; intros Hin.
    + destruct (Hs2 Hin) as [y Hy]. destruct b; cbn in Hf; by rewrite Hy in Hf.
    + destruct (Hs1 Hin) as [y Hy]. destruct b; cbn in Htp; by rewrite Hy in Htp.
  - eexists h0, ms, d, _, (negb b). split_and!; [done|rewrite HL; set_solver| |exact Hpub|].
    + rewrite <-(so_lock _ _ Hd), <-Hst, <-Hlock. by destruct b.
    + unfold my_dex_fee. rewrite <-(so_maker_coin _ _ Hd), <-Hmc, <-Hctx, <-Htc. by destruct b.
Qed.

(** C14: the maker's payment is claimed with the maker's own secret: a spend is
    made only of a payment that was checked for the swap, with the lock time and the
    key it was checked for, and with a secret that was read, for the secret hash it
    is locked to, from a transaction the taker's coin reported as the spend of the
    taker's own payment: the one the coin sent for the taker's HTLC, or found
    there. *)
Theorem maker_payment_spent_with_revealed_secret (p : SwapParams) pre side tx lock other secret
    priv addr x post :
  node_key_ok p →
  history p (pre ++ Ev (SpendPayment side tx lock other secret priv addr) x :: post) →
  side = MakerCoin
  ∧ ∃ m d, terms p pre m d ∧ maker_payment_checked p pre m d tx
    ∧ lock = u32 (nd_payment_locktime m) ∧ other = h264 (nd_maker_coin_htlc_pub m)
    ∧ ∃ spend b, Ev (ExtractSecret TakerCoin (nd_secret_hash m) spend.(tx_hex)) (Ok b) ∈ pre
    ∧ secret = take 32 b ∧ length secret = 32%nat
    ∧ ∃ mine htlc, own_htlc p m d htlc
      ∧ ((∃ amount, Ev (SendPayment TakerCoin htlc amount) (Ok mine) ∈ pre)
         ∨ ∃ from, Ev (CheckIfMyPaymentSent TakerCoin htlc from) (Ok (Some mine)) ∈ pre)
      ∧ ((∃ until from c, Ev (WaitForTxSpend TakerCoin mine.(tx_hex) until from c) (Ok spend) ∈ pre)
         ∨ ∃ from t, Ev (SearchForSwapTxSpendMy TakerCoin htlc mine.(tx_hex) from t)
                        (Ok (Some (Spent spend))) ∈ pre).
Proof.
  intros Hkey Hh. apply taker_history_state in Hh as (b & cmd & h0 & Hok & _ & Hd); [|done..].
  destruct Hok as (-> & -> & -> & (t & Hmp & ->) & Hlock & Hother & _ & Hpaid & Hval & Hrev).
  destruct Hd as [|[|(d & rest & HL & Hd & Hrest & Hcore)]]; [done..|].
  set (s := replay p (logged pre)) in *.
  assert (validated p pre s) as Hval' by (destruct b; exact Hval).
  assert (revealed pre s) as (spend & raw & (tp & Htp & Hseen) & Hex & Hlen & Hsec) by (destruct b; exact Hrev).
  assert (∃ tp, paid pre s tp) as (tp' & Htp' & mine & -> & Hmine) by (destruct b; exact Hpaid).
  assert (tp = identifier mine) as -> by congruence.
  destruct (validated_checked p pre d rest Hval' HL Hd Hrest) as (m & tx & Ht & Hterms & Htx & Hchk & Hown).
  destruct Hterms as (Hl & _ & Hmk & _ & Hhash). fold s in Hl, Hmk, Hhash, Htx, Hown.
  assert (t = tx) as -> by (destruct b; cbn in Hmp; congruence).
  split; [done|]. exists m, d. split_and!; [done..| | |].
  - rewrite Hlock, <-Hl. by destruct b.
  - rewrite Hother, <-Hmk. by destruct b.
  - exists spend, raw. rewrite <-Hhash. split; [done|].
    assert (tm_secret (ts_mutable ((if b then started_as p else restored_as p) s)) = take 32 raw) as ->
      by (destruct b; exact Hsec).
    split_and!; [done|rewrite length_take; lia|]. exists mine, (my_htlc s). split_and!; [done|done|].
    destruct Hseen as [?|[? ?]]; [left|right]; eauto.
Qed.

(** a refund of the taker's payment is tried only right after the coin said
    the lock time allows it, and never without having asked the chain, in the
    same refund, whether the maker has spent the payment (unless a spend is
    already recorded). *)
Theorem taker_refund_guarded (p : SwapParams) pre side tx lock other hash priv addr x post :
  node_key_ok p →
  history p (pre ++ Ev (RefundPayment side tx lock other hash priv addr) x :: post) →
  side = TakerCoin
  ∧ (∃ pre' full, pre = pre' ++ [Ev (CanRefund TakerCoin full) (Ok CanRefundNow)]
      ∧ lock = u32 full)
  ∧ (∃ s, s = replay p (logged pre) ∧ (∃ t, s.(ts_mutable).(tm_taker_payment) = Some t ∧ tx = t.(ti_tx_hex))
      ∧ (is_Some s.(ts_mutable).(tm_taker_payment_spend)
         ∨ ∃ from t y, Ev (SearchForSwapTxSpendMy TakerCoin (my_htlc s) tx from t) y ∈ pre)).
Proof.
  intros Hkey Hh. apply taker_history_state in Hh as (b & cmd & h0 & Hok & _ & _); [|done..].
  destruct Hok as (-> & -> & -> & _ & _ & (t & Htp & ->) & Hlook & pre' & Hpre).
  split; [done|]. split; [by eexists _, _; split|].
  exists (replay p (logged pre)). split; [done|].
  split; [exists t; by destruct b|].
  destruct Hlook as [Hsp|(tr & from & t' & y & -> & Hin)]; [left; by destruct b|right].
  exists from, t', y. destruct b; set_solver.
Qed.

(** the data for the watchers is built with the wrong coin: the transaction
    that is to spend the maker's payment is asked of the taker's coin, with the
    lock time of the taker's payment, although the payment was validated on the
    maker's coin. *)
Theorem watcher_preimage_of_wrong_coin (p : SwapParams) pre side tx lock pub hash x post :
  node_key_ok p →
  history p (pre ++ Ev (CreateMakerPaymentSpendPreimage side tx lock pub hash) x :: post) →
  side = TakerCoin
  ∧ (∃ d, Started d ∈ logged pre ∧ lock = u32 (u64 (d.(td_started_at) + p.(p_payment_locktime))))
  ∧ ∃ input, Ev (ValidatePayment MakerCoin input) (Ok ()) ∈ pre ∧ input.(payment_tx) = tx.
Proof.
  intros Hkey Hh. apply taker_history_state in Hh as (b & cmd & h0 & Hok & _ & Hd); [|done..].
  destruct Hok as (Hcmd & -> & -> & (t & Hmp & ->) & Hval).
  destruct Hd as [->|[->|(d & rest & HL & Hd & _ & Hcore)]]; [done..|].
  destruct Hval as (_ & tx & restored & Htx & _ & Hv). injection Hcore as _ _ Hlock _ _ _ _.
  split; [done|]. split.
  - exists d. split; [rewrite HL; set_solver|]. rewrite <-(so_taker_lock _ _ Hd), <-Hlock.
    by destruct b.
  - eexists. split; [exact Hv|]. cbn. congruence.
Qed.

(** C25: a stop is harmless for the taker: when the log holds [Started] and the
    swap is not finished, a restart gives exactly the state the saved events lead
    to, with the amounts read back from the log's decimals, and the command of
    the last saved event; the key pre-check never holds it up. *)
Theorem taker_restart_resumes (p : SwapParams) h now d rest c :
  node_key_ok p → history p h →
  logged h = Started d :: rest → last_command (logged h) = Some c →
  prepare (KickStart now p.(p_ctx) p.(p_maker_coin) p.(p_taker_coin)
             (Ok (db_of (new_swap p) h))) = Some (restored_as p (replay p (logged h)), c).
Proof.
  intros Hkey Hh HL Hc. pose proof (history_inv (taker_role p) h Hh) as [HL0|Hi]; [congruence|].
  destruct (li_head _ _ Hi) as (e0 & Hhead & Hd). pose proof (li_started _ _ Hi) as Hst.
  pose proof (replayed_clock (taker_role p) now false h c Hi Hc) as Hnow.
  rewrite taker_replayed in Hnow.
  change (fold_events now (restored_as p (new_swap p)) (logged h)
          = restored_as p (replay p (logged h))) in Hnow.
  rewrite HL in *. injection Hhead as <-.
  cbn. pose proof (taker_db_of_spec (new_swap p) h) as Hdb.
  destruct (db_of (new_swap p) h) as [db|]; [|by unfold logged in HL; rewrite Hdb in HL].
  destruct Hdb as (_ & HLdb & Hu).
  rewrite (taker_load_replay p now db d rest), Hc by (done || by rewrite HLdb, taker_events_logged).
  rewrite Hnow. change (check_rederived_htlc_keys (restored_as p (replay p (Started d :: rest))))
    with (check_rederived_htlc_keys (replay p (Started d :: rest))).
  by rewrite taker_replay_keys.
Qed.

(** What a process of the swap is started with. *)
Inductive process (p : SwapParams) : taker_trace → RunTakerSwapInput → Prop :=
| taker_process_new : process p [] (StartNew (new_swap p))
| taker_process_restart h now :
    history p h →
    process p h (KickStart now p.(p_ctx) p.(p_maker_coin) p.(p_taker_coin)
      (Ok (db_of (new_swap p) h))).

(** every process of a taker swap ends: ten commands are enough, and the
    refund's loop ends once it is refused fewer times than the fuel counts. It
    ends with the swap finished, or without having saved anything; it panics
    only when the database refuses to save, or when the taker's coin returns a
    secret of fewer than 32 bytes. *)
Theorem taker_process_ends (p : SwapParams) h input fuel tr o :
  node_key_ok p → process p h input →
  runs (run_taker_swap 10 fuel input) tr o →
  (refusals tr < fuel)%nat →
  (o = Val () ∧ (last (logged (h ++ tr)) = Some Finished ∨ logged tr = []))
  ∨ (o = Panicked ∧ (save_failed (h ++ tr) ∨ short_secret (h ++ tr))).
Proof.
  intros Hkey Hproc Hrun Hfuel.
  assert (SwapLoop.process (taker_role p) h (prepare input)) as Hp.
  { destruct Hproc as [|h now Hh]; [|by apply (SwapLoop.process_restart (taker_role p))].
    exact (SwapLoop.process_new (taker_role p)). }
  exact (process_ends_with (taker_role p) h (prepare input) fuel tr o Hp Hrun Hfuel).
Qed.

(** The ends of a swap whose taker paid and got nothing back yet. *)
Definition unsettled_end (t : TakerSwapEvent) : Prop :=
  match t with
  | TakerPaymentTransactionFailed _ | TakerPaymentRefundFailed _ | MakerPaymentSpendFailed _
  | TakerPaymentWaitForSpendFailed _ => True
  | _ => False
  end.

(** the log of a finished taker swap tells how it ended: [Finished] comes
    right after the one event [t] that ends a swap. A swap whose payment was
    sent ended in the spend of the maker's payment, in the refund, or in a
    failure of one of these; and the swaps [recover_funds_of_swap] is offered
    for are exactly those whose payment may be on chain and was neither spent
    for nor refunded. *)
Theorem taker_finished_log (p : SwapParams) h db :
  node_key_ok p → history p h → db_of (new_swap p) h = Some db → is_finished db = true →
  ∃ L t, logged h = L ++ [t; Finished]
    ∧ ((∃ tx, TakerPaymentSent tx ∈ L) →
        (∃ tx, t = MakerPaymentSpent tx) ∨ (∃ tx, t = TakerPaymentRefunded tx) ∨ unsettled_end t)
    ∧ (is_recoverable db = true ↔ unsettled_end t).
Proof.
  intros Hkey Hh Hdb Hfin. pose proof (taker_db_of_spec (new_swap p) h) as Hspec.
  rewrite Hdb in Hspec. destruct Hspec as (_ & Hevs & _).
  pose proof (taker_finished_logged db h Hevs Hfin) as Hlast.
  destruct (history_inv (taker_role p) h Hh) as [HL0|Hi]; [by rewrite HL0 in Hlast|].
  destruct (finished_split (taker_role p) h Hi id Hlast) as (L & t & HL & Ht & Hleg & Hearly).
  pose proof (li_wf _ _ Hi) as Hwf. rewrite HL in Hwf. exists L, t.
  split_and!; [done| |].
  - intros [tx Htx%(taker_replay_sent p)].
    assert (early_failure t = false) as Hno.
    { destruct (early_failure t) eqn:Et; [|done]. specialize (Hearly eq_refl).
      rewrite taker_replayed in Hearly. cbn in Hearly. rewrite Hearly in Htx. by destruct Htx. }
    destruct Ht as [Ht|[_ Ht]]; destruct t; cbn in *; try done; eauto.
  - unfold is_recoverable. rewrite Hfin, Hevs, (taker_forallb_logged (λ e, negb (settles e))), HL.
    rewrite forallb_app, (taker_forallb_unsettled p L t Hkey Hwf). cbn.
    destruct Ht as [Ht|[_ Ht]]; destruct t; cbn in *; try done; naive_solver.
Qed.

(** What a successful negotiation has checked. *)
Lemma taker_negotiate_checked s tr n :
  runs (negotiate s) tr (Val (Some CSendTakerFee, [NegotiatedEv n])) →
  let d := s.(ts_mutable).(tm_data) in
  ∃ m, Ev (RecvSwapMsg SlotNegotiation NEGOTIATE_TIMEOUT) (Ok m) ∈ tr
    ∧ started_at_dif d.(td_started_at) (nd_started_at m) ≤ 60
    ∧ n.(mn_maker_payment_locktime) = u64 (nd_started_at m + u64 (d.(td_lock_duration) * 2)).
Proof.
  assert (safe (λ _ _, True) [] (negotiate s) (λ tr o,
    match o with
    | Val (Some CSendTakerFee, [NegotiatedEv n]) =>
        ∃ m, Ev (RecvSwapMsg SlotNegotiation NEGOTIATE_TIMEOUT) (Ok m) ∈ tr
          ∧ started_at_dif s.(ts_mutable).(tm_data).(td_started_at) (nd_started_at m) ≤ 60
          ∧ n.(mn_maker_payment_locktime) =
              u64 (nd_started_at m + u64 (s.(ts_mutable).(tm_data).(td_lock_duration) * 2))
    | _ => True
    end)) as Hsafe; [|intros Hrun; by apply (safe_runs _ _ _ _ _ _ Hsafe Hrun)].
  unfold negotiate, negotiate_accepted, negotiate_failed, h264_checked. walk.
  eexists. split_and!; [|by apply Z.ltb_ge|].
  - set_solver.
  - cbn. by apply Z.eqb_eq, negb_false_iff.
Qed.

(** The starting time a negotiation message claims. *)
Definition claimed_start (e : call_event TakerSwapEvent) : option Z :=
  match e with
  | Ev c x =>
      match c return SwapResp c → option Z with
      | RecvSwapMsg SlotNegotiation _ => λ x : result NegotiationDataMsg string,
          match x with Ok m => Some (nd_started_at m) | Err _ => None end
      | _ => λ _, None
      end x
  end.

Definition claims_in_range (tr : taker_trace) : bool :=
  forallb (λ e, match claimed_start e with
                | Some z => bool_decide (is_u 64 z)
                | None => true
                end) tr.

(** a negotiated swap leaves the taker room. Whatever starting time the maker
    claims, the lock time its payment is checked against on chain (32 bits) is
    within a minute of two lock durations after the taker's start; so a maker
    that reveals the secret by the taker's own lock time leaves the taker a
    whole duration less a minute to claim the maker's payment. *)
Theorem taker_negotiated_lock_times s tr n :
  let d := s.(ts_mutable).(tm_data) in
  let start := d.(td_started_at) in
  let T := d.(td_lock_duration) in
  let maker_lock := u32 n.(mn_maker_payment_locktime) in
  60 ≤ start → 0 ≤ T → start + 2 * T + 60 < 2 ^ 32 →
  d.(td_taker_payment_lock) = u64 (start + T) →
  claims_in_range tr = true →
  runs (negotiate s) tr (Val (Some CSendTakerFee, [NegotiatedEv n])) →
  start + 2 * T - 60 ≤ maker_lock ≤ start + 2 * T + 60
  ∧ u32 d.(td_taker_payment_lock) + T - 60 ≤ maker_lock.
Proof.
  intros d start T maker_lock Hstart HT Hmax Hlock Hmsg Hrun.
  destruct (taker_negotiate_checked s tr n Hrun) as (m & Hm & Hdif & Hn).
  apply list_elem_of_In in Hm.
  pose proof (proj1 (forallb_forall _ _) Hmsg _ Hm) as Hm64. apply bool_decide_eq_true in Hm64.
  fold d in Hdif, Hn. fold start in Hdif. fold T in Hn.
  unfold maker_lock. rewrite Hn, Hlock.
  assert (is_u 64 start) as Hs by zwrap.
  apply started_at_dif_spec in Hdif; [|done..].
  revert Hm64 Hdif. generalize (nd_started_at m). intros b Hb Hdif.
  clearbody start T. clear -Hstart HT Hmax Hs Hb Hdif.
  change (2 ^ 63) with 9223372036854775808 in *. zwrap.
Qed.

End claims.

(** ** The properties at the sample *)

#[local] Existing Instance World.externals.

Definition sample_htlc : HtlcArgs := my_htlc (replay Sample.params (logged (take 43 Sample.run))).

Lemma taker_pays_for_validated_payment_witness :
  ∃ m d tx, maker_payment_checked Sample.params (take 43 Sample.run) m d tx
    ∧ own_htlc Sample.params m d sample_htlc.
Proof.
  destruct (taker_pays_for_validated_payment Sample.params (take 43 Sample.run) TakerCoin
    sample_htlc {| int_val := 40; scale := 0 |} (Ok (World.tx 30)) (drop 44 Sample.run)
    Sample.taker_key_ok) as (_ & m & d & _ & (tx & Htx) & Hown & _).
  - apply (Sample.split_in World.env 43). vm_compute. reflexivity.
  - exists m, d, tx. split; [exact Htx|exact Hown].
Defined.

Lemma taker_payment_only_when_none_exists_witness :
  ∃ pre' b ms, take 43 Sample.run =
    (pre' ++ [Ev (CheckIfMyPaymentSent TakerCoin sample_htlc b) (Ok None)]) ++ [Ev NowMs ms].
Proof.
  destruct (taker_payment_only_when_none_exists Sample.params (take 43 Sample.run) TakerCoin
    sample_htlc {| int_val := 40; scale := 0 |} (Ok (World.tx 30)) (drop 44 Sample.run)
    Sample.taker_key_ok) as (_ & _ & [?|[Hr _]]).
  - apply (Sample.split_in World.env 43). vm_compute. reflexivity.
  - done.
  - discriminate Hr.
Defined.

Definition sample_fee : DexFee := my_dex_fee (replay Sample.params (logged (take 23 Sample.run))).

Lemma taker_fee_guarded_witness :
  TakerFeeSent (identifier (World.tx 20)) ∉ logged (take 23 Sample.run)
  ∧ sample_fee ≠ NoFee.
Proof.
  destruct (taker_fee_guarded Sample.params (take 23 Sample.run) TakerCoin sample_fee
    (dex_fee_addr_raw_pubkey Netid8762) (uuid_bytes 77) (Ok (World.tx 20)) (drop 24 Sample.run)
    Sample.taker_key_ok) as (_ & _ & _ & Hfee & Hnone & _).
  - apply (Sample.split_in World.env 23). vm_compute. reflexivity.
  - split; [apply Hnone|exact Hfee].
Defined.

Lemma maker_payment_spent_with_revealed_secret_witness :
  ∃ m d, maker_payment_checked Sample.params (take 57 Sample.run) m d [z2b 21].
Proof.
  destruct (maker_payment_spent_with_revealed_secret Sample.params (take 57 Sample.run) MakerCoin
    [z2b 21] 1700015603 (replicate 33 (z2b 9)) World.secret (replicate 32 (z2b 2)) None
    (Ok (World.tx 40)) (drop 58 Sample.run) Sample.taker_key_ok) as (_ & m & d & _ & Hc & _).
  - apply (Sample.split_in World.env 57). vm_compute. reflexivity.
  - exists m, d. exact Hc.
Defined.

Lemma taker_refund_guarded_witness :
  ∃ pre' full, take 63 Sample.refund_run
    = pre' ++ [Ev (CanRefund TakerCoin full) (Ok CanRefundNow)] ∧ 1700007800 = u32 full.
Proof.
  apply (taker_refund_guarded Sample.params (take 63 Sample.refund_run) TakerCoin
    [z2b 30] 1700007800 (replicate 33 (z2b 9)) (take 20 World.secret) (replicate 32 (z2b 2)) None
    (Ok (World.tx 50)) (drop 64 Sample.refund_run) Sample.taker_key_ok).
  apply (Sample.split_in Sample.unspent_env 63). vm_compute. reflexivity.
Defined.

Lemma watcher_preimage_of_wrong_coin_witness :
  ∃ input, Ev (ValidatePayment MakerCoin input) (Ok ()) ∈ take 48 Sample.run
    ∧ input.(payment_tx) = [z2b 21].
Proof.
  apply (watcher_preimage_of_wrong_coin Sample.params (take 48 Sample.run) TakerCoin
    [z2b 21] 1700007800 (replicate 33 (z2b 9)) (take 20 World.secret)
    (Ok (World.tx 70)) (drop 49 Sample.run) Sample.taker_key_ok).
  apply (Sample.split_in World.env 48). vm_compute. reflexivity.
Defined.

Lemma taker_restart_resumes_witness :
  prepare (KickStart 0 Sample.params.(p_ctx) Sample.params.(p_maker_coin)
    Sample.params.(p_taker_coin) (Ok (db_of (new_swap Sample.params) (take 41 Sample.run))))
  = Some (restored_as Sample.params (replay Sample.params (logged (take 41 Sample.run))),
          CSendTakerPayment).
Proof.
  apply (taker_restart_resumes Sample.params (take 41 Sample.run) 0 Sample.data
    (tail (logged (take 41 Sample.run))));
    [apply Sample.taker_key_ok|apply Sample.cut_in|vm_compute; reflexivity..].
Defined.

Lemma taker_process_ends_witness :
  (Val () = Val () ∧ (last (logged ([] ++ Sample.run)) = Some Finished ∨ logged Sample.run = []))
  ∨ (Val () = Panicked ∧ (save_failed ([] ++ Sample.run) ∨ short_secret ([] ++ Sample.run))).
Proof.
  apply (taker_process_ends Sample.params [] (StartNew (new_swap Sample.params)) 3 Sample.run (Val ()));
    [apply Sample.taker_key_ok|constructor| |vm_compute; lia].
  assert ((exec World.env [] (run_taker_swap 10 3 (StartNew (new_swap Sample.params)))).2
    = Val ()) as <- by (vm_compute; reflexivity).
  apply Sample.runs_in.
Defined.

Lemma taker_finished_log_witness :
  ∃ L t, logged Sample.run = L ++ [t; Finished].
Proof.
  destruct (taker_finished_log Sample.params Sample.run Sample.saved) as (L & t & HL & _);
    [apply Sample.taker_key_ok|apply Sample.history_in|vm_compute; reflexivity..|eauto].
Defined.

Lemma taker_negotiated_lock_times_witness :
  let maker_lock := u32 Sample.negotiation.(mn_maker_payment_locktime) in
  1700000000 + 2 * 7800 - 60 ≤ maker_lock ≤ 1700000000 + 2 * 7800 + 60.
Proof.
  apply (taker_negotiated_lock_times Sample.negotiating
    (exec World.env [] (negotiate Sample.negotiating)).1 Sample.negotiation);
    [vm_compute; congruence..|vm_compute; reflexivity|vm_compute; reflexivity| |].
  - vm_compute. reflexivity.
  - assert ((exec World.env [] (negotiate Sample.negotiating)).2
      = Val (Some CSendTakerFee, [NegotiatedEv Sample.negotiation])) as <-
      by (vm_compute; reflexivity).
    apply exec_runs.
Defined.

(** The answers of a second process: the coin sends another fee. *)
Definition second_env (h : taker_trace) (c : SwapCall TakerSwapEvent) : SwapResp c :=
  match c return SwapResp c with
  | SendTakerFee _ _ _ _ => Ok (World.tx 25)
  | c => World.env h c
  end.
Definition second_run : taker_trace :=
  (exec second_env [] (run_role (taker_role Sample.params) 10 3
     (restart Sample.params 0 (take 24 Sample.run)))).1.

(** the dex fee can be paid twice: a process that stops after the coin has
    sent the fee and before [TakerFeeSent] is saved leaves no trace of it, and
    the next process sends the same fee again, in a second transaction. *)
Theorem fee_paid_twice :
  ∃ h i j fee addr uuid tx tx', history Sample.params h ∧ (i < j)%nat ∧ tx ≠ tx'
    ∧ h !! i = Some (Ev (SendTakerFee TakerCoin fee addr uuid) (Ok tx))
    ∧ h !! j = Some (Ev (SendTakerFee TakerCoin fee addr uuid) (Ok tx')).
Proof.
  exists (take 24 Sample.run ++ second_run), 23%nat, 26%nat, sample_fee,
    (dex_fee_addr_raw_pubkey Netid8762), (uuid_bytes 77), (World.tx 20), (World.tx 25).
  split_and!; [|lia|done|vm_compute; reflexivity..].
  eapply (history_restart _ 10 3 0); [apply Sample.cut_in|].
  eapply runs_prefix, exec_runs.
Qed.
