(* ===== verification/SwapPair.v ===== *)
(** * The two sides of a swap together

    A maker swap ([MakerSwap]) and a taker swap ([TakerSwap]) that negotiate
    with each other over a network that delivers only what was sent.  What the
    two record of each other fits together: each payment is the one the other
    side will validate, and the dex fee is the one the maker expects.  And two
    honest sides do come to an agreement. *)

From Stdlib Require Import ZArith QArith Qcanon.
From S2P Require Import Prelude MmNumber NetConfig DexFee SwapCommon LockedAmounts Effects SwapEnv SwapLoop SwapSample.
From S2P Require Import MakerSwap MakerSwapInv MakerSwapSafety TakerSwap TakerSwapInv TakerSwapSafety.
From stdpp Require Import base tactics strings list numbers pretty sets.
From coqutil Require Import Datatypes.RecordSettersUsingExistingGetters.

Local Open Scope Z_scope.

(** The negotiation message an event received on a slot, and the one it sent. *)
Definition heard {E} (reply : bool) (e : call_event E) : option NegotiationDataMsg :=
  match e with
  | Ev c x =>
      match c return SwapResp c → option NegotiationDataMsg with
      | RecvSwapMsg s _ =>
          match s return result (slot_type s) string → option NegotiationDataMsg with
          | SlotNegotiation => λ x, match x with Ok m => if reply then None else Some m | Err _ => None end
          | SlotNegotiationReply => λ x, match x with Ok m => if reply then Some m else None | Err _ => None end
          | _ => λ _, None
          end
      | _ => λ _, None
      end x
  end.

Definition said {E} (reply : bool) (e : call_event E) : option NegotiationDataMsg :=
  match ev_call e with
  | BroadcastEvery (Negotiation m) _ => if reply then None else Some m
  | BroadcastEvery (NegotiationReply m) _ => if reply then Some m else None
  | _ => None
  end.

Lemma heard_hello {E} t m (tr : trace E) :
  Ev (RecvSwapMsg SlotNegotiation t) (Ok m) ∈ tr → m ∈ omap (heard false) tr.
Proof. intros Hin. apply list_elem_of_omap. by eexists. Qed.

Lemma heard_reply {E} t m (tr : trace E) :
  Ev (RecvSwapMsg SlotNegotiationReply t) (Ok m) ∈ tr → m ∈ omap (heard true) tr.
Proof. intros Hin. apply list_elem_of_omap. by eexists. Qed.

Lemma said_hello {E} m (tr : trace E) :
  m ∈ omap (said false) tr → ∃ i x, Ev (BroadcastEvery (Negotiation m) i) x ∈ tr.
Proof.
  intros ([c x] & Hin & Hs)%list_elem_of_omap. destruct c; try done.
  match goal with msg : SwapMsg |- _ => destruct msg end; try done. injection Hs as ->. eauto.
Qed.

Lemma said_reply {E} m (tr : trace E) :
  m ∈ omap (said true) tr → ∃ i x, Ev (BroadcastEvery (NegotiationReply m) i) x ∈ tr.
Proof.
  intros ([c x] & Hin & Hs)%list_elem_of_omap. destruct c; try done.
  match goal with msg : SwapMsg |- _ => destruct msg end; try done. injection Hs as ->. eauto.
Qed.

(** An event of a trace written out. *)
Ltac in_trace := cbn [app]; repeat first [apply list_elem_of_here|apply list_elem_of_further].

Section pair.
Context `{Externals} (sm : MakerSwap.MakerSwap) (st : TakerSwap.TakerSwap).
Implicit Types (trm : maker_trace) (trt : taker_trace).

(** The messages of the negotiation. *)
Definition hello : NegotiationDataMsg := MakerSwap.get_my_negotiation_data sm.

(** What one side received, the other side has sent. *)
Definition delivered trm trt : Prop :=
  omap (heard false) trt ⊆ omap (said false) trm ∧ omap (heard true) trm ⊆ omap (said true) trt.

Lemma delivered_hello trm trt t m :
  delivered trm trt → Ev (RecvSwapMsg SlotNegotiation t) (Ok m) ∈ trt →
  ∃ i x, Ev (BroadcastEvery (Negotiation m) i) x ∈ trm.
Proof. intros [Hd _] Hin%heard_hello. by apply said_hello, Hd. Qed.

Lemma delivered_reply trm trt t m :
  delivered trm trt → Ev (RecvSwapMsg SlotNegotiationReply t) (Ok m) ∈ trm →
  ∃ i x, Ev (BroadcastEvery (NegotiationReply m) i) x ∈ trt.
Proof. intros [_ Hd] Hin%heard_reply. by apply said_reply, Hd. Qed.

(** The states after both have saved the negotiation. *)
Definition maker_after (n : MakerSwap.TakerNegotiationData) : MakerSwap.MakerSwap :=
  MakerSwap.apply_event 0 sm (MakerSwap.NegotiatedEv n).
Definition taker_after (n : TakerSwap.MakerNegotiationData) : TakerSwap.TakerSwap :=
  TakerSwap.apply_event 0 st (TakerSwap.NegotiatedEv n).

(** The HTLC a side pays to is the one the other side validates. *)
Definition maker_pays_what_is_validated (a : HtlcArgs) (i : ValidatePaymentInput) : Prop :=
  a.(ha_time_lock) = i.(time_lock) ∧ a.(ha_my_pub) = i.(maker_pub)
  ∧ a.(ha_other_pub) = i.(taker_pub) ∧ a.(ha_secret_hash) = i.(vp_secret_hash).
Definition taker_pays_what_is_validated (a : HtlcArgs) (i : ValidatePaymentInput) : Prop :=
  a.(ha_time_lock) = i.(time_lock) ∧ a.(ha_my_pub) = i.(taker_pub)
  ∧ a.(ha_other_pub) = i.(maker_pub) ∧ a.(ha_secret_hash) = i.(vp_secret_hash).

(** The maker says one thing, however it ends. *)
Lemma maker_says trm o m i x :
  runs (MakerSwap.negotiate sm) trm o →
  Ev (BroadcastEvery (Negotiation m) i) x ∈ trm → m = hello.
Proof.
  intros Hrun (l1 & l2 & ->)%list_elem_of_split.
  assert (safe (λ _ c, match c with BroadcastEvery (Negotiation m) _ => m = hello | _ => True end)
    [] (MakerSwap.negotiate sm) (λ _ _, True)) as Hsafe.
  { unfold MakerSwap.negotiate, MakerSwap.negotiate_failed, h264_checked. walk. done. }
  exact (safe_prefix _ _ _ _ _ _ _ Hsafe (runs_prefix _ _ _ Hrun)).
Qed.

(** What a maker that negotiated has received. *)
Lemma maker_negotiated trm n :
  runs (MakerSwap.negotiate sm) trm
    (Val (Some MakerSwap.CWaitForTakerFee, [MakerSwap.NegotiatedEv n])) →
  ∃ m t, Ev (RecvSwapMsg SlotNegotiationReply t) (Ok m) ∈ trm
     ∧ n.(MakerSwap.tn_taker_payment_locktime) = nd_payment_locktime m
     ∧ n.(MakerSwap.tn_maker_coin_htlc_pubkey) = Some (nd_maker_coin_htlc_pub m)
     ∧ n.(MakerSwap.tn_taker_coin_htlc_pubkey) = Some (nd_taker_coin_htlc_pub m).
Proof.
  intros Hrun.
  assert (safe (λ _ _, True) [] (MakerSwap.negotiate sm) (λ tr o,
    match o with
    | Val (Some MakerSwap.CWaitForTakerFee, [MakerSwap.NegotiatedEv n]) =>
        ∃ m t, Ev (RecvSwapMsg SlotNegotiationReply t) (Ok m) ∈ tr
          ∧ n.(MakerSwap.tn_taker_payment_locktime) = nd_payment_locktime m
          ∧ n.(MakerSwap.tn_maker_coin_htlc_pubkey) = Some (nd_maker_coin_htlc_pub m)
          ∧ n.(MakerSwap.tn_taker_coin_htlc_pubkey) = Some (nd_taker_coin_htlc_pub m)
    | _ => True
    end)) as Hsafe; [|by apply (safe_runs _ _ _ _ _ _ Hsafe Hrun)].
  unfold MakerSwap.negotiate, MakerSwap.negotiate_failed, h264_checked. walk.
  exists a, MakerSwap.NEGOTIATION_TIMEOUT. split_and!; [in_trace|done|cbn; unfold h264; f_equal..].
  all: apply take_ge; repeat match goal with
      | Hv : validate_wire_pubkey _ _ = Ok _ |- _ => apply validate_wire_pubkey_len in Hv
      end; lia.
Qed.

(** What a taker that negotiated has received and sent. *)
Lemma taker_negotiated trt n :
  runs (TakerSwap.negotiate st) trt
    (Val (Some TakerSwap.CSendTakerFee, [TakerSwap.NegotiatedEv n])) →
  ∃ m t, Ev (RecvSwapMsg SlotNegotiation t) (Ok m) ∈ trt
     ∧ n.(TakerSwap.mn_maker_payment_locktime) = nd_payment_locktime m
     ∧ n.(TakerSwap.mn_secret_hash) = nd_secret_hash m
     ∧ n.(TakerSwap.mn_maker_coin_htlc_pubkey) = Some (nd_maker_coin_htlc_pub m)
     ∧ n.(TakerSwap.mn_taker_coin_htlc_pubkey) = Some (nd_taker_coin_htlc_pub m).
Proof.
  intros Hrun.
  assert (safe (λ _ _, True) [] (TakerSwap.negotiate st) (λ tr o,
    match o with
    | Val (Some TakerSwap.CSendTakerFee, [TakerSwap.NegotiatedEv n]) =>
        ∃ m t, Ev (RecvSwapMsg SlotNegotiation t) (Ok m) ∈ tr
          ∧ n.(TakerSwap.mn_maker_payment_locktime) = nd_payment_locktime m
          ∧ n.(TakerSwap.mn_secret_hash) = nd_secret_hash m
          ∧ n.(TakerSwap.mn_maker_coin_htlc_pubkey) = Some (nd_maker_coin_htlc_pub m)
          ∧ n.(TakerSwap.mn_taker_coin_htlc_pubkey) = Some (nd_taker_coin_htlc_pub m)
    | _ => True
    end)) as Hsafe; [|by apply (safe_runs _ _ _ _ _ _ Hsafe Hrun)].
  unfold TakerSwap.negotiate, TakerSwap.negotiate_accepted, TakerSwap.negotiate_failed, h264_checked.
  walk. exists a, TakerSwap.NEGOTIATE_TIMEOUT. split_and!; [in_trace|done|done|cbn; unfold h264; f_equal..].
  all: apply take_ge; repeat match goal with
      | Hv : validate_wire_pubkey _ _ = Ok _ |- _ => apply validate_wire_pubkey_len in Hv
      end; lia.
Qed.

(** The reply of a taker, whatever it was asked. *)
Lemma taker_replies trt o m i x :
  runs (TakerSwap.negotiate st) trt o →
  Ev (BroadcastEvery (NegotiationReply m) i) x ∈ trt →
  ∃ hash mc tc, m = TakerSwap.get_my_negotiation_data st hash mc tc.
Proof.
  intros Hrun (l1 & l2 & ->)%list_elem_of_split.
  assert (safe (λ _ c, match c with
      | BroadcastEvery (NegotiationReply m) _ =>
          ∃ hash mc tc, m = TakerSwap.get_my_negotiation_data st hash mc tc
      | _ => True end) [] (TakerSwap.negotiate st) (λ _ _, True)) as Hsafe.
  { unfold TakerSwap.negotiate, TakerSwap.negotiate_accepted, TakerSwap.negotiate_failed, h264_checked.
    walk. eauto. }
  exact (safe_prefix _ _ _ _ _ _ _ Hsafe (runs_prefix _ _ _ Hrun)).
Qed.

(** What the messages say of the side that sent them. *)
Lemma hello_says :
  let r := sm.(MakerSwap.s_mutable) in
  nd_payment_locktime hello = r.(MakerSwap.m_data).(MakerSwap.d_maker_payment_lock)
  ∧ nd_secret_hash hello = MakerSwap.secret_hash sm
  ∧ nd_maker_coin_htlc_pub hello = r.(MakerSwap.m_my_maker_coin_htlc_pub)
  ∧ nd_taker_coin_htlc_pub hello = r.(MakerSwap.m_my_taker_coin_htlc_pub).
Proof. unfold hello, MakerSwap.get_my_negotiation_data. case_bool_decide as Hd; done. Qed.

Lemma reply_says hash mc tc :
  let m := TakerSwap.get_my_negotiation_data st hash mc tc in
  let r := st.(TakerSwap.ts_mutable) in
  nd_payment_locktime m = r.(TakerSwap.tm_data).(TakerSwap.td_taker_payment_lock)
  ∧ nd_maker_coin_htlc_pub m = r.(TakerSwap.tm_my_maker_coin_htlc_pub)
  ∧ nd_taker_coin_htlc_pub m = r.(TakerSwap.tm_my_taker_coin_htlc_pub).
Proof. unfold TakerSwap.get_my_negotiation_data. case_bool_decide as Hd; done. Qed.

Section agreed.
Context (trm : maker_trace) (trt : taker_trace)
  (nm : MakerSwap.TakerNegotiationData) (nt : TakerSwap.MakerNegotiationData).
Context (Hnet : delivered trm trt)
  (Hm : runs (MakerSwap.negotiate sm) trm
          (Val (Some MakerSwap.CWaitForTakerFee, [MakerSwap.NegotiatedEv nm])))
  (Ht : runs (TakerSwap.negotiate st) trt
          (Val (Some TakerSwap.CSendTakerFee, [TakerSwap.NegotiatedEv nt]))).

Lemma taker_recorded :
  let r := sm.(MakerSwap.s_mutable) in
  nt.(TakerSwap.mn_maker_payment_locktime) = r.(MakerSwap.m_data).(MakerSwap.d_maker_payment_lock)
  ∧ nt.(TakerSwap.mn_secret_hash) = MakerSwap.secret_hash sm
  ∧ TakerSwap.other_maker_coin_htlc_pub nt = r.(MakerSwap.m_my_maker_coin_htlc_pub)
  ∧ TakerSwap.other_taker_coin_htlc_pub nt = r.(MakerSwap.m_my_taker_coin_htlc_pub).
Proof.
  destruct (taker_negotiated _ _ Ht) as (m & t & Hin & Hl & Hh & Hmp & Htp).
  destruct (delivered_hello _ _ _ _ Hnet Hin) as (i & x & Hb).
  rewrite (maker_says _ _ _ _ _ Hm Hb) in *.
  unfold TakerSwap.other_maker_coin_htlc_pub, TakerSwap.other_taker_coin_htlc_pub.
  rewrite Hl, Hh, Hmp, Htp. apply hello_says.
Qed.

Lemma maker_recorded :
  let r := st.(TakerSwap.ts_mutable) in
  nm.(MakerSwap.tn_taker_payment_locktime) = r.(TakerSwap.tm_data).(TakerSwap.td_taker_payment_lock)
  ∧ MakerSwap.other_maker_coin_htlc_pub nm = r.(TakerSwap.tm_my_maker_coin_htlc_pub)
  ∧ MakerSwap.other_taker_coin_htlc_pub nm = r.(TakerSwap.tm_my_taker_coin_htlc_pub).
Proof.
  destruct (maker_negotiated _ _ Hm) as (m & t & Hin & Hl & Hmp & Htp).
  destruct (delivered_reply _ _ _ _ Hnet Hin) as (i & x & Hb).
  destruct (taker_replies _ _ _ _ _ Ht Hb) as (hash & mc & tc & ->).
  unfold MakerSwap.other_maker_coin_htlc_pub, MakerSwap.other_taker_coin_htlc_pub.
  rewrite Hl, Hmp, Htp. apply reply_says.
Qed.

(** What the negotiation leaves as it was. *)
Lemma maker_after_keeps :
  let s' := maker_after nm in
  let r := sm.(MakerSwap.s_mutable) in let r' := s'.(MakerSwap.s_mutable) in
  r'.(MakerSwap.m_my_maker_coin_htlc_pub) = r.(MakerSwap.m_my_maker_coin_htlc_pub)
  ∧ r'.(MakerSwap.m_my_taker_coin_htlc_pub) = r.(MakerSwap.m_my_taker_coin_htlc_pub)
  ∧ r'.(MakerSwap.m_data).(MakerSwap.d_maker_payment_lock)
    = r.(MakerSwap.m_data).(MakerSwap.d_maker_payment_lock)
  ∧ MakerSwap.secret_hash s' = MakerSwap.secret_hash sm
  ∧ s'.(MakerSwap.s_taker_payment_lock) = nm.(MakerSwap.tn_taker_payment_locktime)
  ∧ r'.(MakerSwap.m_other_maker_coin_htlc_pub) = MakerSwap.other_maker_coin_htlc_pub nm
  ∧ r'.(MakerSwap.m_other_taker_coin_htlc_pub) = MakerSwap.other_taker_coin_htlc_pub nm.
Proof.
  unfold maker_after. cbn [MakerSwap.apply_event]. unfold MakerSwap.apply_negotiated.
  by repeat case_match.
Qed.

Lemma taker_after_keeps :
  let s' := taker_after nt in
  let r := st.(TakerSwap.ts_mutable) in let r' := s'.(TakerSwap.ts_mutable) in
  r'.(TakerSwap.tm_my_maker_coin_htlc_pub) = r.(TakerSwap.tm_my_maker_coin_htlc_pub)
  ∧ r'.(TakerSwap.tm_my_taker_coin_htlc_pub) = r.(TakerSwap.tm_my_taker_coin_htlc_pub)
  ∧ r'.(TakerSwap.tm_data).(TakerSwap.td_taker_payment_lock)
    = r.(TakerSwap.tm_data).(TakerSwap.td_taker_payment_lock)
  ∧ r'.(TakerSwap.tm_secret_hash) = nt.(TakerSwap.mn_secret_hash)
  ∧ s'.(TakerSwap.ts_maker_payment_lock) = nt.(TakerSwap.mn_maker_payment_locktime)
  ∧ r'.(TakerSwap.tm_other_maker_coin_htlc_pub) = TakerSwap.other_maker_coin_htlc_pub nt
  ∧ r'.(TakerSwap.tm_other_taker_coin_htlc_pub) = TakerSwap.other_taker_coin_htlc_pub nt.
Proof.
  unfold taker_after. cbn [TakerSwap.apply_event]. unfold TakerSwap.apply_negotiated.
  by repeat case_match.
Qed.

End agreed.

(** C8: two sides that negotiated with each other's messages agree on both
    payments: the HTLC the maker pays to has the lock time, the keys and the
    secret hash the taker will validate it for, and the HTLC the taker pays to
    has those the maker will validate. *)
Theorem negotiation_agreement trm trt nm nt tx amount :
  delivered trm trt →
  runs (MakerSwap.negotiate sm) trm
    (Val (Some MakerSwap.CWaitForTakerFee, [MakerSwap.NegotiatedEv nm])) →
  runs (TakerSwap.negotiate st) trt
    (Val (Some TakerSwap.CSendTakerFee, [TakerSwap.NegotiatedEv nt])) →
  maker_pays_what_is_validated (MakerSwap.my_htlc (maker_after nm))
    (TakerSwapInv.maker_payment_input (taker_after nt) tx amount)
  ∧ taker_pays_what_is_validated (TakerSwap.my_htlc (taker_after nt))
      (MakerSwapInv.taker_payment_input (maker_after nm) tx).
Proof.
  intros Hnet Hm Ht.
  destruct (taker_recorded _ _ _ _ Hnet Hm Ht) as (Ht1 & Ht2 & Ht3 & Ht4).
  destruct (maker_recorded _ _ _ _ Hnet Hm Ht) as (Hm1 & Hm2 & Hm3).
  destruct (maker_after_keeps nm) as (A1 & A2 & A3 & A4 & A5 & A6 & A7).
  destruct (taker_after_keeps nt) as (B1 & B2 & B3 & B4 & B5 & B6 & B7).
  unfold maker_pays_what_is_validated, taker_pays_what_is_validated.
  cbn [MakerSwap.my_htlc TakerSwap.my_htlc TakerSwapInv.maker_payment_input
    MakerSwapInv.taker_payment_input ha_time_lock ha_my_pub ha_other_pub ha_secret_hash
    time_lock maker_pub taker_pub vp_secret_hash].
  split_and!; congruence.
Qed.

(** the dex fee the taker sends is the dex fee the maker expects, when the
    two run on the same network, trade the same coins, and the decimal amount
    the maker knows is the taker's amount. *)
Theorem fee_agreement trm trt nm nt :
  delivered trm trt →
  runs (MakerSwap.negotiate sm) trm
    (Val (Some MakerSwap.CWaitForTakerFee, [MakerSwap.NegotiatedEv nm])) →
  runs (TakerSwap.negotiate st) trt
    (Val (Some TakerSwap.CSendTakerFee, [TakerSwap.NegotiatedEv nt])) →
  sm.(MakerSwap.s_ctx).(ctx_net_cfg) = st.(TakerSwap.ts_ctx).(ctx_net_cfg) →
  sm.(MakerSwap.s_taker_coin).(sc_coin) = st.(TakerSwap.ts_taker_coin).(sc_coin) →
  sm.(MakerSwap.s_mutable).(MakerSwap.m_data).(MakerSwap.d_maker_coin)
  = st.(TakerSwap.ts_mutable).(TakerSwap.tm_data).(TakerSwap.td_maker_coin) →
  dec_to_rational sm.(MakerSwap.s_taker_amount) = st.(TakerSwap.ts_taker_amount) →
  MakerSwap.expected_dex_fee (maker_after nm) = TakerSwap.my_dex_fee (taker_after nt).
Proof.
  intros Hnet Hm Ht Hcfg Hcoin Hmc Hamt.
  destruct (maker_recorded _ _ _ _ Hnet Hm Ht) as (_ & _ & Hpub).
  destruct (maker_after_keeps nm) as (_ & _ & _ & _ & _ & _ & A).
  destruct (taker_after_keeps nt) as (_ & B & _).
  unfold MakerSwap.expected_dex_fee, TakerSwap.my_dex_fee. rewrite A, B, Hpub.
  unfold maker_after, taker_after. cbn [MakerSwap.apply_event TakerSwap.apply_event].
  unfold MakerSwap.apply_negotiated, TakerSwap.apply_negotiated.
  repeat case_match; cbn; by rewrite Hcfg, Hcoin, Hmc, Hamt.
Qed.

(** ** Two honest sides agree *)

(** An answer that lets the negotiation go on: the coins accept the contract
    addresses and the keys, the messages arrive and the maker acknowledges. *)
Definition accepting {E} (e : call_event E) : bool :=
  match e with
  | Ev c x =>
      match c return SwapResp c → bool with
      | RecvSwapMsg s _ =>
          match s return result (slot_type s) string → bool with
          | SlotNegotiated => λ x, match x with Ok b => b | Err _ => false end
          | _ => λ x, match x with Ok _ => true | Err _ => false end
          end
      | NegotiateSwapContractAddr _ _ => λ x : result (option bytes) string,
          match x with Ok _ => true | Err _ => false end
      | ValidateOtherPubkey _ _ => λ x : result unit string,
          match x with Ok _ => true | Err _ => false end
      | _ => λ _, true
      end x
  end.

(** Two swaps about to negotiate: started within a minute of each other, with
    one lock duration, lock times of that duration, keys of the width of the
    wire and a secret hash that is long enough. *)
Record honest : Prop := {
  ho_maker_start : is_u 64 sm.(MakerSwap.s_mutable).(MakerSwap.m_data).(MakerSwap.d_started_at);
  ho_taker_start : is_u 64 st.(TakerSwap.ts_mutable).(TakerSwap.tm_data).(TakerSwap.td_started_at);
  ho_clocks : Z.abs (sm.(MakerSwap.s_mutable).(MakerSwap.m_data).(MakerSwap.d_started_at)
    - st.(TakerSwap.ts_mutable).(TakerSwap.tm_data).(TakerSwap.td_started_at)) ≤ 60;
  ho_duration : sm.(MakerSwap.s_mutable).(MakerSwap.m_data).(MakerSwap.d_lock_duration)
    = st.(TakerSwap.ts_mutable).(TakerSwap.tm_data).(TakerSwap.td_lock_duration);
  ho_maker_lock : sm.(MakerSwap.s_mutable).(MakerSwap.m_data).(MakerSwap.d_maker_payment_lock)
    = u64 (sm.(MakerSwap.s_mutable).(MakerSwap.m_data).(MakerSwap.d_started_at)
           + sm.(MakerSwap.s_mutable).(MakerSwap.m_data).(MakerSwap.d_lock_duration) * 2);
  ho_taker_lock : st.(TakerSwap.ts_mutable).(TakerSwap.tm_data).(TakerSwap.td_taker_payment_lock)
    = u64 (st.(TakerSwap.ts_mutable).(TakerSwap.tm_data).(TakerSwap.td_started_at)
           + st.(TakerSwap.ts_mutable).(TakerSwap.tm_data).(TakerSwap.td_lock_duration));
  ho_maker_keys : length sm.(MakerSwap.s_mutable).(MakerSwap.m_my_maker_coin_htlc_pub) = 33%nat
    ∧ length sm.(MakerSwap.s_mutable).(MakerSwap.m_my_taker_coin_htlc_pub) = 33%nat;
  ho_taker_keys : length st.(TakerSwap.ts_mutable).(TakerSwap.tm_my_maker_coin_htlc_pub) = 33%nat
    ∧ length st.(TakerSwap.ts_mutable).(TakerSwap.tm_my_taker_coin_htlc_pub) = 33%nat;
  ho_secret_hash : (20 ≤ length (MakerSwap.secret_hash sm))%nat
}.

Lemma started_at_dif_close a b : is_u 64 a → is_u 64 b → Z.abs (a - b) ≤ 60 → started_at_dif a b ≤ 60.
Proof. intros Ha Hb Hab. apply started_at_dif_spec; [done..|]. zwrap. Qed.

Lemma hello_start :
  nd_started_at hello = sm.(MakerSwap.s_mutable).(MakerSwap.m_data).(MakerSwap.d_started_at).
Proof. unfold hello, MakerSwap.get_my_negotiation_data. by case_bool_decide. Qed.

Lemma reply_start hash mc tc :
  nd_started_at (TakerSwap.get_my_negotiation_data st hash mc tc)
  = st.(TakerSwap.ts_mutable).(TakerSwap.tm_data).(TakerSwap.td_started_at).
Proof. unfold TakerSwap.get_my_negotiation_data. by case_bool_decide. Qed.

Lemma validate_wire_pubkey_Ok b what : length b = 33%nat → validate_wire_pubkey b what = Ok ().
Proof. unfold validate_wire_pubkey, SWAP_WIRE_PUBKEY_LEN. intros. by rewrite bool_decide_true. Qed.

Lemma validate_wire_field_len_Ok b n what : (n ≤ length b)%nat → validate_wire_field_len b n what = Ok ().
Proof. unfold validate_wire_field_len. intros. by rewrite (proj2 (Nat.ltb_ge _ _)). Qed.

(** The messages of honest sides pass the checks of the other. *)
Lemma reply_passes hash mc tc :
  honest →
  let m := TakerSwap.get_my_negotiation_data st hash mc tc in
  let d := sm.(MakerSwap.s_mutable).(MakerSwap.m_data) in
  started_at_dif d.(MakerSwap.d_started_at) (nd_started_at m) ≤ 60
  ∧ nd_payment_locktime m = u64 (nd_started_at m + d.(MakerSwap.d_lock_duration))
  ∧ length (nd_maker_coin_htlc_pub m) = 33%nat ∧ length (nd_taker_coin_htlc_pub m) = 33%nat.
Proof.
  intros []. cbv zeta. destruct (reply_says hash mc tc) as (-> & -> & ->). rewrite reply_start.
  split_and!; [by apply started_at_dif_close|by rewrite ho_taker_lock0, ho_duration0|apply ho_taker_keys0..].
Qed.

Lemma hello_passes :
  honest →
  let d := st.(TakerSwap.ts_mutable).(TakerSwap.tm_data) in
  started_at_dif d.(TakerSwap.td_started_at) (nd_started_at hello) ≤ 60
  ∧ nd_payment_locktime hello = u64 (nd_started_at hello + u64 (d.(TakerSwap.td_lock_duration) * 2))
  ∧ length (nd_maker_coin_htlc_pub hello) = 33%nat ∧ length (nd_taker_coin_htlc_pub hello) = 33%nat
  ∧ (20 ≤ length (nd_secret_hash hello))%nat.
Proof.
  intros []. cbv zeta. destruct hello_says as (-> & -> & -> & ->). rewrite hello_start.
  split_and!; [|by rewrite ho_maker_lock0, ho_duration0; clear; zwrap|apply ho_maker_keys0..|done].
  apply started_at_dif_close; [done..|]. lia.
Qed.

(** The checks of a negotiation, turned around. *)
Ltac refuted :=
  exfalso; cbv zeta in *;
  repeat match goal with
  | H : _ ∧ _ |- _ => destruct H
  | H : (60 <? _) = true |- _ => apply Z.ltb_lt in H; lia
  | H : negb (_ =? _) = true |- _ => apply negb_true_iff, Z.eqb_neq in H; done
  | H : validate_wire_pubkey _ _ = Err _, L : length _ = 33%nat |- _ =>
      rewrite validate_wire_pubkey_Ok in H by exact L; discriminate H
  | H : (length _ <? 33)%nat = true |- _ => apply Nat.ltb_lt in H; lia
  | H : validate_wire_field_len _ _ _ = Err _ |- _ =>
      rewrite validate_wire_field_len_Ok in H by assumption; discriminate H
  end.

(** The maker accepts the reply of an honest taker. *)
Lemma maker_accepts trm o :
  honest → runs (MakerSwap.negotiate sm) trm o → forallb accepting trm = true →
  (∀ t m, Ev (RecvSwapMsg SlotNegotiationReply t) (Ok m) ∈ trm →
     ∃ hash mc tc, m = TakerSwap.get_my_negotiation_data st hash mc tc) →
  ∃ n, o = Val (Some MakerSwap.CWaitForTakerFee, [MakerSwap.NegotiatedEv n]).
Proof.
  intros Hh Hrun.
  assert (safe (λ _ _, True) [] (MakerSwap.negotiate sm) (λ tr o, forallb accepting tr = true →
    (∀ t m, Ev (RecvSwapMsg SlotNegotiationReply t) (Ok m) ∈ tr →
      ∃ hash mc tc, m = TakerSwap.get_my_negotiation_data st hash mc tc) →
    ∃ n, o = Val (Some MakerSwap.CWaitForTakerFee, [MakerSwap.NegotiatedEv n]))) as Hsafe;
    [|by apply (safe_runs _ _ _ _ _ _ Hsafe Hrun)].
  unfold MakerSwap.negotiate, MakerSwap.negotiate_failed, h264_checked. walk.
  all: intros Hacc Hmsg; try (cbn in Hacc; rewrite ?andb_false_r in Hacc; discriminate Hacc);
    try by eexists.
  all: destruct (Hmsg MakerSwap.NEGOTIATION_TIMEOUT a) as (hash & mc & tc & ->); [in_trace|].
  all: pose proof (reply_passes hash mc tc Hh); by refuted.
Qed.

(** The taker accepts the message of an honest maker. *)
Lemma taker_accepts trt o :
  honest → runs (TakerSwap.negotiate st) trt o → forallb accepting trt = true →
  (∀ t m, Ev (RecvSwapMsg SlotNegotiation t) (Ok m) ∈ trt → m = hello) →
  ∃ n, o = Val (Some TakerSwap.CSendTakerFee, [TakerSwap.NegotiatedEv n]).
Proof.
  intros Hh Hrun.
  assert (safe (λ _ _, True) [] (TakerSwap.negotiate st) (λ tr o, forallb accepting tr = true →
    (∀ t m, Ev (RecvSwapMsg SlotNegotiation t) (Ok m) ∈ tr → m = hello) →
    ∃ n, o = Val (Some TakerSwap.CSendTakerFee, [TakerSwap.NegotiatedEv n]))) as Hsafe;
    [|by apply (safe_runs _ _ _ _ _ _ Hsafe Hrun)].
  unfold TakerSwap.negotiate, TakerSwap.negotiate_accepted, TakerSwap.negotiate_failed, h264_checked.
  walk.
  all: intros Hacc Hmsg; try (cbn in Hacc; rewrite ?andb_false_r in Hacc; discriminate Hacc);
    try by eexists.
  all: assert (a = hello) as -> by (apply (Hmsg TakerSwap.NEGOTIATE_TIMEOUT); in_trace).
  all: try (pose proof (hello_passes Hh); by refuted).
  apply negb_true_iff in Heqb1 as ->. cbn in Hacc. discriminate Hacc.
Qed.

(** two honest sides come to an agreement: when both start within a minute
    of each other with the same lock duration, every message that arrives was
    sent by the other side, and the coins accept the keys and contract
    addresses, both negotiations succeed. *)
Theorem honest_negotiation_succeeds trm trt om ot :
  honest → delivered trm trt →
  runs (MakerSwap.negotiate sm) trm om → runs (TakerSwap.negotiate st) trt ot →
  forallb accepting trm = true → forallb accepting trt = true →
  (∃ nm, om = Val (Some MakerSwap.CWaitForTakerFee, [MakerSwap.NegotiatedEv nm]))
  ∧ (∃ nt, ot = Val (Some TakerSwap.CSendTakerFee, [TakerSwap.NegotiatedEv nt])).
Proof.
  intros Hh Hd Hm Ht Ha1 Ha2. split.
  - apply (maker_accepts trm om); [done..|].
    intros t m (i & x & Hb)%(delivered_reply _ _ _ _ Hd). by eapply taker_replies.
  - apply (taker_accepts trt ot); [done..|].
    intros t m (i & x & Hb)%(delivered_hello _ _ _ _ Hd). by eapply maker_says.
Qed.

End pair.

(** ** The properties at the two samples *)

#[local] Existing Instance World.externals.

Module PairSample.

Definition sm : MakerSwap.MakerSwap := MakerSwapSafety.Sample.negotiating.
Definition st : TakerSwap.TakerSwap := TakerSwapSafety.Sample.negotiating.

Definition reply : NegotiationDataMsg :=
  TakerSwap.get_my_negotiation_data st (nd_secret_hash (hello sm)) [] [].

(** The sample world with the other side's message delivered. *)
Definition env {E} (h : trace E) (c : SwapCall E) : SwapResp c :=
  match c return SwapResp c with
  | RecvSwapMsg s t =>
      match s return result (slot_type s) string with
      | SlotNegotiation => Ok (hello sm)
      | SlotNegotiationReply => Ok reply
      | s => World.env h (RecvSwapMsg s t)
      end
  | c => World.env h c
  end.

Definition trm : maker_trace := (exec env [] (MakerSwap.negotiate sm)).1.
Definition trt : taker_trace := (exec env [] (TakerSwap.negotiate st)).1.

Definition nm : MakerSwap.TakerNegotiationData := {|
  MakerSwap.tn_taker_payment_locktime := 1700007800;
  MakerSwap.tn_taker_pubkey := zero_bytes 33;
  MakerSwap.tn_maker_coin_swap_contract_addr := None;
  MakerSwap.tn_taker_coin_swap_contract_addr := None;
  MakerSwap.tn_maker_coin_htlc_pubkey := Some (replicate 33 (z2b 2));
  MakerSwap.tn_taker_coin_htlc_pubkey := Some (replicate 33 (z2b 2))
|}.
Definition nt : TakerSwap.MakerNegotiationData := {|
  TakerSwap.mn_maker_payment_locktime := 1700015600;
  TakerSwap.mn_maker_pubkey := zero_bytes 33;
  TakerSwap.mn_secret_hash := take 20 World.secret;
  TakerSwap.mn_maker_coin_swap_contract_addr := None;
  TakerSwap.mn_taker_coin_swap_contract_addr := None;
  TakerSwap.mn_maker_coin_htlc_pubkey := Some (replicate 33 (z2b 2));
  TakerSwap.mn_taker_coin_htlc_pubkey := Some (replicate 33 (z2b 2))
|}.

Lemma maker_runs :
  runs (MakerSwap.negotiate sm) trm
    (Val (Some MakerSwap.CWaitForTakerFee, [MakerSwap.NegotiatedEv nm])).
Proof.
  assert ((exec env [] (MakerSwap.negotiate sm)).2
    = Val (Some MakerSwap.CWaitForTakerFee, [MakerSwap.NegotiatedEv nm])) as <-
    by (vm_compute; reflexivity).
  apply exec_runs.
Qed.

Lemma taker_runs :
  runs (TakerSwap.negotiate st) trt
    (Val (Some TakerSwap.CSendTakerFee, [TakerSwap.NegotiatedEv nt])).
Proof.
  assert ((exec env [] (TakerSwap.negotiate st)).2
    = Val (Some TakerSwap.CSendTakerFee, [TakerSwap.NegotiatedEv nt])) as <-
    by (vm_compute; reflexivity).
  apply exec_runs.
Qed.

(** What was received is what was sent. *)
Lemma pair_delivered : delivered trm trt.
Proof.
  assert (omap (heard false) trt = omap (said false) trm) as E1 by (vm_compute; reflexivity).
  assert (omap (heard true) trm = omap (said true) trt) as E2 by (vm_compute; reflexivity).
  split; [rewrite E1|rewrite E2]; intros m Hm; exact Hm.
Qed.

Lemma pair_honest : honest sm st.
Proof.
  constructor.
  - apply (bool_decide_unpack _). vm_compute. reflexivity.
  - apply (bool_decide_unpack _). vm_compute. reflexivity.
  - vm_compute. congruence.
  - vm_compute. reflexivity.
  - vm_compute. reflexivity.
  - vm_compute. reflexivity.
  - split; vm_compute; reflexivity.
  - split; vm_compute; reflexivity.
  - apply Nat.leb_le. vm_compute. reflexivity.
Qed.

End PairSample.

Lemma negotiation_agreement_witness :
  maker_pays_what_is_validated
    (MakerSwap.my_htlc (maker_after PairSample.sm PairSample.nm))
    (TakerSwapInv.maker_payment_input (taker_after PairSample.st PairSample.nt)
       (identifier (World.tx 1)) (Q2Qc (3 # 1))).
Proof.
  apply (negotiation_agreement PairSample.sm PairSample.st PairSample.trm PairSample.trt
    PairSample.nm PairSample.nt (identifier (World.tx 1)) (Q2Qc (3 # 1)));
    [apply PairSample.pair_delivered|apply PairSample.maker_runs|apply PairSample.taker_runs].
Defined.

Lemma fee_agreement_witness :
  MakerSwap.expected_dex_fee (maker_after PairSample.sm PairSample.nm)
  = TakerSwap.my_dex_fee (taker_after PairSample.st PairSample.nt).
Proof.
  apply (fee_agreement PairSample.sm PairSample.st PairSample.trm PairSample.trt);
    [apply PairSample.pair_delivered|apply PairSample.maker_runs|apply PairSample.taker_runs|..].
  - reflexivity.
  - reflexivity.
  - reflexivity.
  - apply Qc_is_canon. vm_compute. reflexivity.
Defined.

Lemma honest_negotiation_succeeds_witness :
  ∃ nm, (exec PairSample.env [] (MakerSwap.negotiate PairSample.sm)).2
    = Val (Some MakerSwap.CWaitForTakerFee, [MakerSwap.NegotiatedEv nm]).
Proof.
  apply (honest_negotiation_succeeds PairSample.sm PairSample.st PairSample.trm PairSample.trt _
    (exec PairSample.env [] (TakerSwap.negotiate PairSample.st)).2);
    [apply PairSample.pair_honest|apply PairSample.pair_delivered|apply exec_runs|apply exec_runs
    |vm_compute; reflexivity|vm_compute; reflexivity].
Defined.
