(* ===== verification/CheckBalance.v ===== *)
(** * Balance checks and maximum volumes

    [mm2_main/src/lp_swap/check_balance.rs], and of [maker_swap.rs] and
    [taker_swap.rs] the two entry points that check the balance of both coins
    before a swap and the two that answer the largest volume that can be traded.
    The coin is a [BalanceCoin]: what it answers to the questions one of these
    functions asks it, each at most once ([stage] is one of the arguments the
    answers depend on and has no effect here).  The ledger of locked amounts is
    that of [LockedAmounts]. *)

From Stdlib Require Import ZArith QArith Qcanon.
From S2P Require Import Prelude MmNumber NetConfig DexFee SwapCommon LockedAmounts Effects SwapEnv SwapLoop SwapSample.
From stdpp Require Import base tactics strings list numbers.

Local Open Scope Qc_scope.

(** ** Errors *)

(** The details of a rejected fee cap are kept as their text. *)
Inductive BalanceError :=
| BalanceTransport (e : string)
| BalanceInvalidResponse (e : string)
| BalanceUnexpectedDerivationMethod (e : string)
| BalanceWalletStorageError (e : string)
| BalanceFeeCapBelowBaseFee (rejection : string)
| BalanceInternal (e : string).

Inductive TradePreimageError :=
| PreimageNotSufficientBalance (coin : string) (available required : BigDecimal)
| PreimageAmountIsTooSmall (amount threshold : BigDecimal)
| PreimageTransport (e : string)
| PreimageFeeCapBelowBaseFee (rejection : string)
| PreimageInternalError (e : string).

Inductive CheckBalanceError :=
| NotSufficientBalance (coin : string) (available required : BigDecimal)
    (locked_by_swaps : option BigDecimal)
| NotSufficientBaseCoinBalance (coin : string) (available required : BigDecimal)
    (locked_by_swaps : option BigDecimal)
| VolumeTooLow (coin : string) (volume threshold : BigDecimal)
| Transport (e : string)
| CheckFeeCapBelowBaseFee (rejection : string)
| InternalError (e : string).

Definition CheckBalanceError_from (e : BalanceError) : CheckBalanceError :=
  match e with
  | BalanceTransport t | BalanceInvalidResponse t => Transport t
  | BalanceUnexpectedDerivationMethod t => InternalError t
  | BalanceWalletStorageError t => InternalError ("Wallet storage error: " +:+ t)
  | BalanceFeeCapBelowBaseFee r => CheckFeeCapBelowBaseFee r
  | BalanceInternal i => InternalError i
  end.

Definition not_sufficient_balance (e : CheckBalanceError) : bool :=
  match e with
  | NotSufficientBalance _ _ _ _ | NotSufficientBaseCoinBalance _ _ _ _ => true
  | _ => false
  end.

Definition from_trade_preimage_error (e : TradePreimageError) (ticker : string)
    : CheckBalanceError :=
  match e with
  | PreimageNotSufficientBalance coin available required =>
      if bool_decide (coin = ticker)
      then NotSufficientBalance coin available required None
      else NotSufficientBaseCoinBalance coin available required None
  | PreimageAmountIsTooSmall amount threshold => VolumeTooLow ticker amount threshold
  | PreimageTransport t => Transport t
  | PreimageFeeCapBelowBaseFee r => CheckFeeCapBelowBaseFee r
  | PreimageInternalError i => InternalError i
  end.

Record MaxTakerVolumeLessThanDust := { mv_max_vol : MmNumber; mv_min_tx_amount : MmNumber }.

(** ** Coins *)

Inductive TradePreimageValue := Exact (amount : BigDecimal) | UpperBound (amount : BigDecimal).

Record BalanceCoin := {
  bc_coin :> FeeCoin;
  my_spendable_balance : result BigDecimal BalanceError;
  base_coin_balance : result BigDecimal BalanceError;
  get_sender_trade_fee : TradePreimageValue → result TradeFee TradePreimageError;
  get_receiver_trade_fee : result TradeFee TradePreimageError;
  get_fee_to_send_taker_fee : BigDecimal → result TradeFee TradePreimageError
}.

Record TakerFeeAdditionalInfo := { tfi_dex_fee : MmNumber; tfi_fee_to_send_dex_fee : TradeFee }.

Section checks.
Context `{Externals} (l : SwapsLedger).

Definition from_max_taker_vol_error (e : MaxTakerVolumeLessThanDust) (coin : string)
    (locked_by_swaps : BigDecimal) : CheckBalanceError :=
  NotSufficientBalance coin (mm_to_decimal e.(mv_max_vol)) (mm_to_decimal e.(mv_min_tx_amount))
    (Some locked_by_swaps).

Definition locked_for (swap_uuid : option Uuid) (coin : string) : MmNumber :=
  match swap_uuid with
  | Some u => get_locked_amount_by_other_swaps l u coin
  | None => get_locked_amount l coin
  end.

Definition check_base_coin_balance_for_swap (balance : MmNumber) (trade_fee : TradeFee)
    (swap_uuid : option Uuid) : result unit CheckBalanceError :=
  let ticker := trade_fee.(tf_coin) in
  let required := trade_fee.(tf_amount) in
  let locked := locked_for swap_uuid ticker in
  let available := balance - locked in
  if available <?q required
  then Err (NotSufficientBaseCoinBalance ticker (mm_to_decimal available)
              (mm_to_decimal required) (Some (mm_to_decimal locked)))
  else Ok ().

(** The fee of the trade with the fee of sending the dex fee added, and the dex
    fee itself. *)
Definition with_taker_fee (trade_fee : TradeFee) (taker_fee : option TakerFeeAdditionalInfo)
    : result (TradeFee * MmNumber) CheckBalanceError :=
  match taker_fee with
  | Some info =>
      let send := info.(tfi_fee_to_send_dex_fee) in
      if bool_decide (send.(tf_coin) = trade_fee.(tf_coin))
      then Ok ({| tf_coin := trade_fee.(tf_coin);
                  tf_amount := trade_fee.(tf_amount) + send.(tf_amount);
                  tf_paid_from_trading_vol := trade_fee.(tf_paid_from_trading_vol) |},
               info.(tfi_dex_fee))
      else Err (InternalError ("trade_fee " +:+ trade_fee.(tf_coin) +:+ " and fee_to_send_dex_fee "
                  +:+ send.(tf_coin) +:+ " coins are expected to be the same"))
  | None => Ok (trade_fee, 0)
  end.

Definition check_my_coin_balance_for_swap (coin : BalanceCoin) (swap_uuid : option Uuid)
    (volume : MmNumber) (trade_fee : TradeFee) (taker_fee : option TakerFeeAdditionalInfo)
    : result BigDecimal CheckBalanceError :=
  let tick := coin.(ticker) in
  let? spendable_balance := map_err CheckBalanceError_from coin.(my_spendable_balance) in
  let balance := dec_to_rational spendable_balance in
  let locked := locked_for swap_uuid tick in
  let? (trade_fee, dex_fee) := with_taker_fee trade_fee taker_fee in
  let? total_trade_fee :=
    (if bool_decide (tick = trade_fee.(tf_coin)) then Ok trade_fee.(tf_amount)
     else
       let? base_coin_balance := map_err CheckBalanceError_from coin.(base_coin_balance) in
       let? _ := check_base_coin_balance_for_swap (dec_to_rational base_coin_balance) trade_fee swap_uuid in
       Ok 0) in
  let required := volume + total_trade_fee + dex_fee in
  let available := balance - locked in
  if available <?q required
  then Err (NotSufficientBalance tick (mm_to_decimal available) (mm_to_decimal required)
              (Some (mm_to_decimal locked)))
  else Ok spendable_balance.

Definition check_other_coin_balance_for_swap (coin : BalanceCoin) (swap_uuid : option Uuid)
    (trade_fee : TradeFee) : result unit CheckBalanceError :=
  if trade_fee.(tf_paid_from_trading_vol) then Ok ()
  else
    let tick := coin.(ticker) in
    let? spendable_balance := map_err CheckBalanceError_from coin.(my_spendable_balance) in
    let balance := dec_to_rational spendable_balance in
    let locked := locked_for swap_uuid tick in
    if bool_decide (tick = trade_fee.(tf_coin)) then
      let available := balance - locked in
      let required := trade_fee.(tf_amount) in
      if available <?q required
      then Err (NotSufficientBalance tick (mm_to_decimal available) (mm_to_decimal required)
                  (Some (mm_to_decimal locked)))
      else Ok ()
    else
      let? base_coin_balance := map_err CheckBalanceError_from coin.(base_coin_balance) in
      check_base_coin_balance_for_swap (dec_to_rational base_coin_balance) trade_fee swap_uuid.

(** ** Before a swap *)

Record TakerSwapPreparedParams := {
  tp_dex_fee : MmNumber;
  tp_fee_to_send_dex_fee : TradeFee;
  tp_taker_payment_trade_fee : TradeFee;
  tp_maker_payment_spend_trade_fee : TradeFee
}.

Definition taker_params (net_cfg : NetConfig) (my_coin other_coin : BalanceCoin)
    (volume : MmNumber) : result TakerSwapPreparedParams CheckBalanceError :=
  let dex_fee := dex_fee_amount_from_taker_coin net_cfg my_coin other_coin.(ticker) volume in
  let? fee_to_send_dex_fee :=
    map_err (λ e, from_trade_preimage_error e my_coin.(ticker))
      (my_coin.(get_fee_to_send_taker_fee) (mm_to_decimal dex_fee)) in
  let? taker_payment_trade_fee :=
    map_err (λ e, from_trade_preimage_error e my_coin.(ticker))
      (my_coin.(get_sender_trade_fee) (Exact (mm_to_decimal volume))) in
  let? maker_payment_spend_trade_fee :=
    map_err (λ e, from_trade_preimage_error e other_coin.(ticker))
      other_coin.(get_receiver_trade_fee) in
  Ok {| tp_dex_fee := dex_fee;
        tp_fee_to_send_dex_fee := fee_to_send_dex_fee;
        tp_taker_payment_trade_fee := taker_payment_trade_fee;
        tp_maker_payment_spend_trade_fee := maker_payment_spend_trade_fee |}.

Definition check_balance_for_taker_swap (net_cfg : NetConfig) (my_coin other_coin : BalanceCoin)
    (volume : MmNumber) (swap_uuid : option Uuid)
    (prepared_params : option TakerSwapPreparedParams) : result unit CheckBalanceError :=
  let? params := (match prepared_params with
            | Some params => Ok params
            | None => taker_params net_cfg my_coin other_coin volume
            end) in
  let? _ := check_my_coin_balance_for_swap my_coin swap_uuid volume params.(tp_taker_payment_trade_fee)
        (Some {| tfi_dex_fee := params.(tp_dex_fee);
                 tfi_fee_to_send_dex_fee := params.(tp_fee_to_send_dex_fee) |}) in
  if negb params.(tp_maker_payment_spend_trade_fee).(tf_paid_from_trading_vol)
  then check_other_coin_balance_for_swap other_coin swap_uuid
         params.(tp_maker_payment_spend_trade_fee)
  else Ok ().

Record MakerSwapPreparedParams := {
  mp_maker_payment_trade_fee : TradeFee;
  mp_taker_payment_spend_trade_fee : TradeFee
}.

Definition maker_params (my_coin other_coin : BalanceCoin) (volume : MmNumber)
    : result MakerSwapPreparedParams CheckBalanceError :=
  let? maker_payment_trade_fee :=
    map_err (λ e, from_trade_preimage_error e my_coin.(ticker))
      (my_coin.(get_sender_trade_fee) (Exact (mm_to_decimal volume))) in
  let? taker_payment_spend_trade_fee :=
    map_err (λ e, from_trade_preimage_error e other_coin.(ticker))
      other_coin.(get_receiver_trade_fee) in
  Ok {| mp_maker_payment_trade_fee := maker_payment_trade_fee;
        mp_taker_payment_spend_trade_fee := taker_payment_spend_trade_fee |}.

Definition check_balance_for_maker_swap (my_coin other_coin : BalanceCoin)
    (volume : MmNumber) (swap_uuid : option Uuid)
    (prepared_params : option MakerSwapPreparedParams) : result BigDecimal CheckBalanceError :=
  let? params := (match prepared_params with
            | Some params => Ok params
            | None => maker_params my_coin other_coin volume
            end) in
  let? my_coin_balance := check_my_coin_balance_for_swap my_coin swap_uuid volume
                      params.(mp_maker_payment_trade_fee) None in
  let? _ := check_other_coin_balance_for_swap other_coin swap_uuid
        params.(mp_taker_payment_spend_trade_fee) in
  Ok my_coin_balance.

(** ** The largest volume *)

(** [None] is the panic of a division by a rate that is zero. *)
Definition max_taker_vol_from_available (net_cfg : NetConfig) (available : MmNumber)
    (base rel : string) (min_tx_amount : MmNumber)
    : option (result MmNumber MaxTakerVolumeLessThanDust) :=
  let fee_threshold := dex_fee_threshold net_cfg min_tx_amount in
  let dex_fee_rate := dex_fee_rate net_cfg base rel in
  threshold_coef ← mm_div (1 + dex_fee_rate) dex_fee_rate;
  max_vol ← (if fee_threshold * threshold_coef <?q available
             then mm_div available (1 + dex_fee_rate)
             else Some (available - fee_threshold));
  Some (if max_vol <=?q min_tx_amount
        then Err {| mv_max_vol := max_vol; mv_min_tx_amount := min_tx_amount |}
        else Ok max_vol).

Definition calc_max_taker_vol (net_cfg : NetConfig) (coin : BalanceCoin) (other_coin : string)
    : option (result MmNumber CheckBalanceError) :=
  let my_coin := coin.(ticker) in
  match coin.(my_spendable_balance) with
  | Err e => Some (Err (CheckBalanceError_from e))
  | Ok spendable =>
  let balance := dec_to_rational spendable in
  let locked := get_locked_amount l my_coin in
  let max_possible := balance - locked in
  match coin.(get_sender_trade_fee) (UpperBound (mm_to_decimal max_possible)) with
  | Err e => Some (Err (from_trade_preimage_error e my_coin))
  | Ok max_trade_fee =>
  let largest available :=
    map_err (λ e, from_max_taker_vol_error e my_coin (mm_to_decimal locked))
      <$> max_taker_vol_from_available net_cfg available my_coin other_coin coin.(min_tx_amount) in
  if bool_decide (my_coin = max_trade_fee.(tf_coin)) then
    let max_possible_2 := max_possible - max_trade_fee.(tf_amount) in
    let max_dex_fee := dex_fee_amount_from_taker_coin net_cfg coin other_coin max_possible_2 in
    match coin.(get_fee_to_send_taker_fee) (mm_to_decimal max_dex_fee) with
    | Err e => Some (Err (from_trade_preimage_error e my_coin))
    | Ok max_fee_to_send_taker_fee =>
        largest (max_possible_2 - max_fee_to_send_taker_fee.(tf_amount))
    end
  else largest max_possible
  end end.

(** [max_taker_vol] and [max_taker_vol_v2]: a balance that is not sufficient is
    answered with zero. *)
Definition max_taker_vol (net_cfg : NetConfig) (coin : BalanceCoin) (trade_with : option string)
    : option (result MmNumber CheckBalanceError) :=
  let other_coin := default coin.(ticker) trade_with in
  (λ r, match r with
        | Err e => if not_sufficient_balance e then Ok 0 else Err e
        | Ok v => Ok v
        end) <$> calc_max_taker_vol net_cfg coin other_coin.

Record CoinVolumeInfo := {
  cv_volume : MmNumber;
  cv_balance : MmNumber;
  cv_locked_by_swaps : MmNumber
}.

Definition calc_max_maker_vol (coin : BalanceCoin) (balance : BigDecimal)
    : result CoinVolumeInfo CheckBalanceError :=
  let tick := coin.(ticker) in
  let locked := get_locked_amount l tick in
  let available := dec_to_rational balance - locked in
  let? trade_fee := map_err (λ e, from_trade_preimage_error e tick)
                (coin.(get_sender_trade_fee) (UpperBound (mm_to_decimal available))) in
  let? volumes :=
    (if bool_decide (trade_fee.(tf_coin) = tick)
     then Ok (available - trade_fee.(tf_amount), trade_fee.(tf_amount))
     else
       let? base_coin_balance := map_err CheckBalanceError_from coin.(base_coin_balance) in
       let? _ := check_base_coin_balance_for_swap (dec_to_rational base_coin_balance) trade_fee None in
       Ok (available, 0)) in
  let '(vol, required_to_pay_fee) := volumes in
  if vol <?q coin.(min_tx_amount)
  then Err (NotSufficientBalance tick (mm_to_decimal available)
              (mm_to_decimal (coin.(min_tx_amount) + required_to_pay_fee))
              (Some (mm_to_decimal locked)))
  else Ok {| cv_volume := vol; cv_balance := dec_to_rational balance;
             cv_locked_by_swaps := locked |}.

Definition get_max_maker_vol (coin : BalanceCoin) : result CoinVolumeInfo CheckBalanceError :=
  let? balance := map_err CheckBalanceError_from coin.(my_spendable_balance) in
  calc_max_maker_vol coin balance.

End checks.

(** ** What the largest volume is *)

Section largest.
Context (net_cfg : NetConfig) (Hcfg : net_config_ok net_cfg) (base rel : string).

Lemma dex_fee_rate_pos : 0 < dex_fee_rate net_cfg base rel.
Proof. unfold dex_fee_rate. case_match; apply Hcfg. Qed.

Lemma dex_fee_amount_mono threshold v w :
  v ≤ w → dex_fee_amount net_cfg base rel v threshold ≤ dex_fee_amount net_cfg base rel w threshold.
Proof.
  pose proof dex_fee_rate_pos. unfold dex_fee_amount. intros Hvw.
  destruct (v * _ <?q _) eqn:E1, (w * _ <?q _) eqn:E2; qc.
Qed.

(** Trading more costs more. *)
Lemma cost_mono threshold v w :
  v + dex_fee_amount net_cfg base rel v threshold ≤ w + dex_fee_amount net_cfg base rel w threshold →
  v ≤ w.
Proof.
  intros Hle. destruct (Qclt_le_dec w v) as [Hlt|]; [|done].
  pose proof (dex_fee_amount_mono threshold w v (Qclt_le_weak _ _ Hlt)). exfalso. qc.
Qed.

(** The volume both branches compute spends exactly what is available. *)
Lemma max_vol_solves available threshold coef :
  mm_div (1 + dex_fee_rate net_cfg base rel) (dex_fee_rate net_cfg base rel) = Some coef →
  ∃ v, (if threshold * coef <?q available
        then mm_div available (1 + dex_fee_rate net_cfg base rel)
        else Some (available - threshold)) = Some v
    ∧ v + dex_fee_amount net_cfg base rel v threshold = available.
Proof.
  pose proof dex_fee_rate_pos as Hr. unfold dex_fee_amount.
  generalize dependent (dex_fee_rate net_cfg base rel). intros r Hr (_ & Hc & _)%mm_div_inv.
  destruct (threshold * coef <?q available) eqn:E.
  - assert (1 + r ≠ 0) as Hne by (intros ?; qc).
    exists (available / (1 + r)). rewrite mm_div_Some by done. split; [done|].
    pose proof (Qc_div_mul available (1 + r) Hne) as Hv.
    set (v := available / (1 + r)) in *. clearbody v.
    assert (threshold * coef * r < available * r) by qc.
    destruct (v * r <?q threshold) eqn:E2; [|rewrite <-Hv; ring].
    exfalso. assert (threshold * (coef * r) < v * (1 + r) * r) as Hlt by (rewrite Hv; qc).
    rewrite <-Hc in Hlt. assert (v * r < threshold) as Hvr by qc. assert (0 < 1 + r) as H1 by qc.
    pose proof (Qcmult_lt_compat_r _ _ _ H1 Hvr) as Hgt.
    replace (v * r * (1 + r)) with (v * (1 + r) * r) in Hgt by ring.
    exact (Qclt_not_le _ _ Hlt (Qclt_le_weak _ _ Hgt)).
  - exists (available - threshold). split; [done|].
    assert (available * r ≤ threshold * coef * r) by qc.
    assert (available * r ≤ threshold * (1 + r)) by by rewrite Hc, Qcmult_assoc.
    destruct ((available - threshold) * r <?q threshold) eqn:E2; [ring|].
    assert ((available - threshold) * r = threshold) as -> by qc. ring.
Qed.

(** The volume answered, and every volume it is compared with. *)
Lemma max_taker_vol_cases available min_tx :
  let fee v := dex_fee_amount net_cfg base rel v (dex_fee_threshold net_cfg min_tx) in
  ∃ v, v + fee v = available
    ∧ max_taker_vol_from_available net_cfg available base rel min_tx
      = Some (if v <=?q min_tx then Err {| mv_max_vol := v; mv_min_tx_amount := min_tx |} else Ok v).
Proof.
  intros fee. unfold max_taker_vol_from_available. pose proof dex_fee_rate_pos as Hr.
  rewrite (mm_div_Some _ _ (Qc_pos_neq _ Hr)). cbn.
  destruct (max_vol_solves available (dex_fee_threshold net_cfg min_tx) _
    (mm_div_Some _ _ (Qc_pos_neq _ Hr))) as (v & -> & Hv). by exists v.
Qed.

End largest.

(** C30: the largest taker volume is exact. It and its dex fee together are what
    is available, to the last digit; no larger volume is affordable; and the
    answer that the balance is below the minimum is given only when every
    affordable volume is. No supported network makes the computation divide by
    zero. *)
Theorem max_taker_vol_exact net_cfg available base rel min_tx :
  net_config_ok net_cfg →
  let fee v := dex_fee_amount net_cfg base rel v (dex_fee_threshold net_cfg min_tx) in
  match max_taker_vol_from_available net_cfg available base rel min_tx with
  | None => False
  | Some (Ok v) => v + fee v = available ∧ min_tx < v ∧ ∀ w, w + fee w ≤ available → w ≤ v
  | Some (Err e) => ∀ w, w + fee w ≤ available → w ≤ min_tx
  end.
Proof.
  intros Hcfg fee.
  destruct (max_taker_vol_cases net_cfg Hcfg base rel available min_tx) as (v & Hv & ->). fold fee in Hv.
  assert (∀ w, w + fee w ≤ available → w ≤ v) as Hmax.
  { intros w. rewrite <-Hv. apply (cost_mono net_cfg Hcfg base rel). }
  destruct (v <=?q min_tx) eqn:E; [|split_and!; [done|qc|done]].
  intros w Hw%Hmax. qc.
Qed.

Lemma max_taker_vol_exact_witness :
  ∃ v, max_taker_vol_from_available Netid6133 (Q2Qc (102 # 1)) "BTC" "LTC" (Q2Qc (1 # 1000)) = Some (Ok v)
    ∧ v + dex_fee_amount Netid6133 "BTC" "LTC" v (dex_fee_threshold Netid6133 (Q2Qc (1 # 1000)))
      = Q2Qc (102 # 1).
Proof.
  pose proof (max_taker_vol_exact Netid6133 (Q2Qc (102 # 1)) "BTC" "LTC" (Q2Qc (1 # 1000)) Netid6133_ok) as Hm.
  assert (∃ v, max_taker_vol_from_available Netid6133 (Q2Qc (102 # 1)) "BTC" "LTC" (Q2Qc (1 # 1000))
    = Some (Ok v)) as [v Hv] by (eexists; vm_compute; reflexivity).
  rewrite Hv in Hm. exists v. split; [exact Hv|apply Hm].
Defined.

(** ** The largest volume can be traded *)

(** What the computation of the largest volume relies on: a fee is not negative,
    smaller volumes have no larger fees, and both fees are paid in one coin. *)
Record fees_monotone `{Externals} (coin : BalanceCoin) : Prop := {
  fm_sender_nonneg v f : coin.(get_sender_trade_fee) v = Ok f → 0 ≤ f.(tf_amount);
  fm_send_nonneg a f : coin.(get_fee_to_send_taker_fee) a = Ok f → 0 ≤ f.(tf_amount);
  fm_sender x y fy :
    coin.(min_tx_amount) ≤ x → x ≤ y →
    coin.(get_sender_trade_fee) (UpperBound (mm_to_decimal y)) = Ok fy →
    ∃ fx, coin.(get_sender_trade_fee) (Exact (mm_to_decimal x)) = Ok fx
      ∧ fx.(tf_coin) = fy.(tf_coin) ∧ fx.(tf_amount) ≤ fy.(tf_amount);
  fm_send x y fy :
    coin.(min_tx_amount) ≤ x → x ≤ y →
    coin.(get_fee_to_send_taker_fee) (mm_to_decimal y) = Ok fy →
    ∃ fx, coin.(get_fee_to_send_taker_fee) (mm_to_decimal x) = Ok fx
      ∧ fx.(tf_coin) = fy.(tf_coin) ∧ fx.(tf_amount) ≤ fy.(tf_amount);
  fm_one_coin v a f g :
    coin.(get_sender_trade_fee) v = Ok f → coin.(get_fee_to_send_taker_fee) a = Ok g →
    f.(tf_coin) = g.(tf_coin)
}.

Section tradable.
Context `{Externals} (l : SwapsLedger) (net_cfg : NetConfig) (Hcfg : net_config_ok net_cfg).
Context (coin : BalanceCoin) (Hmono : fees_monotone coin) (Hmin : 0 ≤ coin.(min_tx_amount)).

(** What is known of a volume the computation answered, when the fees are paid
    in the coin itself. *)
Lemma calc_max_taker_vol_Ok other v spendable fmax :
  coin.(my_spendable_balance) = Ok spendable →
  coin.(get_sender_trade_fee) (UpperBound (mm_to_decimal
    (dec_to_rational spendable - get_locked_amount l coin.(ticker)))) = Ok fmax →
  fmax.(tf_coin) = coin.(ticker) →
  calc_max_taker_vol l net_cfg coin other = Some (Ok v) →
  let dex_fee := dex_fee_amount_from_taker_coin net_cfg coin other in
  let possible := dec_to_rational spendable - get_locked_amount l coin.(ticker) in
  coin.(min_tx_amount) < v ∧
  ∃ smax, coin.(get_fee_to_send_taker_fee) (mm_to_decimal (dex_fee (possible - fmax.(tf_amount))))
            = Ok smax
    ∧ v + dex_fee v = possible - fmax.(tf_amount) - smax.(tf_amount).
Proof.
  intros Hb Hf Hcoin. unfold calc_max_taker_vol. rewrite Hb, Hf.
  rewrite bool_decide_true by done. cbv zeta.
  destruct (get_fee_to_send_taker_fee coin _) as [smax|]; [|done].
  set (avail := _ - tf_amount smax). intros Hv.
  destruct (max_taker_vol_cases net_cfg Hcfg coin.(ticker) other avail coin.(min_tx_amount))
    as (w & Hw & Ew).
  rewrite Ew in Hv. destruct (w <=?q _) eqn:E; [done|]. injection Hv as ->.
  split; [qc|]. by exists smax.
Qed.

(** The same volume passes the check of the taker's own coin. *)
Lemma max_taker_vol_affordable other v spendable fmax :
  coin.(my_spendable_balance) = Ok spendable →
  coin.(get_sender_trade_fee) (UpperBound (mm_to_decimal
    (dec_to_rational spendable - get_locked_amount l coin.(ticker)))) = Ok fmax →
  fmax.(tf_coin) = coin.(ticker) →
  calc_max_taker_vol l net_cfg coin other = Some (Ok v) →
  ∃ f send, coin.(get_sender_trade_fee) (Exact (mm_to_decimal v)) = Ok f
    ∧ let dex_fee := dex_fee_amount_from_taker_coin net_cfg coin other v in
      coin.(get_fee_to_send_taker_fee) (mm_to_decimal dex_fee) = Ok send
    ∧ check_my_coin_balance_for_swap l coin None v f
        (Some {| tfi_dex_fee := dex_fee; tfi_fee_to_send_dex_fee := send |}) = Ok spendable.
Proof.
  intros Hb Hf Hcoin Hv.
  destruct (calc_max_taker_vol_Ok other v spendable fmax Hb Hf Hcoin Hv) as (Hlt & smax & Hs & Hsum).
  pose proof (fm_sender_nonneg _ Hmono _ _ Hf) as Hf0. pose proof (fm_send_nonneg _ Hmono _ _ Hs) as Hs0.
  pose proof (dex_fee_amount_ge_min net_cfg coin other v) as Hfee.
  set (dex_fee := dex_fee_amount_from_taker_coin net_cfg coin other) in *.
  set (possible := dec_to_rational spendable - get_locked_amount l coin.(ticker)) in *.
  destruct (fm_sender _ Hmono v possible fmax) as (f & Ef & Cf & Lf); [qc|qc|done|].
  assert (dex_fee v ≤ dex_fee (possible - fmax.(tf_amount))) as Hmon
    by (apply (dex_fee_amount_mono net_cfg Hcfg); qc).
  destruct (fm_send _ Hmono (dex_fee v) _ smax Hfee Hmon Hs) as (send & Es & Cs & Ls).
  exists f, send. split_and!; [done..|].
  unfold check_my_coin_balance_for_swap, with_taker_fee. rewrite Hb.
  cbn [map_err tfi_fee_to_send_dex_fee tfi_dex_fee].
  rewrite bool_decide_true by (symmetry; exact (fm_one_coin _ Hmono _ _ _ _ Ef Es)).
  cbn. rewrite bool_decide_true by congruence. cbn.
  fold possible. replace (possible <?q _) with false; [done|]. symmetry. qc.
Qed.
End tradable.

(** the largest taker volume the node reports can be traded: when the coin
    pays its own fees, the check made at the start of a swap over that volume
    never refuses it on the taker's own coin, whatever other swaps hold locked.
    What the check answers is what it answers for the coin that is received. *)
Theorem max_taker_vol_tradable `{Externals} l net_cfg coin other v spendable fmax fr :
  net_config_ok net_cfg → fees_monotone coin → 0 ≤ coin.(min_tx_amount) →
  coin.(my_spendable_balance) = Ok spendable →
  coin.(get_sender_trade_fee) (UpperBound (mm_to_decimal
    (dec_to_rational spendable - get_locked_amount l coin.(ticker)))) = Ok fmax →
  fmax.(tf_coin) = coin.(ticker) →
  other.(get_receiver_trade_fee) = Ok fr →
  calc_max_taker_vol l net_cfg coin other.(ticker) = Some (Ok v) →
  check_balance_for_taker_swap l net_cfg coin other v None None
  = if negb fr.(tf_paid_from_trading_vol) then check_other_coin_balance_for_swap l other None fr
    else Ok ().
Proof.
  intros Hcfg Hmono Hmin Hb Hf Hcoin Hr Hv.
  destruct (max_taker_vol_affordable l net_cfg Hcfg coin Hmono Hmin other.(ticker) v spendable fmax
    Hb Hf Hcoin Hv) as (f & send & Ef & Es & Hc).
  unfold check_balance_for_taker_swap, taker_params. rewrite Es, Ef, Hr. cbn.
  by rewrite Hc.
Qed.

Lemma check_base_coin_mono `{Externals} l balance uuid f g :
  f.(tf_coin) = g.(tf_coin) → f.(tf_amount) ≤ g.(tf_amount) →
  check_base_coin_balance_for_swap l balance g uuid = Ok () →
  check_base_coin_balance_for_swap l balance f uuid = Ok ().
Proof.
  unfold check_base_coin_balance_for_swap. intros -> Hle.
  destruct (_ <?q g.(tf_amount)) eqn:E1; [done|].
  destruct (_ <?q f.(tf_amount)) eqn:E2; [exfalso; qc|done].
Qed.

(** What is known of a volume the maker's computation answered. *)
Lemma calc_max_maker_vol_Ok `{Externals} l coin spendable info :
  calc_max_maker_vol l coin spendable = Ok info →
  let available := dec_to_rational spendable - get_locked_amount l coin.(ticker) in
  coin.(min_tx_amount) ≤ info.(cv_volume)
  ∧ ∃ fmax, coin.(get_sender_trade_fee) (UpperBound (mm_to_decimal available)) = Ok fmax
    ∧ if bool_decide (fmax.(tf_coin) = coin.(ticker))
      then info.(cv_volume) = available - fmax.(tf_amount)
      else info.(cv_volume) = available ∧
        ∃ base, coin.(base_coin_balance) = Ok base
          ∧ check_base_coin_balance_for_swap l (dec_to_rational base) fmax None = Ok ().
Proof.
  unfold calc_max_maker_vol. cbv zeta.
  destruct (get_sender_trade_fee coin _) as [fmax|] eqn:Ef; [cbn|done].
  case_bool_decide.
  - destruct (_ <?q _) eqn:E; [done|]. intros [= <-]. cbn.
    split; [qc|]. exists fmax. split; [done|]. by rewrite bool_decide_true.
  - destruct (base_coin_balance coin) as [base|] eqn:Eb; [cbn|done].
    destruct (check_base_coin_balance_for_swap l _ _ _) as [[]|] eqn:Ec; [|done].
    destruct (_ <?q _) eqn:E; [done|]. intros [= <-]. cbn.
    split; [qc|]. exists fmax. split; [done|]. rewrite bool_decide_false by done. eauto.
Qed.

Lemma max_maker_vol_affordable `{Externals} l coin spendable info :
  fees_monotone coin →
  coin.(my_spendable_balance) = Ok spendable →
  calc_max_maker_vol l coin spendable = Ok info →
  ∃ f, coin.(get_sender_trade_fee) (Exact (mm_to_decimal info.(cv_volume))) = Ok f
    ∧ check_my_coin_balance_for_swap l coin None info.(cv_volume) f None = Ok spendable.
Proof.
  intros Hmono Hb Hv. destruct (calc_max_maker_vol_Ok _ _ _ _ Hv) as (Hmin & fmax & Ef & Hcase).
  pose proof (fm_sender_nonneg _ Hmono _ _ Ef) as Hpos.
  set (available := dec_to_rational spendable - _) in *.
  destruct (fm_sender _ Hmono info.(cv_volume) available fmax) as (f & E & C & L); [done| |done|].
  { case_bool_decide; [rewrite Hcase; qc|]. destruct Hcase as [-> _]. qc. }
  exists f. split; [done|].
  unfold check_my_coin_balance_for_swap, with_taker_fee. rewrite Hb. cbn. fold available.
  case_bool_decide as Hown.
  - rewrite bool_decide_true by congruence. rewrite Hcase.
    replace (_ <?q _) with false; [done|]. symmetry. qc.
  - rewrite bool_decide_false by congruence. destruct Hcase as (-> & base & -> & Hc). cbn.
    rewrite (check_base_coin_mono _ _ _ _ _ C L Hc).
    replace (_ <?q _) with false; [done|]. symmetry. qc.
Qed.

(** the largest maker volume the node reports can be traded, whether the
    coin pays its own fees or another coin does: the check made at the start of
    a swap over that volume never refuses it on the maker's own coin. *)
Theorem max_maker_vol_tradable `{Externals} l coin other info spendable fr :
  fees_monotone coin →
  coin.(my_spendable_balance) = Ok spendable →
  other.(get_receiver_trade_fee) = Ok fr →
  get_max_maker_vol l coin = Ok info →
  check_balance_for_maker_swap l coin other info.(cv_volume) None None
  = match check_other_coin_balance_for_swap l other None fr with
    | Ok _ => Ok spendable
    | Err e => Err e
    end.
Proof.
  intros Hmono Hb Hr. unfold get_max_maker_vol. rewrite Hb. cbn. intros Hv.
  destruct (max_maker_vol_affordable l coin spendable info Hmono Hb Hv) as (f & Ef & Hc).
  unfold check_balance_for_maker_swap, maker_params. rewrite Ef, Hr. cbn. by rewrite Hc.
Qed.

(** A coin that pays its own fees, at a flat rate, and holds ten units. *)
Module BalanceSample.
#[local] Instance externals : Externals := World.externals.

Definition coin (tick : string) : BalanceCoin := {|
  bc_coin := utxo_standard_coin tick (Q2Qc (1 # 1000));
  my_spendable_balance := Ok {| int_val := 10; scale := 0 |};
  base_coin_balance := Ok {| int_val := 10; scale := 0 |};
  get_sender_trade_fee _ := Ok (World.fee tick);
  get_receiver_trade_fee := Ok (World.fee tick);
  get_fee_to_send_taker_fee _ := Ok (World.fee tick)
|}.
Definition ledger : SwapsLedger := {| running_swaps := []; locked_amounts_v2 := ∅ |}.

Lemma coin_fees tick : fees_monotone (coin tick).
Proof.
  assert (0 ≤ (World.fee tick).(tf_amount)) by (vm_compute; discriminate).
  split; cbn; intros; simplify_eq; eauto using Qcle_refl.
Qed.
End BalanceSample.

Lemma max_taker_vol_tradable_witness :
  ∃ v, calc_max_taker_vol (H := World.externals) BalanceSample.ledger Netid6133
         (BalanceSample.coin "BTC") "LTC" = Some (Ok v)
    ∧ check_balance_for_taker_swap (H := World.externals) BalanceSample.ledger Netid6133
        (BalanceSample.coin "BTC") (BalanceSample.coin "LTC") v None None = Ok ().
Proof.
  assert (∃ v, calc_max_taker_vol (H := World.externals) BalanceSample.ledger Netid6133
    (BalanceSample.coin "BTC") "LTC" = Some (Ok v)) as [v Hv] by (eexists; vm_compute; reflexivity).
  exists v. split; [exact Hv|].
  rewrite (max_taker_vol_tradable (H := World.externals) BalanceSample.ledger Netid6133
    (BalanceSample.coin "BTC") (BalanceSample.coin "LTC") v {| int_val := 10; scale := 0 |}
    (World.fee "BTC") (World.fee "LTC") Netid6133_ok (BalanceSample.coin_fees "BTC")).
  - vm_compute. reflexivity.
  - vm_compute. discriminate.
  - reflexivity.
  - reflexivity.
  - reflexivity.
  - reflexivity.
  - exact Hv.
Defined.

Lemma max_maker_vol_tradable_witness :
  ∃ info, get_max_maker_vol (H := World.externals) BalanceSample.ledger (BalanceSample.coin "BTC") = Ok info
    ∧ check_balance_for_maker_swap (H := World.externals) BalanceSample.ledger
        (BalanceSample.coin "BTC") (BalanceSample.coin "LTC") info.(cv_volume) None None
      = Ok {| int_val := 10; scale := 0 |}.
Proof.
  eexists. split; [reflexivity|].
  rewrite (max_maker_vol_tradable (H := World.externals) BalanceSample.ledger (BalanceSample.coin "BTC")
    (BalanceSample.coin "LTC") _ {| int_val := 10; scale := 0 |} (World.fee "LTC")
    (BalanceSample.coin_fees "BTC") eq_refl eq_refl).
  - vm_compute. reflexivity.
  - reflexivity.
Defined.
