(* ===== verification/Admission.v ===== *)
(** * Admission of a swap

    The composition of the balance check ([CheckBalance]), the handlers that ask
    for it at the start of a swap ([TakerSwap], [MakerSwap]) and the registry of
    running swaps ([LockedAmounts]): a swap that was admitted fits, together
    with everything the other swaps hold locked, into the balance the check
    read. *)

From Stdlib Require Import ZArith QArith Qcanon.
From S2P Require Import Prelude MmNumber NetConfig DexFee SwapCommon LockedAmounts Effects SwapEnv SwapLoop SwapSample.
From S2P Require Import MakerSwap MakerSwapInv TakerSwap TakerSwapInv CheckBalance.
From stdpp Require Import base tactics strings list numbers.
From coqutil Require Import Datatypes.RecordSettersUsingExistingGetters.

Local Open Scope Qc_scope.

(** A fee that a swap's record keeps without rounding it up. *)
Definition kept_exactly `{Externals} (f : TradeFee) : Prop :=
  dec_to_rational (mm_to_decimal f.(tf_amount)) ≤ f.(tf_amount).

(** A fee that does not touch the balance of a coin. *)
Definition spares (coin : string) (f : TradeFee) : Prop :=
  f.(tf_paid_from_trading_vol) = true ∨ f.(tf_coin) ≠ coin.

Section fee_parts.
Context `{Externals}.

Lemma fee_part_spares coin f :
  spares coin f → fee_part coin (Some (TradeFee_from_saved (SavedTradeFee_from f))) = 0.
Proof.
  unfold fee_part, spares. cbn. intros [->|Hne]; [by rewrite andb_false_r|].
  by rewrite bool_decide_false.
Qed.

Lemma fee_part_le coin f :
  kept_exactly f → 0 ≤ f.(tf_amount) →
  fee_part coin (Some (TradeFee_from_saved (SavedTradeFee_from f))) ≤ f.(tf_amount).
Proof. unfold fee_part, kept_exactly. cbn. intros. by destruct (_ && _). Qed.

(** What the check of the own coin guarantees. *)
Lemma check_my_coin_Ok l coin uuid volume f info b :
  check_my_coin_balance_for_swap l coin (Some uuid) volume f info = Ok b →
  coin.(my_spendable_balance) = Ok b ∧
  ∃ f' dex_fee, with_taker_fee f info = Ok (f', dex_fee)
    ∧ volume + (if bool_decide (coin.(ticker) = f'.(tf_coin)) then f'.(tf_amount) else 0) + dex_fee
      ≤ dec_to_rational b - get_locked_amount_by_other_swaps l uuid coin.(ticker).
Proof.
  unfold check_my_coin_balance_for_swap. destruct (my_spendable_balance coin) as [sp|]; [cbn|done].
  destruct (with_taker_fee f info) as [[f' dex_fee]|]; [|done]. intros Hc.
  case_bool_decide as Hcoin.
  - destruct (_ <?q _) eqn:E; [done|]. injection Hc as ->. split; [done|].
    exists f', dex_fee. split; [done|]. rewrite bool_decide_true by done. qc.
  - destruct (base_coin_balance coin) as [base|]; [cbn in Hc|done].
    destruct (check_base_coin_balance_for_swap l _ _ _); [|done].
    destruct (_ <?q _) eqn:E; [done|]. injection Hc as ->. split; [done|].
    exists f', dex_fee. split; [done|]. rewrite bool_decide_false by done. qc.
Qed.
End fee_parts.

(** ** The taker *)

Section taker.
Context `{Externals}.

(** A swap that starts was admitted: its record keeps the fees the balance was
    checked with. *)
Definition taker_admitted (s : TakerSwap) (h : trace TakerSwapEvent) (d : TakerSwapData) : Prop :=
  ∃ send fee spend pub,
    Ev (CheckTakerBalance s.(ts_taker_amount) (total_spend_amount (start_dex_fee s pub)) send fee spend)
       (Ok ()) ∈ h
    ∧ d.(td_taker_coin_htlc_pubkey) = Some pub
    ∧ d.(td_maker_coin) = s.(ts_maker_coin).(ticker)
    ∧ d.(td_fee_to_send_taker_fee) = Some (SavedTradeFee_from send)
    ∧ d.(td_taker_payment_trade_fee) = Some (SavedTradeFee_from fee)
    ∧ d.(td_maker_payment_spend_trade_fee) = Some (SavedTradeFee_from spend).

Lemma taker_start_admitted s h :
  safe (λ _ _, True) h (TakerSwap.start s)
    (λ h' o, match o with Val (_, [TakerSwap.Started d]) => taker_admitted s h' d | _ => True end).
Proof.
  unfold TakerSwap.start, start_funded, TakerSwap.refuse_if_own_payment_unwatchable,
    TakerSwap.start_failed, now_secs.
  walk. unfold taker_admitted. do 4 eexists. split_and!; [|reflexivity..].
  rewrite !elem_of_app, !list_elem_of_singleton. subst x2; destruct a5. tauto.
Qed.

(** What a fresh swap locks once [Started d] is applied. *)
Lemma taker_started_locks p d :
  let s := TakerSwapInv.started_as p (TakerSwapInv.new_swap p) in
  let taker := (TakerSwapInv.p_taker_coin p).(ticker) in
  TakerSwap.locked_amount (TakerSwap.apply_started s d) = [
    {| la_coin := taker;
       la_amount := dex_fee_amount_from_taker_coin (TakerSwapInv.p_ctx p).(ctx_net_cfg)
                      (TakerSwapInv.p_taker_coin p) d.(td_maker_coin) (TakerSwapInv.p_taker_amount p);
       la_trade_fee := TradeFee_from_saved <$> d.(td_fee_to_send_taker_fee) |};
    {| la_coin := taker; la_amount := TakerSwapInv.p_taker_amount p;
       la_trade_fee := TradeFee_from_saved <$> d.(td_taker_payment_trade_fee) |};
    {| la_coin := (TakerSwapInv.p_maker_coin p).(ticker); la_amount := 0;
       la_trade_fee := TradeFee_from_saved <$> d.(td_maker_payment_spend_trade_fee) |}].
Proof. unfold TakerSwap.apply_started. by repeat case_match. Qed.

(** The taker's side of the ledger: the amounts add up to at most what was
    checked. *)
Lemma taker_locks_at_most coin dex_fee volume send fee spend :
  kept_exactly send → kept_exactly fee → 0 ≤ send.(tf_amount) → 0 ≤ fee.(tf_amount) →
  send.(tf_coin) = fee.(tf_coin) →
  ∀ maker,
  foldl (add_v1 coin) 0 [
    {| la_coin := coin; la_amount := dex_fee;
       la_trade_fee := Some (TradeFee_from_saved (SavedTradeFee_from send)) |};
    {| la_coin := coin; la_amount := volume;
       la_trade_fee := Some (TradeFee_from_saved (SavedTradeFee_from fee)) |};
    {| la_coin := maker; la_amount := 0;
       la_trade_fee := Some (TradeFee_from_saved (SavedTradeFee_from spend)) |}]
  ≤ volume + (if bool_decide (coin = fee.(tf_coin)) then fee.(tf_amount) + send.(tf_amount) else 0)
    + dex_fee + fee_part coin (Some (TradeFee_from_saved (SavedTradeFee_from spend))).
Proof.
  intros Hs Hf Hs0 Hf0 Hc maker. cbn [foldl]. unfold add_v1. cbn [la_coin la_amount la_trade_fee].
  rewrite !(bool_decide_true (coin = coin)) by done.
  set (extra := fee_part coin (Some (TradeFee_from_saved (SavedTradeFee_from spend)))). clearbody extra.
  pose proof (fee_part_le coin send Hs Hs0). pose proof (fee_part_le coin fee Hf Hf0).
  destruct (bool_decide (maker = coin)); (case_bool_decide as Hown; [qc|]);
    rewrite !fee_part_spares by (right; congruence); qc.
Qed.
End taker.

(** The balance check a run was answered with is the node's own, over the
    registry [l] and the coins as they answer. *)
Definition checked_by_node `{Externals} (l : SwapsLedger) (net_cfg : NetConfig) (coin other : BalanceCoin)
    (uuid : Uuid) (tr : trace TakerSwapEvent) : Prop :=
  ∀ volume dex_fee send fee spend,
    Ev (CheckTakerBalance volume dex_fee send fee spend) (Ok ()) ∈ tr →
    check_balance_for_taker_swap l net_cfg coin other volume (Some uuid)
      (Some {| tp_dex_fee := dex_fee; tp_fee_to_send_dex_fee := send;
               tp_taker_payment_trade_fee := fee; tp_maker_payment_spend_trade_fee := spend |}) = Ok ().

(** The fees of the taker's coin are not negative, and the record keeps them
    without rounding them up. *)
Definition fees_kept `{Externals} (tr : trace TakerSwapEvent) : Prop :=
  ∀ volume dex_fee send fee spend x,
    Ev (CheckTakerBalance volume dex_fee send fee spend) x ∈ tr →
    kept_exactly send ∧ kept_exactly fee ∧ 0 ≤ send.(tf_amount) ∧ 0 ≤ fee.(tf_amount).

(** What a swap locks of the taker's coin and the check did not count: the dex fee
    where the network waives it for the key, and the fee of spending the maker's
    payment where it is paid in the taker's coin. *)
Definition uncounted `{Externals} (net_cfg : NetConfig) (coin : BalanceCoin) (maker : string) (volume : MmNumber)
    (d : TakerSwapData) : MmNumber :=
  (if waived coin net_cfg (default [] d.(td_taker_coin_htlc_pubkey))
   then dex_fee_amount_from_taker_coin net_cfg coin maker volume else 0)
  + fee_part coin.(ticker) (TradeFee_from_saved <$> d.(td_maker_payment_spend_trade_fee)).

(** C31: what an admitted taker swap locks is covered, up to what the check does not
    count.  When the swap's first step ends with [Started], and the balance check it
    was answered with is the node's own, what the swap locks from then on and what
    all the other swaps hold locked together exceed the balance of the taker's coin
    that the check read by at most the dex fee that is waived for the key, if it is,
    and the fee of spending the maker's payment, if it is paid in the taker's coin.
    The fees of the taker's coin are kept by the record without being rounded up, and
    no reservation of the second protocol has the id of the swap. *)
Theorem taker_admission_fits `{Externals} p l coin other b tr d :
  let s := TakerSwapInv.started_as p (TakerSwapInv.new_swap p) in
  let net_cfg := (TakerSwapInv.p_ctx p).(ctx_net_cfg) in
  let uuid := TakerSwapInv.p_uuid p in
  runs (TakerSwap.start s) tr (Val (Some TakerSwap.CNegotiate, [TakerSwap.Started d])) →
  coin.(bc_coin) = TakerSwapInv.p_taker_coin p →
  coin.(my_spendable_balance) = Ok b →
  checked_by_node l net_cfg coin other uuid tr → fees_kept tr →
  Forall (λ i, i.(swap_uuid) ≠ uuid) (default [] (l.(locked_amounts_v2) !! coin.(ticker))) →
  get_locked_amount (register_running_swap l uuid (TakerSwap.locked_amount (TakerSwap.apply_started s d)))
    coin.(ticker)
  ≤ dec_to_rational b
    + uncounted net_cfg coin (TakerSwapInv.p_maker_coin p).(ticker) (TakerSwapInv.p_taker_amount p) d.
Proof.
  intros s net_cfg uuid Hruns Hcoin Hb Hnode Hkept Hv2.
  pose proof (safe_runs _ [] _ _ _ _ (taker_start_admitted s []) Hruns)
    as (send & fee & spend & pub & Hin & Hpub & Hmk & Hsend & Hfee & Hspend).
  pose proof (Hnode _ _ _ _ _ Hin) as Hok. destruct (Hkept _ _ _ _ _ _ Hin) as (Ks & Kf & Ps & Pf).
  rewrite register_locked by done. subst s. unfold uncounted.
  rewrite taker_started_locks, Hmk, Hsend, Hfee, Hspend, Hpub, <-Hcoin. cbn [default from_option id fmap option_fmap option_map].
  unfold check_balance_for_taker_swap in Hok. cbn in Hok.
  destruct (check_my_coin_balance_for_swap l coin _ _ _ _) as [b'|] eqn:Hmy; [|done].
  apply check_my_coin_Ok in Hmy as (Hb' & f' & dex_fee & Hf' & Hle).
  assert (b' = b) as -> by congruence.
  unfold with_taker_fee in Hf'. cbn in Hf'.
  destruct (decide (send.(tf_coin) = fee.(tf_coin))) as [Hsame|Hsame];
    [rewrite bool_decide_true in Hf' by done|by rewrite bool_decide_false in Hf'].
  injection Hf' as <- <-.
  unfold start_dex_fee in Hle. cbn in Hle.
  rewrite compute_dex_fee_total in Hle. fold net_cfg in Hle. rewrite <-Hcoin in Hle.
  eapply Qcle_trans; [apply Qcplus_le_compat; [apply Qcle_refl|]|].
  - apply (taker_locks_at_most coin.(ticker)); done.
  - cbn -[fee_part]. unfold RecordSettersUsingExistingGetters.const in Hle. fold net_cfg.
    set (extra := fee_part _ _). clearbody extra. set (dex := dex_fee_amount_from_taker_coin _ _ _ _) in *. clearbody dex.
    match goal with |- context [if bool_decide ?c then ?x else 0] => set (fees := if bool_decide c then x else 0) in * end.
    clearbody fees. destruct (waived _ _ _); qc.
Qed.

(** A taker that holds forty-one units pays forty of them, and another swap
    holds a tenth of a unit locked. *)
Module AdmissionSample.

#[local] Instance externals : Externals := {|
  dhash160 := take 20;
  sha256 := take 32;
  mm_to_decimal q := {| int_val := (Qnum q * 10 ^ 8 / Z.pos (Qden q))%Z; scale := 8 |}
|}.

Definition params : TakerSwapInv.SwapParams := {|
  TakerSwapInv.p_ctx := World.ctx;
  TakerSwapInv.p_maker := replicate 32 (z2b 7);
  TakerSwapInv.p_maker_amount := Q2Qc (3 # 1);
  TakerSwapInv.p_taker_amount := Q2Qc (40 # 1);
  TakerSwapInv.p_uuid := 77;
  TakerSwapInv.p_my_order_uuid := None;
  TakerSwapInv.p_conf_settings := World.conf_settings;
  TakerSwapInv.p_maker_coin := World.coin "LTC";
  TakerSwapInv.p_taker_coin := World.coin "KMD";
  TakerSwapInv.p_payment_locktime := 7800;
  TakerSwapInv.p_p2p_privkey := None
|}.

Definition coin (tick : string) : BalanceCoin := {|
  bc_coin := World.coin tick;
  my_spendable_balance := Ok {| int_val := 41; scale := 0 |};
  base_coin_balance := Ok {| int_val := 41; scale := 0 |};
  get_sender_trade_fee _ := Ok (World.fee tick);
  get_receiver_trade_fee := Ok (World.fee tick);
  get_fee_to_send_taker_fee _ := Ok (World.fee tick)
|}.

Definition ledger : SwapsLedger := {|
  running_swaps := [(5%Z, [{| la_coin := "KMD"; la_amount := Q2Qc (1 # 10); la_trade_fee := None |}])];
  locked_amounts_v2 := ∅
|}.

Definition swap : TakerSwap := TakerSwapInv.started_as params (TakerSwapInv.new_swap params).
Definition answer := exec World.env [] (TakerSwap.start swap).

(** The balance checks of a trace. *)
Definition checks (tr : trace TakerSwapEvent) : list (MmNumber * MmNumber * TradeFee * TradeFee * TradeFee) :=
  omap (λ e, match ev_call e with
             | CheckTakerBalance v d s f sp => Some (v, d, s, f, sp)
             | _ => None
             end) tr.

Lemma in_checks tr v d s f sp x :
  Ev (CheckTakerBalance v d s f sp) x ∈ tr → (v, d, s, f, sp) ∈ checks tr.
Proof. intros Hin. apply list_elem_of_omap. by eexists. Qed.

Lemma checks_are : checks answer.1 = [(Q2Qc (40 # 1), total_spend_amount (start_dex_fee swap
  (replicate 33 (z2b 2))), World.fee "KMD", World.fee "KMD", World.fee "LTC")].
Proof. vm_compute. reflexivity. Qed.

Lemma checked : checked_by_node ledger Netid8762 (coin "KMD") (coin "LTC") 77 answer.1.
Proof.
  intros v d s f sp Hin%in_checks. rewrite checks_are in Hin.
  apply list_elem_of_singleton in Hin as [= -> -> -> -> ->]. vm_compute. reflexivity.
Qed.

Lemma kept : fees_kept answer.1.
Proof.
  intros v d s f sp x Hin%in_checks. rewrite checks_are in Hin.
  apply list_elem_of_singleton in Hin as [= -> -> -> -> ->].
  unfold kept_exactly. split_and!; vm_compute; discriminate.
Qed.

(** ** A fee that is counted nowhere

    The taker pays with a platform coin for a token of the same platform: the fee of
    spending the maker's payment is paid in the taker's coin. *)

Definition token_fee : TradeFee := {| tf_coin := "KMD"; tf_amount := Q2Qc (1 # 1); tf_paid_from_trading_vol := false |}.
Definition token_env (h : trace TakerSwapEvent) (c : SwapCall TakerSwapEvent) : SwapResp c :=
  match c return SwapResp c with
  | GetReceiverTradeFee MakerCoin => Ok token_fee
  | c => World.env h c
  end.
Definition token_answer := exec token_env [] (TakerSwap.start swap).

End AdmissionSample.

Lemma taker_admission_fits_witness :
  ∃ d, AdmissionSample.answer.2 = Val (Some TakerSwap.CNegotiate, [TakerSwap.Started d])
    ∧ get_locked_amount (register_running_swap AdmissionSample.ledger 77
        (TakerSwap.locked_amount (TakerSwap.apply_started AdmissionSample.swap d))) "KMD"
      ≤ Q2Qc (41 # 1).
Proof.
  assert (∃ d, AdmissionSample.answer.2 = Val (Some TakerSwap.CNegotiate, [TakerSwap.Started d])
    ∧ @uncounted AdmissionSample.externals Netid8762 (AdmissionSample.coin "KMD") "LTC" (Q2Qc (40 # 1)) d = 0) as (d & Hd & Hu)
    by (eexists; split; vm_compute; reflexivity).
  exists d. split; [exact Hd|].
  replace (Q2Qc (41 # 1)) with (dec_to_rational {| int_val := 41; scale := 0 |}
    + @uncounted AdmissionSample.externals Netid8762 (AdmissionSample.coin "KMD") "LTC" (Q2Qc (40 # 1)) d)
    by (rewrite Hu; vm_compute; reflexivity).
  apply (taker_admission_fits (H := AdmissionSample.externals) AdmissionSample.params AdmissionSample.ledger
    (AdmissionSample.coin "KMD") (AdmissionSample.coin "LTC") _ AdmissionSample.answer.1 d).
  - rewrite <-Hd. apply exec_runs.
  - reflexivity.
  - reflexivity.
  - exact AdmissionSample.checked.
  - exact AdmissionSample.kept.
  - constructor.
Defined.

(** The check counts that fee neither with the taker's coin nor against what is left
    of it: the swap is admitted, and locks more than there is. *)
Example token_swap_overcommits :
  let _ := AdmissionSample.externals in
  match AdmissionSample.token_answer.2 with
  | Val (_, [TakerSwap.Started d]) =>
      forallb (λ '(v, dex_fee, send, fee, spend),
        match check_balance_for_taker_swap AdmissionSample.ledger Netid8762 (AdmissionSample.coin "KMD")
          (AdmissionSample.coin "LTC") v (Some 77%Z)
          (Some {| tp_dex_fee := dex_fee; tp_fee_to_send_dex_fee := send; tp_taker_payment_trade_fee := fee;
                   tp_maker_payment_spend_trade_fee := spend |}) with Ok _ => true | Err _ => false end)
      (AdmissionSample.checks AdmissionSample.token_answer.1)
      && (Q2Qc (41 # 1) <?q get_locked_amount (register_running_swap AdmissionSample.ledger 77
            (TakerSwap.locked_amount (TakerSwap.apply_started AdmissionSample.swap d))) "KMD")
  | _ => false
  end = true.
Proof. vm_compute. reflexivity. Qed.

(** a fee that is waived stays reserved.  While a taker whose key the network
    exempts from the dex fee has not reached that step, nothing will be sent for
    the fee, and yet the swap locks the undiscounted amount, which is positive
    on every coin with a positive minimum. *)
Theorem waived_fee_stays_locked (s : TakerSwap) :
  waived s.(ts_taker_coin) s.(ts_ctx).(ctx_net_cfg) s.(ts_mutable).(tm_my_taker_coin_htlc_pub) = true →
  s.(ts_mutable).(tm_taker_fee) = None → s.(ts_finished_at) = 0%Z →
  total_spend_amount (my_dex_fee s) = 0
  ∧ ∃ fee rest, TakerSwap.locked_amount s = fee :: rest
    ∧ fee.(la_coin) = s.(ts_taker_coin).(ticker)
    ∧ s.(ts_taker_coin).(min_tx_amount) ≤ fee.(la_amount).
Proof.
  intros Hw Hnone Hfin. unfold my_dex_fee. rewrite compute_dex_fee_total, Hw. split; [done|].
  unfold TakerSwap.locked_amount. rewrite Hfin, Hnone. cbn.
  do 2 eexists. split; [done|]. cbn. split; [done|]. apply dex_fee_amount_ge_min.
Qed.

Lemma waived_fee_stays_locked_witness :
  let s := TakerSwap.new World.ctx (replicate 32 (z2b 7)) (Q2Qc (3 # 1)) (Q2Qc (40 # 1))
    {| kp_private := replicate 32 (z2b 2);
       kp_public := resolved_burn_pubkey (World.coin "KMD") World.ctx.(ctx_net_cfg) |}
    77 None World.conf_settings (World.coin "LTC") (World.coin "KMD") 7800 None in
  total_spend_amount (my_dex_fee s) = 0
  ∧ ∃ fee rest, TakerSwap.locked_amount s = fee :: rest ∧ Q2Qc (1 # 1000000) ≤ fee.(la_amount).
Proof.
  intros s. destruct (waived_fee_stays_locked s) as (Hz & fee & rest & Hl & _ & Hle).
  - vm_compute. reflexivity.
  - reflexivity.
  - reflexivity.
  - split; [exact Hz|]. exists fee, rest. split; [exact Hl|exact Hle].
Defined.
