(* ===== verification/Codec.v ===== *)
(** * Codec: the binary wire format (mm2src/kdf_codec)

    A [codec A] is what the [Serializable] and [Deserializable] instances of
    one type are: the bytes a value is written as, the parser that reads one
    back from the front of the input, and the values the wire can carry (the
    type's own range and the decoder's limits).  [Lawful] is the contract
    every instance owes its users: reading what was written gives the value
    back and leaves the rest of the input alone.

    The reader of the source is a byte source with one byte of look-ahead; the
    parsers here run on its remaining input, and Module [Peek] shows that the
    look-ahead reader implements that view.  Lengths are read on 64 bits
    ([usize] of the native targets). *)

From stdpp Require Import base tactics list numbers strings option sets.
From coqutil Require Import Byte Word.LittleEndianList.
From S2P Require Import Prelude.

(** ** Errors and parsers *)

Inductive Error : Type :=
| MalformedData
| UnexpectedEnd
| UnreadData
| Custom (message : string).

#[global] Instance Error_eq_dec : EqDecision Error.
Proof. solve_decision. Defined.

(** A read ends with an [Error] of the codec, or with a panic of the thread. *)
Inductive fault : Type :=
| Fail_with (e : Error)
| Panicked.

#[global] Instance fault_eq_dec : EqDecision fault.
Proof. solve_decision. Defined.

Definition parser (A : Type) : Type := bytes → result (A * bytes) fault.

Definition pret {A} (a : A) : parser A := λ b, Ok (a, b).
Definition perr {A} (e : Error) : parser A := λ b, Err (Fail_with e).
Definition pbind {A B} (p : parser A) (k : A → parser B) : parser B :=
  λ b, match p b with Ok (a, b') => k a b' | Err e => Err e end.

Declare Scope wire_scope.
Notation "'get' x ':=' p 'in' k" := (pbind p (λ x, k))
  (at level 200, x pattern, p at level 100, k at level 200,
   format "'[v' 'get'  x  ':='  p  'in' '/' k ']'") : wire_scope.
#[global] Open Scope wire_scope.

(** [Reader::read_slice]: exactly [n] bytes, or [UnexpectedEnd]. *)
Definition read_slice (n : Z) : parser bytes := λ b,
  if Z.of_nat (length b) <? n then Err (Fail_with UnexpectedEnd)
  else Ok (take (Z.to_nat n) b, drop (Z.to_nat n) b).

(** [Reader::is_finished], on the remaining input. *)
Definition at_end (b : bytes) : bool := match b with [] => true | _ => false end.
Definition p_at_end : parser bool := λ b, Ok (at_end b, b).

(** ** Codecs *)

Record codec (A : Type) : Type := Codec {
  ser : A → bytes;
  de : parser A;
  fits : A → bool
}.
Arguments Codec {A} _ _ _.
Arguments ser {A} _ _.
Arguments de {A} _.
Arguments fits {A} _ _.

Class Lawful {A} (c : codec A) : Prop :=
  de_ser : ∀ a rest, fits c a = true → de c (ser c a ++ rest) = Ok (a, rest).

(** [deserialize]: one value, and every byte consumed. *)
Definition deserialize {A} (c : codec A) (buffer : bytes) : result A fault :=
  match de c buffer with
  | Ok (value, rest) => if at_end rest then Ok value else Err (Fail_with UnreadData)
  | Err e => Err e
  end.

(** ** Integers, booleans and fixed-size hashes *)

(** Unsigned little-endian integers of [n] bytes. *)
Definition le_uint (n : nat) : codec Z := Codec
  (λ z, le_split n z)
  (get bs := read_slice (Z.of_nat n) in pret (le_combine bs))
  (λ z, (0 <=? z) && (z <? 2 ^ (Z.of_nat n * 8))).

(** Signed ones, in two's complement. *)
Definition le_sint (n : nat) : codec Z := Codec
  (λ z, le_split n z)
  (get bs := read_slice (Z.of_nat n) in
   pret (swrap (Z.of_nat n * 8) (le_combine bs)))
  (λ z, (- 2 ^ (Z.of_nat n * 8 - 1) <=? z) && (z <? 2 ^ (Z.of_nat n * 8 - 1))).

Notation c_u8 := (le_uint 1).
Notation c_u16 := (le_uint 2).
Notation c_u32 := (le_uint 4).
Notation c_u64 := (le_uint 8).
Notation c_i32 := (le_sint 4).
Notation c_i64 := (le_sint 8).

Definition c_bool : codec bool := Codec
  (λ v, le_split 1 (Z.b2z v))
  (get v := de c_u8 in
   if v =? 0 then pret false else if v =? 1 then pret true else perr MalformedData)
  (λ _, true).

(** The hash newtypes: [n] raw bytes. *)
Definition c_hash (n : nat) : codec bytes := Codec
  (λ h, h)
  (read_slice (Z.of_nat n))
  (λ h, Nat.eqb (length h) n).

Notation c_H64 := (c_hash 8).
Notation c_H256 := (c_hash 32).
Notation c_H512 := (c_hash 64).
Notation c_OutCipherText := (c_hash 80).
Notation c_ZkProofSapling := (c_hash 192).
Notation c_ZkProof := (c_hash 296).
Notation c_EncCipherText := (c_hash 580).
Notation c_CipherText := (c_hash 601).

(** ** CompactInteger *)

Definition serialized_length (v : Z) : Z :=
  if v <=? 0xfc then 1 else if v <=? 0xffff then 3
  else if v <=? 0xffffffff then 5 else 9.

Definition data_length (flag : Z) : Z :=
  if flag =? 0xfd then 2 else if flag =? 0xfe then 4 else if flag =? 0xff then 8 else 0.

Definition CompactInteger_serialize (v : Z) : bytes :=
  if v <=? 0xfc then ser c_u8 v
  else if v <=? 0xffff then ser c_u8 0xfd ++ ser c_u16 v
  else if v <=? 0xffffffff then ser c_u8 0xfe ++ ser c_u32 v
  else ser c_u8 0xff ++ ser c_u64 v.

Definition CompactInteger_deserialize : parser Z :=
  get flag := de c_u8 in
  if flag <=? 0xfc then pret flag
  else if flag =? 0xfd then de c_u16
  else if flag =? 0xfe then de c_u32
  else de c_u64.

Definition CompactInteger : codec Z := Codec
  CompactInteger_serialize CompactInteger_deserialize
  (λ v, (0 <=? v) && (v <? 2 ^ 64)).

Inductive CompactIntegerError : Type :=
| ParseError (message : string).

(** [parse_compact_int]: the value at the front of a slice, which is not
    advanced. *)
Definition parse_compact_int (buf : bytes) : result Z CompactIntegerError :=
  match buf with
  | [] => Err (ParseError "Empty buffer!")
  | flag :: _ =>
      let payload_len := data_length (b2z flag) in
      if payload_len =? 0 then Ok (b2z flag)
      else if Z.of_nat (length buf) <? 1 + payload_len
           then Err (ParseError "Insufficient bytes!")
           else Ok (le_combine (take (Z.to_nat payload_len) (drop 1 buf)))
  end.

(** ** Lists and byte strings *)

(** [n] runs of a step that may fail, by binary recursion: a failure ends the
    loop at once, however large the wire length it was given. *)
Fixpoint repeat_pos {S E} (step : S → result S E) (n : positive) (s : S) : result S E :=
  match n with
  | xH => step s
  | xO n => match repeat_pos step n s with Ok s => repeat_pos step n s | Err e => Err e end
  | xI n =>
      match step s with
      | Ok s => match repeat_pos step n s with Ok s => repeat_pos step n s | Err e => Err e end
      | Err e => Err e
      end
  end.

Definition push_item {A} (p : parser A) (s : list A * bytes) : result (list A * bytes) fault :=
  match p s.2 with Ok (a, b) => Ok (a :: s.1, b) | Err e => Err e end.

(** [Reader::read_items]. *)
Definition read_items {A} (p : parser A) (len : Z) : parser (list A) := λ b,
  match len with
  | Zpos n =>
      match repeat_pos (push_item p) n ([], b) with
      | Ok (acc, b') => Ok (reverse acc, b')
      | Err e => Err e
      end
  | _ => Ok ([], b)
  end.

Definition read_list {A} (p : parser A) : parser (list A) :=
  get len := CompactInteger_deserialize in read_items p len.

Definition read_list_max {A} (p : parser A) (max : Z) : parser (list A) :=
  get len := CompactInteger_deserialize in
  if max <? len then perr MalformedData else read_items p len.

(** [Stream::append_list]. *)
Definition append_list {A} (s : A → bytes) (items : list A) : bytes :=
  CompactInteger_serialize (Z.of_nat (length items)) ++ concat (map s items).

Definition c_list {A} (max : Z) (c : codec A) : codec (list A) := Codec
  (append_list (ser c))
  (read_list_max (de c) max)
  (λ items, (Z.of_nat (length items) <=? Z.min max (2 ^ 64 - 1)) && forallb (fits c) items).

(** [List<T>], read without a bound of its own. *)
Definition c_List {A} (c : codec A) : codec (list A) := Codec
  (append_list (ser c))
  (read_list (de c))
  (λ items, (Z.of_nat (length items) <? 2 ^ 64) && forallb (fits c) items).

Definition BYTES_DECODE_LIMIT : Z := 65536.

Definition c_Bytes : codec bytes := Codec
  (λ v, CompactInteger_serialize (Z.of_nat (length v)) ++ v)
  (get len := CompactInteger_deserialize in
   if BYTES_DECODE_LIMIT <? len then perr MalformedData else read_slice len)
  (λ v, Z.of_nat (length v) <=? BYTES_DECODE_LIMIT).

(** The [nBits] field: a transparent [u32]. *)
Definition c_Compact : codec Z := c_u32.

(** ** The look-ahead reader

    [Reader] over a byte slice, as the source has it: reads splice the peeked
    byte in front of the buffer. *)
Module Peek.

Record Reader : Type := mkReader { buffer : bytes; peeked : option byte }.

Definition remaining (r : Reader) : bytes := option_list (peeked r) ++ buffer r.

(** [io::Read for Reader]: up to [n] bytes. *)
Definition peek_read (n : nat) (r : Reader) : bytes * Reader :=
  match peeked r, n with
  | None, _ => (take n (buffer r), mkReader (drop n (buffer r)) None)
  | Some p, O => ([], r)
  | Some p, S n => (p :: take n (buffer r), mkReader (drop n (buffer r)) None)
  end.

(** The standard library's [read_exact] over it: reads until the destination
    is full or a read returns nothing.  Each round reads at least one byte, so
    [n + 1] rounds are enough for [n] bytes. *)
Fixpoint read_exact (fuel n : nat) (r : Reader) : result (bytes * Reader) Error :=
  match n, fuel with
  | O, _ => Ok ([], r)
  | S _, O => Err UnexpectedEnd
  | S _, S fuel =>
      match peek_read n r with
      | ([], _) => Err UnexpectedEnd
      | (bs, r) =>
          match read_exact fuel (n - length bs) r with
          | Ok (bs', r) => Ok (bs ++ bs', r)
          | Err e => Err e
          end
      end
  end.

Definition peek_slice (n : nat) (r : Reader) : result (bytes * Reader) Error :=
  read_exact (S n) n r.

Definition peek_finished (r : Reader) : bool * Reader :=
  match peeked r with
  | Some _ => (false, r)
  | None =>
      match peek_slice 1 r with
      | Ok (p :: _, r) => (false, mkReader (buffer r) (Some p))
      | Ok ([], r) => (false, r)
      | Err _ => (true, mkReader [] None)
      end
  end.

Lemma read_remaining n r :
  (peek_read n r).1 = take n (remaining r) ∧ remaining (peek_read n r).2 = drop n (remaining r).
Proof. destruct r as [b [p|]], n; done. Qed.

Lemma read_exact_spec fuel n r :
  (n < fuel)%nat →
  match read_exact fuel n r with
  | Ok (bs, r') =>
      (n ≤ length (remaining r))%nat ∧ bs = take n (remaining r)
      ∧ remaining r' = drop n (remaining r)
  | Err e => e = UnexpectedEnd ∧ (length (remaining r) < n)%nat
  end.
Proof.
  revert n r. induction fuel as [|fuel IH]; intros n r Hn; [lia|].
  destruct n as [|n]; cbn [read_exact]; [by rewrite take_0, drop_0; auto with lia|].
  destruct (read_remaining (S n) r) as [Hb Hr].
  destruct (peek_read (S n) r) as [bs r1]; cbn [fst snd] in *; subst bs.
  destruct (remaining r) as [|x l] eqn:El; cbn [take drop] in *.
  { cbn. split; [done|lia]. }
  specialize (IH (S n - length (x :: take n l))%nat r1 ltac:(cbn; lia)).
  rewrite Hr in IH. cbn [length] in *. rewrite length_take, length_drop in *.
  destruct (read_exact fuel _ r1) as [[bs' r2]|e].
  - destruct IH as (H1 & -> & ->).
    replace (S n - S (n `min` length l))%nat with O by lia.
    rewrite take_0, drop_0, app_nil_r. auto with lia.
  - destruct IH; split; [done|lia].
Qed.

End Peek.

(** The look-ahead reader returns and leaves exactly what [read_slice] does on
    its remaining input. *)
Lemma peek_read_slice n r :
  match Peek.peek_slice n r with
  | Ok (bs, r') => read_slice (Z.of_nat n) (Peek.remaining r) = Ok (bs, Peek.remaining r')
  | Err e => read_slice (Z.of_nat n) (Peek.remaining r) = Err (Fail_with e)
  end.
Proof.
  pose proof (Peek.read_exact_spec (S n) n r ltac:(lia)) as H.
  unfold Peek.peek_slice, read_slice. destruct (Peek.read_exact _ _ _) as [[bs r']|e].
  - destruct H as (H1 & -> & ->). rewrite Nat2Z.id.
    by destruct (Z.ltb_spec (Z.of_nat (length (Peek.remaining r))) (Z.of_nat n)); [lia|].
  - destruct H as [-> H]. 
    by destruct (Z.ltb_spec (Z.of_nat (length (Peek.remaining r))) (Z.of_nat n)); [|lia].
Qed.

Lemma peek_is_finished r :
  (Peek.peek_finished r).1 = at_end (Peek.remaining r)
  ∧ Peek.remaining (Peek.peek_finished r).2 = Peek.remaining r.
Proof. by destruct r as [[|x b] [p|]]; cbn; rewrite ?take_0, ?drop_0. Qed.

(** ** The codecs are lawful *)

Lemma read_slice_app (n : nat) (bs rest : bytes) :
  length bs = n → read_slice (Z.of_nat n) (bs ++ rest) = Ok (bs, rest).
Proof.
  intros <-. unfold read_slice. rewrite length_app, Nat2Z.id, take_app_length, drop_app_length.
  by destruct (Z.ltb_spec (Z.of_nat (length bs + length rest)) (Z.of_nat (length bs))); [lia|].
Qed.

Lemma pbind_ok {A B} (p : parser A) (k : A → parser B) b a b' :
  p b = Ok (a, b') → pbind p k b = k a b'.
Proof. unfold pbind. by intros ->. Qed.

Lemma pbind_pret {A B} (a : A) (k : A → parser B) b : pbind (pret a) k b = k a b.
Proof. done. Qed.

Lemma pbind_assoc {A B C} (p : parser A) (f : A → parser B) (g : B → parser C) b :
  pbind (pbind p f) g b = pbind p (λ a, pbind (f a) g) b.
Proof. unfold pbind. by destruct (p b) as [[]|]. Qed.

Lemma pbind_de {A B} (c : codec A) `{!Lawful c} (k : A → parser B) a rest :
  fits c a = true → pbind (de c) k (ser c a ++ rest) = k a rest.
Proof. intros. by apply pbind_ok, de_ser. Qed.

(** The same for a codec whose writer is the identity or is spelt out. *)
Lemma pbind_read_slice {B} (k : bytes → parser B) n (bs rest : bytes) :
  length bs = n → pbind (read_slice (Z.of_nat n)) k (bs ++ rest) = k bs rest.
Proof. intros. by apply pbind_ok, read_slice_app. Qed.

Lemma andb_inv a b : a && b = true → a = true ∧ b = true.
Proof. apply andb_true_iff. Qed.

(** Splits the conjunctions of the [fits] hypotheses. *)
Ltac fits_inv :=
  repeat match goal with
  | H : _ && _ = true |- _ => apply andb_inv in H as [? ?]
  end.

#[global] Instance le_uint_lawful n : Lawful (le_uint n).
Proof.
  intros z rest Hz. cbn in *. fits_inv.
  rewrite pbind_read_slice by apply length_le_split.
  unfold pret. rewrite le_combine_split_id by lia. done.
Qed.

Lemma swrap_uwrap w z : 0 < w → swrap w (uwrap w z) = swrap w z.
Proof. intros. unfold swrap, uwrap. by rewrite Zplus_mod_idemp_l. Qed.

#[global] Instance le_sint_lawful n : (0 < n)%nat → Lawful (le_sint n).
Proof.
  intros Hn z rest Hz. cbn in *. fits_inv.
  rewrite pbind_read_slice by apply length_le_split.
  unfold pret. rewrite le_combine_split.
  change (z mod 2 ^ (Z.of_nat n * 8)) with (uwrap (Z.of_nat n * 8) z).
  rewrite swrap_uwrap, swrap_id by (unfold is_s; lia). done.
Qed.

#[global] Instance c_i32_lawful : Lawful c_i32.
Proof. apply le_sint_lawful; lia. Qed.
#[global] Instance c_i64_lawful : Lawful c_i64.
Proof. apply le_sint_lawful; lia. Qed.

#[global] Instance c_bool_lawful : Lawful c_bool.
Proof.
  intros v rest _. cbn [ser de c_bool]. change (le_split 1 (Z.b2z v)) with (ser c_u8 (Z.b2z v)).
  by destruct v; rewrite (pbind_de c_u8).
Qed.

#[global] Instance c_hash_lawful n : Lawful (c_hash n).
Proof. intros h rest Hh. apply read_slice_app. by apply Nat.eqb_eq. Qed.

(** Decides the branches of a chain of comparisons that [lia] settles. *)
Ltac atomic_test x := lazymatch x with context [match _ with _ => _ end] => fail | _ => idtac end.
Ltac zcases :=
  repeat (match goal with
  | |- context [?a <=? ?b] =>
      atomic_test a; atomic_test b; destruct (Z.leb_spec a b); try (exfalso; lia)
  | |- context [?a <? ?b] =>
      atomic_test a; atomic_test b; destruct (Z.ltb_spec a b); try (exfalso; lia)
  | |- context [?a =? ?b] =>
      atomic_test a; atomic_test b; destruct (Z.eqb_spec a b); try (exfalso; lia)
  end; cbv iota).

#[global] Instance CompactInteger_lawful : Lawful CompactInteger.
Proof.
  intros v rest Hv. cbn [ser de fits CompactInteger] in *. fits_inv.
  assert (Hu : ∀ (n : nat) (z : Z), 0 ≤ z < 2 ^ (Z.of_nat n * 8) → fits (le_uint n) z = true).
  { intros n z ?. cbn. zcases; done. }
  unfold CompactInteger_serialize, CompactInteger_deserialize.
  zcases; rewrite <-?app_assoc, (pbind_de c_u8) by (apply Hu; cbn; lia); cbn [Z.leb Z.eqb];
    zcases; try done; apply de_ser, Hu; cbn; lia.
Qed.

Lemma CompactInteger_length v :
  0 ≤ v → Z.of_nat (length (CompactInteger_serialize v)) = serialized_length v.
Proof.
  intros. unfold CompactInteger_serialize, serialized_length. cbn [ser le_uint].
  zcases; by rewrite ?length_app, !length_le_split.
Qed.

(** The binary loop runs its step as often as the unary one. *)
Fixpoint repeat_nat {S E} (step : S → result S E) (n : nat) (s : S) : result S E :=
  match n with
  | O => Ok s
  | Datatypes.S n => match step s with Ok s => repeat_nat step n s | Err e => Err e end
  end.

Lemma repeat_nat_add {S E} (step : S → result S E) m n s :
  repeat_nat step (m + n) s
  = match repeat_nat step m s with Ok s => repeat_nat step n s | Err e => Err e end.
Proof. revert s. induction m; intros s; cbn; [done|]. by destruct (step s). Qed.

Lemma repeat_pos_nat {S E} (step : S → result S E) p s :
  repeat_pos step p s = repeat_nat step (Pos.to_nat p) s.
Proof.
  revert s. induction p as [p IH|p IH|]; intros s; cbn [repeat_pos].
  - rewrite Pos2Nat.inj_xI. replace (2 * Pos.to_nat p)%nat with (Pos.to_nat p + Pos.to_nat p)%nat by lia.
    cbn [repeat_nat]. destruct (step s) as [s'|]; [|done].
    rewrite repeat_nat_add, <-IH. destruct (repeat_pos step p s'); [apply IH|done].
  - rewrite Pos2Nat.inj_xO. replace (2 * Pos.to_nat p)%nat with (Pos.to_nat p + Pos.to_nat p)%nat by lia.
    rewrite repeat_nat_add, <-IH. destruct (repeat_pos step p s); [apply IH|done].
  - change (Pos.to_nat 1) with 1%nat. cbn [repeat_nat]. by destruct (step s).
Qed.

Lemma repeat_push {A} (p : parser A) (s : A → bytes) items acc rest :
  (∀ a b, a ∈ items → p (s a ++ b) = Ok (a, b)) →
  repeat_nat (push_item p) (length items) (acc, concat (map s items) ++ rest)
  = Ok (reverse items ++ acc, rest).
Proof.
  revert acc. induction items as [|a items IH]; intros acc Hp; [done|].
  cbn [length concat map repeat_nat]. unfold push_item at 1. cbn [fst snd].
  rewrite <-app_assoc, Hp by set_solver.
  rewrite IH by set_solver. by rewrite reverse_cons, <-app_assoc.
Qed.

Lemma read_items_app {A} (p : parser A) (s : A → bytes) items rest :
  (∀ a b, a ∈ items → p (s a ++ b) = Ok (a, b)) →
  read_items p (Z.of_nat (length items)) (concat (map s items) ++ rest) = Ok (items, rest).
Proof.
  intros Hp. destruct items as [|a items]; [done|].
  unfold read_items. cbn [length].
  change (Z.of_nat (S (length items))) with (Zpos (Pos.of_succ_nat (length items))).
  cbv iota.
  rewrite repeat_pos_nat, SuccNat2Pos.id_succ. change (S (length items)) with (length (a :: items)).
  rewrite (repeat_push p s (a :: items) [] rest Hp).
  by rewrite app_nil_r, reverse_involutive.
Qed.

Lemma fits_elem {A} (c : codec A) `{!Lawful c} items a b :
  forallb (fits c) items = true → a ∈ items → de c (ser c a ++ b) = Ok (a, b).
Proof.
  intros Hf Ha. apply de_ser. by apply (proj1 (forallb_forall _ _) Hf), list_elem_of_In.
Qed.

Lemma CompactInteger_fits n : 0 ≤ n < 2 ^ 64 → fits CompactInteger n = true.
Proof. intros. cbn. zcases; done. Qed.

#[global] Instance c_list_lawful {A} max (c : codec A) `{!Lawful c} : Lawful (c_list max c).
Proof.
  intros items rest Hf. cbn in Hf. fits_inv. cbn [ser de c_list]. unfold append_list, read_list_max.
  rewrite <-app_assoc. rewrite (pbind_de CompactInteger) by (apply CompactInteger_fits; lia).
  zcases. apply read_items_app. intros. by eapply fits_elem.
Qed.

#[global] Instance c_List_lawful {A} (c : codec A) `{!Lawful c} : Lawful (c_List c).
Proof.
  intros items rest Hf. cbn in Hf. fits_inv. cbn [ser de c_List]. unfold append_list, read_list.
  rewrite <-app_assoc. rewrite (pbind_de CompactInteger) by (apply CompactInteger_fits; lia).
  apply read_items_app. intros. by eapply fits_elem.
Qed.

#[global] Instance c_Bytes_lawful : Lawful c_Bytes.
Proof.
  intros v rest Hv. cbn [ser de fits c_Bytes] in *. unfold BYTES_DECODE_LIMIT in *.
  rewrite <-app_assoc. rewrite (pbind_de CompactInteger) by (apply CompactInteger_fits; lia).
  zcases. by apply read_slice_app.
Qed.

Lemma deserialize_ser {A} (c : codec A) `{!Lawful c} a :
  fits c a = true → deserialize c (ser c a) = Ok a.
Proof.
  intros. unfold deserialize. by rewrite <-(app_nil_r (ser c a)), de_ser.
Qed.

(** What a lawful codec writes tells the values apart, whatever follows. *)
Lemma ser_app_inj {A} (c : codec A) `{!Lawful c} a b r1 r2 :
  fits c a = true → fits c b = true → ser c a ++ r1 = ser c b ++ r2 → a = b ∧ r1 = r2.
Proof.
  intros Ha Hb E. pose proof (de_ser a r1 Ha) as H1. rewrite E, (de_ser b r2 Hb) in H1. by simplify_eq.
Qed.

(** Values written one after the other, without their number. *)
Lemma concat_ser_inj {A} (c : codec A) `{!Lawful c} l1 l2 :
  (∀ a, ser c a ≠ []) →
  forallb (fits c) l1 = true → forallb (fits c) l2 = true →
  concat (map (ser c) l1) = concat (map (ser c) l2) → l1 = l2.
Proof.
  intros Hne. revert l2. induction l1 as [|a l1 IH]; intros [|b l2]; cbn; intros; fits_inv; [done|..].
  - by destruct (ser c b) eqn:E; [destruct (Hne b)|].
  - by destruct (ser c a) eqn:E; [destruct (Hne a)|].
  - destruct (ser_app_inj c a b (concat (map (ser c) l1)) (concat (map (ser c) l2))) as [-> ?]; auto using f_equal.
Qed.

(** ** The two readers of a CompactInteger *)

Lemma de_le_uint n (b : bytes) :
  (n ≤ length b)%nat → de (le_uint n) b = Ok (le_combine (take n b), drop n b).
Proof.
  intros. cbn. unfold pbind, read_slice. rewrite Nat2Z.id.
  by destruct (Z.ltb_spec (Z.of_nat (length b)) (Z.of_nat n)); [lia|].
Qed.

Lemma ser_u8_b2z x : ser c_u8 (b2z x) = [x].
Proof. cbn [ser le_uint]. unfold le_split. by rewrite <-(z2b_b2z x) at 2. Qed.

Lemma CompactInteger_de_cons flag t :
  CompactInteger_deserialize (flag :: t)
  = if b2z flag <=? 0xfc then Ok (b2z flag, t)
    else if b2z flag =? 0xfd then de c_u16 t
    else if b2z flag =? 0xfe then de c_u32 t else de c_u64 t.
Proof.
  unfold CompactInteger_deserialize.
  erewrite pbind_ok by (apply (de_le_uint 1 (flag :: t)); cbn; lia).
  replace (le_combine (take 1 (flag :: t))) with (b2z flag)
    by (cbn; symmetry; apply Z.lor_0_r).
  by zcases.
Qed.

(** What the two readers see of an encoding with [k] payload bytes, where the
    writer either uses the same flag or a shorter form. *)
Lemma payload_spec flag (t : bytes) k :
  (k ≤ length t)%nat →
  let v := le_combine (take k t) in
  (0 ≤ v < 2 ^ (Z.of_nat k * 8) →
   CompactInteger_serialize v = flag :: le_split k v ∨ serialized_length v < 1 + Z.of_nat k) →
  serialized_length v ≤ Z.of_nat (length (flag :: t)) - Z.of_nat (length (drop k t))
  ∧ (Z.of_nat (length (flag :: t)) - Z.of_nat (length (drop k t)) = serialized_length v
     ↔ flag :: t = CompactInteger_serialize v ++ drop k t).
Proof.
  intros Hk v Hser.
  assert (Hlen : length (take k t) = k) by (rewrite length_take; lia).
  pose proof (le_combine_range _ _ Hlen).
  pose proof (CompactInteger_length v ltac:(lia)) as HL. subst v.
  rewrite length_drop. cbn [length].
  destruct (Hser ltac:(done)) as [Hs|Hs]; (split; [|split]).
  - rewrite <-HL, Hs. cbn. rewrite length_le_split. lia.
  - intros _. rewrite Hs, split_le_combine' by done. cbn. by rewrite take_drop.
  - intros _. rewrite <-HL, Hs. cbn. rewrite length_le_split. lia.
  - lia.
  - lia.
  - intros Heq%(f_equal length). rewrite length_app, length_drop in Heq. cbn in Heq. lia.
Qed.

Lemma compact_int_readers buf v :
  parse_compact_int buf = Ok v →
  ∃ rest, CompactInteger_deserialize buf = Ok (v, rest)
    ∧ serialized_length v ≤ Z.of_nat (length buf) - Z.of_nat (length rest)
    ∧ (Z.of_nat (length buf) - Z.of_nat (length rest) = serialized_length v
       ↔ buf = CompactInteger_serialize v ++ rest).
Proof.
  destruct buf as [|flag t]; [done|]. unfold parse_compact_int, data_length. intros Hp.
  pose proof (b2z_range flag). rewrite CompactInteger_de_cons.
  destruct (Z.leb_spec (b2z flag) 0xfc) as [Hs|Hs].
  { replace v with (b2z flag) in * by (revert Hp; zcases; by intros [= ?]).
    clear Hp. exists t. cbn [length]. unfold CompactInteger_serialize, serialized_length. zcases. rewrite ser_u8_b2z.
    split_and!; [done|lia|]. split; [done|lia]. }
  revert Hp; zcases; intros [= <-]; rewrite ?skipn_cons, ?drop_0; cbn [length] in *;
    eexists; (split; [apply de_le_uint; lia|]);
    rewrite <-(z2b_b2z flag);
    match goal with H : b2z flag = _ |- _ => rewrite H end;
    (apply payload_spec; [lia|]); intros Hv;
    match type of Hv with _ ∧ _ < ?b => let b' := eval vm_compute in b in change b with b' in Hv end;
    unfold CompactInteger_serialize, serialized_length; zcases;
    first [right; lia|by left].
Qed.

Lemma de_le_uint_inv n (b : bytes) v rest :
  de (le_uint n) b = Ok (v, rest) → (n ≤ length b)%nat ∧ v = le_combine (take n b).
Proof.
  cbn. unfold pbind, read_slice, pret. rewrite Nat2Z.id.
  destruct (Z.ltb_spec (Z.of_nat (length b)) (Z.of_nat n)); [done|]. intros [= <- <-]. split; [lia|done].
Qed.

Lemma compact_int_parses buf v rest :
  CompactInteger_deserialize buf = Ok (v, rest) → parse_compact_int buf = Ok v.
Proof.
  destruct buf as [|flag t]; [done|]. rewrite CompactInteger_de_cons.
  unfold parse_compact_int, data_length. pose proof (b2z_range flag).
  destruct (Z.leb_spec (b2z flag) 0xfc); [intros [= <- <-]; by zcases|].
  destruct (Z.eqb_spec (b2z flag) 0xfd); [|destruct (Z.eqb_spec (b2z flag) 0xfe)];
    intros [? ->]%de_le_uint_inv; cbn [length]; by zcases.
Qed.

(** [parse_compact_int], which looks at a slice without advancing, returns
    what the codec's own reader decodes, and its documented companion
    [serialized_length] never exceeds the bytes that reader consumes.  The two
    agree exactly when the encoding is the canonical one, i.e. the one
    [CompactInteger] writes: a longer encoding is accepted and then measured
    too short. *)
Theorem compact_int_consumed buf v :
  parse_compact_int buf = Ok v →
  ∃ rest, CompactInteger_deserialize buf = Ok (v, rest)
    ∧ serialized_length v ≤ Z.of_nat (length buf) - Z.of_nat (length rest)
    ∧ (Z.of_nat (length buf) - Z.of_nat (length rest) = serialized_length v
       ↔ buf = CompactInteger_serialize v ++ rest).
Proof. apply compact_int_readers. Qed.

Lemma compact_int_consumed_witness :
  ∃ rest, CompactInteger_deserialize (hex "fd0500aa") = Ok (5, rest)
    ∧ serialized_length 5 ≤ Z.of_nat (length (hex "fd0500aa")) - Z.of_nat (length rest)
    ∧ (Z.of_nat (length (hex "fd0500aa")) - Z.of_nat (length rest) = serialized_length 5
       ↔ hex "fd0500aa" = CompactInteger_serialize 5 ++ rest).
Proof. apply (compact_int_consumed (hex "fd0500aa") 5). vm_compute. reflexivity. Defined.
