(* ===== verification/Tx.v ===== *)
(** * Tx: transactions and their wire format (mm2src/kdf_chain/src/transaction.rs)

    One record covers Bitcoin, Zcash (overwintered or not), the PoS layout with
    [nTime] and the NavCoin trailer.  The serializer chooses the layout from
    the record; the deserializer is told the layout ([deserialize_tx]) or tries
    the three of them in order ([Transaction_deserialize]). *)

From stdpp Require Import base tactics list numbers strings option sets.
From coqutil Require Import Byte Word.LittleEndianList.
From S2P Require Import Prelude Codec.

Definition SEQUENCE_FINAL : Z := 0xffffffff.
Definition LOCKTIME_THRESHOLD : Z := 500000000.
Definition WITNESS_MARKER : Z := 0.
Definition WITNESS_FLAG : Z := 1.
Definition MAX_LIST_SIZE : Z := 8192.
Definition SERIALIZE_TRANSACTION_WITNESS : Z := 0x40000000.

Definition zeros (n : nat) : bytes := replicate n (z2b 0).

(** ** Data *)

Record OutPoint : Type := mkOutPoint { op_hash : bytes; op_index : Z }.

Definition OutPoint_null : OutPoint := mkOutPoint (zeros 32) 0xffffffff.
Definition OutPoint_is_null (o : OutPoint) : bool :=
  bool_decide (op_hash o = zeros 32) && (op_index o =? 0xffffffff).

Record TransactionInput : Type := mkTransactionInput {
  previous_output : OutPoint;
  script_sig : bytes;
  sequence : Z;
  script_witness : list bytes
}.

Definition TransactionInput_coinbase (script_sig : bytes) : TransactionInput :=
  mkTransactionInput OutPoint_null script_sig SEQUENCE_FINAL [].
Definition input_is_final (i : TransactionInput) : bool := sequence i =? SEQUENCE_FINAL.
Definition input_has_witness (i : TransactionInput) : bool :=
  match script_witness i with [] => false | _ => true end.

Record TransactionOutput : Type := mkTransactionOutput { value : Z; script_pubkey : bytes }.

Definition TransactionOutput_default : TransactionOutput := mkTransactionOutput (2 ^ 64 - 1) [].

Record ShieldedSpend : Type := mkShieldedSpend {
  sp_cv : bytes; sp_anchor : bytes; sp_nullifier : bytes; sp_rk : bytes;
  sp_zkproof : bytes; spend_auth_sig : bytes
}.

Record ShieldedOutput : Type := mkShieldedOutput {
  so_cv : bytes; so_cmu : bytes; so_ephemeral_key : bytes;
  enc_cipher_text : bytes; out_cipher_text : bytes; so_zkproof : bytes
}.

Inductive JoinSplitProof : Type :=
| PHGR (p : bytes)
| Groth (p : bytes).

Record JoinSplit : Type := mkJoinSplit {
  v_pub_old : bytes; v_pub_new : bytes; js_anchor : bytes;
  nullifiers : bytes * bytes; commitments : bytes * bytes;
  js_ephemeral_key : bytes; random_seed : bytes; macs : bytes * bytes;
  js_zkproof : JoinSplitProof; ciphertexts : bytes * bytes
}.

Inductive TxHashAlgo : Type := DSHA256 | SHA256.

Record Transaction : Type := mkTransaction {
  version : Z;
  n_time : option Z;
  overwintered : bool;
  version_group_id : Z;
  inputs : list TransactionInput;
  outputs : list TransactionOutput;
  lock_time : Z;
  expiry_height : Z;
  shielded_spends : list ShieldedSpend;
  shielded_outputs : list ShieldedOutput;
  join_splits : list JoinSplit;
  value_balance : Z;
  join_split_pubkey : bytes;
  join_split_sig : bytes;
  binding_sig : bytes;
  zcash : bool;
  str_d_zeel : option bytes;
  tx_hash_algo : TxHashAlgo
}.

Inductive TxType : Type := StandardWithWitness | Zcash | PosWithNTime.

#[global] Instance OutPoint_eq_dec : EqDecision OutPoint.
Proof. solve_decision. Defined.
#[global] Instance TransactionInput_eq_dec : EqDecision TransactionInput.
Proof. solve_decision. Defined.
#[global] Instance TransactionOutput_eq_dec : EqDecision TransactionOutput.
Proof. solve_decision. Defined.
#[global] Instance ShieldedSpend_eq_dec : EqDecision ShieldedSpend.
Proof. solve_decision. Defined.
#[global] Instance ShieldedOutput_eq_dec : EqDecision ShieldedOutput.
Proof. solve_decision. Defined.
#[global] Instance JoinSplitProof_eq_dec : EqDecision JoinSplitProof.
Proof. solve_decision. Defined.
#[global] Instance JoinSplit_eq_dec : EqDecision JoinSplit.
Proof. solve_decision. Defined.
#[global] Instance TxHashAlgo_eq_dec : EqDecision TxHashAlgo.
Proof. solve_decision. Defined.
#[global] Instance TxType_eq_dec : EqDecision TxType.
Proof. solve_decision. Defined.
#[global] Instance Transaction_eq_dec : EqDecision Transaction.
Proof. solve_decision. Defined.

Definition is_nil {A} (l : list A) : bool := match l with [] => true | _ => false end.

(** ** Codecs of the parts *)

Definition c_OutPoint : codec OutPoint := Codec
  (λ o, ser c_H256 (op_hash o) ++ ser c_u32 (op_index o))
  (get hash := de c_H256 in get index := de c_u32 in pret (mkOutPoint hash index))
  (λ o, fits c_H256 (op_hash o) && fits c_u32 (op_index o)).

(** The witness stack of an input is written outside of it. *)
Definition c_TransactionInput : codec TransactionInput := Codec
  (λ i, ser c_OutPoint (previous_output i) ++ ser c_Bytes (script_sig i)
        ++ ser c_u32 (sequence i))
  (get previous_output := de c_OutPoint in
   get script_sig := de c_Bytes in
   get sequence := de c_u32 in
   pret (mkTransactionInput previous_output script_sig sequence []))
  (λ i, fits c_OutPoint (previous_output i) && fits c_Bytes (script_sig i)
        && fits c_u32 (sequence i) && is_nil (script_witness i)).

Definition c_TransactionOutput : codec TransactionOutput := Codec
  (λ o, ser c_u64 (value o) ++ ser c_Bytes (script_pubkey o))
  (get value := de c_u64 in get script_pubkey := de c_Bytes in
   pret (mkTransactionOutput value script_pubkey))
  (λ o, fits c_u64 (value o) && fits c_Bytes (script_pubkey o)).

Definition c_ShieldedSpend : codec ShieldedSpend := Codec
  (λ s, ser c_H256 (sp_cv s) ++ ser c_H256 (sp_anchor s) ++ ser c_H256 (sp_nullifier s)
        ++ ser c_H256 (sp_rk s) ++ ser c_ZkProofSapling (sp_zkproof s)
        ++ ser c_H512 (spend_auth_sig s))
  (get cv := de c_H256 in get anchor := de c_H256 in get nullifier := de c_H256 in
   get rk := de c_H256 in get zkproof := de c_ZkProofSapling in
   get sig := de c_H512 in
   pret (mkShieldedSpend cv anchor nullifier rk zkproof sig))
  (λ s, fits c_H256 (sp_cv s) && fits c_H256 (sp_anchor s) && fits c_H256 (sp_nullifier s)
        && fits c_H256 (sp_rk s) && fits c_ZkProofSapling (sp_zkproof s)
        && fits c_H512 (spend_auth_sig s)).

Definition c_ShieldedOutput : codec ShieldedOutput := Codec
  (λ o, ser c_H256 (so_cv o) ++ ser c_H256 (so_cmu o) ++ ser c_H256 (so_ephemeral_key o)
        ++ ser c_EncCipherText (enc_cipher_text o) ++ ser c_OutCipherText (out_cipher_text o)
        ++ ser c_ZkProofSapling (so_zkproof o))
  (get cv := de c_H256 in get cmu := de c_H256 in get ephemeral_key := de c_H256 in
   get enc := de c_EncCipherText in get out := de c_OutCipherText in
   get zkproof := de c_ZkProofSapling in
   pret (mkShieldedOutput cv cmu ephemeral_key enc out zkproof))
  (λ o, fits c_H256 (so_cv o) && fits c_H256 (so_cmu o) && fits c_H256 (so_ephemeral_key o)
        && fits c_EncCipherText (enc_cipher_text o) && fits c_OutCipherText (out_cipher_text o)
        && fits c_ZkProofSapling (so_zkproof o)).

(** The proof of a JoinSplit has no tag on the wire: the reader is told which
    one to expect. *)
Definition c_JoinSplitProof (use_groth : bool) : codec JoinSplitProof := Codec
  (λ p, match p with PHGR p => ser c_ZkProof p | Groth p => ser c_ZkProofSapling p end)
  (if use_groth
   then get p := de c_ZkProofSapling in pret (Groth p)
   else get p := de c_ZkProof in pret (PHGR p))
  (λ p, match p with
        | PHGR p => negb use_groth && fits c_ZkProof p
        | Groth p => use_groth && fits c_ZkProofSapling p
        end).

Definition deserialize_join_split (use_groth : bool) : parser JoinSplit :=
  get v_pub_old := de c_H64 in get v_pub_new := de c_H64 in
  get anchor := de c_H256 in
  get nullifier0 := de c_H256 in get nullifier1 := de c_H256 in
  get commitment0 := de c_H256 in get commitment1 := de c_H256 in
  get ephemeral_key := de c_H256 in get random_seed := de c_H256 in
  get mac0 := de c_H256 in get mac1 := de c_H256 in
  get zkproof := de (c_JoinSplitProof use_groth) in
  get ciphertext0 := de c_CipherText in get ciphertext1 := de c_CipherText in
  pret (mkJoinSplit v_pub_old v_pub_new anchor (nullifier0, nullifier1)
          (commitment0, commitment1) ephemeral_key random_seed (mac0, mac1)
          zkproof (ciphertext0, ciphertext1)).

Definition c_JoinSplit (use_groth : bool) : codec JoinSplit := Codec
  (λ j, ser c_H64 (v_pub_old j) ++ ser c_H64 (v_pub_new j) ++ ser c_H256 (js_anchor j)
        ++ ser c_H256 (nullifiers j).1 ++ ser c_H256 (nullifiers j).2
        ++ ser c_H256 (commitments j).1 ++ ser c_H256 (commitments j).2
        ++ ser c_H256 (js_ephemeral_key j) ++ ser c_H256 (random_seed j)
        ++ ser c_H256 (macs j).1 ++ ser c_H256 (macs j).2
        ++ ser (c_JoinSplitProof use_groth) (js_zkproof j)
        ++ ser c_CipherText (ciphertexts j).1 ++ ser c_CipherText (ciphertexts j).2)
  (deserialize_join_split use_groth)
  (λ j, fits c_H64 (v_pub_old j) && fits c_H64 (v_pub_new j) && fits c_H256 (js_anchor j)
        && fits c_H256 (nullifiers j).1 && fits c_H256 (nullifiers j).2
        && fits c_H256 (commitments j).1 && fits c_H256 (commitments j).2
        && fits c_H256 (js_ephemeral_key j) && fits c_H256 (random_seed j)
        && fits c_H256 (macs j).1 && fits c_H256 (macs j).2
        && fits (c_JoinSplitProof use_groth) (js_zkproof j)
        && fits c_CipherText (ciphertexts j).1 && fits c_CipherText (ciphertexts j).2).

Notation c_inputs := (c_list MAX_LIST_SIZE c_TransactionInput).
Notation c_outputs := (c_list MAX_LIST_SIZE c_TransactionOutput).
Notation c_witness := (c_list MAX_LIST_SIZE c_Bytes).
Notation c_spends := (c_list MAX_LIST_SIZE c_ShieldedSpend).
Notation c_shielded_outputs := (c_list MAX_LIST_SIZE c_ShieldedOutput).

(** ** Methods *)

Definition is_empty (tx : Transaction) : bool := is_nil (inputs tx) || is_nil (outputs tx).
Definition is_null (tx : Transaction) : bool :=
  existsb (λ i, OutPoint_is_null (previous_output i)) (inputs tx).
Definition is_coinbase (tx : Transaction) : bool :=
  match inputs tx with [i] => OutPoint_is_null (previous_output i) | _ => false end.
Definition is_final (tx : Transaction) : bool :=
  (lock_time tx =? 0) || forallb input_is_final (inputs tx).
Definition is_final_in_block (tx : Transaction) (block_height block_time : Z) : bool :=
  if lock_time tx =? 0 then true
  else
    let max_lock_time :=
      if lock_time tx <? LOCKTIME_THRESHOLD then block_height else block_time in
    if lock_time tx <? max_lock_time then true
    else forallb input_is_final (inputs tx).
Definition has_witness (tx : Transaction) : bool := existsb input_has_witness (inputs tx).

(** The loop of [total_spends], from the running [sum]. *)
Fixpoint spends_from (sum : Z) (outs : list TransactionOutput) : Z :=
  match outs with
  | [] => sum
  | output :: outs =>
      if u64 (2 ^ 64 - 1 - sum) <? value output then 2 ^ 64 - 1
      else spends_from (u64 (sum + value output)) outs
  end.
Definition total_spends (tx : Transaction) : Z := spends_from 0 (outputs tx).

(** ** Serialization *)

Definition include_transaction_witness (flags : Z) : bool :=
  negb (Z.land flags SERIALIZE_TRANSACTION_WITNESS =? 0).

Definition with_witness (flags : Z) (tx : Transaction) : bool :=
  include_transaction_witness flags && has_witness tx.

(** The overwintered fields after the lock time. *)
Definition ser_sapling (tx : Transaction) : bytes :=
  if overwintered tx && (3 <=? version tx)
  then ser c_u32 (expiry_height tx)
       ++ (if 4 <=? version tx
           then ser c_i64 (value_balance tx) ++ ser c_spends (shielded_spends tx)
                ++ ser c_shielded_outputs (shielded_outputs tx)
           else [])
  else [].

Definition ser_join_splits (tx : Transaction) : bytes :=
  if (version tx =? 2) || overwintered tx
  then append_list (ser (c_JoinSplit (2 <? version tx))) (join_splits tx)
       ++ (if is_nil (join_splits tx) then []
           else ser c_H256 (join_split_pubkey tx) ++ ser c_H512 (join_split_sig tx))
  else [].

Definition ser_binding_sig (tx : Transaction) : bytes :=
  if (4 <=? version tx) && overwintered tx
     && negb (is_nil (shielded_outputs tx) && is_nil (shielded_spends tx))
  then ser c_H512 (binding_sig tx) else [].

Definition ser_str_d_zeel (s : option bytes) : bytes :=
  match s with
  | Some s => ser CompactInteger (Z.of_nat (length s)) ++ s
  | None => []
  end.

Definition tx_header (tx : Transaction) : Z :=
  if overwintered tx then Z.lor (version tx) (- 2 ^ 31) else version tx.

(** [serialize_with_flags]; [serialize] is the case of no flag. *)
Definition serialize_with_flags (tx : Transaction) (flags : Z) : bytes :=
  if with_witness flags tx
  then
    ser c_i32 (version tx) ++ ser c_u8 WITNESS_MARKER ++ ser c_u8 WITNESS_FLAG
    ++ ser c_inputs (inputs tx) ++ ser c_outputs (outputs tx)
    ++ concat (map (λ i, ser c_witness (script_witness i)) (inputs tx))
    ++ ser c_u32 (lock_time tx)
  else
    ser c_i32 (tx_header tx)
    ++ (if overwintered tx then ser c_u32 (version_group_id tx) else [])
    ++ (match n_time tx with Some n_time => ser c_u32 n_time | None => [] end)
    ++ ser c_inputs (inputs tx) ++ ser c_outputs (outputs tx) ++ ser c_u32 (lock_time tx)
    ++ ser_sapling tx
    ++ (if zcash tx then ser_join_splits tx ++ ser_binding_sig tx else [])
    ++ ser_str_d_zeel (str_d_zeel tx).

Definition serialize (tx : Transaction) : bytes := serialize_with_flags tx 0.

(** ** Deserialization *)

(** Well-formed UTF-8 ([std::str::from_utf8]): the continuation bytes each
    leading byte allows. *)
Definition in_range (lo hi : Z) (b : byte) : bool := (lo <=? b2z b) && (b2z b <=? hi).
Definition utf8_tail (lead : byte) : option (list (Z * Z)) :=
  let c := (0x80, 0xbf) in
  if in_range 0x00 0x7f lead then Some []
  else if in_range 0xc2 0xdf lead then Some [c]
  else if in_range 0xe0 0xe0 lead then Some [(0xa0, 0xbf); c]
  else if in_range 0xed 0xed lead then Some [(0x80, 0x9f); c]
  else if in_range 0xe1 0xef lead then Some [c; c]
  else if in_range 0xf0 0xf0 lead then Some [(0x90, 0xbf); c; c]
  else if in_range 0xf1 0xf3 lead then Some [c; c; c]
  else if in_range 0xf4 0xf4 lead then Some [(0x80, 0x8f); c; c]
  else None.

(** [expect]: the ranges the next bytes must be in to end the character. *)
Fixpoint utf8_from (expect : list (Z * Z)) (s : bytes) : bool :=
  match s, expect with
  | [], [] => true
  | [], _ => false
  | b :: s, (lo, hi) :: expect => in_range lo hi b && utf8_from expect s
  | b :: s, [] => match utf8_tail b with Some e => utf8_from e s | None => false end
  end.
Definition is_utf8 (s : bytes) : bool := utf8_from [] s.

Definition is_type (t : TxType) (tx_type : TxType) : bool := bool_decide (tx_type = t).

(** The inputs, and whether the SegWit envelope was found around them. *)
Definition read_inputs (tx_type : TxType) (overwintered : bool)
    : parser (list TransactionInput * bool) :=
  get inputs := de c_inputs in
  if is_nil inputs && negb overwintered && is_type StandardWithWitness tx_type
  then
    get witness_flag := de c_u8 in
    if negb (witness_flag =? WITNESS_FLAG) then perr MalformedData
    else get inputs := de c_inputs in pret (inputs, true)
  else pret (inputs, false).

(** Fills in the witness stacks, input by input. *)
Fixpoint read_witnesses (ins : list TransactionInput) : parser (list TransactionInput) :=
  match ins with
  | [] => pret []
  | i :: ins =>
      get w := de c_witness in
      get ins := read_witnesses ins in
      pret (mkTransactionInput (previous_output i) (script_sig i) (sequence i) w :: ins)
  end.

(** Expiry height, value balance, shielded spends and outputs. *)
Definition read_sapling (overwintered : bool) (version : Z)
    : parser (Z * Z * list ShieldedSpend * list ShieldedOutput) :=
  if overwintered && (3 <=? version)
  then
    get expiry_height := de c_u32 in
    if 4 <=? version
    then
      get value_balance := de c_i64 in
      get spends := de c_spends in
      get outputs := de c_shielded_outputs in
      pret (expiry_height, value_balance, spends, outputs)
    else pret (expiry_height, 0, [], [])
  else pret (0, 0, [], []).

(** JoinSplits with the key and the signature over them. *)
Definition read_join_splits (overwintered : bool) (version : Z)
    : parser (list JoinSplit * bytes * bytes) :=
  if (version =? 2) || overwintered
  then
    get len := de CompactInteger in
    if 0 <? len
    then
      if MAX_LIST_SIZE <? len then perr MalformedData
      else
        get splits := read_items (deserialize_join_split (2 <? version)) len in
        get pubkey := de c_H256 in
        get sig := de c_H512 in
        pret (splits, pubkey, sig)
    else pret ([], zeros 32, zeros 64)
  else pret ([], zeros 32, zeros 64).

Definition read_binding_sig (overwintered : bool) (version : Z)
    (spends : list ShieldedSpend) (outs : list ShieldedOutput) : parser bytes :=
  if overwintered && (4 <=? version) && negb (is_nil spends && is_nil outs)
  then de c_H512 else pret (zeros 64).

(** The largest allocation, [isize::MAX] bytes: a vector of a larger capacity
    panics. *)
Definition ISIZE_MAX : Z := 2 ^ 63 - 1.

(** The buffer is allocated from the length on the wire before anything of it
    is read. *)
Definition read_str_d_zeel (tx_type : TxType) : parser (option bytes) :=
  get finished := p_at_end in
  if is_type PosWithNTime tx_type && negb finished
  then
    get len := de CompactInteger in
    if ISIZE_MAX <? len then (λ _, Err Panicked)
    else
      get buf := read_slice len in
      if is_utf8 buf then pret (Some buf) else perr MalformedData
  else pret None.

Definition deserialize_tx (tx_type : TxType) : parser Transaction :=
  get header := de c_i32 in
  let overwintered := negb (Z.shiftr header 31 =? 0) in
  let version := if overwintered then Z.land header 0x7fffffff else header in
  get version_group_id := (if overwintered then de c_u32 else pret 0) in
  get n_time := (if is_type PosWithNTime tx_type
                 then get t := de c_u32 in pret (Some t) else pret None) in
  get (inputs, read_witness) := read_inputs tx_type overwintered in
  get outputs := de c_outputs in
  if is_nil outputs && is_type StandardWithWitness tx_type
  then perr (Custom "Transaction has no output")
  else
    get inputs := (if read_witness then read_witnesses inputs else pret inputs) in
    get lock_time := de c_u32 in
    get (expiry_height, value_balance, spends, shielded_outputs) :=
      read_sapling overwintered version in
    let zcash := overwintered || is_type Zcash tx_type in
    get (join_splits, join_split_pubkey, join_split_sig) :=
      (if zcash then read_join_splits overwintered version
       else pret ([], zeros 32, zeros 64)) in
    get binding_sig :=
      (if zcash then read_binding_sig overwintered version spends shielded_outputs
       else pret (zeros 64)) in
    get str_d_zeel := read_str_d_zeel tx_type in
    pret (mkTransaction version n_time overwintered version_group_id inputs outputs
            lock_time expiry_height spends shielded_outputs join_splits value_balance
            join_split_pubkey join_split_sig binding_sig zcash str_d_zeel DSHA256).

(** [Deserializable for Transaction]: takes the whole input and keeps the first
    of the three layouts that parses.  Nothing is left of the input, whatever
    the layout consumed. *)
Definition Transaction_deserialize : parser Transaction := λ buf,
  match deserialize_tx StandardWithWitness buf with
  | Ok (t, _) => Ok (t, [])
  | Err Panicked => Err Panicked
  | Err (Fail_with _) =>
      match deserialize_tx PosWithNTime buf with
      | Ok (t, _) => Ok (t, [])
      | Err Panicked => Err Panicked
      | Err (Fail_with _) =>
          match deserialize_tx Zcash buf with
          | Ok (t, _) => Ok (t, [])
          | Err e => Err e
          end
      end
  end.

(** [serialization::deserialize::<Transaction>]. *)
Definition deserialize_transaction (buffer : bytes) : result Transaction fault :=
  match Transaction_deserialize buffer with
  | Ok (t, rest) => if at_end rest then Ok t else Err (Fail_with UnreadData)
  | Err e => Err e
  end.

(** ** The parts are lawful *)

(** Runs a reader over the bytes its writer produced. *)
Ltac wire_step :=
  first
  [ rewrite <-app_assoc
  | rewrite pbind_assoc
  | rewrite pbind_pret
  | match goal with
    | |- context [pbind (de ?c) ?k (ser ?c ?a ++ ?rest)] =>
        rewrite (pbind_de c k a rest) by (assumption || reflexivity)
    end ].
Ltac wire := repeat wire_step.

#[global] Instance c_OutPoint_lawful : Lawful c_OutPoint.
Proof. intros [h i] rest Hf. cbn [ser de fits c_OutPoint op_hash op_index] in *. fits_inv. by wire. Qed.

#[global] Instance c_TransactionInput_lawful : Lawful c_TransactionInput.
Proof.
  intros [o s q [|w ws]] rest Hf;
    cbn [ser de fits c_TransactionInput previous_output script_sig sequence script_witness is_nil] in *;
    fits_inv; [by wire|done].
Qed.

#[global] Instance c_TransactionOutput_lawful : Lawful c_TransactionOutput.
Proof.
  intros [v s] rest Hf. cbn [ser de fits c_TransactionOutput value script_pubkey] in *.
  fits_inv. by wire.
Qed.

#[global] Instance c_ShieldedSpend_lawful : Lawful c_ShieldedSpend.
Proof.
  intros [] rest Hf. cbn [ser de fits c_ShieldedSpend sp_cv sp_anchor sp_nullifier sp_rk
    sp_zkproof spend_auth_sig] in *. fits_inv. by wire.
Qed.

#[global] Instance c_ShieldedOutput_lawful : Lawful c_ShieldedOutput.
Proof.
  intros [] rest Hf. cbn [ser de fits c_ShieldedOutput so_cv so_cmu so_ephemeral_key
    enc_cipher_text out_cipher_text so_zkproof] in *. fits_inv. by wire.
Qed.

#[global] Instance c_JoinSplitProof_lawful g : Lawful (c_JoinSplitProof g).
Proof.
  intros [p|p] rest Hf; cbn [ser de fits c_JoinSplitProof] in *; fits_inv;
    destruct g; try done; by wire.
Qed.

#[global] Instance c_JoinSplit_lawful g : Lawful (c_JoinSplit g).
Proof.
  intros [? ? ? [] [] ? ? [] ? []] rest Hf. unfold deserialize_join_split.
  cbn [ser de fits c_JoinSplit v_pub_old v_pub_new js_anchor nullifiers commitments
    js_ephemeral_key random_seed macs js_zkproof ciphertexts fst snd] in *.
  fits_inv. unfold deserialize_join_split. by wire.
Qed.

(** ** The transactions a layout can carry *)

Definition strip_input (i : TransactionInput) : TransactionInput :=
  mkTransactionInput (previous_output i) (script_sig i) (sequence i) [].

Definition strip_witness (tx : Transaction) : Transaction :=
  mkTransaction (version tx) (n_time tx) (overwintered tx) (version_group_id tx)
    (map strip_input (inputs tx)) (outputs tx) (lock_time tx) (expiry_height tx)
    (shielded_spends tx) (shielded_outputs tx) (join_splits tx) (value_balance tx)
    (join_split_pubkey tx) (join_split_sig tx) (binding_sig tx) (zcash tx)
    (str_d_zeel tx) (tx_hash_algo tx).

Definition version_fits (tx : Transaction) : bool :=
  (0 <=? version tx) && (version tx <? 2 ^ 31)
  && (if overwintered tx then fits c_u32 (version_group_id tx) else version_group_id tx =? 0).

Definition n_time_fits (t : TxType) (n : option Z) : bool :=
  match n with
  | Some n => is_type PosWithNTime t && fits c_u32 n
  | None => negb (is_type PosWithNTime t)
  end.

Definition io_fits (t : TxType) (tx : Transaction) : bool :=
  fits c_inputs (map strip_input (inputs tx))
  && forallb (λ i, fits c_witness (script_witness i)) (inputs tx)
  && fits c_outputs (outputs tx)
  && negb (is_nil (outputs tx) && is_type StandardWithWitness t)
  && negb (is_nil (inputs tx) && negb (overwintered tx) && is_type StandardWithWitness t)
  && fits c_u32 (lock_time tx).

Definition sapling_fits (tx : Transaction) : bool :=
  if overwintered tx && (3 <=? version tx)
  then fits c_u32 (expiry_height tx)
       && (if 4 <=? version tx
           then fits c_i64 (value_balance tx) && fits c_spends (shielded_spends tx)
                && fits c_shielded_outputs (shielded_outputs tx)
           else (value_balance tx =? 0) && is_nil (shielded_spends tx)
                && is_nil (shielded_outputs tx))
  else (expiry_height tx =? 0) && (value_balance tx =? 0) && is_nil (shielded_spends tx)
       && is_nil (shielded_outputs tx).

Definition join_splits_fit (tx : Transaction) : bool :=
  let no_splits := is_nil (join_splits tx) && bool_decide (join_split_pubkey tx = zeros 32)
                   && bool_decide (join_split_sig tx = zeros 64) in
  if zcash tx && ((version tx =? 2) || overwintered tx) && negb (is_nil (join_splits tx))
  then fits (c_list MAX_LIST_SIZE (c_JoinSplit (2 <? version tx))) (join_splits tx)
       && fits c_H256 (join_split_pubkey tx) && fits c_H512 (join_split_sig tx)
  else no_splits.

Definition binding_sig_fits (tx : Transaction) : bool :=
  if zcash tx && (overwintered tx && (4 <=? version tx)
     && negb (is_nil (shielded_spends tx) && is_nil (shielded_outputs tx)))
  then fits c_H512 (binding_sig tx)
  else bool_decide (binding_sig tx = zeros 64).

Definition str_d_zeel_fits (t : TxType) (s : option bytes) : bool :=
  match s with
  | Some s => is_type PosWithNTime t && is_utf8 s && (Z.of_nat (length s) <=? ISIZE_MAX)
  | None => true
  end.

(** [tx] has no field the layout [t] does not write, and its fields are within
    the limits of the reader. *)
Definition tx_fits (t : TxType) (tx : Transaction) : bool :=
  version_fits tx && n_time_fits t (n_time tx) && io_fits t tx && sapling_fits tx
  && Bool.eqb (zcash tx) (overwintered tx || is_type Zcash t)
  && join_splits_fit tx && binding_sig_fits tx && str_d_zeel_fits t (str_d_zeel tx)
  && bool_decide (tx_hash_algo tx = DSHA256).

(** ** Reading back each part *)

Lemma ser_inputs_strip ins : ser c_inputs ins = ser c_inputs (map strip_input ins).
Proof. cbn [ser c_list]. unfold append_list. by rewrite length_map, map_map. Qed.

Lemma overwintered_header v :
  0 ≤ v < 2 ^ 31 → Z.lor v (- 2 ^ 31) = v - 2 ^ 31.
Proof.
  intros. assert (Hl : Z.land v (- 2 ^ 31) = 0).
  { change (- 2 ^ 31) with (Z.lnot (Z.ones 31)). rewrite <-Z.ldiff_land, Z.ldiff_ones_r by lia.
    by rewrite Z.shiftr_div_pow2, Z.div_small by lia. }
  pose proof (Z.add_lor_land v (- 2 ^ 31)). lia.
Qed.

Lemma tx_header_back tx rest {B} (k : Z → parser B) :
  version_fits tx = true →
  pbind (de c_i32) k (ser c_i32 (tx_header tx) ++ rest) = k (tx_header tx) rest
  ∧ negb (Z.shiftr (tx_header tx) 31 =? 0) = overwintered tx
  ∧ (if overwintered tx then Z.land (tx_header tx) 0x7fffffff else tx_header tx) = version tx.
Proof.
  unfold version_fits, tx_header. intros. fits_inv. rewrite Z.shiftr_div_pow2 by lia.
  destruct (overwintered tx) eqn:Ho; [rewrite overwintered_header by lia|]; split_and!;
    try done; try (apply (pbind_de c_i32); cbn; zcases; done).
  - rewrite <-(Z.div_unique (version tx - 2 ^ 31) (2 ^ 31) (-1) (version tx)) by lia. done.
  - change 0x7fffffff with (Z.ones 31). rewrite Z.land_ones by lia.
    symmetry. apply (Z.mod_unique _ _ (-1)); lia.
  - by rewrite Z.div_small by lia.
Qed.

Lemma read_inputs_plain t ow ins rest :
  fits c_inputs ins = true →
  is_nil ins && negb ow && is_type StandardWithWitness t = false →
  read_inputs t ow (ser c_inputs ins ++ rest) = Ok ((ins, false), rest).
Proof. intros Hf Hn. unfold read_inputs. wire. by rewrite Hn. Qed.

Lemma read_inputs_envelope ins rest :
  fits c_inputs ins = true →
  read_inputs StandardWithWitness false
    (ser c_u8 WITNESS_MARKER ++ ser c_u8 WITNESS_FLAG ++ ser c_inputs ins ++ rest)
  = Ok ((ins, true), rest).
Proof.
  intros Hf. unfold read_inputs.
  change (ser c_u8 WITNESS_MARKER) with (ser c_inputs []). wire. cbn [is_nil negb andb].
  change (is_type StandardWithWitness StandardWithWitness) with true. cbv iota.
  wire. change (WITNESS_FLAG =? WITNESS_FLAG) with true. cbn [negb]. by wire.
Qed.

Lemma read_witnesses_back ins rest :
  forallb (λ i, fits c_witness (script_witness i)) ins = true →
  read_witnesses (map strip_input ins)
    (concat (map (λ i, ser c_witness (script_witness i)) ins) ++ rest) = Ok (ins, rest).
Proof.
  revert rest. induction ins as [|i ins IH]; intros rest Hf; [done|].
  cbn [forallb map concat read_witnesses] in *. fits_inv. wire.
  erewrite pbind_ok by by apply IH. by destruct i.
Qed.

Lemma is_nil_true {A} (l : list A) : is_nil l = true → l = [].
Proof. by destruct l. Qed.

(** Rewrites with the fields a [fits] condition fixes. *)
Ltac field_eqs :=
  repeat match goal with
  | H : (_ =? 0) = true |- _ => apply Z.eqb_eq in H; rewrite ?H
  | H : is_nil _ = true |- _ => apply is_nil_true in H; rewrite ?H
  | H : bool_decide (_ = _) = true |- _ => apply bool_decide_eq_true in H; rewrite ?H
  end.

Lemma read_sapling_back tx rest :
  sapling_fits tx = true →
  read_sapling (overwintered tx) (version tx) (ser_sapling tx ++ rest)
  = Ok ((expiry_height tx, value_balance tx, shielded_spends tx, shielded_outputs tx), rest).
Proof.
  unfold sapling_fits, read_sapling, ser_sapling. intros Hf.
  destruct (overwintered tx && (3 <=? version tx)); [destruct (4 <=? version tx)|];
    fits_inv; wire; field_eqs; done.
Qed.

Lemma read_join_splits_back tx rest :
  zcash tx = true → join_splits_fit tx = true →
  read_join_splits (overwintered tx) (version tx) (ser_join_splits tx ++ rest)
  = Ok ((join_splits tx, join_split_pubkey tx, join_split_sig tx), rest).
Proof.
  unfold join_splits_fit, read_join_splits, ser_join_splits. intros -> Hf. cbn [andb] in Hf.
  destruct ((version tx =? 2) || overwintered tx); cbn [andb] in Hf.
  - destruct (is_nil (join_splits tx)) eqn:Hn; cbn [andb negb] in Hf; fits_inv.
    + field_eqs.
      unfold append_list. cbn [length map concat]. change (CompactInteger_serialize (Z.of_nat 0))
        with (ser CompactInteger 0). wire. change (0 <? 0) with false. cbv iota. done.
    + cbn [fits c_list] in H. fits_inv. unfold append_list.
      change (CompactInteger_serialize ?z) with (ser CompactInteger z).
      rewrite <-!app_assoc. rewrite (pbind_de CompactInteger)
        by (apply CompactInteger_fits; unfold MAX_LIST_SIZE in *; lia).
      assert (0 < Z.of_nat (length (join_splits tx))) by (destruct (join_splits tx); [done|cbn; lia]).
      rewrite (proj2 (Z.ltb_lt 0 _)), (proj2 (Z.ltb_ge MAX_LIST_SIZE _)) by lia.
      erewrite pbind_ok by (apply read_items_app; intros; by eapply (fits_elem (c_JoinSplit _))).
      by wire.
  - fits_inv. by field_eqs.
Qed.

Lemma read_binding_sig_back tx rest :
  zcash tx = true → binding_sig_fits tx = true →
  read_binding_sig (overwintered tx) (version tx) (shielded_spends tx) (shielded_outputs tx)
    (ser_binding_sig tx ++ rest) = Ok (binding_sig tx, rest).
Proof.
  unfold binding_sig_fits, read_binding_sig, ser_binding_sig. intros -> Hf. cbn [andb] in Hf.
  rewrite (andb_comm (4 <=? _)), (andb_comm (is_nil (shielded_outputs tx))).
  destruct (overwintered tx && _ && _); [by apply de_ser|].
  by field_eqs.
Qed.

Lemma read_str_d_zeel_back t s rest :
  str_d_zeel_fits t s = true → (t = PosWithNTime → s = None → rest = []) →
  read_str_d_zeel t (ser_str_d_zeel s ++ rest) = Ok (s, rest).
Proof.
  unfold str_d_zeel_fits, read_str_d_zeel, ISIZE_MAX. intros Hf Hr.
  destruct s as [s|]; cbn [ser_str_d_zeel].
  - fits_inv. erewrite pbind_ok by reflexivity. rewrite <-app_assoc.
    replace (at_end _) with false; cycle 1.
    { cbn [ser CompactInteger]. unfold CompactInteger_serialize. by zcases. }
    rewrite H. cbn [andb negb]. rewrite (pbind_de CompactInteger) by (apply CompactInteger_fits; lia).
    zcases. erewrite pbind_ok by by apply read_slice_app. by rewrite H1.
  - cbn [app]. erewrite pbind_ok by reflexivity. unfold is_type.
    case_bool_decide; [|done]. by rewrite (Hr H eq_refl).
Qed.

Lemma version_group_back tx rest :
  version_fits tx = true →
  (if overwintered tx then de c_u32 else pret 0)
    ((if overwintered tx then ser c_u32 (version_group_id tx) else []) ++ rest)
  = Ok (version_group_id tx, rest).
Proof.
  unfold version_fits. intros. fits_inv. destruct (overwintered tx); [by apply de_ser|].
  by field_eqs.
Qed.

Lemma n_time_back t n rest :
  n_time_fits t n = true →
  (if is_type PosWithNTime t then get t := de c_u32 in pret (Some t) else pret None)
    ((match n with Some n => ser c_u32 n | None => [] end) ++ rest) = Ok (n, rest).
Proof.
  unfold n_time_fits. intros. destruct n; fits_inv; destruct (is_type _ _); try done. by wire.
Qed.

(** What follows the lock time. *)
Lemma zcash_back tx rest :
  join_splits_fit tx = true → binding_sig_fits tx = true →
  (if zcash tx then read_join_splits (overwintered tx) (version tx)
   else pret ([], zeros 32, zeros 64))
    ((if zcash tx then ser_join_splits tx ++ ser_binding_sig tx else []) ++ rest)
  = Ok ((join_splits tx, join_split_pubkey tx, join_split_sig tx),
        (if zcash tx then ser_binding_sig tx else []) ++ rest)
  ∧ (if zcash tx then read_binding_sig (overwintered tx) (version tx)
                        (shielded_spends tx) (shielded_outputs tx)
     else pret (zeros 64)) ((if zcash tx then ser_binding_sig tx else []) ++ rest)
    = Ok (binding_sig tx, rest).
Proof.
  intros Hj Hb. destruct (zcash tx) eqn:Hz.
  - rewrite <-app_assoc. split; [by apply read_join_splits_back|by apply read_binding_sig_back].
  - unfold join_splits_fit, binding_sig_fits in *. rewrite Hz in *. cbn [andb] in *.
    fits_inv. by field_eqs.
Qed.

Lemma deserialize_tx_plain t tx rest :
  tx_fits t tx = true → (t = PosWithNTime → str_d_zeel tx = None → rest = []) →
  ∀ flags, with_witness flags tx = false →
  deserialize_tx t (serialize_with_flags tx flags ++ rest) = Ok (strip_witness tx, rest).
Proof.
  unfold tx_fits, io_fits. intros Hf Hr flags Hw. fits_inv.
  unfold serialize_with_flags, deserialize_tx. rewrite Hw, ser_inputs_strip, <-!app_assoc.
  edestruct (tx_header_back tx) as (-> & Ho & Hv); [done|]. cbv beta zeta. rewrite Ho, Hv.
  erewrite pbind_ok by by apply version_group_back.
  erewrite pbind_ok by by apply n_time_back.
  erewrite pbind_ok by (apply read_inputs_plain; [done|]; by destruct (inputs tx); apply negb_true_iff).
  cbv beta iota. wire.
  rewrite (proj1 (negb_true_iff (is_nil (outputs tx) && _))) by done. cbv iota.
  erewrite pbind_ok by reflexivity. wire.
  erewrite pbind_ok by by apply read_sapling_back. cbv beta iota.
  rewrite <-(eqb_prop (zcash tx) _) by done.
  edestruct (zcash_back tx) as [Hz1 Hz2]; [done..|].
  erewrite pbind_ok by exact Hz1. cbv beta iota. erewrite pbind_ok by exact Hz2.
  erewrite pbind_ok by by apply read_str_d_zeel_back.
  unfold strip_witness, pret. repeat f_equal; symmetry; by eapply bool_decide_eq_true.
Qed.

(** The SegWit envelope carries none of the extensions. *)
Lemma deserialize_tx_envelope tx rest :
  tx_fits StandardWithWitness tx = true → overwintered tx = false →
  ∀ flags, with_witness flags tx = true →
  deserialize_tx StandardWithWitness (serialize_with_flags tx flags ++ rest) = Ok (tx, rest).
Proof.
  unfold tx_fits, io_fits. intros Hf Ho flags Hw. fits_inv.
  assert (Hh : tx_header tx = version tx) by (unfold tx_header; by rewrite Ho).
  unfold serialize_with_flags, deserialize_tx. rewrite Hw, ser_inputs_strip, <-!app_assoc, <-Hh.
  edestruct (tx_header_back tx) as (-> & Ho' & _); [done|]. cbv beta zeta. rewrite Ho', Ho, Hh.
  cbn [negb]. erewrite pbind_ok by reflexivity.
  change (is_type PosWithNTime StandardWithWitness) with false. cbv iota.
  erewrite pbind_ok by reflexivity.
  erewrite pbind_ok by by apply read_inputs_envelope.
  cbv beta iota. wire.
  rewrite (proj1 (negb_true_iff (is_nil (outputs tx) && _))) by done. cbv iota.
  erewrite pbind_ok by by apply read_witnesses_back. wire.
  assert (Hz : zcash tx = false) by (erewrite (eqb_prop (zcash tx)) by eassumption; by rewrite Ho).
  unfold sapling_fits, join_splits_fit, binding_sig_fits, n_time_fits, version_fits,
    str_d_zeel_fits in *.
  rewrite Ho, Hz in *. cbn [andb orb negb] in *. fits_inv.
  unfold read_sapling, read_str_d_zeel. cbn [andb orb].
  change (is_type PosWithNTime StandardWithWitness) with false in *.
  change (is_type Zcash StandardWithWitness) with false in *. cbn [andb negb] in *. cbv iota.
  repeat (erewrite pbind_ok by reflexivity; cbv beta iota).
  destruct tx as [? [] ? ? ? ? ? ? ? ? ? ? ? ? ? ? [] ?];
    cbn [version n_time overwintered version_group_id inputs outputs lock_time expiry_height
      shielded_spends shielded_outputs join_splits value_balance join_split_pubkey
      join_split_sig binding_sig zcash str_d_zeel tx_hash_algo] in *; try done.
  field_eqs. by subst.
Qed.

Lemma has_witness_strip tx : has_witness (strip_witness tx) = false.
Proof.
  unfold has_witness. cbn [inputs strip_witness]. by induction (inputs tx) as [|i l IH]; cbn.
Qed.

Lemma strip_no_witness tx : has_witness tx = false → strip_witness tx = tx.
Proof.
  intros Hw. destruct tx. unfold strip_witness, has_witness in *. cbn in *. f_equal.
  induction inputs0 as [|[? ? ? []] l IH]; cbn in *; [done| |done]. f_equal. by apply IH.
Qed.

(** The txid preimage does not cover the witness. *)
Lemma serialize_strip tx : serialize (strip_witness tx) = serialize tx.
Proof.
  unfold serialize, serialize_with_flags.
  assert (Hw : ∀ t, with_witness 0 t = false) by done.
  rewrite !Hw. change (inputs (strip_witness tx)) with (map strip_input (inputs tx)).
  by rewrite <-ser_inputs_strip.
Qed.

Lemma deserialize_tx_back t tx flags rest :
  tx_fits t tx = true →
  (with_witness flags tx = true → t = StandardWithWitness ∧ overwintered tx = false) →
  (t = PosWithNTime → str_d_zeel tx = None → rest = []) →
  deserialize_tx t (serialize_with_flags tx flags ++ rest)
  = Ok (if with_witness flags tx then tx else strip_witness tx, rest).
Proof.
  intros Hf Hw Hr. destruct (with_witness flags tx) eqn:E.
  - destruct (Hw eq_refl) as [-> Ho]. by apply deserialize_tx_envelope.
  - by apply deserialize_tx_plain.
Qed.

(** ** Properties *)

(** C26: every transaction a wire layout can carry is read back from what was
    written of it, in each of the three layouts (Bitcoin with or without the
    SegWit envelope and the overwintered extensions, PoS with [nTime] and the
    NavCoin trailer, Zcash without overwintering), byte for byte up to the
    input that follows, without its witness when the flags leave it out. *)
Theorem tx_roundtrip t tx flags rest :
  tx_fits t tx = true →
  (with_witness flags tx = true → t = StandardWithWitness ∧ overwintered tx = false) →
  (t = PosWithNTime → str_d_zeel tx = None → rest = []) →
  deserialize_tx t (serialize_with_flags tx flags ++ rest)
  = Ok (if with_witness flags tx then tx else strip_witness tx, rest).
Proof. apply deserialize_tx_back. Qed.

(** [deserialize], documented to require that every byte is consumed,
    returns a transaction for its bytes followed by any others: the instance
    for transactions takes the whole input and drops what the layout leaves.
    The transaction is the one written, and its txid preimage is unchanged. *)
Theorem trailing_bytes_accepted tx flags trailing :
  tx_fits StandardWithWitness tx = true →
  (with_witness flags tx = true → overwintered tx = false) →
  ∃ tx', deserialize_transaction (serialize_with_flags tx flags ++ trailing) = Ok tx'
    ∧ tx' = (if with_witness flags tx then tx else strip_witness tx)
    ∧ serialize tx' = serialize tx.
Proof.
  intros Hf Hw. eexists. split_and!; [|reflexivity|].
  - unfold deserialize_transaction, Transaction_deserialize.
    rewrite deserialize_tx_back; [done..|auto|done].
  - destruct (with_witness flags tx); [done|apply serialize_strip].
Qed.

(** A header without the overwintered bit, where [deserialize_tx] starts. *)
Lemma plain_header v :
  0 ≤ v < 2 ^ 31 →
  fits c_i32 v = true ∧ negb (Z.shiftr v 31 =? 0) = false.
Proof.
  intros. split; [cbn; zcases; done|]. rewrite Z.shiftr_div_pow2, Z.div_small by lia. done.
Qed.

Lemma standard_refuses v rest :
  0 ≤ v < 2 ^ 31 →
  deserialize_tx StandardWithWitness (ser c_i32 v ++ ser c_inputs [] ++ ser c_u8 0 ++ rest)
  = Err (Fail_with MalformedData).
Proof.
  intros [Hv Hs]%plain_header. unfold deserialize_tx. wire.
  rewrite Hs. cbv iota zeta beta. erewrite pbind_ok by reflexivity.
  change (is_type PosWithNTime StandardWithWitness) with false. cbv iota.
  erewrite pbind_ok by reflexivity. unfold read_inputs. unfold pbind at 1. wire.
  cbn [is_nil negb andb]. change (is_type StandardWithWitness StandardWithWitness) with true.
  cbv iota. wire. done.
Qed.

Lemma pos_panics v t lock len :
  0 ≤ v < 2 ^ 31 → fits c_u32 t = true → fits c_u32 lock = true → ISIZE_MAX < len < 2 ^ 64 →
  deserialize_tx PosWithNTime
    (ser c_i32 v ++ ser c_u32 t ++ ser c_inputs [] ++ ser c_outputs [] ++ ser c_u32 lock
     ++ ser CompactInteger len ++ []) = Err Panicked.
Proof.
  intros Hv Ht Hl Hlen. destruct (plain_header v Hv) as [Hv' Hs].
  unfold deserialize_tx. wire. rewrite Hs. cbv iota zeta beta.
  erewrite pbind_ok by reflexivity. change (is_type PosWithNTime PosWithNTime) with true. cbv iota.
  erewrite pbind_ok by (wire; reflexivity).
  erewrite pbind_ok by by apply read_inputs_plain. cbv beta iota. wire.
  cbn [is_nil andb]. change (is_type StandardWithWitness PosWithNTime) with false. cbv iota.
  erewrite pbind_ok by reflexivity. wire. unfold read_sapling. cbn [andb]. cbv iota.
  erewrite pbind_ok by reflexivity. cbv beta iota.
  change (false || is_type Zcash PosWithNTime) with false. cbv iota.
  do 2 (erewrite pbind_ok by reflexivity; cbv beta iota).
  assert (Hf : at_end (ser CompactInteger len ++ []) = false)
    by (unfold ISIZE_MAX in *; cbn [ser CompactInteger]; unfold CompactInteger_serialize; by zcases).
  unfold pbind at 1, read_str_d_zeel, p_at_end. unfold pbind at 1. rewrite Hf.
  change (is_type PosWithNTime PosWithNTime) with true. cbn [andb negb].
  rewrite (pbind_de CompactInteger) by (apply CompactInteger_fits; unfold ISIZE_MAX in *; lia).
  by zcases.
Qed.

(** a peer's bytes can panic the thread that decodes them.  A message that
    the Bitcoin layout refuses and the PoS layout reads up to its trailer makes
    the trailer's buffer as long as the wire says, before any of it is read:
    with a length above [isize::MAX] the allocation panics. *)
Theorem hostile_trailer_panics v lock len :
  0 ≤ v < 2 ^ 31 → fits c_u32 lock = true → ISIZE_MAX < len < 2 ^ 64 →
  deserialize_transaction
    (ser c_i32 v ++ zeros 6 ++ ser c_u32 lock ++ ser CompactInteger len) = Err Panicked.
Proof.
  intros Hv Hl Hlen. unfold deserialize_transaction, Transaction_deserialize.
  change (zeros 6) with (ser c_inputs [] ++ ser c_u8 0 ++ zeros 4) at 1.
  rewrite <-!app_assoc, standard_refuses by done.
  change (zeros 6) with (ser c_u32 0 ++ ser c_inputs [] ++ ser c_outputs []).
  rewrite <-!app_assoc, <-(app_nil_r (ser CompactInteger len)).
  by rewrite pos_panics.
Qed.

Lemma spends_from_saturates sum outs :
  0 ≤ sum < 2 ^ 64 → forallb (λ o, fits c_u64 (value o)) outs = true →
  spends_from sum outs = Z.min (2 ^ 64 - 1) (sum + foldr Z.add 0 (map value outs)).
Proof.
  revert sum. induction outs as [|o outs IH]; intros sum Hs Hf; cbn [spends_from map foldr]; [lia|].
  cbn [forallb] in Hf. fits_inv. cbn [fits le_uint] in H. fits_inv.
  change (2 ^ (Z.of_nat 8 * 8)) with (2 ^ 64) in *.
  assert (0 ≤ foldr Z.add 0 (map value outs)).
  { clear -H0. induction outs as [|o outs IH]; cbn in *; [done|]. fits_inv. specialize (IH ltac:(done)). lia. }
  rewrite !uwrap_id by (unfold is_u; lia). destruct (Z.ltb_spec (2 ^ 64 - 1 - sum) (value o)); [lia|].
  rewrite uwrap_id by (unfold is_u; lia). rewrite IH by (done || lia). lia.
Qed.

(** The outputs of a transaction are summed exactly, or saturate at the
    largest amount: the running sum never wraps around. *)
Theorem total_spends_saturates tx :
  forallb (λ o, fits c_u64 (value o)) (outputs tx) = true →
  total_spends tx = Z.min (2 ^ 64 - 1) (foldr Z.add 0 (map value (outputs tx))).
Proof. intros. unfold total_spends. by rewrite spends_from_saturates. Qed.

(** ** Concrete transactions *)
Module TxSample.

Definition output : TransactionOutput := mkTransactionOutput 10000 (hex "76a91488ac").
Definition input (w : list bytes) : TransactionInput :=
  mkTransactionInput (mkOutPoint (replicate 32 (z2b 7)) 1) (hex "5100") SEQUENCE_FINAL w.

Definition base (v : Z) (t : option Z) (ow : bool) (w : list bytes) (s : option bytes) : Transaction :=
  mkTransaction v t ow 0 [input w] [output; output] 500 0 [] [] [] 0 (zeros 32) (zeros 64)
    (zeros 64) ow s DSHA256.

Definition segwit : Transaction := base 2 None false [hex "3044"; hex "02ab"] None.
Definition legacy : Transaction := base 1 None false [] None.
Definition pos : Transaction := base 1 (Some 1700000000) false [] (Some (hex "6e617620c3a9")).

End TxSample.

Lemma tx_roundtrip_witness :
  deserialize_tx PosWithNTime (serialize_with_flags TxSample.pos 0 ++ [])
  = Ok (TxSample.pos, []).
Proof.
  apply (tx_roundtrip PosWithNTime TxSample.pos 0 []); [vm_compute; reflexivity|discriminate|discriminate].
Defined.

Lemma trailing_bytes_accepted_witness :
  ∃ tx', deserialize_transaction
           (serialize_with_flags TxSample.segwit SERIALIZE_TRANSACTION_WITNESS ++ hex "deadbeef")
         = Ok tx'
    ∧ tx' = TxSample.segwit ∧ serialize tx' = serialize TxSample.segwit.
Proof.
  apply (trailing_bytes_accepted TxSample.segwit SERIALIZE_TRANSACTION_WITNESS (hex "deadbeef"));
    [vm_compute; reflexivity|reflexivity].
Defined.

Lemma hostile_trailer_panics_witness :
  deserialize_transaction (hex "0100000000000000000000000000ffffffffffffffffff") = Err Panicked.
Proof.
  apply (hostile_trailer_panics 1 0 (2 ^ 64 - 1)); [lia|reflexivity|unfold ISIZE_MAX; lia].
Defined.
