(* ===== verification/Header.v ===== *)
(** * Header: block headers of every supported family (mm2src/kdf_chain/src/header.rs)

    One record holds the 80-byte Bitcoin header and the extensions of the
    other families.  The serializer writes the extensions that are present; a
    reader chooses the layout from the version value or, for the layouts a
    coin's configuration names, from the coin variant.  [from_served_bytes] and
    [list_from_served_bytes] are the entry points the chain backends use. *)

From stdpp Require Import base tactics list numbers strings option sets pretty.
From coqutil Require Import Byte Word.LittleEndianList.
From S2P Require Import Prelude Codec Tx.

Definition AUX_POW_VERSION_BIT : Z := 0x00000100.
Definition MTP_POW_VERSION : Z := 0x20001000.
Definition PROG_POW_SWITCH_TIME : Z := 1635228000.
Definition QTUM_BLOCK_HEADER_VERSION : Z := 536870912.
Definition KAWPOW_VERSION : Z := 805306368.
Definition VERUS_VERSION_BIT : Z := 0x00010000.
Definition MAX_MERKLE_BRANCH_HASHES : Z := 32.
Definition MAX_SOLUTION_BYTES : Z := 2 ^ 20.
Definition MAX_BLOCK_SIG_DLGT_BYTES : Z := 4096.
Definition MIN_RAW_HEADER_SIZE : Z := 80.

Inductive CoinVariant : Type := Standard | Qtum | Riecoin | KawpowAuxpowMixed | Lbc | Pivx.

Definition is_qtum (v : CoinVariant) : bool := match v with Qtum => true | _ => false end.

Definition from_header_layout (value : string) : option CoinVariant :=
  if String.eqb value "riecoin" then Some Riecoin
  else if String.eqb value "kawpow_auxpow_mixed" then Some KawpowAuxpowMixed
  else None.

(** ** Data *)

Inductive BlockHeaderNonce : Type :=
| NonceU32 (n : Z)
| NonceH256 (h : bytes).

Inductive BlockHeaderBits : Type :=
| BitsCompact (c : Z)
| BitsU32 (n : Z).

Record MerkleBranch : Type := mkMerkleBranch {
  branch_hashes : list bytes;
  branch_side_mask : Z
}.

Record ProgPow : Type := mkProgPow { pp_height : Z; n_nonce_64 : Z; pp_mix_hash : bytes }.

Record MtpPow : Type := mkMtpPow {
  n_version_mtp : Z; mtp_hash_value : bytes; reserved_0 : bytes; reserved_1 : bytes
}.

Inductive BlockHeader : Type := mkBlockHeader {
  h_version : Z;
  previous_header_hash : bytes;
  merkle_root_hash : bytes;
  hash_final_sapling_root : option bytes;
  time : Z;
  bits : BlockHeaderBits;
  nonce : BlockHeaderNonce;
  solution : option bytes;
  aux_pow : option AuxPow;
  prog_pow : option ProgPow;
  mtp_pow : option MtpPow;
  is_verus : bool;
  hash_state_root : option bytes;
  hash_utxo_root : option bytes;
  prevout_stake : option OutPoint;
  vch_block_sig_dlgt : option bytes;
  n_height : option Z;
  n_nonce_u64 : option Z;
  mix_hash : option bytes;
  wide_time : bool;
  claim_trie_root : option bytes;
  pivx_trailer : option bytes
}
with AuxPow : Type := mkAuxPow {
  coinbase_tx : Transaction;
  parent_block_hash : bytes;
  coinbase_branch : MerkleBranch;
  blockchain_branch : MerkleBranch;
  parent_block_header : BlockHeader
}.

Definition plain (version : Z) (previous merkle : bytes) (time : Z)
    (bits : BlockHeaderBits) (nonce : BlockHeaderNonce) : BlockHeader :=
  mkBlockHeader version previous merkle None time bits nonce None None None None false
    None None None None None None None false None None.

(** ** Codecs of the parts *)

(** One raw byte, as the items of a [Vec<u8>] list. *)
Definition c_byte : codec byte := Codec
  (λ b, ser c_u8 (b2z b)) (get v := de c_u8 in pret (z2b v)) (λ _, true).

Notation c_solution := (c_list MAX_SOLUTION_BYTES c_byte).
Notation c_block_sig := (c_list MAX_BLOCK_SIG_DLGT_BYTES c_byte).
Notation c_branch_hashes := (c_list MAX_MERKLE_BRANCH_HASHES c_H256).

Definition c_MerkleBranch : codec MerkleBranch := Codec
  (λ b, ser c_branch_hashes (branch_hashes b) ++ ser c_i32 (branch_side_mask b))
  (get hashes := de c_branch_hashes in get mask := de c_i32 in pret (mkMerkleBranch hashes mask))
  (λ b, fits c_branch_hashes (branch_hashes b) && fits c_i32 (branch_side_mask b)).

Definition c_ProgPow : codec ProgPow := Codec
  (λ p, ser c_u32 (pp_height p) ++ ser c_u64 (n_nonce_64 p) ++ ser c_H256 (pp_mix_hash p))
  (get height := de c_u32 in get nonce := de c_u64 in get mix := de c_H256 in
   pret (mkProgPow height nonce mix))
  (λ p, fits c_u32 (pp_height p) && fits c_u64 (n_nonce_64 p) && fits c_H256 (pp_mix_hash p)).

Definition c_MtpPow : codec MtpPow := Codec
  (λ p, ser c_i32 (n_version_mtp p) ++ ser c_H256 (mtp_hash_value p)
        ++ ser c_H256 (reserved_0 p) ++ ser c_H256 (reserved_1 p))
  (get v := de c_i32 in get h := de c_H256 in get r0 := de c_H256 in get r1 := de c_H256 in
   pret (mkMtpPow v h r0 r1))
  (λ p, fits c_i32 (n_version_mtp p) && fits c_H256 (mtp_hash_value p)
        && fits c_H256 (reserved_0 p) && fits c_H256 (reserved_1 p)).

Definition ser_nonce (n : BlockHeaderNonce) : bytes :=
  match n with NonceU32 n => ser c_u32 n | NonceH256 h => ser c_H256 h end.
Definition ser_bits (b : BlockHeaderBits) : bytes :=
  match b with BitsCompact c => ser c_Compact c | BitsU32 n => ser c_u32 n end.

Definition opt_ser {A} (s : A → bytes) (o : option A) : bytes :=
  match o with Some a => s a | None => [] end.

Definition is_none {A} (o : option A) : bool := match o with None => true | Some _ => false end.

(** ** Serialization *)

Fixpoint ser_header (h : BlockHeader) : bytes :=
  ser c_u32 (if is_verus h then Z.lxor (h_version h) VERUS_VERSION_BIT else h_version h)
  ++ ser c_H256 (previous_header_hash h) ++ ser c_H256 (merkle_root_hash h)
  ++ opt_ser (ser c_H256) (claim_trie_root h)
  ++ opt_ser (ser c_H256) (hash_final_sapling_root h)
  ++ (if wide_time h then ser c_u64 (time h) else ser c_u32 (time h))
  ++ ser_bits (bits h)
  ++ (if is_none (n_height h) && is_none (prog_pow h) then ser_nonce (nonce h) else [])
  ++ opt_ser (ser c_H256) (pivx_trailer h)
  ++ opt_ser (ser c_solution) (solution h)
  ++ (match aux_pow h with Some pow => ser_aux_pow pow | None => [] end)
  ++ opt_ser (ser c_ProgPow) (prog_pow h)
  ++ opt_ser (ser c_MtpPow) (mtp_pow h)
  ++ opt_ser (ser c_H256) (hash_state_root h)
  ++ opt_ser (ser c_H256) (hash_utxo_root h)
  ++ opt_ser (ser c_OutPoint) (prevout_stake h)
  ++ opt_ser (ser c_block_sig) (vch_block_sig_dlgt h)
  ++ opt_ser (ser c_u32) (n_height h)
  ++ opt_ser (ser c_u64) (n_nonce_u64 h)
  ++ opt_ser (ser c_H256) (mix_hash h)
with ser_aux_pow (p : AuxPow) : bytes :=
  serialize (coinbase_tx p) ++ ser c_H256 (parent_block_hash p)
  ++ ser c_MerkleBranch (coinbase_branch p) ++ ser c_MerkleBranch (blockchain_branch p)
  ++ ser_header (parent_block_header p).

(** ** Readers *)

Definition read_standard_after_version (version : Z) : parser BlockHeader :=
  get previous := de c_H256 in
  get merkle := de c_H256 in
  get time := de c_u32 in
  get bits := de c_Compact in
  get nonce := de c_u32 in
  pret (plain version previous merkle time (BitsCompact bits) (NonceU32 nonce)).

Definition read_standard : parser BlockHeader :=
  get version := de c_u32 in read_standard_after_version version.

Definition read_aux_pow : parser AuxPow :=
  get coinbase_tx := deserialize_tx StandardWithWitness in
  get parent_hash := de c_H256 in
  get coinbase_branch := de c_MerkleBranch in
  get blockchain_branch := de c_MerkleBranch in
  get parent := read_standard in
  pret (mkAuxPow coinbase_tx parent_hash coinbase_branch blockchain_branch parent).

(** The 112-byte Riecoin layout; a time above 32 bits is an error. *)
Definition read_riecoin : parser BlockHeader :=
  get version := de c_u32 in
  get previous := de c_H256 in
  get merkle := de c_H256 in
  get time := de c_u64 in
  if negb (time <? 2 ^ 32) then perr (Custom ("header time " +:+ pretty time +:+ " is above the 32-bit range"))
  else
    get bits := de c_Compact in
    get nonce := de c_H256 in
    pret (mkBlockHeader version previous merkle None time (BitsCompact bits) (NonceH256 nonce)
            None None None None false None None None None None None None true None None).

Definition read_lbc : parser BlockHeader :=
  get version := de c_u32 in
  get previous := de c_H256 in
  get merkle := de c_H256 in
  get claim_trie_root := de c_H256 in
  get time := de c_u32 in
  get bits := de c_Compact in
  get nonce := de c_u32 in
  pret (mkBlockHeader version previous merkle None time (BitsCompact bits) (NonceU32 nonce)
          None None None None false None None None None None None None false
          (Some claim_trie_root) None).

Definition pivx_has_trailer (version : Z) : bool :=
  ((4 <=? version) && (version <=? 6)) || (8 <=? version).

Definition read_pivx : parser BlockHeader :=
  get version := de c_u32 in
  get header := read_standard_after_version version in
  if pivx_has_trailer version
  then
    get trailer := de c_H256 in
    pret (mkBlockHeader version (previous_header_hash header) (merkle_root_hash header) None
            (time header) (bits header) (nonce header) None None None None false
            None None None None None None None false None (Some trailer))
  else pret header.

Definition aux_flag (version : Z) : bool := negb (Z.land version AUX_POW_VERSION_BIT =? 0).

Definition read_mixed (allow_proof : bool) : parser BlockHeader :=
  get version := de c_u32 in
  if aux_flag version
  then
    get header := read_standard_after_version version in
    get finished := p_at_end in
    if allow_proof && negb finished
    then
      get pow := read_aux_pow in
      pret (mkBlockHeader version (previous_header_hash header) (merkle_root_hash header) None
              (time header) (bits header) (nonce header) None (Some pow) None None false
              None None None None None None None false None None)
    else pret header
  else
    get previous := de c_H256 in
    get merkle := de c_H256 in
    get time := de c_u32 in
    get bits := de c_Compact in
    get height := de c_u32 in
    get nonce := de c_u64 in
    get mix := de c_H256 in
    pret (mkBlockHeader version previous merkle None time (BitsCompact bits) (NonceU32 0)
            None None None None false None None None None (Some height) (Some nonce) (Some mix)
            false None None).

(** Reads an optional part when the condition holds. *)
Definition read_if {A} (cond : bool) (p : parser A) : parser (option A) :=
  if cond then get a := p in pret (Some a) else pret None.

(** [Deserializable for BlockHeader]: the layout follows from the version value
    and, for Qtum, from the coin variant. *)
Definition BlockHeader_deserialize (variant : CoinVariant) : parser BlockHeader :=
  get wire_version := de c_u32 in
  let is_verus := Z.lxor wire_version VERUS_VERSION_BIT =? 4 in
  let version := if is_verus then Z.lxor wire_version VERUS_VERSION_BIT else wire_version in
  get previous := de c_H256 in
  get merkle := de c_H256 in
  get sapling_root := read_if (version =? 4) (de c_H256) in
  get time := de c_u32 in
  get bits := (if version =? 4 then get b := de c_u32 in pret (BitsU32 b)
               else get b := de c_Compact in pret (BitsCompact b)) in
  let is_prog_pow := (version =? MTP_POW_VERSION) && (PROG_POW_SWITCH_TIME <=? time) in
  get nonce := (if version =? 4 then get h := de c_H256 in pret (NonceH256 h)
                else if (version =? KAWPOW_VERSION) || is_prog_pow then pret (NonceU32 0)
                else get n := de c_u32 in pret (NonceU32 n)) in
  get solution := read_if (version =? 4) (de c_solution) in
  get aux_pow := read_if (aux_flag version) read_aux_pow in
  get prog_pow := read_if is_prog_pow (de c_ProgPow) in
  get mtp_pow := read_if ((version =? MTP_POW_VERSION) && (time <? PROG_POW_SWITCH_TIME)
                          && is_none prog_pow) (de c_MtpPow) in
  let qtum := (version =? QTUM_BLOCK_HEADER_VERSION) && is_qtum variant in
  get state_root := read_if qtum (de c_H256) in
  get utxo_root := read_if qtum (de c_H256) in
  get prevout := read_if qtum (de c_OutPoint) in
  get block_sig := read_if qtum (de c_block_sig) in
  let kawpow := version =? KAWPOW_VERSION in
  get height := read_if kawpow (de c_u32) in
  get nonce_u64 := read_if kawpow (de c_u64) in
  get mix := read_if kawpow (de c_H256) in
  pret (mkBlockHeader version previous merkle sapling_root time bits nonce solution aux_pow
          prog_pow mtp_pow is_verus state_root utxo_root prevout block_sig height nonce_u64 mix
          false None None).

(** ** Entry points *)

(** [read_all]: runs [read] and requires that it consumed every byte. *)
Definition read_all {A} (b : bytes) (read : parser A) : result A fault :=
  match read b with
  | Ok (value, rest) => if at_end rest then Ok value else Err (Fail_with UnreadData)
  | Err e => Err e
  end.

(** A failed parse of inputs of exactly the standard length is repeated with
    the standard layout. *)
Definition or_standard {A} (fallback : bool) (parsed standard : result A fault) : result A fault :=
  match parsed with
  | Err (Fail_with _) => if fallback then standard else parsed
  | _ => parsed
  end.

Definition from_served_bytes (b : bytes) (variant : CoinVariant) : result BlockHeader fault :=
  let len_80 := Z.of_nat (length b) =? MIN_RAW_HEADER_SIZE in
  match variant with
  | Riecoin => read_all b read_riecoin
  | KawpowAuxpowMixed =>
      or_standard len_80 (read_all b (read_mixed true)) (read_all b read_standard)
  | Lbc => read_all b read_lbc
  | Pivx => or_standard len_80 (read_all b read_pivx) (read_all b read_standard)
  | Standard | Qtum =>
      or_standard (negb (is_qtum variant) && len_80)
        (read_all b (BlockHeader_deserialize variant)) (read_all b read_standard)
  end.

(** [(0..count).map(read).collect()]: stops at the first error. *)
Fixpoint read_count {A} (count : nat) (p : parser A) : parser (list A) :=
  match count with
  | O => pret []
  | S count => get a := p in get l := read_count count p in pret (a :: l)
  end.

Definition list_from_served_bytes (b : bytes) (count : nat) (variant : CoinVariant)
    : result (list BlockHeader) fault :=
  let len_80 := Z.of_nat (length b) =? Z.of_nat count * MIN_RAW_HEADER_SIZE in
  let standard := read_all b (read_count count read_standard) in
  match variant with
  | Riecoin => read_all b (read_count count read_riecoin)
  | KawpowAuxpowMixed =>
      or_standard len_80 (read_all b (read_count count (read_mixed false))) standard
  | Lbc => read_all b (read_count count read_lbc)
  | Pivx => or_standard len_80 (read_all b (read_count count read_pivx)) standard
  | Standard | Qtum =>
      or_standard (negb (is_qtum variant) && len_80)
        (read_all b (read_count count (BlockHeader_deserialize variant))) standard
  end.

(** ** The headers a layout can carry *)

(** An optional part is present exactly when the layout has it. *)
Definition opt_fits {A} (cond : bool) (f : A → bool) (o : option A) : bool :=
  match o with Some a => cond && f a | None => negb cond end.

Definition base_fits (h : BlockHeader) : bool :=
  fits c_u32 (h_version h) && fits c_H256 (previous_header_hash h)
  && fits c_H256 (merkle_root_hash h) && fits c_u32 (time h).

Definition bits_fit (raw : bool) (b : BlockHeaderBits) : bool :=
  match b with
  | BitsCompact c => negb raw && fits c_Compact c
  | BitsU32 n => raw && fits c_u32 n
  end.

(** [wide]: the 256-bit nonce; [trailer]: the nonce is in a trailer and the
    slot is not on the wire. *)
Definition nonce_fits (wide trailer : bool) (n : BlockHeaderNonce) : bool :=
  match n with
  | NonceH256 h => wide && fits c_H256 h
  | NonceU32 n => negb wide && (if trailer then n =? 0 else fits c_u32 n)
  end.

(** The extensions of the version-inferred layouts only. *)
Definition no_inferred_ext (h : BlockHeader) : bool :=
  is_none (hash_final_sapling_root h) && is_none (solution h) && is_none (prog_pow h)
  && is_none (mtp_pow h) && negb (is_verus h) && is_none (hash_state_root h)
  && is_none (hash_utxo_root h) && is_none (prevout_stake h) && is_none (vch_block_sig_dlgt h).

(** A header of a layout with the given parts (the AuxPoW proof apart). *)
Definition layout_fits (wide kawpow claim pivx : bool) (h : BlockHeader) : bool :=
  base_fits h && bits_fit false (bits h) && nonce_fits wide kawpow (nonce h)
  && no_inferred_ext h && Bool.eqb (wide_time h) wide
  && opt_fits kawpow (fits c_u32) (n_height h) && opt_fits kawpow (fits c_u64) (n_nonce_u64 h)
  && opt_fits kawpow (fits c_H256) (mix_hash h)
  && opt_fits claim (fits c_H256) (claim_trie_root h)
  && opt_fits pivx (fits c_H256) (pivx_trailer h).

Definition standard_fits (h : BlockHeader) : bool :=
  layout_fits false false false false h && is_none (aux_pow h).

Definition aux_fits (p : AuxPow) : bool :=
  tx_fits StandardWithWitness (coinbase_tx p) && negb (has_witness (coinbase_tx p))
  && fits c_H256 (parent_block_hash p) && fits c_MerkleBranch (coinbase_branch p)
  && fits c_MerkleBranch (blockchain_branch p) && standard_fits (parent_block_header p).

Definition is_prog_pow (h : BlockHeader) : bool :=
  (h_version h =? MTP_POW_VERSION) && (PROG_POW_SWITCH_TIME <=? time h).

(** A header of the layout its version value names. *)
Definition inferred_fits (variant : CoinVariant) (h : BlockHeader) : bool :=
  let v4 := h_version h =? 4 in
  let prog := is_prog_pow h in
  let kawpow := h_version h =? KAWPOW_VERSION in
  let qtum := (h_version h =? QTUM_BLOCK_HEADER_VERSION) && is_qtum variant in
  base_fits h
  && (if is_verus h then v4 else negb (Z.lxor (h_version h) VERUS_VERSION_BIT =? 4))
  && opt_fits v4 (fits c_H256) (hash_final_sapling_root h)
  && bits_fit v4 (bits h) && nonce_fits v4 (kawpow || prog) (nonce h)
  && opt_fits v4 (fits c_solution) (solution h)
  && opt_fits (aux_flag (h_version h)) aux_fits (aux_pow h)
  && opt_fits prog (fits c_ProgPow) (prog_pow h)
  && opt_fits ((h_version h =? MTP_POW_VERSION) && (time h <? PROG_POW_SWITCH_TIME)
               && is_none (prog_pow h)) (fits c_MtpPow) (mtp_pow h)
  && opt_fits qtum (fits c_H256) (hash_state_root h)
  && opt_fits qtum (fits c_H256) (hash_utxo_root h)
  && opt_fits qtum (fits c_OutPoint) (prevout_stake h)
  && opt_fits qtum (fits c_block_sig) (vch_block_sig_dlgt h)
  && opt_fits kawpow (fits c_u32) (n_height h) && opt_fits kawpow (fits c_u64) (n_nonce_u64 h)
  && opt_fits kawpow (fits c_H256) (mix_hash h)
  && negb (wide_time h) && is_none (claim_trie_root h) && is_none (pivx_trailer h).

Definition mixed_fits (allow_proof : bool) (h : BlockHeader) : bool :=
  layout_fits false (negb (aux_flag (h_version h))) false false h
  && match aux_pow h with
     | Some p => aux_flag (h_version h) && allow_proof && aux_fits p
     | None => true
     end.

(** [lone]: the header is served alone, so that a proof may follow it. *)
Definition header_fits (lone : bool) (variant : CoinVariant) (h : BlockHeader) : bool :=
  match variant with
  | Standard | Qtum => inferred_fits variant h
  | Riecoin => layout_fits true false false false h && is_none (aux_pow h)
  | KawpowAuxpowMixed => mixed_fits lone h
  | Lbc => layout_fits false false true false h && is_none (aux_pow h)
  | Pivx => layout_fits false false false (pivx_has_trailer (h_version h)) h && is_none (aux_pow h)
  end.

(** ** Reading back each layout *)

#[global] Instance c_byte_lawful : Lawful c_byte.
Proof.
  intros b rest _. cbn [ser de c_byte]. pose proof (b2z_range b).
  rewrite (pbind_de c_u8) by (cbn; zcases; done). unfold pret. by rewrite z2b_b2z.
Qed.

#[global] Instance c_MerkleBranch_lawful : Lawful c_MerkleBranch.
Proof.
  intros [] rest Hf. cbn [ser de fits c_MerkleBranch branch_hashes branch_side_mask] in *.
  fits_inv. by wire.
Qed.

#[global] Instance c_ProgPow_lawful : Lawful c_ProgPow.
Proof.
  intros [] rest Hf. cbn [ser de fits c_ProgPow pp_height n_nonce_64 pp_mix_hash] in *.
  fits_inv. by wire.
Qed.

#[global] Instance c_MtpPow_lawful : Lawful c_MtpPow.
Proof.
  intros [] rest Hf. cbn [ser de fits c_MtpPow n_version_mtp mtp_hash_value reserved_0 reserved_1] in *.
  fits_inv. by wire.
Qed.

#[global] Instance c_Compact_lawful : Lawful c_Compact := le_uint_lawful 4.

Lemma read_if_back {A B} cond (c : codec A) `{!Lawful c} o rest (k : option A → parser B) :
  opt_fits cond (fits c) o = true →
  pbind (read_if cond (de c)) k (opt_ser (ser c) o ++ rest) = k o rest.
Proof.
  intros Hf. apply pbind_ok. destruct o, cond; cbn [opt_fits andb negb] in Hf; try done.
  cbn [read_if opt_ser]. by wire.
Qed.

Lemma is_none_true {A} (o : option A) : is_none o = true → o = None.
Proof. by destruct o. Qed.

Lemma opt_fits_absent {A} (f : A → bool) o : opt_fits false f o = true → o = None.
Proof. by destruct o. Qed.

Lemma opt_fits_present {A} (f : A → bool) o : opt_fits true f o = true → ∃ a, o = Some a ∧ f a = true.
Proof. destruct o as [a|]; [by exists a|done]. Qed.

Lemma bits_compact b : bits_fit false b = true → ∃ c, b = BitsCompact c ∧ fits c_Compact c = true.
Proof. destruct b as [c|]; [by exists c|done]. Qed.

Lemma bits_raw b : bits_fit true b = true → ∃ n, b = BitsU32 n ∧ fits c_u32 n = true.
Proof. destruct b as [|n]; [done|by exists n]. Qed.

Lemma nonce_wide t n : nonce_fits true t n = true → ∃ h, n = NonceH256 h ∧ fits c_H256 h = true.
Proof. destruct n as [|h]; [done|by exists h]. Qed.

Lemma nonce_slot n : nonce_fits false false n = true → ∃ z, n = NonceU32 z ∧ fits c_u32 z = true.
Proof. destruct n as [z|]; [by exists z|done]. Qed.

Lemma nonce_trailer n : nonce_fits false true n = true → n = NonceU32 0.
Proof. destruct n as [z|]; [|done]. cbn. by intros ->%Z.eqb_eq. Qed.

Lemma ser_header_eq h :
  ser_header h =
  ser c_u32 (if is_verus h then Z.lxor (h_version h) VERUS_VERSION_BIT else h_version h)
  ++ ser c_H256 (previous_header_hash h) ++ ser c_H256 (merkle_root_hash h)
  ++ opt_ser (ser c_H256) (claim_trie_root h)
  ++ opt_ser (ser c_H256) (hash_final_sapling_root h)
  ++ (if wide_time h then ser c_u64 (time h) else ser c_u32 (time h))
  ++ ser_bits (bits h)
  ++ (if is_none (n_height h) && is_none (prog_pow h) then ser_nonce (nonce h) else [])
  ++ opt_ser (ser c_H256) (pivx_trailer h)
  ++ opt_ser (ser c_solution) (solution h)
  ++ opt_ser ser_aux_pow (aux_pow h)
  ++ opt_ser (ser c_ProgPow) (prog_pow h)
  ++ opt_ser (ser c_MtpPow) (mtp_pow h)
  ++ opt_ser (ser c_H256) (hash_state_root h)
  ++ opt_ser (ser c_H256) (hash_utxo_root h)
  ++ opt_ser (ser c_OutPoint) (prevout_stake h)
  ++ opt_ser (ser c_block_sig) (vch_block_sig_dlgt h)
  ++ opt_ser (ser c_u32) (n_height h)
  ++ opt_ser (ser c_u64) (n_nonce_u64 h)
  ++ opt_ser (ser c_H256) (mix_hash h).
Proof. by destruct h. Qed.

(** Turns the layout conditions into equations of the fields. *)
Ltac header_eqs :=
  repeat match goal with
  | H : is_none _ = true |- _ => apply is_none_true in H
  | H : negb _ = true |- _ => apply negb_true_iff in H
  | H : Bool.eqb _ _ = true |- _ => apply eqb_prop in H
  | H : opt_fits false _ _ = true |- _ => apply opt_fits_absent in H
  | H : opt_fits true _ _ = true |- _ => apply opt_fits_present in H as (? & H & ?)
  | H : bits_fit false _ = true |- _ => apply bits_compact in H as (? & H & ?)
  | H : bits_fit true _ = true |- _ => apply bits_raw in H as (? & H & ?)
  | H : nonce_fits true _ _ = true |- _ => apply nonce_wide in H as (? & H & ?)
  | H : nonce_fits false false _ = true |- _ => apply nonce_slot in H as (? & H & ?)
  | H : nonce_fits false true _ = true |- _ => apply nonce_trailer in H
  end.

(** Rewrites the goal with the equations of the fields of a header. *)
Ltac header_rw :=
  repeat match goal with
  | H : ?f ?h = _ |- _ =>
      lazymatch type of h with BlockHeader => rewrite H; revert H | _ => fail end
  end; intros; cbn [opt_ser ser_bits ser_nonce is_none andb]; cbn [app].

(** A header is the record of its fields. *)
Ltac header_eta h :=
  destruct h; cbn [h_version previous_header_hash merkle_root_hash hash_final_sapling_root time
    bits nonce solution aux_pow prog_pow mtp_pow is_verus hash_state_root hash_utxo_root
    prevout_stake vch_block_sig_dlgt n_height n_nonce_u64 mix_hash wide_time claim_trie_root
    pivx_trailer] in *; subst; reflexivity.

Ltac layout_inv := unfold standard_fits, layout_fits, base_fits, no_inferred_ext in *; fits_inv; header_eqs.

(** A header without extensions. *)
Lemma standard_back h rest :
  standard_fits h = true → read_standard (ser_header h ++ rest) = Ok (h, rest).
Proof.
  intros Hf. rewrite ser_header_eq. layout_inv. header_rw.
  unfold read_standard, read_standard_after_version. wire. unfold pret, plain. by header_eta h.
Qed.

Lemma aux_pow_back p rest :
  aux_fits p = true → read_aux_pow (ser_aux_pow p ++ rest) = Ok (p, rest).
Proof.
  destruct p as [tx ph cb bb parent]. unfold aux_fits, read_aux_pow. intros. fits_inv.
  cbn [coinbase_tx parent_block_hash coinbase_branch blockchain_branch parent_block_header] in *.
  change (ser_aux_pow _) with (serialize tx ++ ser c_H256 ph ++ ser c_MerkleBranch cb
    ++ ser c_MerkleBranch bb ++ ser_header parent).
  rewrite <-!app_assoc. unfold serialize.
  erewrite pbind_ok by by apply deserialize_tx_plain. rewrite strip_no_witness by by apply negb_true_iff.
  wire. erewrite pbind_ok by by apply standard_back. done.
Qed.

Lemma riecoin_back h rest :
  layout_fits true false false false h && is_none (aux_pow h) = true →
  read_riecoin (ser_header h ++ rest) = Ok (h, rest).
Proof.
  intros Hf. rewrite ser_header_eq. layout_inv. header_rw. unfold read_riecoin.
  assert (0 ≤ time h < 2 ^ 32) as Ht.
  { assert (Hu : fits c_u32 (time h) = true) by done. cbn in Hu. fits_inv.
    change (2 ^ (Z.of_nat 4 * 8)) with (2 ^ 32) in *. lia. }
  assert (fits c_u64 (time h) = true) by (cbn; change (2 ^ (Z.of_nat 8 * 8)) with (2 ^ 64); zcases; done).
  wire. rewrite (proj2 (Z.ltb_lt (time h) (2 ^ 32))) by lia. cbn [negb]. wire.
  unfold pret. by header_eta h.
Qed.

Lemma lbc_back h rest :
  layout_fits false false true false h && is_none (aux_pow h) = true →
  read_lbc (ser_header h ++ rest) = Ok (h, rest).
Proof.
  intros Hf. rewrite ser_header_eq. layout_inv. header_rw. unfold read_lbc. wire.
  unfold pret. by header_eta h.
Qed.

Lemma pivx_back h rest :
  layout_fits false false false (pivx_has_trailer (h_version h)) h && is_none (aux_pow h) = true →
  read_pivx (ser_header h ++ rest) = Ok (h, rest).
Proof.
  intros Hf. unfold read_pivx, read_standard_after_version, plain. rewrite ser_header_eq.
  destruct (pivx_has_trailer (h_version h)) eqn:E; layout_inv; header_rw; wire; rewrite E; wire;
    unfold pret; by header_eta h.
Qed.

Lemma mixed_back allow h rest :
  mixed_fits allow h = true → (allow = true → aux_pow h = None → rest = []) →
  read_mixed allow (ser_header h ++ rest) = Ok (h, rest).
Proof.
  unfold mixed_fits, read_mixed, read_standard_after_version, plain. intros Hf Hr.
  apply andb_inv in Hf as [Hf Ha]. rewrite ser_header_eq.
  destruct (aux_flag (h_version h)) eqn:E; cbn [negb] in Hf; layout_inv;
    destruct (aux_pow h) as [p|] eqn:Ep; fits_inv; try done; header_rw; wire; rewrite E; wire.
  - erewrite pbind_ok by reflexivity.
    replace (at_end _) with false
      by (cbn [ser_aux_pow]; unfold serialize, serialize_with_flags; by destruct p).
    destruct allow; [|done]. cbn [negb andb]. erewrite pbind_ok by by apply aux_pow_back.
    unfold pret. by header_eta h.
  - erewrite pbind_ok by reflexivity. cbn [app]. replace (allow && negb (at_end rest)) with false;
      [unfold pret; by header_eta h|]. destruct allow; [|done]. by rewrite Hr.
  - unfold pret. by header_eta h.
Qed.

Lemma opt_fits_none {A} cond (f : A → bool) o : opt_fits cond f o = true → is_none o = negb cond.
Proof. by destruct o, cond. Qed.

Lemma read_if_aux {B} cond o rest (k : option AuxPow → parser B) :
  opt_fits cond aux_fits o = true →
  pbind (read_if cond read_aux_pow) k (opt_ser ser_aux_pow o ++ rest) = k o rest.
Proof.
  intros Hf. apply pbind_ok. destruct o, cond; cbn [opt_fits andb negb] in Hf; try done.
  cbn [read_if opt_ser]. by erewrite pbind_ok by by apply aux_pow_back.
Qed.

(** The version as written, and the flag and the version read from it. *)
Lemma verus_back h :
  fits c_u32 (h_version h) = true →
  (if is_verus h then h_version h =? 4
   else negb (Z.lxor (h_version h) VERUS_VERSION_BIT =? 4)) = true →
  let w := if is_verus h then Z.lxor (h_version h) VERUS_VERSION_BIT else h_version h in
  fits c_u32 w = true ∧ (Z.lxor w VERUS_VERSION_BIT =? 4) = is_verus h
  ∧ (if is_verus h then Z.lxor w VERUS_VERSION_BIT else w) = h_version h.
Proof.
  intros Hv. destruct (is_verus h).
  - intros ->%Z.eqb_eq. done.
  - intros ?%negb_true_iff. done.
Qed.

Lemma bits_back {B} v4 b rest (k : BlockHeaderBits → parser B) :
  bits_fit v4 b = true →
  pbind (if v4 then get b := de c_u32 in pret (BitsU32 b)
         else get b := de c_Compact in pret (BitsCompact b)) k (ser_bits b ++ rest) = k b rest.
Proof.
  intros Hf. destruct v4; header_eqs; subst; cbn [ser_bits]; by wire.
Qed.

Lemma nonce_back {B} (v4 kawpow prog : bool) n rest (k : BlockHeaderNonce → parser B) :
  nonce_fits v4 (kawpow || prog) n = true → v4 && (kawpow || prog) = false →
  pbind (if v4 then get h := de c_H256 in pret (NonceH256 h)
         else if kawpow || prog then pret (NonceU32 0)
         else get n := de c_u32 in pret (NonceU32 n)) k
    ((if negb kawpow && negb prog then ser_nonce n else []) ++ rest) = k n rest.
Proof.
  intros Hf He. rewrite <-negb_orb. destruct v4, (kawpow || prog); try done;
    header_eqs; subst; cbn [negb ser_nonce]; by wire.
Qed.

(** A header of the layout its version value names. *)
Lemma inferred_back variant h rest :
  inferred_fits variant h = true →
  BlockHeader_deserialize variant (ser_header h ++ rest) = Ok (h, rest).
Proof.
  unfold inferred_fits, base_fits, is_prog_pow, BlockHeader_deserialize. intros. fits_inv.
  rewrite ser_header_eq. destruct (verus_back h) as (Hw & Hv & Hv'); [done..|].
  rewrite <-!app_assoc. rewrite (pbind_de c_u32) by done. cbv zeta. rewrite Hv, Hv'.
  header_eqs.
  repeat match goal with
  | H : wide_time h = _ |- _ => rewrite H; revert H
  | H : claim_trie_root h = _ |- _ => rewrite H; revert H
  | H : pivx_trailer h = _ |- _ => rewrite H; revert H
  end. intros. cbn [opt_ser app].
  erewrite (opt_fits_none _ _ (n_height h)), (opt_fits_none _ _ (prog_pow h)) by eassumption.
  wire. rewrite (read_if_back _ c_H256) by done. wire. rewrite bits_back by done.
  rewrite nonce_back; [|done|].
  2: { destruct (Z.eqb_spec (h_version h) 4) as [->|]; done. }
  rewrite (read_if_back _ c_solution), read_if_aux by done.
  rewrite (read_if_back _ c_ProgPow), (read_if_back _ c_MtpPow) by done.
  rewrite !(read_if_back _ c_H256), (read_if_back _ c_OutPoint), (read_if_back _ c_block_sig) by done.
  rewrite (read_if_back _ c_u32), (read_if_back _ c_u64), (read_if_back _ c_H256) by done.
  unfold pret. by header_eta h.
Qed.

(** ** Inputs of exactly the standard length *)

Lemma read_slice_short n (b : bytes) :
  Z.of_nat (length b) < n → read_slice n b = Err (Fail_with UnexpectedEnd).
Proof. intros. unfold read_slice. by zcases. Qed.

(** A reader that stops with an error of the codec, without a panic. *)
Definition fails {A} (p : parser A) (b : bytes) : Prop := ∃ e, p b = Err (Fail_with e).

Lemma fails_bind {A B} (p : parser A) (k : A → parser B) b : fails p b → fails (pbind p k) b.
Proof. intros [e H]. exists e. unfold pbind. by rewrite H. Qed.

Lemma fails_hash n b : Z.of_nat (length b) < Z.of_nat n → fails (de (c_hash n)) b.
Proof. intros. exists UnexpectedEnd. by apply read_slice_short. Qed.

Lemma fails_uint n b : Z.of_nat (length b) < Z.of_nat n → fails (de (le_uint n)) b.
Proof. intros. apply fails_bind. exists UnexpectedEnd. by apply read_slice_short. Qed.

Lemma fails_sint n b : Z.of_nat (length b) < Z.of_nat n → fails (de (le_sint n)) b.
Proof. intros. apply fails_bind. exists UnexpectedEnd. by apply read_slice_short. Qed.

Lemma fails_if {A} (p : parser A) b : fails p b → fails (read_if true p) b.
Proof. intros. by apply fails_bind. Qed.

Lemma length_ser_hash n h : fits (c_hash n) h = true → length (ser (c_hash n) h) = n.
Proof. apply Nat.eqb_eq. Qed.

Lemma length_ser_uint n z : length (ser (le_uint n) z) = n.
Proof. apply length_le_split. Qed.

Lemma length_ser_Compact z : length (ser c_Compact z) = 4%nat.
Proof. apply (length_ser_uint 4). Qed.

Lemma length_ser_sint n z : length (ser (le_sint n) z) = n.
Proof. apply length_le_split. Qed.

(** A read longer than what is left. *)
Ltac short :=
  rewrite ?length_app, ?length_ser_Compact, ?length_ser_uint, ?length_ser_sint; cbn; lia.

(** A header of the standard layout, written out. *)
Lemma ser_plain v p m t b n :
  ser_header (plain v p m t (BitsCompact b) (NonceU32 n))
  = ser c_u32 v ++ ser c_H256 p ++ ser c_H256 m ++ ser c_u32 t ++ ser c_Compact b
    ++ ser c_u32 n.
Proof. rewrite ser_header_eq. cbn [opt_ser app plain]. by rewrite !app_nil_r. Qed.

(** Either the whole input was read as [x], or an error of the codec. *)
Definition exact_or_fails {A} (r : result (A * bytes) fault) (x : A) : Prop :=
  r = Ok (x, []) ∨ ∃ e, r = Err (Fail_with e).

Lemma exact_fails {A B} (p : parser A) (k : A → parser B) b x :
  fails p b → exact_or_fails (pbind p k b) x.
Proof. intros. right. by apply fails_bind. Qed.

(** On the bytes of a standard header the version-inferred reader returns that
    header or stops with an error. *)
Lemma inferred_on_standard v p m t b n :
  fits c_u32 v = true → fits c_H256 p = true → fits c_H256 m = true → fits c_u32 t = true →
  fits c_Compact b = true → fits c_u32 n = true →
  let h := plain v p m t (BitsCompact b) (NonceU32 n) in
  exact_or_fails (BlockHeader_deserialize Standard (ser_header h)) h.
Proof.
  intros Hv Hp Hm Ht Hb Hn h. subst h. rewrite ser_plain. unfold BlockHeader_deserialize.
  rewrite <-(app_nil_r (ser c_u32 n)), (pbind_de c_u32) by done. cbv beta zeta.
  set (vs := Z.lxor v VERUS_VERSION_BIT =? 4).
  set (w := if vs then Z.lxor v VERUS_VERSION_BIT else v). rewrite !(pbind_de c_H256) by done.
  destruct (Z.eqb_spec w 4) as [H4|H4].
  { apply exact_fails, fails_if, fails_hash. short. }
  assert (Hvs : vs = false) by (subst vs w; destruct (Z.eqb_spec (Z.lxor v VERUS_VERSION_BIT) 4); done).
  subst w. rewrite Hvs in *. clear vs Hvs. cbn [read_if]. wire.
  rewrite andb_false_r. cbn [is_qtum].
  destruct (Z.eqb_spec v KAWPOW_VERSION) as [->|Hk].
  { change (aux_flag KAWPOW_VERSION) with false. change (KAWPOW_VERSION =? MTP_POW_VERSION) with false.
    cbn [orb andb read_if]. wire. apply exact_fails, fails_uint. short. }
  cbn [orb]. destruct (Z.eqb_spec v MTP_POW_VERSION) as [->|Hmtp]; cbn [andb].
  { change (aux_flag MTP_POW_VERSION) with false. cbn [read_if].
    destruct (Z.leb_spec PROG_POW_SWITCH_TIME t); cbn [read_if de c_ProgPow]; wire.
    - apply exact_fails, fails_uint. short.
    - cbn [is_none]. rewrite (proj2 (Z.ltb_lt t _)) by done. cbn [andb read_if de c_MtpPow]. wire.
      apply exact_fails, fails_sint. short. }
  destruct (aux_flag v); cbn [read_if]; wire.
  - apply exact_fails. unfold read_aux_pow. apply fails_bind. unfold deserialize_tx.
    apply fails_bind, fails_sint. short.
  - left. done.
Qed.

Lemma mixed_on_standard v p m t b n :
  fits c_u32 v = true → fits c_H256 p = true → fits c_H256 m = true → fits c_u32 t = true →
  fits c_Compact b = true → fits c_u32 n = true →
  let h := plain v p m t (BitsCompact b) (NonceU32 n) in
  exact_or_fails (read_mixed true (ser_header h)) h.
Proof.
  intros. subst h. rewrite ser_plain, <-(app_nil_r (ser c_u32 n)).
  unfold read_mixed, read_standard_after_version. wire.
  destruct (aux_flag v); wire; [by left|]. apply exact_fails, fails_uint. short.
Qed.

Lemma pivx_on_standard v p m t b n :
  fits c_u32 v = true → fits c_H256 p = true → fits c_H256 m = true → fits c_u32 t = true →
  fits c_Compact b = true → fits c_u32 n = true →
  let h := plain v p m t (BitsCompact b) (NonceU32 n) in
  exact_or_fails (read_pivx (ser_header h)) h.
Proof.
  intros. subst h. rewrite ser_plain, <-(app_nil_r (ser c_u32 n)).
  unfold read_pivx, read_standard_after_version. wire.
  destruct (pivx_has_trailer v); wire; [|by left]. apply exact_fails, fails_hash. short.
Qed.

Lemma plain_fits v p m t b n :
  fits c_u32 v = true → fits c_H256 p = true → fits c_H256 m = true → fits c_u32 t = true →
  fits c_Compact b = true → fits c_u32 n = true →
  standard_fits (plain v p m t (BitsCompact b) (NonceU32 n)) = true.
Proof.
  intros. unfold standard_fits, layout_fits, base_fits, no_inferred_ext, bits_fit, nonce_fits.
  cbn [plain h_version previous_header_hash merkle_root_hash time bits nonce].
  repeat match goal with H : _ = true |- _ => rewrite H; clear H end. done.
Qed.

(** Any 80 bytes are a header of the standard layout. *)
Lemma standard_80 (b : bytes) :
  length b = 80%nat → ∃ v p m t c n,
    b = ser_header (plain v p m t (BitsCompact c) (NonceU32 n))
    ∧ fits c_u32 v = true ∧ fits c_H256 p = true ∧ fits c_H256 m = true ∧ fits c_u32 t = true
    ∧ fits c_Compact c = true ∧ fits c_u32 n = true.
Proof.
  intros Hlen. set (f o n := take n (drop o b)).
  assert (Hf : ∀ o n, (o + n ≤ 80)%nat → length (f o n) = n)
    by (intros; unfold f; rewrite length_take, length_drop; lia).
  assert (Hu : ∀ o n, (o + n ≤ 80)%nat → fits (le_uint n) (le_combine (f o n)) = true).
  { intros o n Ho. pose proof (le_combine_range _ _ (Hf o n Ho)). cbn. zcases; done. }
  exists (le_combine (f 0 4)%nat), (f 4 32)%nat, (f 36 32)%nat, (le_combine (f 68 4)%nat),
    (le_combine (f 72 4)%nat), (le_combine (f 76 4)%nat). split.
  - rewrite ser_plain. cbn [ser le_uint c_hash c_Compact].
    rewrite !split_le_combine' by (apply Hf; lia). unfold f.
    rewrite <-(take_drop 4 b) at 1. f_equal.
    rewrite <-(take_drop 32 (drop 4 b)) at 1. f_equal. rewrite drop_drop.
    rewrite <-(take_drop 32 (drop (4 + 32) b)) at 1. f_equal. rewrite drop_drop.
    rewrite <-(take_drop 4 (drop (4 + 32 + 32) b)) at 1. f_equal. rewrite drop_drop.
    rewrite <-(take_drop 4 (drop (4 + 32 + 32 + 4) b)) at 1. f_equal. rewrite drop_drop.
    symmetry. apply take_ge. rewrite length_drop. lia.
  - split_and!; try (apply Hu; lia); try (apply Nat.eqb_eq, Hf; lia).
Qed.

(** ** Properties *)

Lemma read_all_ok {A} (b : bytes) (p : parser A) a : p b = Ok (a, []) → read_all b p = Ok a.
Proof. unfold read_all. by intros ->. Qed.

Lemma or_standard_ok {A} f (a : A) s : or_standard f (Ok a) s = Ok a.
Proof. done. Qed.

Lemma read_count_back (p : parser BlockHeader) hs :
  (∀ h rest, h ∈ hs → p (ser_header h ++ rest) = Ok (h, rest)) →
  ∀ rest, read_count (length hs) p (concat (map ser_header hs) ++ rest) = Ok (hs, rest).
Proof.
  induction hs as [|h hs IH]; intros Hp rest; [done|]. cbn [length read_count map concat].
  rewrite <-app_assoc. erewrite pbind_ok by (apply Hp; set_solver).
  erewrite pbind_ok by (apply IH; intros; apply Hp; set_solver). done.
Qed.

(** The reader a variant uses for each header of a list. *)
Definition list_reader (variant : CoinVariant) : parser BlockHeader :=
  match variant with
  | Standard | Qtum => BlockHeader_deserialize variant
  | Riecoin => read_riecoin
  | KawpowAuxpowMixed => read_mixed false
  | Lbc => read_lbc
  | Pivx => read_pivx
  end.

Lemma list_reader_back variant h rest :
  header_fits false variant h = true → list_reader variant (ser_header h ++ rest) = Ok (h, rest).
Proof.
  destruct variant; cbn [header_fits list_reader]; intros;
    eauto using inferred_back, riecoin_back, lbc_back, pivx_back.
  by apply mixed_back.
Qed.

(** a header of any of the supported families, in the layout of its
    coin variant, is read back by [from_served_bytes] from the bytes it
    serializes to: standard, Equihash and Verus, AuxPoW with its parent header,
    ProgPoW, MTP, Qtum, KawPoW, Riecoin, LBRY, PIVX and the mixed layout. *)
Theorem header_roundtrip variant h :
  header_fits true variant h = true → from_served_bytes (ser_header h) variant = Ok h.
Proof.
  intros Hf. unfold from_served_bytes. rewrite <-(app_nil_r (ser_header h)).
  destruct variant; cbn [header_fits] in Hf;
    erewrite read_all_ok
      by (apply inferred_back || apply riecoin_back || apply mixed_back
          || apply lbc_back || apply pivx_back; done); done.
Qed.

(** a batch of headers served as one string is read at its true header
    boundaries, whatever the mixture of layouts inside it. *)
Theorem header_list_roundtrip variant hs :
  forallb (header_fits false variant) hs = true →
  list_from_served_bytes (concat (map ser_header hs)) (length hs) variant = Ok hs.
Proof.
  intros Hf.
  assert (Hr : read_count (length hs) (list_reader variant) (concat (map ser_header hs)) = Ok (hs, [])).
  { rewrite <-(app_nil_r (concat _)). apply read_count_back. intros h rest Hh.
    apply list_reader_back. by apply (proj1 (forallb_forall _ _) Hf), list_elem_of_In. }
  unfold list_from_served_bytes.
  by destruct variant; cbn [list_reader] in Hr; rewrite (read_all_ok _ _ _ Hr).
Qed.

(** under the variants that fall back to the standard layout, every
    80-byte string is a header, whatever family its version value names, and
    the header serializes to exactly the bytes served, so that the digest and
    the parent link the SPV checks compute from it are those of the wire. *)
Theorem served_80_exact (b : bytes) variant :
  length b = 80%nat → variant = Standard ∨ variant = Pivx ∨ variant = KawpowAuxpowMixed →
  ∃ h, from_served_bytes b variant = Ok h ∧ ser_header h = b.
Proof.
  intros Hlen Hvar. destruct (standard_80 b Hlen) as (v & p & m & t & c & n & -> & ? & ? & ? & ? & ? & ?).
  eexists. split; [|reflexivity]. unfold from_served_bytes. rewrite Hlen.
  change (Z.of_nat 80 =? MIN_RAW_HEADER_SIZE) with true.
  set (h := plain v p m t (BitsCompact c) (NonceU32 n)).
  assert (Hs : read_all (ser_header h) read_standard = Ok h).
  { apply read_all_ok. rewrite <-(app_nil_r (ser_header h)). 
    by apply standard_back, plain_fits. }
  assert (Hx : ∀ q, exact_or_fails (q (ser_header h)) h →
                 or_standard true (read_all (ser_header h) q) (read_all (ser_header h) read_standard)
                 = Ok h).
  { intros q [Hq|[e Hq]]; unfold read_all at 1; rewrite Hq; [done|exact Hs]. }
  destruct Hvar as [->|[->| ->]]; apply Hx;
    eauto using inferred_on_standard, pivx_on_standard, mixed_on_standard.
Qed.

(** ** Concrete headers *)
Module HeaderSample.

Definition digest (z : Z) : bytes := replicate 32 (z2b z).
Definition parent_header : BlockHeader :=
  plain 0x20000000 (digest 1) (digest 2) 1700000000 (BitsCompact 0x1d00ffff) (NonceU32 42).
Definition doge : BlockHeader :=
  mkBlockHeader 0x00620104 (digest 3) (digest 4) None 1700000001 (BitsCompact 0x1a01aa3d)
    (NonceU32 0) None
    (Some (mkAuxPow (strip_witness TxSample.segwit) (digest 5) (mkMerkleBranch [digest 6; digest 7] 1)
             (mkMerkleBranch [] 0) parent_header))
    None None false None None None None None None None false None None.
Definition merged : BlockHeader :=
  plain 0x20000100 (digest 8) (digest 9) 1700000002 (BitsCompact 0x1b0404cb) (NonceU32 7).
Definition kawpow : BlockHeader :=
  mkBlockHeader 0x30000000 (digest 10) (digest 11) None 1700000003 (BitsCompact 0x1b0404cb)
    (NonceU32 0) None None None None false None None None None
    (Some 1219737) (Some 0x1122334455667788) (Some (digest 12)) false None None.

End HeaderSample.

Lemma header_roundtrip_witness :
  from_served_bytes (ser_header HeaderSample.doge) Standard = Ok HeaderSample.doge.
Proof. apply (header_roundtrip Standard HeaderSample.doge). vm_compute. reflexivity. Defined.

Lemma header_list_roundtrip_witness :
  list_from_served_bytes
    (concat (map ser_header [HeaderSample.merged; HeaderSample.kawpow])) 2 KawpowAuxpowMixed
  = Ok [HeaderSample.merged; HeaderSample.kawpow].
Proof.
  apply (header_list_roundtrip KawpowAuxpowMixed [HeaderSample.merged; HeaderSample.kawpow]).
  vm_compute. reflexivity.
Defined.

Lemma served_80_exact_witness :
  ∃ h, from_served_bytes (hex "04000000" ++ zeros 76) Standard = Ok h
    ∧ ser_header h = hex "04000000" ++ zeros 76.
Proof. apply (served_80_exact (hex "04000000" ++ zeros 76) Standard); [reflexivity|by left]. Defined.
