(* ===== verification/Spv.v ===== *)
(** * Spv: simplified payment verification
    (mm2src/kdf_spv_validation, kdf_chain/src/merkle.rs and raw_header.rs,
    kdf_primitives/src/compact.rs)

    Difficulty targets, merkle trees and proofs, header chains, and the proof
    of a transaction's inclusion in a block.  SHA-256 is a library the sources
    call: it is a parameter, of which only the length of its digests is
    assumed where it is needed. *)

From stdpp Require Import base tactics list numbers strings option sets.
From coqutil Require Import Byte Word.LittleEndianList.
From S2P Require Import Prelude Codec Tx Header.

(** ** Compact difficulty targets ([nBits])

    A [U256] is a [Z] in [0, 2^256); its left shift drops the bits above. *)

Definition to_u256 (c : Z) : result Z Z :=
  let exponent := Z.shiftr c 24 in
  let mantissa0 := Z.land c 0x007fffff in
  let mantissa := if exponent <=? 3 then Z.shiftr mantissa0 (8 * (3 - exponent)) else mantissa0 in
  let target := if exponent <=? 3 then mantissa
                else uwrap 256 (Z.shiftl mantissa (8 * (exponent - 3))) in
  let negative := negb (mantissa =? 0) && negb (Z.land c 0x00800000 =? 0) in
  let overflow := (negb (mantissa =? 0) && (34 <? exponent))
                  || ((0xff <? mantissa) && (33 <? exponent))
                  || ((0xffff <? mantissa) && (32 <? exponent)) in
  if negative || overflow then Err target else Ok target.

(** [U256::bits]. *)
Definition u256_bits (value : Z) : Z := if value =? 0 then 0 else Z.log2 value + 1.

Definition from_u256 (value : Z) : Z :=
  let size := (u256_bits value + 7) / 8 in
  let mantissa := if size <=? 3 then u32 (u64 (Z.shiftl (u64 value) (8 * (3 - size))))
                  else u32 (Z.shiftr value (8 * (size - 3))) in
  let flag := negb (Z.land mantissa 0x00800000 =? 0) in
  let mantissa' := if flag then Z.shiftr mantissa 8 else mantissa in
  let size' := if flag then size + 1 else size in
  Z.lor mantissa' (u32 (Z.shiftl size' 24)).

Definition header_target (h : BlockHeader) : result Z Z :=
  match bits h with
  | BitsCompact c => to_u256 c
  | BitsU32 n => Ok n
  end.

(** ** Errors *)

Inductive SPVError : Type :=
| ReadOverrun | BadCompactInt | MalformattedOutput | UnableToGetTarget | UnableToGetHeader
| WrongLengthHeader | UnexpectedDifficultyChange | InsufficientWork | InvalidChain
| WrongDigest | WrongMerkleRoot | WrongPrevHash | InvalidVin | InvalidVout | BadMerkleProof
| UnableToGetMerkle | InvalidHeight | Timeout.

#[global] Instance SPVError_eq_dec : EqDecision SPVError.
Proof. solve_decision. Defined.

(** ** Raw headers *)

Definition RawBlockHeader_new (b : bytes) : result bytes SPVError :=
  if Z.of_nat (length b) <? MIN_RAW_HEADER_SIZE then Err WrongLengthHeader else Ok b.

Definition extract_merkle_root (raw : bytes) : bytes := take 32 (drop 36 raw).
Definition parent (raw : bytes) : bytes := take 32 (drop 4 raw).

(** ** Measuring serialized inputs and outputs

    Offsets are [usize]s and wrap around. *)

Definition determine_input_length (tx_in : bytes) : result Z SPVError :=
  if Z.of_nat (length tx_in) <? 37 then Err ReadOverrun
  else match parse_compact_int (drop 36 tx_in) with
       | Err _ => Err BadCompactInt
       | Ok script_sig_len => Ok (u64 (40 + serialized_length script_sig_len + script_sig_len))
       end.

Definition determine_output_length (tx_out : bytes) : result Z SPVError :=
  if Z.of_nat (length tx_out) <? 9 then Err MalformattedOutput
  else match parse_compact_int (drop 8 tx_out) with
       | Err _ => Err BadCompactInt
       | Ok script_pubkey_len =>
           Ok (u64 (8 + serialized_length script_pubkey_len + script_pubkey_len))
       end.

(** One round of the loop: the offset after the item at [offset]. *)
Definition next_offset (measure : bytes → result Z SPVError) (v : bytes) (offset : Z)
    : result Z unit :=
  if Z.of_nat (length v) <=? offset then Err ()
  else match measure (drop (Z.to_nat offset) v) with
       | Ok n => Ok (u64 (offset + n))
       | Err _ => Err ()
       end.

(** The body shared by [validate_vin] and [validate_vout]. *)
Definition validate_items (measure : bytes → result Z SPVError) (v : bytes) : bool :=
  match parse_compact_int v with
  | Err _ => false
  | Ok n =>
      match n with
      | Zpos count =>
          match repeat_pos (next_offset measure v) count (serialized_length n) with
          | Ok offset => offset =? Z.of_nat (length v)
          | Err _ => false
          end
      | _ => false
      end
  end.

Definition validate_vin (vin : bytes) : bool := validate_items determine_input_length vin.
Definition validate_vout (vout : bytes) : bool := validate_items determine_output_length vout.

(** ** Hashing, trees and proofs *)

Section WithSha256.
Context (sha256 : bytes → bytes).

Definition dhash256 (input : bytes) : bytes := sha256 (sha256 input).

Definition Transaction_hash (tx : Transaction) : bytes :=
  match tx_hash_algo tx with
  | DSHA256 => dhash256 (serialize tx)
  | SHA256 => sha256 (serialize tx)
  end.

Definition witness_hash (tx : Transaction) : bytes :=
  dhash256 (serialize_with_flags tx SERIALIZE_TRANSACTION_WITNESS).

Definition BlockHeader_hash (h : BlockHeader) : bytes := dhash256 (ser_header h).

(** *** merkle.rs *)

Definition merkle_node_hash (a b : bytes) : bytes := dhash256 (a ++ b).

(** One row of the tree from the row below; the last node of an odd row is
    paired with itself. *)
Fixpoint merkle_row (current : list bytes) : list bytes :=
  match current with
  | a :: b :: rest => merkle_node_hash a b :: merkle_row rest
  | [a] => [merkle_node_hash a a]
  | [] => []
  end.

(** Rows halve in length, so a row has at most as many rows above it as it has
    nodes. *)
Fixpoint merkle_rows (fuel : nat) (current : list bytes) : option bytes :=
  match fuel, current with
  | _, [] => None
  | _, [root] => Some root
  | S fuel, _ => merkle_rows fuel (merkle_row current)
  | O, _ => None
  end.

Definition merkle_root (leaves : list bytes) : option bytes := merkle_rows (length leaves) leaves.

(** *** helpers_validation.rs *)

(** A [MerkleArray]: digests packed in one byte string. *)
Definition MerkleArray_new (slice : bytes) : result bytes SPVError :=
  if Z.of_nat (length slice) mod 32 =? 0 then Ok slice else Err BadMerkleProof.
Definition MerkleArray_len (nodes : bytes) : nat := (length nodes / 32)%nat.
Definition MerkleArray_index (nodes : bytes) (index : nat) : result bytes SPVError :=
  if Nat.ltb (length nodes) ((index + 1) * 32) then Err BadMerkleProof
  else Ok (take 32 (drop (index * 32) nodes)).

Definition hash256_merkle_step (a b : bytes) : bytes := sha256 (sha256 (a ++ b)).

(** The loop of [verify_hash256_merkle] over the nodes [i], [i + 1], ..., [count]
    of them. *)
Fixpoint merkle_loop (nodes : bytes) (count i : nat) (idx : Z) (current : bytes)
    : result bytes SPVError :=
  match count with
  | O => Ok current
  | S count =>
      match MerkleArray_index nodes i with
      | Err e => Err e
      | Ok next =>
          let current := if idx mod 2 =? 1 then hash256_merkle_step next current
                         else hash256_merkle_step current next in
          merkle_loop nodes count (S i) (Z.shiftr idx 1) current
      end
  end.

Definition verify_hash256_merkle (txid root nodes : bytes) (index : Z) : result unit SPVError :=
  let proof_len := MerkleArray_len nodes in
  if (Nat.eqb proof_len 0 && bool_decide (txid = root)) || Nat.eqb proof_len 1 then Ok ()
  else match merkle_loop nodes proof_len 0 index txid with
       | Err e => Err e
       | Ok current => if bool_decide (current = root) then Ok () else Err BadMerkleProof
       end.

Definition merkle_prove (txid root : bytes) (intermediate_nodes : list bytes) (index : Z)
    : result unit SPVError :=
  if bool_decide (txid = root) && (index =? 0) && is_nil intermediate_nodes then Ok ()
  else match MerkleArray_new (concat intermediate_nodes) with
       | Err e => Err e
       | Ok nodes => verify_hash256_merkle txid root nodes index
       end.

Definition validate_header_work (digest : bytes) (target : Z) : bool :=
  if bool_decide (digest = zeros 32) then false else le_combine digest <? target.

(** The loop of [validate_headers] after the first header: [previous_hash] and
    the [target] of the first header are its state. *)
Definition check_header (difficulty_check constant_difficulty first : bool)
    (previous_hash : bytes) (target : Z) (h : BlockHeader) : result bytes SPVError :=
  let raw := ser_header h in
  match header_target h with
  | Err _ => Err UnableToGetTarget
  | Ok cur_target =>
      if (negb constant_difficulty && difficulty_check) && negb (cur_target =? target)
      then Err UnexpectedDifficultyChange
      else if negb first && negb (bool_decide (parent raw = previous_hash)) then Err InvalidChain
      else if difficulty_check && negb (validate_header_work (dhash256 raw) target)
      then Err InsufficientWork
      else Ok (dhash256 raw)
  end.

Fixpoint check_headers (difficulty_check constant_difficulty : bool)
    (previous_hash : bytes) (target : Z) (hs : list BlockHeader) : result unit SPVError :=
  match hs with
  | [] => Ok ()
  | h :: hs =>
      match check_header difficulty_check constant_difficulty false previous_hash target h with
      | Err e => Err e
      | Ok hash => check_headers difficulty_check constant_difficulty hash target hs
      end
  end.

Definition validate_headers (hs : list BlockHeader) (difficulty_check constant_difficulty : bool)
    : result unit SPVError :=
  match hs with
  | [] => Ok ()
  | h :: rest =>
      match header_target h with
      | Err _ => Err UnableToGetTarget
      | Ok target =>
          match check_header difficulty_check constant_difficulty true (zeros 32) target h with
          | Err e => Err e
          | Ok hash => check_headers difficulty_check constant_difficulty hash target rest
          end
      end
  end.

(** *** spv_proof.rs *)

Record SPVProof : Type := mkSPVProof {
  tx_id : bytes;
  vin : bytes;
  vout : bytes;
  index : Z;
  confirming_header : BlockHeader;
  raw_header : bytes;
  intermediate_nodes : list bytes
}.

Definition validate_block_header (p : SPVProof) : result unit SPVError :=
  if negb (bool_decide (BlockHeader_hash (confirming_header p) = dhash256 (raw_header p)))
  then Err WrongDigest
  else if negb (bool_decide (merkle_root_hash (confirming_header p) = extract_merkle_root (raw_header p)))
  then Err WrongMerkleRoot
  else if negb (bool_decide (previous_header_hash (confirming_header p) = parent (raw_header p)))
  then Err WrongPrevHash
  else Ok ().

Definition validate (p : SPVProof) : result unit SPVError :=
  if negb (validate_vin (vin p)) then Err InvalidVin
  else if negb (validate_vout (vout p)) then Err InvalidVout
  else match validate_block_header p with
       | Err e => Err e
       | Ok _ => merkle_prove (tx_id p) (merkle_root_hash (confirming_header p))
                   (intermediate_nodes p) (index p)
       end.

(** *** [validate_spv_proof] (utxo_common_spv.rs), once the server's branch
    (the nodes in the byte order of the wire and the position) and the header
    are at hand. *)
Definition validate_spv_proof (tx : Transaction) (branch : list bytes) (pos : Z)
    (block_header : BlockHeader) : result unit SPVError :=
  if is_nil (outputs tx) then Err InvalidVout
  else match RawBlockHeader_new (ser_header block_header) with
       | Err e => Err e
       | Ok raw =>
           validate (mkSPVProof (Transaction_hash tx)
             (append_list (ser c_TransactionInput) (inputs tx))
             (append_list (ser c_TransactionOutput) (outputs tx))
             pos block_header raw (map reverse branch))
       end.

(** ** Merkle proofs *)

(** The root a branch leads to, node by node. *)
Fixpoint fold_branch (idx : Z) (current : bytes) (nodes : list bytes) : bytes :=
  match nodes with
  | [] => current
  | next :: nodes =>
      fold_branch (Z.shiftr idx 1)
        (if idx mod 2 =? 1 then hash256_merkle_step next current
         else hash256_merkle_step current next) nodes
  end.

Definition digests (nodes : list bytes) : Prop := Forall (λ n, length n = 32%nat) nodes.

Lemma length_digests nodes : digests nodes → length (concat nodes) = (length nodes * 32)%nat.
Proof. induction 1; cbn; [done|]. rewrite length_app. lia. Qed.

Lemma MerkleArray_index_at pre n post :
  digests pre → length n = 32%nat →
  MerkleArray_index (concat (pre ++ n :: post)) (length pre) = Ok n.
Proof.
  intros Hp Hn. unfold MerkleArray_index. rewrite concat_app. cbn [concat].
  rewrite !length_app, length_digests by done.
  destruct (Nat.ltb_spec (length pre * 32 + (length n + length (concat post))) ((length pre + 1) * 32));
    [lia|].
  by rewrite <-length_digests, drop_app_length, <-Hn, take_app_length by done.
Qed.

Lemma merkle_loop_fold pre nodes idx current :
  digests pre → digests nodes →
  merkle_loop (concat (pre ++ nodes)) (length nodes) (length pre) idx current
  = Ok (fold_branch idx current nodes).
Proof.
  revert pre idx current. induction nodes as [|n nodes IH]; intros pre idx current Hp Hn; [done|].
  inversion_clear Hn as [|? ? Hn1 Hn2]. cbn [length merkle_loop fold_branch].
  rewrite MerkleArray_index_at by done.
  specialize (IH (pre ++ [n])). rewrite length_app, <-app_assoc in IH. cbn [length app] in IH.
  replace (S (length pre)) with (length pre + 1)%nat by lia.
  apply IH; [|done]. apply Forall_app; split; [done|by constructor].
Qed.

(** What [merkle_prove] decides: the branch leads to the root, or it has
    exactly one node. *)
Lemma merkle_prove_spec txid root nodes idx :
  digests nodes →
  merkle_prove txid root nodes idx
  = if Nat.eqb (length nodes) 1 || bool_decide (fold_branch idx txid nodes = root)
    then Ok () else Err BadMerkleProof.
Proof.
  intros Hd. unfold merkle_prove, MerkleArray_new, verify_hash256_merkle, MerkleArray_len.
  rewrite length_digests by done.
  replace (Z.of_nat (length nodes * 32) mod 32 =? 0) with true
    by (rewrite Nat2Z.inj_mul, Z_mod_mult; done).
  rewrite length_digests, Nat.div_mul by done.
  pose proof (merkle_loop_fold [] nodes idx txid ltac:(constructor) Hd) as Hl. cbn [app length] in Hl.
  rewrite Hl. destruct nodes as [|n [|n' nodes]]; cbn [length Nat.eqb is_nil andb orb fold_branch].
  - rewrite andb_true_r. by destruct (bool_decide (txid = root)), (idx =? 0).
  - by rewrite andb_false_r.
  - by rewrite andb_false_r.
Qed.

(** The branch of the node [i] of a row: at each level its neighbour, or the
    node itself where it is the last of an odd row. *)
Definition sibling (row : list bytes) (i : nat) : bytes :=
  if Nat.odd i then default [] (row !! (i - 1)%nat)
  else default (default [] (row !! i)) (row !! S i).

Fixpoint merkle_branch (fuel : nat) (row : list bytes) (i : nat) : list bytes :=
  match fuel, row with
  | S fuel, _ :: _ :: _ => sibling row i :: merkle_branch fuel (merkle_row row) (i / 2)
  | _, _ => []
  end.

Lemma merkle_row_even row k a :
  row !! (2 * k)%nat = Some a →
  merkle_row row !! k = Some (merkle_node_hash a (default a (row !! S (2 * k)%nat))).
Proof.
  revert row. induction k as [|k IH]; intros row.
  - by destruct row as [|x [|y row]]; intros [= ->].
  - replace (2 * S k)%nat with (S (S (2 * k))) by lia. destruct row as [|x [|y row]]; try done. apply IH.
Qed.

Lemma merkle_row_lookup row i leaf :
  row !! i = Some leaf →
  merkle_row row !! (i / 2)%nat
  = Some (if Nat.odd i then merkle_node_hash (sibling row i) leaf
          else merkle_node_hash leaf (sibling row i)).
Proof.
  intros Hi. unfold sibling. destruct (Nat.Even_or_Odd i) as [[k ->]|[k ->]].
  - rewrite Nat.odd_even, (Nat.mul_comm 2 k), Nat.div_mul, (Nat.mul_comm k 2) by done.
    by rewrite (merkle_row_even row k leaf Hi), Hi.
  - rewrite Nat.odd_odd. replace ((2 * k + 1) / 2)%nat with k
      by (apply (Nat.div_unique _ 2 k 1); lia).
    replace (2 * k + 1 - 1)%nat with (2 * k)%nat by lia.
    rewrite Nat.add_1_r in Hi.
    destruct (row !! (2 * k)%nat) as [a|] eqn:Ha.
    + by rewrite (merkle_row_even row k a Ha), Hi.
    + apply lookup_ge_None in Ha. apply lookup_lt_Some in Hi. lia.
Qed.

Lemma length_merkle_row row : length (merkle_row row) = ((length row + 1) / 2)%nat.
Proof.
  enough (∀ n row, (length row ≤ n)%nat → length (merkle_row row) = ((length row + 1) / 2)%nat)
    by eauto.
  clear row. induction n as [|n IH]; intros [|a [|b row]] Hl; try done; cbn in Hl; [lia..|].
  cbn [merkle_row length]. rewrite IH by lia.
  change (S ((length row + 1) / 2)) with (1 + (length row + 1) / 2)%nat.
  rewrite <-(Nat.div_add_l 1 2) by lia. done.
Qed.

(** Enough fuel: the loop over the rows ends with the root. *)
Lemma merkle_rows_total fuel row :
  row ≠ [] → (length row ≤ fuel)%nat → ∃ root, merkle_rows fuel row = Some root.
Proof.
  revert row. induction fuel as [|fuel IH]; intros [|a [|b row]] Hne Hl; try done; try (cbn in Hl; lia).
  - by exists a.
  - apply (IH (merkle_row (a :: b :: row))); [done|]. rewrite length_merkle_row. cbn [length] in *.
    apply (proj1 (Nat.lt_succ_r _ _)), Nat.Div0.div_lt_upper_bound. lia.
Qed.

Lemma branch_folds fuel row i leaf root :
  merkle_rows fuel row = Some root → row !! i = Some leaf →
  fold_branch (Z.of_nat i) leaf (merkle_branch fuel row i) = root.
Proof.
  revert row i leaf. induction fuel as [|fuel IH]; intros [|a [|b row]] i leaf Hr Hi; try done.
  - destruct i; [by simplify_eq/=|done].
  - destruct i; [by simplify_eq/=|done].
  - cbn [merkle_rows] in Hr. cbn [merkle_branch fold_branch].
    apply merkle_row_lookup in Hi. rewrite <-(IH _ _ _ Hr Hi).
    replace (Z.shiftr (Z.of_nat i) 1) with (Z.of_nat (i / 2))
      by (rewrite Z.shiftr_div_pow2, Nat2Z.inj_div; done).
    f_equal. replace (Z.of_nat i mod 2 =? 1) with (Nat.odd i); [done|].
    destruct (Nat.Even_or_Odd i) as [[k ->]|[k ->]].
    + rewrite Nat.odd_even. symmetry. apply Z.eqb_neq. rewrite Nat2Z.inj_mul, Z.mul_comm, Z_mod_mult. lia.
    + rewrite Nat.odd_odd. symmetry. apply Z.eqb_eq.
      symmetry. apply (Z.mod_unique _ _ (Z.of_nat k)); lia.
Qed.

(** ** Measuring what the codec wrote *)

Lemma parse_compact_int_ser n rest :
  0 ≤ n < 2 ^ 64 → parse_compact_int (CompactInteger_serialize n ++ rest) = Ok n.
Proof.
  intros Hn.
  assert (Hde : CompactInteger_deserialize (CompactInteger_serialize n ++ rest) = Ok (n, rest)).
  { apply (de_ser (c:=CompactInteger)). by apply CompactInteger_fits. }
  by eapply compact_int_parses.
Qed.

Section Items.
Context {A : Type} (measure : bytes → result Z SPVError) (s : A → bytes) (bound : Z).

(** [measure] finds the length of an item of [items] at the front. *)
Definition measured (items : list A) : Prop :=
  ∀ a rest, a ∈ items →
    measure (s a ++ rest) = Ok (Z.of_nat (length (s a)))
    ∧ 0 < Z.of_nat (length (s a)) ≤ bound.

Lemma items_loop items pre :
  measured items → Z.of_nat (length (pre ++ concat (map s items))) < 2 ^ 64 →
  repeat_nat (next_offset measure (pre ++ concat (map s items))) (length items)
    (Z.of_nat (length pre)) = Ok (Z.of_nat (length (pre ++ concat (map s items)))).
Proof.
  revert pre. induction items as [|a items IH]; intros pre Hm Hl.
  { cbn [map concat length repeat_nat]. by rewrite app_nil_r. }
  cbn [map concat length repeat_nat] in *.
  destruct (Hm a (concat (map s items)) ltac:(set_solver)) as [Ha Hpos].
  unfold next_offset at 1. rewrite Nat2Z.id, drop_app_length, Ha.
  rewrite !length_app in Hl |- *. rewrite (proj2 (Z.leb_gt _ _)) by lia.
  rewrite uwrap_id by (unfold is_u; lia).
  replace (Z.of_nat (length pre) + Z.of_nat (length (s a))) with (Z.of_nat (length (pre ++ s a)))
    by (rewrite length_app; lia).
  specialize (IH (pre ++ s a) ltac:(intros ? ? ?; apply Hm; set_solver)).
  rewrite <-app_assoc, !length_app in IH. rewrite length_app. rewrite IH by lia. f_equal; lia.
Qed.

Lemma items_length items :
  measured items → Z.of_nat (length (concat (map s items))) ≤ Z.of_nat (length items) * bound.
Proof.
  induction items as [|a items IH]; intros Hm; [done|]. cbn [map concat length].
  destruct (Hm a [] ltac:(set_solver)) as [_ ?].
  specialize (IH ltac:(intros ? ? ?; apply Hm; set_solver)). rewrite length_app. lia.
Qed.

(** Every nonempty list the codec can carry is well formed to the measuring
    loop: no offset wraps around. *)
Lemma validate_items_complete items :
  measured items → items ≠ [] → Z.of_nat (length items) ≤ MAX_LIST_SIZE → bound ≤ 2 ^ 32 →
  validate_items measure (append_list s items) = true.
Proof.
  intros Hm Hne Hl Hb. pose proof (items_length items Hm). unfold MAX_LIST_SIZE in Hl.
  unfold validate_items, append_list.
  rewrite parse_compact_int_ser by lia.
  assert (Hc : Z.of_nat (length items) = Zpos (Pos.of_nat (length items)))
    by (destruct items; [done|]; cbn [length]; lia).
  set (n := Z.of_nat (length items)) in *. rewrite Hc. rewrite <-Hc, repeat_pos_nat.
  rewrite Nat2Pos.id by (by destruct items).
  rewrite <-CompactInteger_length by lia.
  pose proof (CompactInteger_length n ltac:(lia)) as HL.
  assert (serialized_length n ≤ 9) by (unfold serialized_length; zcases; lia).
  assert (n * bound ≤ 8192 * 2 ^ 32).
  { etrans; [apply Z.mul_le_mono_nonneg_l; [lia|exact Hb]|]. apply Z.mul_le_mono_nonneg_r; lia. }
  rewrite items_loop; [by rewrite Z.eqb_refl|done|]. rewrite length_app. lia.
Qed.

End Items.

(** An input and an output are measured by where their script length is. *)
Lemma Bytes_length v :
  Z.of_nat (length (ser c_Bytes v))
  = serialized_length (Z.of_nat (length v)) + Z.of_nat (length v).
Proof. cbn [ser c_Bytes]. rewrite length_app, <-CompactInteger_length by lia. lia. Qed.

Lemma parse_Bytes v rest :
  fits c_Bytes v = true → parse_compact_int (ser c_Bytes v ++ rest) = Ok (Z.of_nat (length v)).
Proof.
  cbn [fits c_Bytes ser]. unfold BYTES_DECODE_LIMIT. intros. rewrite <-app_assoc.
  apply parse_compact_int_ser. lia.
Qed.

Lemma serialized_length_range v : 1 ≤ serialized_length v ≤ 9.
Proof. unfold serialized_length. zcases; lia. Qed.

Lemma measured_inputs ins :
  forallb (fits c_TransactionInput) ins = true →
  measured determine_input_length (ser c_TransactionInput) (2 ^ 17) ins.
Proof.
  intros Hf i rest Hi. apply list_elem_of_In in Hi.
  pose proof (proj1 (forallb_forall _ _) Hf i Hi) as Hfi. destruct i as [[h x] sig q w].
  cbn [fits c_TransactionInput c_OutPoint previous_output script_sig sequence op_hash op_index
    ser] in *. fits_inv.
  pose proof (Bytes_length sig). pose proof (serialized_length_range (Z.of_nat (length sig))).
  assert (Z.of_nat (length sig) ≤ BYTES_DECODE_LIMIT) by (by apply Z.leb_le). unfold BYTES_DECODE_LIMIT in *.
  assert (Hh : length (ser c_H256 h) = 32%nat) by by apply length_ser_hash.
  unfold determine_input_length.
  rewrite !length_app, Hh, !length_ser_uint. zcases.
  rewrite <-!app_assoc. rewrite (app_assoc (ser c_H256 h)).
  rewrite drop_app_length' by (rewrite length_app, Hh, length_ser_uint; done).
  rewrite parse_Bytes by done. rewrite uwrap_id by (unfold is_u; lia).
  split; [f_equal|]; lia.
Qed.

Lemma measured_outputs outs :
  forallb (fits c_TransactionOutput) outs = true →
  measured determine_output_length (ser c_TransactionOutput) (2 ^ 17) outs.
Proof.
  intros Hf o rest Ho. apply list_elem_of_In in Ho.
  pose proof (proj1 (forallb_forall _ _) Hf o Ho) as Hfo. destruct o as [v sc].
  cbn [fits c_TransactionOutput value script_pubkey ser] in *. fits_inv.
  pose proof (Bytes_length sc). pose proof (serialized_length_range (Z.of_nat (length sc))).
  assert (Z.of_nat (length sc) ≤ BYTES_DECODE_LIMIT) by (by apply Z.leb_le). unfold BYTES_DECODE_LIMIT in *.
  unfold determine_output_length.
  rewrite !length_app, !length_ser_uint. zcases.
  rewrite <-!app_assoc. rewrite drop_app_length' by (rewrite length_ser_uint; done).
  rewrite parse_Bytes by done. rewrite uwrap_id by (unfold is_u; lia).
  split; [f_equal|]; lia.
Qed.

(** ** Headers as raw bytes *)

Lemma raw_header_fields h :
  base_fits h = true →
  parent (ser_header h) = previous_header_hash h
  ∧ extract_merkle_root (ser_header h) = merkle_root_hash h.
Proof.
  unfold base_fits. intros. fits_inv. rewrite ser_header_eq. unfold parent, extract_merkle_root.
  assert (Hp : length (ser c_H256 (previous_header_hash h)) = 32%nat) by by apply length_ser_hash.
  assert (Hm : length (ser c_H256 (merkle_root_hash h)) = 32%nat) by by apply length_ser_hash.
  split.
  - rewrite drop_app_length' by by rewrite length_ser_uint. by rewrite take_app_length' by done.
  - rewrite (app_assoc (ser c_u32 _)), drop_app_length' by by rewrite length_app, length_ser_uint, Hp.
    by rewrite take_app_length' by done.
Qed.

(** What the proof of inclusion comes down to for a transaction and a header
    of the chain: the merkle proof. *)
Lemma validate_spv_proof_eq tx branch pos h :
  tx_fits StandardWithWitness tx = true → inputs tx ≠ [] →
  base_fits h = true → (80 ≤ length (ser_header h))%nat →
  validate_spv_proof tx branch pos h
  = merkle_prove (Transaction_hash tx) (merkle_root_hash h) (map reverse branch) pos.
Proof.
  unfold tx_fits, io_fits. intros Hf Hin Hb Hl. fits_inv.
  destruct (raw_header_fields h Hb) as [Hp Hm].
  unfold validate_spv_proof, RawBlockHeader_new, validate, validate_block_header, BlockHeader_hash,
    MIN_RAW_HEADER_SIZE.
  destruct (is_nil (outputs tx)) eqn:Ho; [done|].
  rewrite (proj2 (Z.ltb_ge _ _)) by lia. cbn [vin vout confirming_header raw_header tx_id index intermediate_nodes].
  change (append_list (ser c_TransactionInput) (inputs tx)) with (ser c_inputs (inputs tx)).
  rewrite ser_inputs_strip. cbn [fits ser c_list] in *. fits_inv. unfold validate_vin, validate_vout.
  erewrite (validate_items_complete _ _ _ (map strip_input (inputs tx)));
    [|by apply measured_inputs|by destruct (inputs tx)|lia|done].
  erewrite (validate_items_complete _ _ _ (outputs tx));
    [|by apply measured_outputs|by destruct (outputs tx)|lia|done].
  cbn [negb]. rewrite Hp, Hm. rewrite !bool_decide_eq_true_2 by done. done.
Qed.

(** ** Properties *)

Context (sha_len : ∀ b, length (sha256 b) = 32%nat).

Lemma digests_row row : digests row → digests (merkle_row row).
Proof.
  intros _. enough (∀ n row, (length row ≤ n)%nat → digests (merkle_row row)) by eauto.
  clear row. induction n as [|n IH]; intros [|a [|b row]] Hl; cbn in Hl; try lia;
    repeat constructor; try apply sha_len. apply IH. lia.
Qed.

Lemma digests_branch fuel row i :
  digests row → (i < length row)%nat → digests (merkle_branch fuel row i).
Proof.
  revert row i. induction fuel as [|fuel IH]; intros [|a [|b row]] i Hd Hi; try by constructor.
  cbn [merkle_branch]. constructor.
  - assert (Hx : ∀ j, (j < length (a :: b :: row))%nat → ∃ n, (a :: b :: row) !! j = Some n ∧ length n = 32%nat).
    { intros j Hj. apply lookup_lt_is_Some in Hj as [n Hn]. exists n. split; [done|].
      by apply (Forall_lookup_1 _ _ _ _ Hd Hn). }
    unfold sibling. destruct (Nat.odd i).
    + destruct (Hx (i - 1)%nat ltac:(lia)) as (n & -> & ?). done.
    + destruct ((a :: b :: row) !! S i) as [n|] eqn:E; cbn [default].
      * by apply (Forall_lookup_1 _ _ _ _ Hd E).
      * destruct (Hx i Hi) as (n & -> & ?). done.
  - apply IH; [by apply digests_row|]. rewrite length_merkle_row.
    apply Nat.Div0.div_lt_upper_bound.
    pose proof (Nat.div_mod_eq (length (a :: b :: row) + 1) 2).
    pose proof (Nat.mod_upper_bound (length (a :: b :: row) + 1) 2 ltac:(lia)). lia.
Qed.

(** C32: a payment that is in a block is accepted.  For a transaction that is a
    leaf of the block's merkle tree, the honest branch (at every level the
    neighbour, or the node itself at the end of an odd row) and its position
    pass every check of [validate_spv_proof] against the block's header: the
    measuring of the serialized inputs and outputs, the header's own fields
    and the merkle proof. *)
Theorem spv_accepts_included tx leaves i h :
  tx_fits StandardWithWitness tx = true → inputs tx ≠ [] →
  base_fits h = true → (80 ≤ length (ser_header h))%nat →
  digests leaves → leaves !! i = Some (Transaction_hash tx) →
  merkle_root leaves = Some (merkle_root_hash h) →
  validate_spv_proof tx (map reverse (merkle_branch (length leaves) leaves i)) (Z.of_nat i) h
  = Ok ().
Proof.
  intros Hf Hin Hb Hl Hd Hi Hr. rewrite validate_spv_proof_eq, map_map by done.
  rewrite (map_ext _ id) by (intros; apply reverse_involutive). rewrite map_id.
  rewrite merkle_prove_spec by (apply digests_branch; [done|by eapply lookup_lt_Some]).
  rewrite (branch_folds _ _ _ _ _ Hr Hi). by rewrite bool_decide_eq_true_2, orb_true_r.
Qed.

(** The strings hashed on the way up a branch. *)
Fixpoint branch_strings (idx : Z) (current : bytes) (nodes : list bytes) : list bytes :=
  match nodes with
  | [] => []
  | next :: nodes =>
      let s := if idx mod 2 =? 1 then next ++ current else current ++ next in
      s :: branch_strings (Z.shiftr idx 1) (dhash256 s) nodes
  end.

(** Two branches of one position collide: at some level they hash different strings to
    one digest. *)
Definition branch_clash (idx : Z) (t1 : bytes) (n1 : list bytes) (t2 : bytes) (n2 : list bytes) : Prop :=
  ∃ k a b, branch_strings idx t1 n1 !! k = Some a ∧ branch_strings idx t2 n2 !! k = Some b
    ∧ a ≠ b ∧ dhash256 a = dhash256 b.

Lemma fold_branch_inj n1 n2 idx t1 t2 :
  digests n1 → digests n2 → length n1 = length n2 →
  length t1 = 32%nat → length t2 = 32%nat →
  fold_branch idx t1 n1 = fold_branch idx t2 n2 →
  t1 = t2 ∨ branch_clash idx t1 n1 t2 n2.
Proof.
  intros Hd1. revert n2 idx t1 t2.
  induction Hd1 as [|x1 n1 Hx1 Hd1 IH]; intros [|x2 n2] idx t1 t2 Hd2 Hl Ht1 Ht2 Hf; try done; [by left|].
  inversion_clear Hd2 as [|? ? Hx2 Hd2']. cbn [fold_branch] in Hf.
  apply IH in Hf as [Hs|(k & a & b & Ha & Hb & Hc)]; [| |done|by injection Hl|..];
    try (destruct (_ =? 1); apply sha_len).
  2: { right. exists (S k), a, b. split; [|split; [|done]]; cbn; [rewrite <-Ha|rewrite <-Hb]; by destruct (_ =? 1). }
  unfold hash256_merkle_step in Hs.
  set (p x t := if idx mod 2 =? 1 then x ++ t else t ++ x : bytes).
  assert (Hp : dhash256 (p x1 t1) = dhash256 (p x2 t2)) by (subst p; cbn; by destruct (_ =? 1)).
  destruct (decide (p x1 t1 = p x2 t2)) as [He|He].
  - left. subst p. cbn in He. destruct (_ =? 1).
    + by apply app_inj_1 in He as [_ ?]; [|by rewrite Hx1].
    + by apply app_inj_1 in He as [? _]; [|by rewrite Ht1].
  - right. by exists 0%nat, (p x1 t1), (p x2 t2).
Qed.

(** a merkle proof binds the transaction.  For a root, a position and a
    proof length other than one, the proofs [merkle_prove] accepts are all of
    the same transaction, or at some level of the two branches different strings are
    hashed to one digest. *)
Theorem merkle_prove_binds root idx t1 t2 n1 n2 :
  digests n1 → digests n2 → length n1 = length n2 → length n1 ≠ 1%nat →
  length t1 = 32%nat → length t2 = 32%nat →
  merkle_prove t1 root n1 idx = Ok () → merkle_prove t2 root n2 idx = Ok () →
  t1 = t2 ∨ branch_clash idx t1 n1 t2 n2.
Proof.
  intros Hd1 Hd2 Hl Hn1 Ht1 Ht2. rewrite !merkle_prove_spec, <-Hl by done.
  rewrite (proj2 (Nat.eqb_neq _ _) Hn1). cbn [orb].
  repeat case_bool_decide; try done. intros _ _.
  apply (fold_branch_inj n1 n2 idx); congruence.
Qed.

(** a server that answers with a merkle branch of exactly one node has any
    transaction accepted as included in any block: [verify_hash256_merkle]
    returns before it compares anything when the proof has one node. *)
Theorem one_node_proof_forges tx node pos h :
  tx_fits StandardWithWitness tx = true → inputs tx ≠ [] →
  base_fits h = true → (80 ≤ length (ser_header h))%nat → length node = 32%nat →
  validate_spv_proof tx [node] pos h = Ok ().
Proof.
  intros. rewrite validate_spv_proof_eq, merkle_prove_spec; try done.
  constructor; [by rewrite length_reverse|constructor].
Qed.

(** ** Header chains *)

(** What one header must satisfy of the target of the first. *)
Definition header_ok (difficulty_check constant_difficulty : bool) (target : Z) (h : BlockHeader) : Prop :=
  ∃ t, header_target h = Ok t
    ∧ (constant_difficulty = false → difficulty_check = true → t = target)
    ∧ (difficulty_check = true →
       BlockHeader_hash h ≠ zeros 32 ∧ le_combine (BlockHeader_hash h) < target).

Lemma check_header_spec dc cd first prev target h :
  base_fits h = true →
  check_header dc cd first prev target h
  = Ok (BlockHeader_hash h) ↔
  header_ok dc cd target h ∧ (first = false → previous_header_hash h = prev).
Proof.
  intros Hb. destruct (raw_header_fields h Hb) as [Hp _].
  unfold check_header, header_ok, validate_header_work. rewrite Hp. fold (BlockHeader_hash h).
  destruct (header_target h) as [t|]; [|by split; [|intros [(? & ? & _) _]]].
  destruct ((negb cd && dc) && negb (t =? target)) eqn:E1.
  { split; [done|]. intros [(t' & [= <-] & H1 & _) _].
    apply andb_inv in E1 as [[Hc Hd]%andb_inv Hn]. apply negb_true_iff in Hc, Hn.
    by apply Z.eqb_neq in Hn; destruct Hn; apply H1. }
  destruct (negb first && _) eqn:E2.
  { split; [done|]. intros [_ H3]. apply andb_inv in E2 as [Hf Hn]. apply negb_true_iff in Hf, Hn.
    by apply bool_decide_eq_false in Hn; destruct Hn; apply H3. }
  assert (H3 : first = false → previous_header_hash h = prev).
  { intros ->. cbn [negb andb] in E2. apply negb_false_iff in E2. by apply bool_decide_eq_true in E2. }
  assert (H1 : cd = false → dc = true → t = target).
  { intros -> ->. cbn [negb andb] in E1. apply negb_false_iff in E1. by apply Z.eqb_eq. }
  destruct dc; cbn [andb]; [|split; [intros _; split; [by exists t|done]|done]].
  destruct (bool_decide_reflect (BlockHeader_hash h = zeros 32)) as [Hz|Hz]; cbn [negb].
  { split; [done|]. intros [(t' & _ & _ & H2) _]. by destruct (H2 eq_refl). }
  destruct (Z.ltb_spec (le_combine (BlockHeader_hash h)) target); cbn [negb].
  - split; [|done]. intros _. split; [by exists t|done].
  - split; [done|]. intros [(t' & _ & _ & H2) _]. destruct (H2 eq_refl). lia.
Qed.

Lemma check_header_hash dc cd first prev target h x :
  check_header dc cd first prev target h = Ok x → x = BlockHeader_hash h.
Proof. unfold check_header. intros H. by case_in H. Qed.

(** Every header but the first names the hash of the one before it. *)
Definition linked (hs : list BlockHeader) : Prop :=
  ∀ i a b, hs !! i = Some a → hs !! S i = Some b → previous_header_hash b = BlockHeader_hash a.

Lemma linked_cons a b hs :
  linked (a :: b :: hs) ↔ previous_header_hash b = BlockHeader_hash a ∧ linked (b :: hs).
Proof.
  split.
  - intros H. split; [by apply (H 0%nat)|]. intros i. apply (H (S i)).
  - intros [H1 H2] [|i] x y; [|apply H2]. by intros [= <-] [= <-].
Qed.

Lemma check_headers_spec dc cd target prev hs :
  forallb base_fits hs = true →
  check_headers dc cd (BlockHeader_hash prev) target hs = Ok () ↔
  Forall (header_ok dc cd target) hs ∧ linked (prev :: hs).
Proof.
  revert prev. induction hs as [|h hs IH]; intros prev Hf.
  { split; [|done]. split; [constructor|]. by intros [|i]. }
  cbn [forallb check_headers] in *. fits_inv.
  rewrite linked_cons, Forall_cons.
  pose proof (check_header_spec dc cd false (BlockHeader_hash prev) target h) as Hs.
  destruct (check_header _ _ _ _ _ _) as [x|] eqn:E.
  - rewrite (check_header_hash _ _ _ _ _ _ _ E) in *. rewrite IH by done. naive_solver.
  - split; [done|]. naive_solver.
Qed.

(** [validate_headers] accepts exactly the chains in which every header
    names the hash of its predecessor, every target can be decoded, and, where
    difficulty is checked, the hash of every header is nonzero and below the
    target of the first, with one target for the whole chain unless the chain's
    difficulty may vary. *)
Theorem validate_headers_iff h hs dc cd :
  forallb base_fits (h :: hs) = true →
  validate_headers (h :: hs) dc cd = Ok () ↔
  ∃ target, header_target h = Ok target
    ∧ Forall (header_ok dc cd target) (h :: hs) ∧ linked (h :: hs).
Proof.
  cbn [forallb validate_headers]. intros Hf. fits_inv.
  destruct (header_target h) as [target|] eqn:Ht; [|naive_solver].
  pose proof (check_header_spec dc cd true (zeros 32) target h) as Hs.
  assert (Hex : ∀ P : Z → Prop, (∃ t, @Ok Z Z target = Ok t ∧ P t) ↔ P target) by naive_solver.
  rewrite Hex, Forall_cons.
  destruct (check_header _ _ _ _ _ _) as [x|] eqn:E.
  - rewrite (check_header_hash _ _ _ _ _ _ _ E) in *. rewrite check_headers_spec by done. naive_solver.
  - split; [done|]. naive_solver.
Qed.

End WithSha256.

(** ** Targets *)

Lemma land_bit c n : 0 ≤ n → negb (Z.land c (2 ^ n) =? 0) = Z.testbit c n.
Proof.
  intros Hn. destruct (Z.testbit c n) eqn:E.
  - apply negb_true_iff, Z.eqb_neq. intros H0%(f_equal (λ z, Z.testbit z n)).
    rewrite Z.land_spec, Z.pow2_bits_true, E, Z.bits_0 in H0 by done. done.
  - apply negb_false_iff, Z.eqb_eq. apply Z.bits_inj'. intros k Hk.
    rewrite Z.land_spec, Z.bits_0, Z.pow2_bits_eqb by done.
    destruct (Z.eqb_spec n k) as [<-|]; [by rewrite E|apply andb_false_r].
Qed.

Lemma testbit_23 m : 0 ≤ m < 2 ^ 24 → Z.testbit m 23 = (2 ^ 23 <=? m).
Proof.
  intros. destruct (Z.leb_spec (2 ^ 23) m).
  - apply Z.testbit_true; [lia|]. by rewrite <-(Z.div_unique m (2 ^ 23) 1 (m - 2 ^ 23)) by lia.
  - apply Z.testbit_false; [lia|]. by rewrite Z.div_small by lia.
Qed.

(** A 23-bit mantissa and an exponent, packed. *)
Lemma pack_add m e : 0 ≤ m < 2 ^ 23 → 0 ≤ e < 256 → Z.lor m (u32 (Z.shiftl e 24)) = m + e * 2 ^ 24.
Proof.
  intros. rewrite Z.shiftl_mul_pow2 by lia. rewrite uwrap_id by (unfold is_u; lia).
  assert (Hl : Z.land m (e * 2 ^ 24) = 0).
  { apply Z.bits_inj'. intros k Hk. rewrite Z.land_spec, Z.bits_0, <-Z.shiftl_mul_pow2 by lia.
    destruct (Z.lt_ge_cases k 24); [by rewrite Z.shiftl_spec_low, andb_false_r by done|].
    rewrite <-(Z.mod_small m (2 ^ 24)) by lia. by rewrite Z.mod_pow2_bits_high by lia. }
  pose proof (Z.add_lor_land m (e * 2 ^ 24)). lia.
Qed.

Lemma to_u256_pack m e :
  0 ≤ m < 2 ^ 23 → 0 ≤ e ≤ 33 → (e = 33 → m ≤ 0xffff) →
  to_u256 (Z.lor m (u32 (Z.shiftl e 24)))
  = Ok (if e <=? 3 then Z.shiftr m (8 * (3 - e)) else m * 2 ^ (8 * (e - 3))).
Proof.
  intros Hm He H33. rewrite pack_add by lia. unfold to_u256.
  rewrite Z.shiftr_div_pow2 by lia. rewrite <-(Z.div_unique _ (2 ^ 24) e m) by lia.
  change 0x7fffff with (Z.ones 23). rewrite Z.land_ones by lia.
  rewrite <-(Z.mod_unique _ (2 ^ 23) (2 * e) m) by lia.
  change 0x800000 with (2 ^ 23). rewrite land_bit by lia.
  rewrite (proj2 (Z.testbit_false _ 23 ltac:(lia))), andb_false_r; cycle 1.
  { rewrite <-(Z.div_unique _ (2 ^ 23) (2 * e) m) by lia. by rewrite Z.mul_comm, Z_mod_mult. }
  cbn [orb]. rewrite (proj2 (Z.ltb_ge 34 e)), andb_false_r by lia.
  destruct (Z.leb_spec e 3) as [H3|H3].
  { rewrite (proj2 (Z.ltb_ge 33 e)), (proj2 (Z.ltb_ge 32 e)) by lia. by rewrite !andb_false_r. }
  rewrite (proj2 (Z.ltb_ge 33 e)), andb_false_r by lia. cbn [orb].
  replace ((0xffff <? m) && (32 <? e)) with false; cycle 1.
  { destruct (Z.ltb_spec 0xffff m), (Z.ltb_spec 32 e); try done. lia. }
  rewrite Z.shiftl_mul_pow2 by lia. f_equal. apply uwrap_id. unfold is_u.
  assert (0 < 2 ^ (8 * (e - 3))) by (apply Z.pow_pos_nonneg; lia). split; [nia|].
  destruct (Z.eq_dec e 33) as [->|].
  - change (2 ^ 256) with (2 ^ 16 * 2 ^ (8 * (33 - 3))). apply Z.mul_lt_mono_pos_r; lia.
  - apply Z.lt_le_trans with (2 ^ 23 * 2 ^ (8 * (e - 3))); [by apply Z.mul_lt_mono_pos_r; lia|].
    rewrite <-Z.pow_add_r by lia. apply Z.pow_le_mono_r; lia.
Qed.

(** The size in bytes of a positive value. *)
Lemma u256_size t :
  0 < t → let size := (u256_bits t + 7) / 8 in
  1 ≤ size ∧ 2 ^ (8 * (size - 1)) ≤ t < 2 ^ (8 * size).
Proof.
  intros Ht size. subst size. unfold u256_bits. rewrite (proj2 (Z.eqb_neq t 0)) by lia.
  pose proof (Z.log2_spec t Ht) as [H1 H2]. pose proof (Z.log2_nonneg t).
  set (s := (Z.log2 t + 1 + 7) / 8).
  assert (Hs : 8 * (s - 1) ≤ Z.log2 t < 8 * s) by (subst s; Z.div_mod_to_equations; lia).
  split; [lia|]. split.
  - etrans; [|exact H1]. apply Z.pow_le_mono_r; lia.
  - eapply Z.lt_le_trans; [exact H2|]. apply Z.pow_le_mono_r; lia.
Qed.

(** Evaluates the powers of two with literal exponents. *)
Ltac zpows :=
  repeat match goal with
  | |- context [2 ^ ?e] =>
      let v := eval vm_compute in (2 ^ e) in
      lazymatch v with Zpos _ => change (2 ^ e) with v end
  | H : context [2 ^ ?e] |- _ =>
      let v := eval vm_compute in (2 ^ e) in
      lazymatch v with Zpos _ => change (2 ^ e) with v in H end
  end.

(** Decoding what [from_u256] packs, where the mantissa of [t] at [size] bytes
    is [m]. *)
Lemma repack m size :
  0 ≤ m < 2 ^ 24 → 0 ≤ size ≤ 32 →
  to_u256 (let flag := negb (Z.land m 0x00800000 =? 0) in
           Z.lor (if flag then Z.shiftr m 8 else m)
             (u32 (Z.shiftl (if flag then size + 1 else size) 24)))
  = Ok (if m <? 2 ^ 23
        then if size <=? 3 then m / 2 ^ (8 * (3 - size)) else m * 2 ^ (8 * (size - 3))
        else if size <=? 2 then m / 2 ^ (8 * (3 - size)) else m / 2 ^ 8 * 2 ^ (8 * (size - 2))).
Proof.
  intros Hm Hs. change 0x00800000 with (2 ^ 23). rewrite land_bit, testbit_23 by lia. cbv zeta.
  rewrite Z.leb_antisym. destruct (Z.ltb_spec m (2 ^ 23)); cbn [negb].
  - rewrite to_u256_pack by lia. f_equal. destruct (Z.leb_spec size 3); [|done].
    by rewrite Z.shiftr_div_pow2 by lia.
  - assert (0 ≤ m / 2 ^ 8 < 2 ^ 16) by (zpows; Z.div_mod_to_equations; lia).
    rewrite Z.shiftr_div_pow2, to_u256_pack by lia. f_equal.
    replace (size + 1 <=? 3) with (size <=? 2) by (zcases; done).
    destruct (Z.leb_spec size 2).
    + rewrite Z.shiftr_div_pow2, Z.div_div by (try apply Z.pow_pos_nonneg; lia).
      rewrite <-Z.pow_add_r by lia. do 2 f_equal. lia.
    + do 2 f_equal. lia.
Qed.

(** The part of [t] above a unit [P] is within [P] of it. *)
Lemma truncation t P :
  0 < P → 2 ^ 15 * P ≤ t → t / P * P ≤ t ∧ (t - t / P * P) * 2 ^ 15 ≤ t / P * P.
Proof.
  intros HP Ht. pose proof (Z.div_mod t P ltac:(lia)). pose proof (Z.mod_pos_bound t P HP).
  assert (2 ^ 15 ≤ t / P) by (apply Z.div_le_lower_bound; lia). zpows. nia.
Qed.

Lemma target_back t :
  0 ≤ t < 2 ^ 256 →
  ∃ t', to_u256 (from_u256 t) = Ok t' ∧ t' ≤ t ∧ (t - t') * 2 ^ 15 ≤ t'.
Proof.
  intros Ht. destruct (Z.eq_dec t 0) as [->|Hnz]; [by exists 0|].
  destruct (u256_size t ltac:(lia)) as [Hs1 Hs]. unfold from_u256.
  set (size := (u256_bits t + 7) / 8) in *.
  assert (size ≤ 32).
  { apply Z.lt_succ_r. apply Z.nle_gt. intros Hc.
    assert (2 ^ 256 ≤ 2 ^ (8 * (size - 1))) by (apply Z.pow_le_mono_r; lia). lia. }
  destruct (Z.leb_spec size 3) as [H3|H3].
  - assert (Hm : Z.shiftl (u64 t) (8 * (3 - size)) = t * 2 ^ (8 * (3 - size)) ∧ t * 2 ^ (8 * (3 - size)) < 2 ^ 24).
    { rewrite Z.shiftl_mul_pow2 by lia. assert (t < 2 ^ 24) by (destruct Hs as [_ Hs];
        eapply Z.lt_le_trans; [exact Hs|]; apply Z.pow_le_mono_r; lia).
      rewrite uwrap_id by (unfold is_u; zpows; lia). split; [done|].
      replace (2 ^ 24) with (2 ^ (8 * size) * 2 ^ (8 * (3 - size))) by (rewrite <-Z.pow_add_r by lia; f_equal; lia).
      apply Z.mul_lt_mono_pos_r; [apply Z.pow_pos_nonneg|]; lia. }
    destruct Hm as [-> Hm]. assert (0 < 2 ^ (8 * (3 - size))) by (apply Z.pow_pos_nonneg; lia).
    assert (0 ≤ t * 2 ^ (8 * (3 - size))) by nia.
    rewrite (uwrap_id 64 (t * _)), (uwrap_id 32 (t * _)) by (unfold is_u; zpows; lia).
    rewrite repack by lia.
    eexists. split; [reflexivity|]. rewrite (proj2 (Z.leb_le size 3)) by lia.
    destruct (Z.ltb_spec (t * 2 ^ (8 * (3 - size))) (2 ^ 23)); [|destruct (Z.leb_spec size 2)];
      try (rewrite Z.div_mul by lia; lia).
    replace size with 3 in * by lia. change (2 ^ (8 * (3 - 3))) with 1 in *. rewrite Z.mul_1_r in *.
    change (2 ^ (8 * (3 - 2))) with (2 ^ 8). apply truncation; zpows; lia.
  - rewrite Z.shiftr_div_pow2 by lia. set (P := 2 ^ (8 * (size - 3))).
    assert (0 < P) by (apply Z.pow_pos_nonneg; lia).
    assert (Hlo : 2 ^ 16 * P ≤ t < 2 ^ 24 * P).
    { subst P. rewrite <-!Z.pow_add_r by lia.
      replace (16 + 8 * (size - 3)) with (8 * (size - 1)) by lia.
      replace (24 + 8 * (size - 3)) with (8 * size) by lia. done. }
    assert (Hm : 2 ^ 16 ≤ t / P < 2 ^ 24)
      by (split; [apply Z.div_le_lower_bound|apply Z.div_lt_upper_bound]; lia).
    rewrite (uwrap_id 32 (t / P)) by (unfold is_u; zpows; lia). rewrite repack by (zpows; lia).
    eexists. split; [reflexivity|]. rewrite (proj2 (Z.leb_gt size 3)), (proj2 (Z.leb_gt size 2)) by lia.
    destruct (Z.ltb_spec (t / P) (2 ^ 23)); [fold P; apply truncation; zpows; lia|].
    assert (2 ^ 23 * P ≤ t) by (pose proof (Z.mul_div_le t P ltac:(lia)); zpows; nia).
    rewrite Z.div_div by (zpows; lia).
    replace (2 ^ (8 * (size - 2))) with (P * 2 ^ 8)
      by (subst P; rewrite <-Z.pow_add_r by lia; f_equal; lia).
    apply truncation; zpows; lia.
Qed.

(** packing a difficulty target and unpacking it never fails, never makes
    the target easier, and loses at most one part in 2^15 of it: the mantissa
    keeps sixteen significant bits, with the sign bit clear. *)
Theorem target_roundtrip t :
  0 ≤ t < 2 ^ 256 →
  ∃ t', to_u256 (from_u256 t) = Ok t' ∧ t' ≤ t ∧ (t - t') * 2 ^ 15 ≤ t'.
Proof. apply target_back. Qed.

(** ** A concrete block

    A stand-in for SHA-256 with digests of the right length. *)
Module SpvSample.

Definition sha (b : bytes) : bytes := le_split 32 (le_combine b * 3 + 7).

Definition txid : bytes := Transaction_hash sha TxSample.segwit.
Definition leaves : list bytes := [replicate 32 (z2b 1); replicate 32 (z2b 2); txid].
Definition root : bytes := default [] (merkle_root sha leaves).
Definition header : BlockHeader :=
  plain 0x20000000 (replicate 32 (z2b 9)) root 1700000000 (BitsCompact 0x1d00ffff) (NonceU32 5).
Definition child : BlockHeader :=
  plain 0x20000000 (BlockHeader_hash sha header) root 1700000600 (BitsCompact 0x1d00ffff) (NonceU32 6).

Lemma sha_len b : length (sha b) = 32%nat.
Proof. apply length_le_split. Qed.

Lemma digests_leaves : digests leaves.
Proof. unfold leaves. repeat constructor. Qed.

End SpvSample.

Lemma target_roundtrip_witness :
  ∃ t', to_u256 (from_u256 (2 ^ 224 - 1)) = Ok t' ∧ t' ≤ 2 ^ 224 - 1
    ∧ (2 ^ 224 - 1 - t') * 2 ^ 15 ≤ t'.
Proof. apply (target_roundtrip (2 ^ 224 - 1)). split; [by apply Z.leb_le|by apply Z.ltb_lt]. Defined.

Lemma spv_accepts_included_witness :
  validate_spv_proof SpvSample.sha TxSample.segwit
    (map reverse (merkle_branch SpvSample.sha 3 SpvSample.leaves 2)) 2 SpvSample.header = Ok ().
Proof.
  apply (spv_accepts_included SpvSample.sha SpvSample.sha_len TxSample.segwit SpvSample.leaves 2);
    [vm_compute; reflexivity|discriminate|vm_compute; reflexivity|by apply Nat.leb_le
    |exact SpvSample.digests_leaves|reflexivity|vm_compute; reflexivity].
Defined.

Lemma merkle_prove_binds_witness :
  let branch := merkle_branch SpvSample.sha 3 SpvSample.leaves 2 in
  SpvSample.txid = SpvSample.txid ∨ branch_clash SpvSample.sha 2 SpvSample.txid branch SpvSample.txid branch.
Proof.
  apply (merkle_prove_binds SpvSample.sha SpvSample.sha_len SpvSample.root 2 SpvSample.txid
           SpvSample.txid (merkle_branch SpvSample.sha 3 SpvSample.leaves 2)
           (merkle_branch SpvSample.sha 3 SpvSample.leaves 2));
    [by repeat constructor|by repeat constructor|reflexivity|discriminate|reflexivity|reflexivity
    |vm_compute; reflexivity|vm_compute; reflexivity].
Defined.

Lemma one_node_proof_forges_witness :
  validate_spv_proof SpvSample.sha TxSample.legacy [replicate 32 (z2b 0)] 123 SpvSample.header = Ok ().
Proof.
  apply (one_node_proof_forges SpvSample.sha TxSample.legacy (replicate 32 (z2b 0)) 123 SpvSample.header);
    [vm_compute; reflexivity|discriminate|vm_compute; reflexivity|by apply Nat.leb_le|reflexivity].
Defined.

Lemma validate_headers_iff_witness :
  validate_headers SpvSample.sha [SpvSample.header; SpvSample.child] false false = Ok () ↔
  ∃ target, header_target SpvSample.header = Ok target
    ∧ Forall (header_ok SpvSample.sha false false target) [SpvSample.header; SpvSample.child]
    ∧ linked SpvSample.sha [SpvSample.header; SpvSample.child].
Proof.
  apply (validate_headers_iff SpvSample.sha SpvSample.header [SpvSample.child] false false).
  vm_compute. reflexivity.
Defined.
