(* ===== verification/Crypto.v ===== *)
(** * Digests and public keys

    [kdf_crypto] and the hash payloads and public keys of [kdf_keys].  The hash
    functions are those of third-party crates and are the fields of [Hashes]; what
    is relied on is that a digest has its length ([HashLengths]). *)

From Stdlib Require Import ZArith Lia.
From S2P Require Import Prelude.
From stdpp Require Import base tactics list numbers option strings.

Local Open Scope Z_scope.

Class Hashes := {
  sha256 : bytes → bytes;
  ripemd160 : bytes → bytes;
  groestl512 : bytes → bytes;
  keccak256 : bytes → bytes;
  blake2b_personal : bytes → bytes → bytes
}.

Class HashLengths `{Hashes} : Prop := {
  length_sha256 b : length (sha256 b) = 32%nat;
  length_ripemd160 b : length (ripemd160 b) = 20%nat;
  length_groestl512 b : length (groestl512 b) = 64%nat;
  length_keccak256 b : length (keccak256 b) = 32%nat;
  length_blake2b b p : length (blake2b_personal b p) = 32%nat
}.

#[export] Hint Rewrite @length_sha256 @length_ripemd160 using apply _ : kdf.

(** Digests that keep the start of their input: they have the lengths. *)
Definition sample_hashes : Hashes := {|
  sha256 := resize 32 (z2b 0);
  ripemd160 := resize 20 (z2b 0);
  groestl512 := resize 64 (z2b 0);
  keccak256 := resize 32 (z2b 0);
  blake2b_personal b p := resize 32 (z2b 0) (p ++ b)
|}.

Lemma sample_lengths : @HashLengths sample_hashes.
Proof. split; intros; apply length_resize. Qed.

Inductive ChecksumType : Type := Sum_DSHA256 | Sum_DGROESTL512 | Sum_KECCAK256.

#[global] Instance ChecksumType_eq_dec : EqDecision ChecksumType.
Proof. solve_decision. Defined.

Section digests.
Context `{Hashes}.

Definition dkeccak256 (input : bytes) : bytes := keccak256 (keccak256 input).
Definition dhash160 (input : bytes) : bytes := ripemd160 (sha256 input).
Definition dhash256 (input : bytes) : bytes := sha256 (sha256 input).
Definition dgroestl512 (input : bytes) : bytes := groestl512 (groestl512 input).

Definition checksum (data : bytes) (sum_type : ChecksumType) : bytes :=
  match sum_type with
  | Sum_DSHA256 => take 4 (dhash256 data)
  | Sum_DGROESTL512 => take 4 (dgroestl512 data)
  | Sum_KECCAK256 => take 4 (keccak256 data)
  end.

Lemma length_dhash160 `{!HashLengths} b : length (dhash160 b) = 20%nat.
Proof. apply length_ripemd160. Qed.
Lemma length_dhash256 `{!HashLengths} b : length (dhash256 b) = 32%nat.
Proof. apply length_sha256. Qed.
Lemma length_checksum `{!HashLengths} data t : length (checksum data t) = 4%nat.
Proof.
  destruct t; cbn; rewrite length_take;
    unfold dhash256, dgroestl512; rewrite ?length_sha256, ?length_groestl512, ?length_keccak256; lia.
Qed.

End digests.

(** ** Hash payloads and public keys *)

Inductive AddressHashEnum : Type :=
| AddressHash (h : bytes)
| WitnessScriptHash (h : bytes).

#[global] Instance AddressHashEnum_eq_dec : EqDecision AddressHashEnum.
Proof. solve_decision. Defined.

Definition hash_to_vec (a : AddressHashEnum) : bytes :=
  match a with AddressHash h | WitnessScriptHash h => h end.

(** An [H160] has twenty bytes and an [H256] thirty-two. *)
Definition hash_ok (a : AddressHashEnum) : bool :=
  match a with
  | AddressHash h => (length h =? 20)%nat
  | WitnessScriptHash h => (length h =? 32)%nat
  end.

(** The type of an address. *)
Inductive AddrType : Type := P2PKH | P2SH | P2WPKH | P2WSH.

#[global] Instance AddrType_eq_dec : EqDecision AddrType.
Proof. solve_decision. Defined.

Inductive Public : Type :=
| Normal (key : bytes)
| Compressed (key : bytes).

Definition public_bytes (p : Public) : bytes := match p with Normal k | Compressed k => k end.

(** [PartialEq for Public] compares the bytes. *)
Definition public_eqb (p q : Public) : bool := bool_decide (public_bytes p = public_bytes q).

Definition public_ok (p : Public) : bool :=
  match p with Normal k => (length k =? 65)%nat | Compressed k => (length k =? 33)%nat end.

Lemma public_length p : public_ok p = true → (33 ≤ length (public_bytes p) ≤ 65)%nat.
Proof. destruct p; cbn; intros Hp; apply Nat.eqb_eq in Hp; lia. Qed.

Inductive KeysError : Type :=
| InvalidPublic | InvalidSecret | InvalidMessage | InvalidSignature | InvalidNetwork
| InvalidChecksum | InvalidPrivate | InvalidAddress | FailedKeyGeneration.

#[global] Instance KeysError_eq_dec : EqDecision KeysError.
Proof. solve_decision. Defined.

Definition public_from_slice (b : bytes) : result Public KeysError :=
  match length b with
  | 33%nat => Ok (Compressed b)
  | 65%nat => Ok (Normal b)
  | _ => Err InvalidPublic
  end.

Definition address_hash `{Hashes} (p : Public) : bytes := dhash160 (public_bytes p).

Lemma public_from_slice_Ok b p :
  public_from_slice b = Ok p ↔ b = public_bytes p ∧ public_ok p = true.
Proof.
  unfold public_from_slice, public_ok. split.
  - intros E. destruct (length b) as [|n] eqn:L; [done|].
    do 32 (destruct n as [|n]; [done|]). destruct n as [|n]; [by simplify_eq; cbn; rewrite L|].
    do 31 (destruct n as [|n]; [done|]). destruct n as [|n]; [by simplify_eq; cbn; rewrite L|done].
  - intros [-> Hp]. destruct p as [k|k]; cbn in *; apply Nat.eqb_eq in Hp; by rewrite Hp.
Qed.
