(* ===== verification/Script.v ===== *)
(** * Scripts

    [kdf_script]: the opcodes, script numbers, the builder, the parser and the
    classifier.  A script is its bytes; a position is an index into them, and
    the instruction at a position reads the script from there on.  The assertions
    of the builder are a panic, [None].  Positions and lengths are those of
    slices, which do not reach 2^63, so their sums do not wrap. *)

From Stdlib Require Import ZArith Lia.
From S2P Require Import Prelude Crypto.
From stdpp Require Import base tactics list numbers option strings.
From coqutil Require Import Byte Word.LittleEndianList.

Local Open Scope Z_scope.

(** ** Opcodes *)

Inductive Opcode : Type :=
| OP_0 | OP_PUSHBYTES_1 | OP_PUSHBYTES_2 | OP_PUSHBYTES_3 | OP_PUSHBYTES_4 | OP_PUSHBYTES_5
| OP_PUSHBYTES_6 | OP_PUSHBYTES_7 | OP_PUSHBYTES_8 | OP_PUSHBYTES_9 | OP_PUSHBYTES_10
| OP_PUSHBYTES_11 | OP_PUSHBYTES_12 | OP_PUSHBYTES_13 | OP_PUSHBYTES_14 | OP_PUSHBYTES_15
| OP_PUSHBYTES_16 | OP_PUSHBYTES_17 | OP_PUSHBYTES_18 | OP_PUSHBYTES_19 | OP_PUSHBYTES_20
| OP_PUSHBYTES_21 | OP_PUSHBYTES_22 | OP_PUSHBYTES_23 | OP_PUSHBYTES_24 | OP_PUSHBYTES_25
| OP_PUSHBYTES_26 | OP_PUSHBYTES_27 | OP_PUSHBYTES_28 | OP_PUSHBYTES_29 | OP_PUSHBYTES_30
| OP_PUSHBYTES_31 | OP_PUSHBYTES_32 | OP_PUSHBYTES_33 | OP_PUSHBYTES_34 | OP_PUSHBYTES_35
| OP_PUSHBYTES_36 | OP_PUSHBYTES_37 | OP_PUSHBYTES_38 | OP_PUSHBYTES_39 | OP_PUSHBYTES_40
| OP_PUSHBYTES_41 | OP_PUSHBYTES_42 | OP_PUSHBYTES_43 | OP_PUSHBYTES_44 | OP_PUSHBYTES_45
| OP_PUSHBYTES_46 | OP_PUSHBYTES_47 | OP_PUSHBYTES_48 | OP_PUSHBYTES_49 | OP_PUSHBYTES_50
| OP_PUSHBYTES_51 | OP_PUSHBYTES_52 | OP_PUSHBYTES_53 | OP_PUSHBYTES_54 | OP_PUSHBYTES_55
| OP_PUSHBYTES_56 | OP_PUSHBYTES_57 | OP_PUSHBYTES_58 | OP_PUSHBYTES_59 | OP_PUSHBYTES_60
| OP_PUSHBYTES_61 | OP_PUSHBYTES_62 | OP_PUSHBYTES_63 | OP_PUSHBYTES_64 | OP_PUSHBYTES_65
| OP_PUSHBYTES_66 | OP_PUSHBYTES_67 | OP_PUSHBYTES_68 | OP_PUSHBYTES_69 | OP_PUSHBYTES_70
| OP_PUSHBYTES_71 | OP_PUSHBYTES_72 | OP_PUSHBYTES_73 | OP_PUSHBYTES_74 | OP_PUSHBYTES_75
| OP_PUSHDATA1 | OP_PUSHDATA2 | OP_PUSHDATA4 | OP_1NEGATE | OP_RESERVED | OP_1 | OP_2 | OP_3 | OP_4
| OP_5 | OP_6 | OP_7 | OP_8 | OP_9 | OP_10 | OP_11 | OP_12 | OP_13 | OP_14 | OP_15 | OP_16 | OP_NOP
| OP_VER | OP_IF | OP_NOTIF | OP_VERIF | OP_VERNOTIF | OP_ELSE | OP_ENDIF | OP_VERIFY | OP_RETURN
| OP_TOALTSTACK | OP_FROMALTSTACK | OP_2DROP | OP_2DUP | OP_3DUP | OP_2OVER | OP_2ROT | OP_2SWAP
| OP_IFDUP | OP_DEPTH | OP_DROP | OP_DUP | OP_NIP | OP_OVER | OP_PICK | OP_ROLL | OP_ROT | OP_SWAP
| OP_TUCK | OP_CAT | OP_SUBSTR | OP_LEFT | OP_RIGHT | OP_SIZE | OP_INVERT | OP_AND | OP_OR | OP_XOR
| OP_EQUAL | OP_EQUALVERIFY | OP_RESERVED1 | OP_RESERVED2 | OP_1ADD | OP_1SUB | OP_2MUL | OP_2DIV
| OP_NEGATE | OP_ABS | OP_NOT | OP_0NOTEQUAL | OP_ADD | OP_SUB | OP_MUL | OP_DIV | OP_MOD
| OP_LSHIFT | OP_RSHIFT | OP_BOOLAND | OP_BOOLOR | OP_NUMEQUAL | OP_NUMEQUALVERIFY | OP_NUMNOTEQUAL
| OP_LESSTHAN | OP_GREATERTHAN | OP_LESSTHANOREQUAL | OP_GREATERTHANOREQUAL | OP_MIN | OP_MAX
| OP_WITHIN | OP_RIPEMD160 | OP_SHA1 | OP_SHA256 | OP_HASH160 | OP_HASH256 | OP_CODESEPARATOR
| OP_CHECKSIG | OP_CHECKSIGVERIFY | OP_CHECKMULTISIG | OP_CHECKMULTISIGVERIFY | OP_NOP1
| OP_CHECKLOCKTIMEVERIFY | OP_CHECKSEQUENCEVERIFY | OP_NOP4 | OP_NOP5 | OP_NOP6 | OP_NOP7 | OP_NOP8
| OP_NOP9 | OP_NOP10 | OP_CREATE | OP_CALL | OP_SPEND | OP_SENDER.

(** [op as u8]. *)
Definition opcode_u8 (op : Opcode) : Z :=
  match op with
  | OP_0 => 0x00 | OP_PUSHBYTES_1 => 0x01 | OP_PUSHBYTES_2 => 0x02 | OP_PUSHBYTES_3 => 0x03
  | OP_PUSHBYTES_4 => 0x04 | OP_PUSHBYTES_5 => 0x05 | OP_PUSHBYTES_6 => 0x06
  | OP_PUSHBYTES_7 => 0x07 | OP_PUSHBYTES_8 => 0x08 | OP_PUSHBYTES_9 => 0x09
  | OP_PUSHBYTES_10 => 0x0a | OP_PUSHBYTES_11 => 0x0b | OP_PUSHBYTES_12 => 0x0c
  | OP_PUSHBYTES_13 => 0x0d | OP_PUSHBYTES_14 => 0x0e | OP_PUSHBYTES_15 => 0x0f
  | OP_PUSHBYTES_16 => 0x10 | OP_PUSHBYTES_17 => 0x11 | OP_PUSHBYTES_18 => 0x12
  | OP_PUSHBYTES_19 => 0x13 | OP_PUSHBYTES_20 => 0x14 | OP_PUSHBYTES_21 => 0x15
  | OP_PUSHBYTES_22 => 0x16 | OP_PUSHBYTES_23 => 0x17 | OP_PUSHBYTES_24 => 0x18
  | OP_PUSHBYTES_25 => 0x19 | OP_PUSHBYTES_26 => 0x1a | OP_PUSHBYTES_27 => 0x1b
  | OP_PUSHBYTES_28 => 0x1c | OP_PUSHBYTES_29 => 0x1d | OP_PUSHBYTES_30 => 0x1e
  | OP_PUSHBYTES_31 => 0x1f | OP_PUSHBYTES_32 => 0x20 | OP_PUSHBYTES_33 => 0x21
  | OP_PUSHBYTES_34 => 0x22 | OP_PUSHBYTES_35 => 0x23 | OP_PUSHBYTES_36 => 0x24
  | OP_PUSHBYTES_37 => 0x25 | OP_PUSHBYTES_38 => 0x26 | OP_PUSHBYTES_39 => 0x27
  | OP_PUSHBYTES_40 => 0x28 | OP_PUSHBYTES_41 => 0x29 | OP_PUSHBYTES_42 => 0x2a
  | OP_PUSHBYTES_43 => 0x2b | OP_PUSHBYTES_44 => 0x2c | OP_PUSHBYTES_45 => 0x2d
  | OP_PUSHBYTES_46 => 0x2e | OP_PUSHBYTES_47 => 0x2f | OP_PUSHBYTES_48 => 0x30
  | OP_PUSHBYTES_49 => 0x31 | OP_PUSHBYTES_50 => 0x32 | OP_PUSHBYTES_51 => 0x33
  | OP_PUSHBYTES_52 => 0x34 | OP_PUSHBYTES_53 => 0x35 | OP_PUSHBYTES_54 => 0x36
  | OP_PUSHBYTES_55 => 0x37 | OP_PUSHBYTES_56 => 0x38 | OP_PUSHBYTES_57 => 0x39
  | OP_PUSHBYTES_58 => 0x3a | OP_PUSHBYTES_59 => 0x3b | OP_PUSHBYTES_60 => 0x3c
  | OP_PUSHBYTES_61 => 0x3d | OP_PUSHBYTES_62 => 0x3e | OP_PUSHBYTES_63 => 0x3f
  | OP_PUSHBYTES_64 => 0x40 | OP_PUSHBYTES_65 => 0x41 | OP_PUSHBYTES_66 => 0x42
  | OP_PUSHBYTES_67 => 0x43 | OP_PUSHBYTES_68 => 0x44 | OP_PUSHBYTES_69 => 0x45
  | OP_PUSHBYTES_70 => 0x46 | OP_PUSHBYTES_71 => 0x47 | OP_PUSHBYTES_72 => 0x48
  | OP_PUSHBYTES_73 => 0x49 | OP_PUSHBYTES_74 => 0x4a | OP_PUSHBYTES_75 => 0x4b
  | OP_PUSHDATA1 => 0x4c | OP_PUSHDATA2 => 0x4d | OP_PUSHDATA4 => 0x4e | OP_1NEGATE => 0x4f
  | OP_RESERVED => 0x50 | OP_1 => 0x51 | OP_2 => 0x52 | OP_3 => 0x53 | OP_4 => 0x54 | OP_5 => 0x55
  | OP_6 => 0x56 | OP_7 => 0x57 | OP_8 => 0x58 | OP_9 => 0x59 | OP_10 => 0x5a | OP_11 => 0x5b
  | OP_12 => 0x5c | OP_13 => 0x5d | OP_14 => 0x5e | OP_15 => 0x5f | OP_16 => 0x60 | OP_NOP => 0x61
  | OP_VER => 0x62 | OP_IF => 0x63 | OP_NOTIF => 0x64 | OP_VERIF => 0x65 | OP_VERNOTIF => 0x66
  | OP_ELSE => 0x67 | OP_ENDIF => 0x68 | OP_VERIFY => 0x69 | OP_RETURN => 0x6a
  | OP_TOALTSTACK => 0x6b | OP_FROMALTSTACK => 0x6c | OP_2DROP => 0x6d | OP_2DUP => 0x6e
  | OP_3DUP => 0x6f | OP_2OVER => 0x70 | OP_2ROT => 0x71 | OP_2SWAP => 0x72 | OP_IFDUP => 0x73
  | OP_DEPTH => 0x74 | OP_DROP => 0x75 | OP_DUP => 0x76 | OP_NIP => 0x77 | OP_OVER => 0x78
  | OP_PICK => 0x79 | OP_ROLL => 0x7a | OP_ROT => 0x7b | OP_SWAP => 0x7c | OP_TUCK => 0x7d
  | OP_CAT => 0x7e | OP_SUBSTR => 0x7f | OP_LEFT => 0x80 | OP_RIGHT => 0x81 | OP_SIZE => 0x82
  | OP_INVERT => 0x83 | OP_AND => 0x84 | OP_OR => 0x85 | OP_XOR => 0x86 | OP_EQUAL => 0x87
  | OP_EQUALVERIFY => 0x88 | OP_RESERVED1 => 0x89 | OP_RESERVED2 => 0x8a | OP_1ADD => 0x8b
  | OP_1SUB => 0x8c | OP_2MUL => 0x8d | OP_2DIV => 0x8e | OP_NEGATE => 0x8f | OP_ABS => 0x90
  | OP_NOT => 0x91 | OP_0NOTEQUAL => 0x92 | OP_ADD => 0x93 | OP_SUB => 0x94 | OP_MUL => 0x95
  | OP_DIV => 0x96 | OP_MOD => 0x97 | OP_LSHIFT => 0x98 | OP_RSHIFT => 0x99 | OP_BOOLAND => 0x9a
  | OP_BOOLOR => 0x9b | OP_NUMEQUAL => 0x9c | OP_NUMEQUALVERIFY => 0x9d | OP_NUMNOTEQUAL => 0x9e
  | OP_LESSTHAN => 0x9f | OP_GREATERTHAN => 0xa0 | OP_LESSTHANOREQUAL => 0xa1
  | OP_GREATERTHANOREQUAL => 0xa2 | OP_MIN => 0xa3 | OP_MAX => 0xa4 | OP_WITHIN => 0xa5
  | OP_RIPEMD160 => 0xa6 | OP_SHA1 => 0xa7 | OP_SHA256 => 0xa8 | OP_HASH160 => 0xa9
  | OP_HASH256 => 0xaa | OP_CODESEPARATOR => 0xab | OP_CHECKSIG => 0xac | OP_CHECKSIGVERIFY => 0xad
  | OP_CHECKMULTISIG => 0xae | OP_CHECKMULTISIGVERIFY => 0xaf | OP_NOP1 => 0xb0
  | OP_CHECKLOCKTIMEVERIFY => 0xb1 | OP_CHECKSEQUENCEVERIFY => 0xb2 | OP_NOP4 => 0xb3
  | OP_NOP5 => 0xb4 | OP_NOP6 => 0xb5 | OP_NOP7 => 0xb6 | OP_NOP8 => 0xb7 | OP_NOP9 => 0xb8
  | OP_NOP10 => 0xb9 | OP_CREATE => 0xc1 | OP_CALL => 0xc2 | OP_SPEND => 0xc3 | OP_SENDER => 0xc4
  end.

Definition all_opcodes : list Opcode := [
  OP_0; OP_PUSHBYTES_1; OP_PUSHBYTES_2; OP_PUSHBYTES_3; OP_PUSHBYTES_4; OP_PUSHBYTES_5;
  OP_PUSHBYTES_6; OP_PUSHBYTES_7; OP_PUSHBYTES_8; OP_PUSHBYTES_9; OP_PUSHBYTES_10; OP_PUSHBYTES_11;
  OP_PUSHBYTES_12; OP_PUSHBYTES_13; OP_PUSHBYTES_14; OP_PUSHBYTES_15; OP_PUSHBYTES_16;
  OP_PUSHBYTES_17; OP_PUSHBYTES_18; OP_PUSHBYTES_19; OP_PUSHBYTES_20; OP_PUSHBYTES_21;
  OP_PUSHBYTES_22; OP_PUSHBYTES_23; OP_PUSHBYTES_24; OP_PUSHBYTES_25; OP_PUSHBYTES_26;
  OP_PUSHBYTES_27; OP_PUSHBYTES_28; OP_PUSHBYTES_29; OP_PUSHBYTES_30; OP_PUSHBYTES_31;
  OP_PUSHBYTES_32; OP_PUSHBYTES_33; OP_PUSHBYTES_34; OP_PUSHBYTES_35; OP_PUSHBYTES_36;
  OP_PUSHBYTES_37; OP_PUSHBYTES_38; OP_PUSHBYTES_39; OP_PUSHBYTES_40; OP_PUSHBYTES_41;
  OP_PUSHBYTES_42; OP_PUSHBYTES_43; OP_PUSHBYTES_44; OP_PUSHBYTES_45; OP_PUSHBYTES_46;
  OP_PUSHBYTES_47; OP_PUSHBYTES_48; OP_PUSHBYTES_49; OP_PUSHBYTES_50; OP_PUSHBYTES_51;
  OP_PUSHBYTES_52; OP_PUSHBYTES_53; OP_PUSHBYTES_54; OP_PUSHBYTES_55; OP_PUSHBYTES_56;
  OP_PUSHBYTES_57; OP_PUSHBYTES_58; OP_PUSHBYTES_59; OP_PUSHBYTES_60; OP_PUSHBYTES_61;
  OP_PUSHBYTES_62; OP_PUSHBYTES_63; OP_PUSHBYTES_64; OP_PUSHBYTES_65; OP_PUSHBYTES_66;
  OP_PUSHBYTES_67; OP_PUSHBYTES_68; OP_PUSHBYTES_69; OP_PUSHBYTES_70; OP_PUSHBYTES_71;
  OP_PUSHBYTES_72; OP_PUSHBYTES_73; OP_PUSHBYTES_74; OP_PUSHBYTES_75; OP_PUSHDATA1; OP_PUSHDATA2;
  OP_PUSHDATA4; OP_1NEGATE; OP_RESERVED; OP_1; OP_2; OP_3; OP_4; OP_5; OP_6; OP_7; OP_8; OP_9;
  OP_10; OP_11; OP_12; OP_13; OP_14; OP_15; OP_16; OP_NOP; OP_VER; OP_IF; OP_NOTIF; OP_VERIF;
  OP_VERNOTIF; OP_ELSE; OP_ENDIF; OP_VERIFY; OP_RETURN; OP_TOALTSTACK; OP_FROMALTSTACK; OP_2DROP;
  OP_2DUP; OP_3DUP; OP_2OVER; OP_2ROT; OP_2SWAP; OP_IFDUP; OP_DEPTH; OP_DROP; OP_DUP; OP_NIP;
  OP_OVER; OP_PICK; OP_ROLL; OP_ROT; OP_SWAP; OP_TUCK; OP_CAT; OP_SUBSTR; OP_LEFT; OP_RIGHT;
  OP_SIZE; OP_INVERT; OP_AND; OP_OR; OP_XOR; OP_EQUAL; OP_EQUALVERIFY; OP_RESERVED1; OP_RESERVED2;
  OP_1ADD; OP_1SUB; OP_2MUL; OP_2DIV; OP_NEGATE; OP_ABS; OP_NOT; OP_0NOTEQUAL; OP_ADD; OP_SUB;
  OP_MUL; OP_DIV; OP_MOD; OP_LSHIFT; OP_RSHIFT; OP_BOOLAND; OP_BOOLOR; OP_NUMEQUAL;
  OP_NUMEQUALVERIFY; OP_NUMNOTEQUAL; OP_LESSTHAN; OP_GREATERTHAN; OP_LESSTHANOREQUAL;
  OP_GREATERTHANOREQUAL; OP_MIN; OP_MAX; OP_WITHIN; OP_RIPEMD160; OP_SHA1; OP_SHA256; OP_HASH160;
  OP_HASH256; OP_CODESEPARATOR; OP_CHECKSIG; OP_CHECKSIGVERIFY; OP_CHECKMULTISIG;
  OP_CHECKMULTISIGVERIFY; OP_NOP1; OP_CHECKLOCKTIMEVERIFY; OP_CHECKSEQUENCEVERIFY; OP_NOP4;
  OP_NOP5; OP_NOP6; OP_NOP7; OP_NOP8; OP_NOP9; OP_NOP10; OP_CREATE; OP_CALL; OP_SPEND; OP_SENDER].

(** [Opcode::from_u8]: the bytes of the two gaps are refused, every other byte is
    the discriminant of one variant. *)
Definition from_u8 (byte : Z) : option Opcode :=
  if ((0xba <=? byte) && (byte <=? 0xc0)) || ((0xc5 <=? byte) && (byte <=? 0xff)) then None
  else snd <$> list_find (λ op, opcode_u8 op = byte) all_opcodes.

(** The derived order is that of the discriminants. *)
Definition op_le (a b : Opcode) : bool := opcode_u8 a <=? opcode_u8 b.
Definition op_lt (a b : Opcode) : bool := opcode_u8 a <? opcode_u8 b.

Lemma from_opcode op : from_u8 (opcode_u8 op) = Some op.
Proof. by destruct op. Qed.

#[global] Instance opcode_u8_inj : Inj (=) (=) opcode_u8.
Proof. intros a b E. apply (inj Some). by rewrite <-!from_opcode, E. Qed.

#[global] Instance Opcode_eq_dec : EqDecision Opcode := λ a b,
  match decide (opcode_u8 a = opcode_u8 b) with
  | left E => left (opcode_u8_inj a b E)
  | right N => right (λ E, N (f_equal opcode_u8 E))
  end.

Definition is_countable (op : Opcode) : bool := op_lt OP_16 op.
Definition is_simple_push (op : Opcode) : bool := op_lt op OP_PUSHDATA1.
Definition is_within_op_n (op : Opcode) : bool := op_le OP_1 op && op_le op OP_16.
Definition is_push_value (op : Opcode) : bool :=
  bool_decide (op = OP_1NEGATE) || bool_decide (op = OP_0) || is_within_op_n op.

(** [None] is the failed assertion. *)
Definition decode_op_n (op : Opcode) : option Z :=
  if is_within_op_n op then Some (opcode_u8 op - opcode_u8 OP_1 + 1) else None.

(** ** Numbers *)

(** The loop of [Num::to_bytes]: [>>] on an [i64] keeps the sign.  [None] when
    [fuel] rounds do not end it. *)
Fixpoint num_digits (fuel : nat) (value : Z) : option bytes :=
  if value =? 0 then Some []
  else match fuel with
  | O => None
  | S fuel => cons (z2b (Z.land value 0xff)) <$> num_digits fuel (Z.shiftr value 8)
  end.

(** The bit that carries the sign is added to the last digit, or after it. *)
Definition num_sign (negative : bool) (out : bytes) : bytes :=
  let top := b2z (default (z2b 0) (last out)) in
  if negb (Z.land top 0x80 =? 0) then out ++ [z2b (if negative then 0x80 else 0)]
  else if negative then take (length out - 1) out ++ [z2b (Z.lor top 0x80)]
  else out.

(** [-value] wraps. *)
Definition num_to_bytes (fuel : nat) (n : Z) : option bytes :=
  if n =? 0 then Some []
  else num_sign (n <? 0) <$> num_digits fuel (if n <? 0 then i64 (- n) else n).

(** ** The builder *)

(** The bytes pushed so far; [None] once an assertion has failed. *)
Notation Builder := (option bytes).

Notation "b ▷ f" := (f b) (at level 58, left associativity, only parsing).

Definition builder_default : Builder := Some [].

Definition push_opcode (op : Opcode) (b : Builder) : Builder :=
  data ← b; Some (data ++ [z2b (opcode_u8 op)]).

Definition push_bytes (payload : bytes) (b : Builder) : Builder :=
  data ← b;
  let len := length payload in
  if (1 <=? len)%nat && (len <=? 75)%nat then Some (data ++ [z2b (Z.of_nat len)] ++ payload) else None.

(** What [push_data] puts before the payload. *)
Definition push_prefix (len : Z) : option bytes :=
  if len <? opcode_u8 OP_PUSHDATA1 then Some [z2b len]
  else if len <=? 255 then Some [z2b (opcode_u8 OP_PUSHDATA1); z2b len]
  else if len <=? 65535 then Some (z2b (opcode_u8 OP_PUSHDATA2) :: le_split 2 len)
  else if len <=? 4294967295 then Some (z2b (opcode_u8 OP_PUSHDATA4) :: le_split 4 len)
  else None.

Definition push_data (payload : bytes) (b : Builder) : Builder :=
  data ← b;
  prefix ← push_prefix (Z.of_nat (length payload));
  Some (data ++ prefix ++ payload).

Definition push_bool (x : bool) : Builder → Builder := push_opcode (if x then OP_1 else OP_0).

Definition push_num (fuel : nat) (n : Z) (b : Builder) : Builder :=
  payload ← num_to_bytes fuel n; push_data payload b.

Definition return_bytes (payload : bytes) (b : Builder) : Builder :=
  data ← b;
  let len := length payload in
  if (1 <=? len)%nat && (len <=? 75)%nat
  then Some (data ++ [z2b (opcode_u8 OP_RETURN); z2b (Z.of_nat len)] ++ payload) else None.

Definition push_invalid_opcode (b : Builder) : Builder := data ← b; Some (data ++ [z2b 0xff]).

Definition build_p2pkh (address : AddressHashEnum) : Builder :=
  builder_default ▷ push_opcode OP_DUP ▷ push_opcode OP_HASH160 ▷ push_bytes (hash_to_vec address)
    ▷ push_opcode OP_EQUALVERIFY ▷ push_opcode OP_CHECKSIG.

Definition build_p2pk (pubkey : Public) : Builder :=
  builder_default ▷ push_bytes (public_bytes pubkey) ▷ push_opcode OP_CHECKSIG.

Definition build_p2sh (address : AddressHashEnum) : Builder :=
  builder_default ▷ push_opcode OP_HASH160 ▷ push_bytes (hash_to_vec address) ▷ push_opcode OP_EQUAL.

Definition build_witness_script (address : AddressHashEnum) : Builder :=
  builder_default ▷ push_opcode OP_0 ▷ push_bytes (hash_to_vec address).

Definition build_nulldata (payload : bytes) : Builder :=
  builder_default ▷ push_opcode OP_RETURN ▷ push_bytes payload.

(** ** The parser *)

Inductive ScriptError : Type := BadOpcode | DisabledOpcode (op : Opcode).

Record Instruction : Type := mkInstruction {
  i_opcode : Opcode;
  i_step : nat;
  i_data : option bytes
}.

(** [read_le_usize]. *)
Definition read_le_usize (b : bytes) : Z := le_combine b.

(** [Script::range], of the part of the script at [offset]. *)
Definition range (rest : bytes) (len : Z) : result bytes ScriptError :=
  if len <=? Z.of_nat (length rest) then Ok (take (Z.to_nat len) rest) else Err BadOpcode.

Definition opcode_of (b : byte) : result Opcode ScriptError :=
  match from_u8 (b2z b) with Some op => Ok op | None => Err BadOpcode end.

Definition opcode_at (data : bytes) (pos : nat) : result Opcode ScriptError :=
  match data !! pos with Some b => opcode_of b | None => Err BadOpcode end.

(** The width of the length that follows a long push. *)
Definition prefix_len (op : Opcode) : option nat :=
  match op with OP_PUSHDATA1 => Some 1%nat | OP_PUSHDATA2 => Some 2%nat | OP_PUSHDATA4 => Some 4%nat | _ => None end.

(** The instruction at the start of [rest]. *)
Definition instruction (rest : bytes) : result Instruction ScriptError :=
  match rest with
  | [] => Err BadOpcode
  | b :: rest =>
      let? opcode := opcode_of b in
      match prefix_len opcode with
      | Some n =>
          let? prefix := range rest (Z.of_nat n) in
          let payload_len := read_le_usize prefix in
          let? payload := range (drop n rest) payload_len in
          Ok (mkInstruction opcode (1 + n + Z.to_nat payload_len) (Some payload))
      | None =>
          if op_le opcode OP_PUSHBYTES_75 then
            let n := opcode_u8 opcode in
            let? payload := range rest n in
            Ok (mkInstruction opcode (1 + Z.to_nat n) (Some payload))
          else Ok (mkInstruction opcode 1 None)
      end
  end.

Definition instruction_at (data : bytes) (pos : nat) : result Instruction ScriptError :=
  instruction (drop pos data).

(** [Script::iter]: after an error nothing follows.  A step is at least one byte,
    so that no more rounds than bytes are needed. *)
Fixpoint instructions (fuel : nat) (rest : bytes) : list (result Instruction ScriptError) :=
  match fuel, rest with
  | O, _ | _, [] => []
  | S fuel, _ =>
      match instruction rest with
      | Ok i => Ok i :: instructions fuel (drop i.(i_step) rest)
      | Err e => [Err e]
      end
  end.

Definition iter (data : bytes) : list (result Instruction ScriptError) := instructions (length data) data.
Definition opcodes (data : bytes) : list (result Opcode ScriptError) :=
  (λ r, match r with Ok i => Ok i.(i_opcode) | Err e => Err e end) <$> iter data.
Definition get_instruction (data : bytes) (n : nat) : option (result Instruction ScriptError) := iter data !! n.

(** ** The classifier *)

Definition MAX_PUBKEYS_PER_MULTISIG : Z := 20.

Inductive ScriptType : Type :=
| NonStandard | PubKey | PubKeyHash | ScriptHash | Multisig | NullData
| WitnessScript | WitnessKey | WitnessV1Taproot
| CallSender | CreateSender | Call | Create.

#[global] Instance ScriptType_eq_dec : EqDecision ScriptType.
Proof. solve_decision. Defined.

(** [data[pos] == op as u8], where the length was checked before. *)
Definition byte_is (data : bytes) (pos : nat) (op : Opcode) : bool :=
  bool_decide (data !! pos = Some (z2b (opcode_u8 op))).

Section classifier.
Context (data : bytes).

Let len_is (n : nat) : bool := (length data =? n)%nat.

Definition is_pay_to_public_key_hash : bool :=
  len_is 25 && byte_is data 0 OP_DUP && byte_is data 1 OP_HASH160 && byte_is data 2 OP_PUSHBYTES_20
  && byte_is data 23 OP_EQUALVERIFY && byte_is data 24 OP_CHECKSIG.

Definition is_pay_to_public_key : bool :=
  if byte_is data 0 OP_PUSHBYTES_33 then len_is 35 && byte_is data 34 OP_CHECKSIG
  else if byte_is data 0 OP_PUSHBYTES_65 then len_is 67 && byte_is data 66 OP_CHECKSIG
  else false.

Definition is_pay_to_script_hash : bool :=
  len_is 23 && byte_is data 0 OP_HASH160 && byte_is data 1 OP_PUSHBYTES_20 && byte_is data 22 OP_EQUAL.

Definition is_pay_to_witness_key_hash : bool :=
  len_is 22 && byte_is data 0 OP_0 && byte_is data 1 OP_PUSHBYTES_20.

Definition is_pay_to_witness_script_hash : bool :=
  len_is 34 && byte_is data 0 OP_0 && byte_is data 1 OP_PUSHBYTES_32.

Definition is_pay_to_witness_v1_taproot : bool :=
  len_is 34 && byte_is data 0 OP_1 && byte_is data 1 OP_PUSHBYTES_32.

Definition parse_witness_program : option (Z * bytes) :=
  if (4 <=? length data)%nat && (length data <=? 42)%nat then
    match data with
    | b0 :: b1 :: program =>
        if negb (b2z b1 + 2 =? Z.of_nat (length data)) then None
        else
          op ← from_u8 (b2z b0);
          if bool_decide (op = OP_0) then Some (0, program)
          else if is_within_op_n op then Some (opcode_u8 op - opcode_u8 OP_1 + 1, program)
          else None
    | _ => None
    end
  else None.

(** The number an opcode at the ends of a multisig script stands for. *)
Definition op_count (pos : nat) : option Z :=
  match opcode_at data pos with
  | Ok op => if bool_decide (op = OP_0) then Some 0 else decode_op_n op
  | Err _ => None
  end.

(** The loop over the keys, from [pc] on; [keys_seen] is a [u8].  [None] is the
    answer [false]. *)
Fixpoint multisig_keys (fuel : nat) (pc : nat) (keys_seen : Z) : option Z :=
  if (pc + 1 <? length data - 1)%nat then
    match fuel with
    | O => None
    | S fuel =>
        match instruction_at data pc with
        | Ok i =>
            if bool_decide (i.(i_opcode) = OP_PUSHBYTES_33) || bool_decide (i.(i_opcode) = OP_PUSHBYTES_65)
            then multisig_keys fuel (pc + i.(i_step)) (u8 (keys_seen + 1))
            else None
        | Err _ => None
        end
    end
  else Some keys_seen.

Definition is_multisig_script : bool :=
  if (length data <? 3)%nat then false
  else match op_count 0, op_count (length data - 2) with
  | Some head, Some tail =>
      if tail <? head then false
      else if negb (byte_is data (length data - 1) OP_CHECKMULTISIG) then false
      else bool_decide (multisig_keys (length data) 1 0 = Some tail)
  | _, _ => false
  end.

Definition is_push_only : bool :=
  forallb (λ r, match r with Ok i => op_le i.(i_opcode) OP_16 | Err _ => false end) (iter data).

End classifier.

Definition is_null_data_script (data : bytes) : bool :=
  byte_is data 0 OP_RETURN && is_push_only (drop 1 data).

Definition script_type (data : bytes) : ScriptType :=
  if is_pay_to_public_key data then PubKey
  else if is_pay_to_public_key_hash data then PubKeyHash
  else if is_pay_to_script_hash data then ScriptHash
  else if is_multisig_script data then Multisig
  else if is_null_data_script data then NullData
  else if is_pay_to_witness_key_hash data then WitnessKey
  else if is_pay_to_witness_script_hash data then WitnessScript
  else if is_pay_to_witness_v1_taproot data then WitnessV1Taproot
  else NonStandard.

Definition is_witness_commitment_script (script : bytes) : bool :=
  (36 <=? length script)%nat && byte_is script 0 OP_RETURN
  && bool_decide (script !! 1%nat = Some (z2b 0x24))
  && bool_decide (take 4 (drop 2 script) = hex "aa21a9ed").

(** ** Transformations *)

(** The loop of [find_and_delete] from the position of [rest] on. *)
Fixpoint delete_from (fuel : nat) (needle rest : bytes) : bytes :=
  match fuel with
  | O => rest
  | S fuel =>
      if (length needle <=? length rest)%nat then
        if bool_decide (take (length needle) rest = needle)
        then delete_from fuel needle (drop (length needle) rest)
        else match rest with [] => [] | b :: rest => b :: delete_from fuel needle rest end
      else rest
  end.

Definition find_and_delete (data needle : bytes) : bytes :=
  if bool_decide (needle = []) || (length data <? length needle)%nat then data
  else delete_from (length data) needle data.

Fixpoint without_separators_from (fuel : nat) (rest : bytes) : bytes :=
  match fuel, rest with
  | O, _ | _, [] => []
  | S fuel, b :: tail =>
      match instruction rest with
      | Ok i =>
          (if bool_decide (i.(i_opcode) = OP_CODESEPARATOR) then [] else take i.(i_step) rest)
          ++ without_separators_from fuel (drop i.(i_step) rest)
      | Err _ => b :: without_separators_from fuel tail
      end
  end.

Definition without_separators (data : bytes) : bytes := without_separators_from (length data) data.

(** ** Signature operations and destinations *)

(** The loop of [sigops_count]: the total so far and the last opcode. *)
Fixpoint count_sigops (accurate : bool) (ops : list (result Opcode ScriptError)) (total : Z)
    (last : Opcode) : Z :=
  match ops with
  | [] | Err _ :: _ => total
  | Ok op :: ops =>
      let total :=
        match op with
        | OP_CHECKSIG | OP_CHECKSIGVERIFY => total + 1
        | OP_CHECKMULTISIG | OP_CHECKMULTISIGVERIFY =>
            total + (if accurate then default MAX_PUBKEYS_PER_MULTISIG (decode_op_n last)
                     else MAX_PUBKEYS_PER_MULTISIG)
        | _ => total
        end in
      count_sigops accurate ops total op
  end.

Definition sigops_count (data : bytes) (accurate : bool) : Z :=
  count_sigops accurate (opcodes data) 0 OP_0.

Definition pay_to_script_hash_sigops (data prev_out : bytes) : Z :=
  if negb (is_pay_to_script_hash prev_out) || bool_decide (data = []) || negb (is_push_only data) then 0
  else match last (omap (λ r, match r with Ok i => i.(i_data) | Err _ => None end) (iter data)) with
  | Some redeem => sigops_count redeem true
  | None => 0
  end.

Definition num_signatures_required (data : bytes) : Z :=
  if is_multisig_script data then default 1 (op_count data 0) else 1.

Record ScriptAddress : Type := mkScriptAddress { sa_kind : AddrType; sa_hash : AddressHashEnum }.

Section destinations.
Context `{Hashes} (data : bytes).

Definition pubkey_destination (key : bytes) : result ScriptAddress KeysError :=
  let? pk := public_from_slice key in
  Ok (mkScriptAddress P2PKH (AddressHash (address_hash pk))).

Fixpoint multisig_destinations (fuel : nat) (pc : nat) : result (list ScriptAddress) KeysError :=
  if (pc + 1 <? length data - 1)%nat then
    match fuel with
    | O => Ok []
    | S fuel =>
        let? i := map_err (λ _, InvalidPublic) (instruction_at data pc) in
        let? payload := match i.(i_data) with Some d => Ok d | None => Err InvalidPublic end in
        let? address := pubkey_destination payload in
        let? rest := multisig_destinations fuel (pc + i.(i_step)) in
        Ok (address :: rest)
    end
  else Ok [].

(** The bytes from [from] to [till]. *)
Definition slice (from till : nat) : bytes := take (till - from) (drop from data).

Definition extract_destinations : result (list ScriptAddress) KeysError :=
  match script_type data with
  | PubKey => let? a := pubkey_destination (slice 1 (1 + (length data - 2))) in Ok [a]
  | PubKeyHash => Ok [mkScriptAddress P2PKH (AddressHash (slice 3 23))]
  | ScriptHash => Ok [mkScriptAddress P2SH (AddressHash (slice 2 22))]
  | WitnessKey => Ok [mkScriptAddress P2WPKH (AddressHash (slice 2 22))]
  | WitnessScript => Ok [mkScriptAddress P2WSH (WitnessScriptHash (slice 2 34))]
  | Multisig => multisig_destinations (length data) 1
  | NullData | NonStandard | WitnessV1Taproot | CallSender | CreateSender | Call | Create => Ok []
  end.

End destinations.

(** The output script of an address, by the type of the script; [segwit] is
    whether the address has the segwit format. *)
Definition output_script (segwit : bool) (script_type : AddrType) (hash : AddressHashEnum) : Builder :=
  if segwit then build_witness_script hash
  else match script_type with
  | P2PKH => build_p2pkh hash
  | P2SH => build_p2sh hash
  | P2WPKH | P2WSH => build_witness_script hash
  end.

(** ** Properties of the parser *)

Lemma from_u8_Some z op : from_u8 z = Some op ↔ opcode_u8 op = z.
Proof.
  split; [|intros <-; apply from_opcode]. unfold from_u8. destruct (_ || _); [done|].
  intros ([i o] & (_ & Ho & _)%list_find_Some & ->)%fmap_Some. done.
Qed.

Lemma from_u8_assigned z : 0 ≤ z ≤ 0xb9 → ∃ op, from_u8 z = Some op ∧ opcode_u8 op = z.
Proof.
  intros Hz.
  assert (Forall (λ n, is_Some (from_u8 (Z.of_nat n))) (seq 0 186)) as Hall
    by (apply (bool_decide_unpack _); vm_compute; exact I).
  destruct (proj1 (Forall_forall _ _) Hall (Z.to_nat z)) as [op Hop].
  { apply elem_of_seq. lia. }
  rewrite Z2Nat.id in Hop by lia. exists op. split; [done|]. by apply from_u8_Some.
Qed.

Lemma opcode_u8_range op : 0 ≤ opcode_u8 op < 256.
Proof. by destruct op. Qed.

Lemma opcode_of_byte op : opcode_of (z2b (opcode_u8 op)) = Ok op.
Proof. unfold opcode_of. rewrite b2z_z2b by apply opcode_u8_range. by rewrite from_opcode. Qed.

Lemma range_app (p rest : bytes) : range (p ++ rest) (Z.of_nat (length p)) = Ok p.
Proof.
  unfold range. rewrite length_app, (proj2 (Z.leb_le _ _)) by lia.
  by rewrite Nat2Z.id, take_app_length.
Qed.

Lemma range_Ok rest n p : 0 ≤ n → range rest n = Ok p → p = take (Z.to_nat n) rest ∧ (Z.to_nat n ≤ length rest)%nat.
Proof. unfold range. intros. case_match eqn:E; simplify_eq. split; [done|lia]. Qed.

(** An instruction takes at least one byte and no more than there are. *)
Lemma instruction_step rest i :
  instruction rest = Ok i → (1 ≤ i.(i_step) ≤ length rest)%nat.
Proof.
  destruct rest as [|b rest]; [done|]. cbn [instruction].
  destruct (opcode_of b) as [op|]; [|done]. destruct (prefix_len op) as [n|] eqn:Hn.
  - destruct (range rest _) as [prefix|] eqn:E1; [|done].
    destruct (range (drop n rest) _) as [payload|] eqn:E2; [|done]. intros [= <-]. cbn.
    apply range_Ok in E1 as [_ ?]; [|lia].
    apply range_Ok in E2 as [_ ?]; [|apply le_combine_bound]. rewrite length_drop in *. lia.
  - case_match; [|intros [= <-]; cbn; lia].
    destruct (range rest _) as [payload|] eqn:E1; [|done]. intros [= <-]. cbn.
    apply range_Ok in E1 as [_ ?]; [|apply opcode_u8_range]. lia.
Qed.

Lemma instructions_fuel f1 f2 rest :
  (length rest ≤ f1)%nat → (length rest ≤ f2)%nat → instructions f1 rest = instructions f2 rest.
Proof.
  revert f2 rest. induction f1 as [|f1 IH]; intros f2 rest H1 H2.
  { destruct rest; [by destruct f2|cbn in *; lia]. }
  destruct rest as [|b rest], f2 as [|f2]; try done; [cbn in *; lia|].
  cbn [instructions]. destruct (instruction (b :: rest)) as [i|] eqn:E; [|done].
  apply instruction_step in E. f_equal. apply IH; rewrite length_drop; cbn in *; lia.
Qed.

(** The iterator, one step at a time. *)
Lemma iter_eq data :
  iter data = match data with
              | [] => []
              | _ => match instruction data with
                     | Ok i => Ok i :: iter (drop i.(i_step) data)
                     | Err e => [Err e]
                     end
              end.
Proof.
  unfold iter. destruct data as [|b rest]; [done|]. cbn [instructions length].
  destruct (instruction (b :: rest)) as [i|] eqn:E; [|done]. apply instruction_step in E.
  f_equal. apply instructions_fuel; rewrite length_drop; cbn in *; lia.
Qed.

(** ** Assembly

    A script as what a reader sees of it: opcodes that push nothing, and
    payloads. *)

Inductive item : Type :=
| Op (op : Opcode)
| Push (payload : bytes).

#[global] Instance item_eq_dec : EqDecision item.
Proof. solve_decision. Defined.

Definition push_item (b : Builder) (i : item) : Builder :=
  match i with Op op => push_opcode op b | Push payload => push_data payload b end.

Definition assemble (items : list item) : Builder := foldl push_item builder_default items.

Definition item_of (i : Instruction) : item :=
  match i.(i_data) with Some payload => Push payload | None => Op i.(i_opcode) end.

Definition disassemble (data : bytes) : option (list item) :=
  mapM (λ r, match r with Ok i => Some (item_of i) | Err _ => None end) (iter data).

Definition item_ok (i : item) : Prop :=
  match i with
  | Op op => op_lt OP_PUSHDATA4 op = true
  | Push payload => Z.of_nat (length payload) < 2 ^ 32
  end.

Definition item_bytes (i : item) : option bytes :=
  match i with
  | Op op => Some [z2b (opcode_u8 op)]
  | Push payload => prefix ← push_prefix (Z.of_nat (length payload)); Some (prefix ++ payload)
  end.

Lemma push_item_bytes data i : push_item (Some data) i = (λ b, data ++ b) <$> item_bytes i.
Proof. destruct i as [op|p]; cbn; [done|]. unfold push_data. cbn. by destruct (push_prefix _). Qed.

Lemma assemble_bytes items data :
  foldl push_item (Some data) items = (λ bs, data ++ concat bs) <$> mapM item_bytes items.
Proof.
  revert data. induction items as [|i items IH]; intros data; cbn; [by rewrite app_nil_r|].
  rewrite push_item_bytes. destruct (item_bytes i) as [b|]; cbn.
  - rewrite IH. destruct (mapM item_bytes items); cbn; [|done]. by rewrite app_assoc.
  - clear. by induction items as [|[]].
Qed.

(** A push of 1 to 75 bytes is the same by either method. *)
Lemma push_bytes_data p b : (1 ≤ length p ≤ 75)%nat → push_bytes p b = push_data p b.
Proof.
  intros Hp. unfold push_bytes, push_data, push_prefix. destruct b as [data|]; [|done].
  rewrite (proj2 (Z.ltb_lt _ _)) by (cbn; lia). cbn [mbind option_bind].
  by rewrite (proj2 (Nat.leb_le 1 _)), (proj2 (Nat.leb_le _ 75)) by lia.
Qed.

Lemma instruction_long op n len (payload rest : bytes) :
  prefix_len op = Some n → len = Z.of_nat (length payload) → 0 ≤ len < 2 ^ (Z.of_nat n * 8) →
  instruction (z2b (opcode_u8 op) :: le_split n len ++ payload ++ rest)
  = Ok (mkInstruction op (1 + n + length payload) (Some payload)).
Proof.
  intros Hn -> Hlen. cbn [instruction]. rewrite opcode_of_byte, Hn.
  replace (Z.of_nat n) with (Z.of_nat (length (le_split n (Z.of_nat (length payload)))))
    by by rewrite length_le_split.
  rewrite range_app. unfold read_le_usize. rewrite le_combine_split_id by done.
  rewrite drop_app_length', range_app by by rewrite length_le_split.
  by rewrite ?length_le_split, Nat2Z.id.
Qed.

Lemma instruction_short (payload rest : bytes) :
  (length payload ≤ 75)%nat →
  ∃ op, instruction (z2b (Z.of_nat (length payload)) :: payload ++ rest)
        = Ok (mkInstruction op (1 + length payload) (Some payload))
      ∧ opcode_u8 op = Z.of_nat (length payload).
Proof.
  intros Hp. destruct (from_u8_assigned (Z.of_nat (length payload))) as (op & _ & Hop); [lia|].
  exists op. split; [|done]. cbn [instruction]. rewrite <-Hop, opcode_of_byte.
  replace (prefix_len op) with (@None nat) by (destruct op; cbn in Hop; done || lia).
  unfold op_le. rewrite (proj2 (Z.leb_le _ _)) by (rewrite Hop; cbn; lia).
  rewrite Hop, range_app. by rewrite Nat2Z.id.
Qed.

(** An instruction stands for an item; a short push is by its length. *)
Definition reads_as (ins : Instruction) (i : item) : Prop :=
  item_of ins = i
  ∧ match i with
    | Op op => i_opcode ins = op
    | Push p =>
        if (length p <=? 75)%nat then opcode_u8 (i_opcode ins) = Z.of_nat (length p)
        else 75 < opcode_u8 (i_opcode ins)
    end.

(** What was pushed is what is read. *)
Lemma instruction_item i bs rest :
  item_ok i → item_bytes i = Some bs →
  ∃ ins, instruction (bs ++ rest) = Ok ins ∧ reads_as ins i ∧ i_step ins = length bs ∧ bs ≠ [].
Proof.
  destruct i as [op|p]; cbn [item_ok item_bytes].
  - intros Hop [= <-]. exists (mkInstruction op 1 None). split; [|done]. cbn [instruction app]. rewrite opcode_of_byte.
    replace (prefix_len op) with (@None nat) by by destruct op.
    unfold op_le. unfold op_lt in Hop. cbn [opcode_u8] in *.
    rewrite (proj2 (Z.leb_gt _ _)) by lia. done.
  - intros Hp. unfold push_prefix. repeat case_match; intros [= <-]; cbn [opcode_u8] in *; [| | |].
    + destruct (instruction_short p rest) as (op & Hi & Hop); [lia|]. eexists. cbn [app]. rewrite Hi.
      split_and!; [done|split; [done|]|done..]. cbn. by rewrite (proj2 (Nat.leb_le _ 75)) by lia.
    + eexists. split; [apply (instruction_long OP_PUSHDATA1 1 _ p rest); [done..|lia]|].
      split_and!; [split; [done|]|done..]. cbn. by rewrite (proj2 (Nat.leb_gt _ 75)) by lia.
    + eexists. split; [apply (instruction_long OP_PUSHDATA2 2 _ p rest); [done..|lia]|].
      split_and!; [split; [done|]|done..]. cbn. by rewrite (proj2 (Nat.leb_gt _ 75)) by lia.
    + eexists. split; [apply (instruction_long OP_PUSHDATA4 4 _ p rest); [done..|lia]|].
      split_and!; [split; [done|]|done..]. cbn. by rewrite (proj2 (Nat.leb_gt _ 75)) by lia.
Qed.

Lemma item_bytes_Some i : item_ok i → is_Some (item_bytes i).
Proof.
  destruct i as [op|p]; [by eexists|]. cbn. intros Hp. unfold push_prefix.
  repeat case_match; try by eexists. lia.
Qed.

(** The items of assembled bytes, whatever follows them. *)
Lemma iter_items items bs rest :
  Forall item_ok items → mapM item_bytes items = Some bs →
  ∃ ll, iter (concat bs ++ rest) = (Ok <$> ll) ++ iter rest ∧ Forall2 reads_as ll items.
Proof.
  intros Hok. revert bs. induction Hok as [|i items Hi Hok IH]; intros bs; cbn [mapM].
  { intros [= <-]. by exists []. }
  intros (b & Hb & (bs' & Hbs & [= <-])%bind_Some)%bind_Some.
  destruct (IH bs' Hbs) as (ll & E & Hll).
  destruct (instruction_item i b (concat bs' ++ rest) Hi Hb) as (ins & E1 & E2 & E3 & Hne).
  exists (ins :: ll). cbn [concat]. rewrite <-app_assoc, (iter_eq (b ++ _)), E1, E3, drop_app_length, E.
  split; [by destruct b|]. by constructor.
Qed.

Lemma reads_as_items ll items : Forall2 reads_as ll items → item_of <$> ll = items.
Proof. induction 1 as [|ins i ll items [? _] _ IH]; cbn; congruence. Qed.

Lemma assemble_concat items : assemble items = (λ bs, concat bs) <$> mapM item_bytes items.
Proof. apply (assemble_bytes items []). Qed.

Lemma assemble_Some items : Forall item_ok items → is_Some (assemble items).
Proof.
  intros Hok. rewrite assemble_concat. apply fmap_is_Some, mapM_is_Some.
  eapply Forall_impl; [done|]. apply item_bytes_Some.
Qed.

(** Assembled bytes are read back. *)
Lemma assemble_back items data :
  Forall item_ok items → assemble items = Some data → disassemble data = Some items.
Proof.
  intros Hok. rewrite assemble_concat. intros (bs & Hbs & ->)%fmap_Some.
  destruct (iter_items items bs [] Hok Hbs) as (ll & E & <-%reads_as_items).
  rewrite app_nil_r in E. unfold disassemble. rewrite E. cbn. rewrite app_nil_r.
  clear. induction ll as [|i ll IH]; [done|]. cbn. by rewrite IH.
Qed.

(** The instruction at a place. *)
Lemma assemble_instruction items data n i :
  Forall item_ok items → assemble items = Some data → items !! n = Some i →
  ∃ ins, get_instruction data n = Some (Ok ins) ∧ reads_as ins i.
Proof.
  intros Hok. rewrite assemble_concat. intros (bs & Hbs & ->)%fmap_Some Hn.
  destruct (iter_items items bs [] Hok Hbs) as (ll & E & Hll). rewrite app_nil_r in E.
  destruct (Forall2_lookup_r _ _ _ _ _ Hll Hn) as (ins & Hins & Hr). exists ins. split; [|done].
  unfold get_instruction. rewrite E. cbn. rewrite app_nil_r, list_lookup_fmap, Hins. done.
Qed.

Lemma assemble_app a b da db :
  assemble a = Some da → assemble b = Some db → assemble (a ++ b) = Some (da ++ db).
Proof.
  rewrite (assemble_concat b). intros Ha (y & Hy & ->)%fmap_Some.
  unfold assemble in *. by rewrite foldl_app, Ha, assemble_bytes, Hy.
Qed.

(** a script is read back as it was built: assembling opcodes and payloads
    of less than 2^32 bytes never panics, and parsing the result yields exactly
    these opcodes and payloads, whichever of the four push forms each took. *)
Theorem script_roundtrip items :
  Forall item_ok items → ∃ data, assemble items = Some data ∧ disassemble data = Some items.
Proof.
  intros Hok. destruct (assemble_Some _ Hok) as [data E]. exists data. by split; [|apply assemble_back].
Qed.

Lemma script_roundtrip_witness :
  let items := [Op OP_HASH160; Push (replicate 20 (z2b 7)); Op OP_EQUAL; Push (replicate 300 (z2b 1))] in
  ∃ data, assemble items = Some data ∧ disassemble data = Some items.
Proof. apply script_roundtrip. repeat constructor. Defined.

(** ** Destinations *)

(** A hash of the width the type of the address has. *)
Definition address_ok (a : ScriptAddress) : bool :=
  hash_ok a.(sa_hash) &&
  match a.(sa_kind), a.(sa_hash) with
  | (P2PKH | P2SH | P2WPKH), AddressHash _ | P2WSH, WitnessScriptHash _ => true
  | _, _ => false
  end.

(** Splits a list of known length into its elements. *)
Ltac explode l L :=
  repeat (let b := fresh "b" in destruct l as [|b l]; [discriminate L|]);
  destruct l; [clear L|discriminate L].

(** Reads the fixed bytes of a class off its predicate. *)
Ltac class_bytes data Hc :=
  rewrite !andb_true_iff in Hc; unfold byte_is in Hc;
  destruct_and!; repeat match goal with
  | L : (length data =? _)%nat = true |- _ => apply Nat.eqb_eq in L; explode data L
  | Hb : bool_decide _ = true |- _ => apply bool_decide_eq_true in Hb
  end; by simplify_eq/=.

Lemma not_multisig data :
  multisig_keys data (length data) 1 0 = None → is_multisig_script data = false.
Proof. intros E. unfold is_multisig_script. rewrite E. by repeat case_match. Qed.

(** The class a script has been given for. *)
Lemma script_type_inv data :
  match script_type data with
  | PubKeyHash => is_pay_to_public_key_hash data = true
  | ScriptHash => is_pay_to_script_hash data = true
  | WitnessKey => is_pay_to_witness_key_hash data = true
  | WitnessScript => is_pay_to_witness_script_hash data = true
  | _ => True
  end.
Proof. unfold script_type. by repeat case_match. Qed.

Section addresses.
Context `{Hashes}.

Lemma output_extract a data :
  address_ok a = true → output_script false a.(sa_kind) a.(sa_hash) = Some data →
  extract_destinations data = Ok [a] ∧ script_type data ≠ PubKey ∧ script_type data ≠ Multisig.
Proof.
  destruct a as [kind [h|h]], kind; unfold address_ok; cbn [hash_ok sa_hash sa_kind output_script];
    rewrite ?andb_false_r, ?andb_true_r; try done; intros L%Nat.eqb_eq.
  1-3: explode h L. 4: explode h L.
  all: intros [= <-]; unfold extract_destinations, script_type.
  3,4: rewrite not_multisig by reflexivity.
  all: split; [reflexivity|split; discriminate].
Qed.

Lemma extract_output a data :
  extract_destinations data = Ok [a] → script_type data ≠ PubKey → script_type data ≠ Multisig →
  output_script false a.(sa_kind) a.(sa_hash) = Some data.
Proof.
  unfold extract_destinations. pose proof (script_type_inv data) as Hc.
  destruct (script_type data); try done; intros [= <-] _ _; cbn [output_script sa_kind sa_hash].
  - unfold is_pay_to_public_key_hash in Hc. class_bytes data Hc.
  - unfold is_pay_to_script_hash in Hc. class_bytes data Hc.
  - unfold is_pay_to_witness_script_hash in Hc. class_bytes data Hc.
  - unfold is_pay_to_witness_key_hash in Hc. class_bytes data Hc.
Qed.

End addresses.

(** addresses and output scripts correspond: the script built for an address
    of one of the four types pays to that address and to no other, and a script
    from which such an address is extracted is, byte for byte, the one built for
    it, unless it is a bare public key or a bare multisig script. *)
Theorem destination_iff `{Hashes} a data :
  address_ok a = true →
  output_script false a.(sa_kind) a.(sa_hash) = Some data
  ↔ extract_destinations data = Ok [a] ∧ script_type data ≠ PubKey ∧ script_type data ≠ Multisig.
Proof.
  intros Ha. split; [by apply output_extract|].
  intros (He & Hp & Hm). by apply extract_output.
Qed.

Lemma destination_iff_witness :
  let _ := sample_hashes in
  let a := mkScriptAddress P2SH (AddressHash (replicate 20 (z2b 7))) in
  extract_destinations (hex "a914" ++ replicate 20 (z2b 7) ++ hex "87") = Ok [a].
Proof. apply (destination_iff (mkScriptAddress P2SH (AddressHash (replicate 20 (z2b 7))))); reflexivity. Defined.

(** ** Numbers are read back *)

(** The number a byte string stands for: the top bit of the last byte is the
    sign, the rest the magnitude. *)
Definition num_value (b : bytes) : Z :=
  match last b with
  | None => 0
  | Some top =>
      let magnitude := le_combine (take (length b - 1) b ++ [z2b (b2z top mod 128)]) in
      if 128 <=? b2z top then - magnitude else magnitude
  end.

Lemma num_digits_spec fuel v :
  0 ≤ v < 2 ^ (8 * Z.of_nat fuel) →
  ∃ out, num_digits fuel v = Some out ∧ le_combine out = v.
Proof.
  revert v. induction fuel as [|fuel IH]; intros v Hv; cbn [num_digits].
  { replace v with 0 by (change (8 * Z.of_nat 0) with 0 in Hv; lia). by exists []. }
  destruct (Z.eqb_spec v 0) as [->|E]; [by exists []|].
  destruct (IH (Z.shiftr v 8)) as (out & -> & Hout).
  { rewrite Z.shiftr_div_pow2 by lia. replace (8 * Z.of_nat (S fuel)) with (8 * Z.of_nat fuel + 8) in Hv by lia.
    rewrite Z.pow_add_r in Hv by lia. split; [apply Z.div_pos; lia|]. apply Z.div_lt_upper_bound; lia. }
  exists (z2b (Z.land v 0xff) :: out). split; [done|].
  change (Z.lor (b2z (z2b (Z.land v 0xff))) (Z.shiftl (le_combine out) 8) = v). rewrite Hout.
  change 0xff with (Z.ones 8). rewrite b2z_z2b by (rewrite Z.land_ones by lia; apply Z.mod_pos_bound; lia).
  apply Z.bits_inj'. intros n Hn. rewrite Z.lor_spec, Z.land_spec, Z.testbit_ones_nonneg, Z.shiftl_spec by lia.
  destruct (Z.ltb_spec n 8).
  - by rewrite (Z.testbit_neg_r _ (n - 8)), orb_false_r, andb_true_r by lia.
  - rewrite Z.shiftr_spec by lia. replace (n - 8 + 8) with n by lia. by rewrite andb_false_r.
Qed.

Lemma num_value_snoc out top :
  num_value (out ++ [top])
  = if 128 <=? b2z top then - le_combine (out ++ [z2b (b2z top mod 128)])
    else le_combine (out ++ [z2b (b2z top mod 128)]).
Proof.
  unfold num_value. rewrite last_snoc, app_length. cbn [length].
  by replace (length out + 1 - 1)%nat with (length out) by lia; rewrite take_app_length.
Qed.

Lemma sign_bit (top : byte) :
  (Z.land (b2z top) 0x80 =? 0) = (b2z top <? 128)
  ∧ (b2z top < 128 → b2z (z2b (Z.lor (b2z top) 0x80)) = b2z top + 128).
Proof. by destruct top. Qed.

(** Setting the sign of a magnitude of at least one byte gives a number with that
    sign and magnitude. *)
Lemma num_sign_value negative out :
  out ≠ [] → num_value (num_sign negative out) = if negative then - le_combine out else le_combine out.
Proof.
  intros Hout. destruct out as [|top l _] using rev_ind; [done|]. unfold num_sign. rewrite last_snoc. cbv zeta. change (default _ (Some top)) with top.
  pose proof (b2z_range top) as Ht. destruct (sign_bit top) as [-> Hlor].
  destruct (Z.ltb_spec (b2z top) 128) as [Hlt|Hge]; cbn [negb].
  - rewrite length_app, Nat.add_sub, take_app_length. destruct negative; rewrite num_value_snoc.
    + rewrite Hlor by done. rewrite (proj2 (Z.leb_le _ _)) by lia.
      replace ((b2z top + 128) mod 128) with (b2z top); [by rewrite z2b_b2z|].
      rewrite <-(Z.mod_small (b2z top) 128) at 1 by lia. symmetry. apply (Z.mod_add _ 1 128). lia.
    + rewrite (proj2 (Z.leb_gt _ _)) by lia. by rewrite Z.mod_small, z2b_b2z by lia.
  - by destruct negative; rewrite num_value_snoc; cbn -[le_combine app]; rewrite (le_combine_app_0 _ 1).
Qed.

(** Every number a script can push but the least [i64] is read back from its
    bytes. *)
Lemma num_roundtrip n :
  - 2 ^ 63 < n < 2 ^ 63 → ∃ b, num_to_bytes 8 n = Some b ∧ num_value b = n.
Proof.
  intros Hn. unfold num_to_bytes. destruct (Z.eqb_spec n 0) as [->|Hz]; [by exists []|].
  set (m := if n <? 0 then i64 (- n) else n).
  assert (m = Z.abs n) as Hm by (unfold m; destruct (Z.ltb_spec n 0); zwrap; lia).
  clearbody m. change (2 ^ 63) with 9223372036854775808 in Hn.
  destruct (num_digits_spec 8 m) as (out & Hd & Hv); [change (2 ^ (8 * Z.of_nat 8)) with 18446744073709551616; lia|].
  exists (num_sign (n <? 0) out). rewrite Hd. split; [done|]. rewrite num_sign_value by (intros ->; change (0 = m) in Hv; lia).
  rewrite Hv, Hm. destruct (Z.ltb_spec n 0); lia.
Qed.

(** A negative number keeps its sign under [>>], so that the loop never ends. *)
Lemma num_digits_negative fuel v : v < 0 → num_digits fuel v = None.
Proof.
  revert v. induction fuel as [|fuel IH]; intros v Hv; cbn [num_digits]; rewrite (proj2 (Z.eqb_neq _ _)) by lia; [done|].
  by rewrite IH by (apply Z.shiftr_neg; lia).
Qed.

(** [Num::to_bytes] does not return on the least [i64]: no number of rounds ends
    its loop, since the negation wraps to the number itself and the arithmetic
    shift never reaches zero.  For every other [i64] eight rounds do, and the
    bytes are read back as the number. *)
Theorem num_to_bytes_total n :
  - 2 ^ 63 ≤ n < 2 ^ 63 →
  if decide (n = - 2 ^ 63) then ∀ fuel, num_to_bytes fuel n = None
  else ∃ b, num_to_bytes 8 n = Some b ∧ num_value b = n.
Proof.
  intros Hn. destruct (decide _) as [->|Hmin]; [|apply num_roundtrip; lia].
  intros fuel. unfold num_to_bytes. cbn -[num_digits]. by rewrite num_digits_negative.
Qed.

Lemma num_to_bytes_total_witness :
  (∀ fuel, num_to_bytes fuel (- 2 ^ 63) = None)
  ∧ ∃ b, num_to_bytes 8 (-255) = Some b ∧ num_value b = -255.
Proof. split; [apply (num_to_bytes_total (- 2 ^ 63)); lia|apply (num_to_bytes_total (-255)); lia]. Defined.

(** ** Separators *)

Lemma without_separators_fuel f1 f2 rest :
  (length rest ≤ f1)%nat → (length rest ≤ f2)%nat →
  without_separators_from f1 rest = without_separators_from f2 rest.
Proof.
  revert f2 rest. induction f1 as [|f1 IH]; intros f2 rest H1 H2.
  { destruct rest; [by destruct f2|cbn in *; lia]. }
  destruct rest as [|b rest], f2 as [|f2]; try done; [cbn in *; lia|].
  cbn [without_separators_from]. destruct (instruction (b :: rest)) as [i|] eqn:E.
  - apply instruction_step in E. f_equal. apply IH; rewrite length_drop; cbn in *; lia.
  - f_equal. apply IH; cbn in *; lia.
Qed.

Lemma without_separators_eq data i :
  instruction data = Ok i →
  without_separators data
  = (if bool_decide (i.(i_opcode) = OP_CODESEPARATOR) then [] else take i.(i_step) data)
    ++ without_separators (drop i.(i_step) data).
Proof.
  intros E. unfold without_separators. pose proof (instruction_step _ _ E) as Hs.
  destruct data as [|b rest]; [done|]. cbn [length without_separators_from]. rewrite E. f_equal.
  apply without_separators_fuel; rewrite length_drop; cbn in *; lia.
Qed.

(** An instruction depends on no byte after it. *)
Lemma instruction_take data i rest :
  instruction data = Ok i → instruction (take i.(i_step) data ++ rest) = Ok i.
Proof.
  destruct data as [|b data]; [done|]. cbn [instruction].
  destruct (opcode_of b) as [op|] eqn:Hop; [|done]. destruct (prefix_len op) as [n|] eqn:Hn.
  - destruct (range data _) as [prefix|] eqn:E1; [|done].
    destruct (range (drop n data) _) as [payload|] eqn:E2; [|done]. intros [= <-]. cbn [i_step].
    pose proof (proj1 (le_combine_bound prefix)) as Hb. unfold read_le_usize in *.
    apply range_Ok in E1 as [Hp ?]; [|lia]. apply range_Ok in E2 as [Hq ?]; [|done]. rewrite length_drop in *.
    rewrite Nat2Z.id in *. set (k := Z.to_nat (le_combine prefix)) in *.
    replace (take (S (n + k)) (b :: data) ++ rest) with (b :: prefix ++ payload ++ rest).
    2: { subst prefix payload. cbn [Nat.add take app]. f_equal. rewrite app_assoc. f_equal.
         by rewrite take_take_drop. }
    cbn [instruction]. rewrite Hop. cbn. rewrite Hn.
    assert (length prefix = n) as Hlp by (subst prefix; rewrite length_take; lia).
    assert (Z.of_nat (length payload) = le_combine prefix) as Hlq
      by (subst payload; rewrite length_take, length_drop; lia).
    rewrite <-Hlp, range_app. cbn. rewrite drop_app_length. unfold read_le_usize. rewrite <-Hlq, range_app. cbn.
    unfold k. by rewrite <-Hlq, Hlp.
  - destruct (op_le op OP_PUSHBYTES_75) eqn:Hle.
    + pose proof (opcode_u8_range op) as Hr. destruct (range data _) as [payload|] eqn:E1; [|done].
      intros [= <-]. cbn [i_step]. apply range_Ok in E1 as [Hq ?]; [|lia].
      cbn [Nat.add take app instruction]. rewrite Hop. cbn. rewrite Hn, Hle, <-Hq.
      assert (Z.of_nat (length payload) = opcode_u8 op) as <- by (subst payload; rewrite length_take; lia).
      by rewrite range_app.
    + intros [= <-]. change (take _ _ ++ rest) with (b :: rest). cbn [instruction]. rewrite Hop. cbn. by rewrite Hn, Hle.
Qed.

Lemma disassemble_eq data i :
  instruction data = Ok i → disassemble data = cons (item_of i) <$> disassemble (drop i.(i_step) data).
Proof.
  intros E. unfold disassemble. rewrite (iter_eq data). destruct data as [|b data]; [done|].
  rewrite E. cbn [mapM]. by destruct (mapM _ _).
Qed.

Lemma separator_item data i :
  instruction data = Ok i → i.(i_opcode) = OP_CODESEPARATOR ↔ item_of i = Op OP_CODESEPARATOR.
Proof.
  intros E. unfold item_of. destruct (i_data i) eqn:Hd; [|split; congruence]. split; [|done]. intros Hop. exfalso.
  destruct data as [|b data]; [done|]. cbn [instruction] in E. destruct (opcode_of b) as [op|]; [|done].
  assert (op = OP_CODESEPARATOR) as ->; [|cbn in E; injection E as <-; done].
  rewrite <-Hop. revert E. destruct (prefix_len op).
  - destruct (range data _); [|done]. destruct (range (drop _ _) _); [|done]. by intros [= <-].
  - case_match; [|by intros [= <-]]. destruct (range data _); [|done]. by intros [= <-].
Qed.

(** of a script that parses, [without_separators] (the script code of the
    legacy signature hash) keeps every instruction but the separators, in order,
    and nothing else. *)
Theorem without_separators_exact data items :
  disassemble data = Some items →
  disassemble (without_separators data) = Some (filter (λ i, i ≠ Op OP_CODESEPARATOR) items).
Proof.
  remember (length data) as n eqn:Hn. revert data items Hn.
  induction n as [n IH] using lt_wf_ind. intros data items ->.
  destruct (decide (data = [])) as [->|Hne]; [by intros [= <-]|].
  destruct (instruction data) as [i|e] eqn:E; last first.
  { unfold disassemble. rewrite (iter_eq data). destruct data; [done|]. by rewrite E. }
  rewrite (disassemble_eq _ _ E), (without_separators_eq _ _ E).
  pose proof (instruction_step _ _ E) as Hs.
  intros (items' & Hd & ->)%fmap_Some. apply (IH (length (drop i.(i_step) data))) in Hd; [|rewrite length_drop; lia|done].
  rewrite filter_cons. case_bool_decide as Hsep; rewrite (separator_item _ _ E) in Hsep.
  - by rewrite decide_False by naive_solver.
  - rewrite decide_True by done. rewrite (disassemble_eq _ _ (instruction_take _ _ _ E)).
    rewrite drop_app_length'; [by rewrite Hd|]. rewrite length_take. lia.
Qed.

Lemma without_separators_exact_witness :
  disassemble (without_separators (hex "51ab02abab51")) = Some [Op OP_1; Push (hex "abab"); Op OP_1].
Proof. by rewrite (without_separators_exact _ [Op OP_1; Op OP_CODESEPARATOR; Push (hex "abab"); Op OP_1]). Defined.

(** ** Multisig scripts *)

(** [is_multisig_script] reads the count and the closing opcode at the end of the
    bytes, and its loop may pass that point inside a key: a script that only
    pushes a key, with no count and no OP_CHECKMULTISIG, is classified as a
    multisig script when the last two bytes of the key look like them. *)
Theorem multisig_without_checkmultisig (key : bytes) :
  length key = 31%nat →
  let script := z2b (opcode_u8 OP_1) :: z2b 33 :: key ++ [z2b (opcode_u8 OP_1); z2b (opcode_u8 OP_CHECKMULTISIG)] in
  script_type script = Multisig
  ∧ disassemble script = Some [Op OP_1; Push (key ++ hex "51ae")].
Proof. intros L. explode key L. split; vm_compute; reflexivity. Qed.

Lemma multisig_without_checkmultisig_witness :
  let script := hex "5121" ++ replicate 31 (z2b 0) ++ hex "51ae" in
  script_type script = Multisig ∧ disassemble script = Some [Op OP_1; Push (replicate 31 (z2b 0) ++ hex "51ae")].
Proof. exact (multisig_without_checkmultisig (replicate 31 (z2b 0)) eq_refl). Defined.
