(* ===== verification/Sign.v ===== *)
(** * Sign: signature hashes (mm2src/kdf_script/src/sign.rs)

    The digest a signature of one input commits to, in the dialects of the
    source: legacy, BIP-143, the two fork-id forms and Zcash's overwintered
    form.  The theorems say what each digest covers: two signers with the same
    digest agree on all that the flags cover, or a collision of the hash
    function is at hand; and what the flags leave out may be changed freely. *)

From Stdlib Require Import Ascii String.
From stdpp Require Import base tactics list numbers strings option sets.
From coqutil Require Import Byte Word.LittleEndianList.
From S2P Require Import Prelude Codec Tx Crypto Script.

(** ** Flags *)

Inductive SignatureVersion : Type := Base | WitnessV0 | ForkId | ForkIdRxd.
Inductive SighashBase : Type := All | None_ | Single.

#[global] Instance SignatureVersion_eq_dec : EqDecision SignatureVersion.
Proof. solve_decision. Defined.
#[global] Instance SighashBase_eq_dec : EqDecision SighashBase.
Proof. solve_decision. Defined.

Record Sighash : Type := mkSighash { base : SighashBase; anyone_can_pay : bool; fork_id : bool }.

Definition base_u32 (b : SighashBase) : Z := match b with All => 1 | None_ => 2 | Single => 3 end.

(** [u32::from]. *)
Definition sighash_u32 (s : Sighash) : Z :=
  let v := base_u32 (base s) in
  let v := if anyone_can_pay s then Z.lor v 0x80 else v in
  if fork_id s then Z.lor v 0x40 else v.

Definition takes_fork_id (v : SignatureVersion) : bool :=
  match v with ForkId | ForkIdRxd => true | Base | WitnessV0 => false end.

(** [!m] on 32 bits is the complement within them. *)
Definition is_defined (version : SignatureVersion) (raw : Z) : bool :=
  let mask := if takes_fork_id version then Z.ldiff (2 ^ 32 - 1) (Z.lor 0x40 0x80) else Z.ldiff (2 ^ 32 - 1) 0x80 in
  let v := Z.land raw mask in
  (1 <=? v) && (v <=? 3).

Definition from_u32 (version : SignatureVersion) (raw : Z) : Sighash :=
  let b := Z.land raw 0x1f in
  mkSighash
    (if b =? 2 then None_ else if b =? 3 then Single else All)
    (negb (Z.land raw 0x80 =? 0))
    (takes_fork_id version && negb (Z.land raw 0x40 =? 0)).

(** ** The signer *)

Record UnsignedTransactionInput : Type := mkUnsignedTransactionInput {
  u_previous_output : OutPoint;
  u_sequence : Z;
  u_amount : Z;
  u_witness : list bytes
}.

Definition unsigned_of (i : TransactionInput) : UnsignedTransactionInput :=
  mkUnsignedTransactionInput (previous_output i) (sequence i) 0 (script_witness i).

Inductive SignerHashAlgo : Type := Signer_SHA256 | Signer_DSHA256.

#[global] Instance SignerHashAlgo_eq_dec : EqDecision SignerHashAlgo.
Proof. solve_decision. Defined.

Definition signer_algo (a : TxHashAlgo) : SignerHashAlgo :=
  match a with DSHA256 => Signer_DSHA256 | SHA256 => Signer_SHA256 end.
Definition tx_algo (a : SignerHashAlgo) : TxHashAlgo :=
  match a with Signer_DSHA256 => DSHA256 | Signer_SHA256 => SHA256 end.

Record TransactionInputSigner : Type := mkSigner {
  s_version : Z;
  s_n_time : option Z;
  s_overwintered : bool;
  s_version_group_id : Z;
  s_consensus_branch_id : Z;
  s_expiry_height : Z;
  s_value_balance : Z;
  s_inputs : list UnsignedTransactionInput;
  s_outputs : list TransactionOutput;
  s_lock_time : Z;
  s_join_splits : list JoinSplit;
  s_shielded_spends : list ShieldedSpend;
  s_shielded_outputs : list ShieldedOutput;
  s_zcash : bool;
  s_str_d_zeel : option bytes;
  s_hash_algo : SignerHashAlgo;
  s_sighash_suffix : Z
}.

(** The signer with other outputs ([{ outputs, ..signer }]). *)
Definition with_outputs (outs : list TransactionOutput) (s : TransactionInputSigner) : TransactionInputSigner :=
  mkSigner (s_version s) (s_n_time s) (s_overwintered s) (s_version_group_id s) (s_consensus_branch_id s)
    (s_expiry_height s) (s_value_balance s) (s_inputs s) outs (s_lock_time s) (s_join_splits s)
    (s_shielded_spends s) (s_shielded_outputs s) (s_zcash s) (s_str_d_zeel s) (s_hash_algo s) (s_sighash_suffix s).

Definition from_transaction (t : Transaction) (sighash_suffix : Z) : TransactionInputSigner :=
  mkSigner (version t) (n_time t) (overwintered t) (version_group_id t) 0 (expiry_height t) (value_balance t)
    (map unsigned_of (inputs t)) (outputs t) (lock_time t) (join_splits t) (shielded_spends t)
    (shielded_outputs t) (zcash t) (str_d_zeel t) (signer_algo (tx_hash_algo t)) sighash_suffix.

(** The unsigned transaction of a signer: no script, no witness. *)
Definition transaction_of (s : TransactionInputSigner) : Transaction :=
  mkTransaction (s_version s) (s_n_time s) (s_overwintered s) (s_version_group_id s)
    (map (λ i, mkTransactionInput (u_previous_output i) [] (u_sequence i) []) (s_inputs s))
    (s_outputs s) (s_lock_time s) (s_expiry_height s) (s_shielded_spends s) (s_shielded_outputs s)
    (s_join_splits s) (s_value_balance s) (zeros 32) (zeros 64) (zeros 64) (s_zcash s)
    (s_str_d_zeel s) (tx_algo (s_hash_algo s)).

(** [H256::from(v : u8)]: the byte goes first. *)
Definition H256_from_u8 (v : Z) : bytes := z2b v :: zeros 31.

(** ** Radiant's references *)

Definition REF_LEN : nat := 36.

(** Little-endian length of [width] bytes at the start of [rest]. *)
Definition read_le_len (rest : bytes) (width : nat) : option Z :=
  if (width <=? length rest)%nat then Some (le_combine (take width rest)) else None.

(** The width of the length prefix and the length of the operand of an opcode. *)
Definition operand_of (op : Z) (rest : bytes) : nat * option Z :=
  if (0x01 <=? op) && (op <=? 0x4b) then (0%nat, Some op)
  else if op =? 0x4c then (1%nat, read_le_len rest 1)
  else if op =? 0x4d then (2%nat, read_le_len rest 2)
  else if op =? 0x4e then (4%nat, read_le_len rest 4)
  else if bool_decide (op ∈ [0xd0; 0xd1; 0xd2; 0xd3; 0xd8]) then (0%nat, Some (Z.of_nat REF_LEN))
  else (0%nat, Some 0).

(** The order of [\[u8\]]. *)
Fixpoint bytes_compare (a b : bytes) : comparison :=
  match a, b with
  | [], [] => Eq
  | [], _ => Lt
  | _, [] => Gt
  | x :: a, y :: b => match b2z x ?= b2z y with Eq => bytes_compare a b | c => c end
  end.

(** [BTreeSet::insert], on the set as the list of its elements in order. *)
Fixpoint refs_insert (r : bytes) (refs : list bytes) : list bytes :=
  match refs with
  | [] => [r]
  | r' :: refs' =>
      match bytes_compare r r' with
      | Lt => r :: refs
      | Eq => refs
      | Gt => r' :: refs_insert r refs'
      end
  end.

(** The loop of [extract_push_refs] from [rest] on.  A round consumes a byte at
    least. *)
Fixpoint push_refs_from (fuel : nat) (rest : bytes) (refs : list bytes) : list bytes :=
  match fuel, rest with
  | O, _ | _, [] => refs
  | S fuel, op :: rest =>
      match operand_of (b2z op) rest with
      | (_, None) => refs
      | (header, Some len) =>
          if Z.of_nat (length rest) <? Z.of_nat header + len then refs
          else
            let operand := take (Z.to_nat len) (drop header rest) in
            let refs :=
              if bool_decide (b2z op ∈ [0xd0; 0xd8]) && (length operand =? REF_LEN)%nat
              then refs_insert operand refs else refs in
            push_refs_from fuel (drop (header + Z.to_nat len) rest) refs
      end
  end.

Definition extract_push_refs (script : bytes) : list bytes := push_refs_from (length script) script [].

Section sighash.
Context `{Hashes}.

(** ** BIP-143 parts *)

Definition hash_prevouts (sh : Sighash) (ins : list UnsignedTransactionInput) : bytes :=
  if anyone_can_pay sh then H256_from_u8 0
  else dhash256 (concat (map (λ i, ser c_OutPoint (u_previous_output i)) ins)).

Definition hash_sequence (sh : Sighash) (ins : list UnsignedTransactionInput) : bytes :=
  if anyone_can_pay sh || negb (bool_decide (base sh = All)) then H256_from_u8 0
  else dhash256 (concat (map (λ i, ser c_u32 (u_sequence i)) ins)).

Definition hash_outputs (sh : Sighash) (input_index : nat) (outs : list TransactionOutput) : bytes :=
  match base sh, outs !! input_index with
  | All, _ => dhash256 (concat (map (ser c_TransactionOutput) outs))
  | Single, Some o => dhash256 (ser c_TransactionOutput o)
  | _, _ => H256_from_u8 0
  end.

Definition output_summary (o : TransactionOutput) : bytes :=
  let refs := extract_push_refs (script_pubkey o) in
  ser c_u64 (value o) ++ ser c_H256 (dhash256 (script_pubkey o))
  ++ ser c_u32 (u32 (Z.of_nat (length refs)))
  ++ (match refs with [] => zeros 32 | _ => dhash256 (concat refs) end).

Definition hash_output_summaries (sh : Sighash) (input_index : nat) (outs : list TransactionOutput) : bytes :=
  match base sh, outs !! input_index with
  | All, _ => dhash256 (concat (map output_summary outs))
  | Single, Some o => dhash256 (output_summary o)
  | _, _ => H256_from_u8 0
  end.

Definition single_out_of_range_digest (sighashtype suffix : Z) : bytes :=
  let one := H256_from_u8 1 in
  if suffix =? 0 then one
  else dhash256 (ser c_H256 one ++ ser c_u32 sighashtype ++ ser c_u32 suffix).

(** The suffix of a coin, after the type: nothing when it is zero. *)
Definition suffix_bytes (suffix : Z) : bytes := if suffix =? 0 then [] else ser c_u32 suffix.

Section signer.
Context (s : TransactionInputSigner) (input_index : nat) (script_pubkey : bytes) (sighashtype : Z) (sighash : Sighash).

(** ** The digests

    [None] is a panic: the index of the input is out of range. *)

Definition sighash_witness_v0 (input_amount suffix : Z) : option bytes :=
  i ← s_inputs s !! input_index;
  Some (dhash256
    (ser c_i32 (s_version s)
     ++ ser c_H256 (hash_prevouts sighash (s_inputs s))
     ++ ser c_H256 (hash_sequence sighash (s_inputs s))
     ++ ser c_OutPoint (u_previous_output i)
     ++ append_list (λ b, ser c_u8 (b2z b)) script_pubkey
     ++ ser c_u64 input_amount
     ++ ser c_u32 (u_sequence i)
     ++ ser c_H256 (hash_outputs sighash input_index (s_outputs s))
     ++ ser c_u32 (s_lock_time s)
     ++ ser c_u32 sighashtype
     ++ suffix_bytes suffix)).

(** The input or its output does not exist, for the dialects that answer with a
    constant digest then. *)
Definition no_input : bool := (length (s_inputs s) <=? input_index)%nat.
Definition no_output : bool :=
  bool_decide (base sighash = Single) && (length (s_outputs s) <=? input_index)%nat.

Definition sighash_fork_id (input_amount suffix : Z) : option bytes :=
  if no_input then Some (H256_from_u8 1)
  else if no_output then Some (single_out_of_range_digest sighashtype suffix)
  else sighash_witness_v0 input_amount suffix.

Definition sighash_fork_id_rxd (input_amount : Z) : option bytes :=
  if no_input then Some (H256_from_u8 1)
  else if no_output then Some (H256_from_u8 1)
  else
    i ← s_inputs s !! input_index;
    Some (dhash256
      (ser c_i32 (s_version s)
       ++ ser c_H256 (hash_prevouts sighash (s_inputs s))
       ++ ser c_H256 (hash_sequence sighash (s_inputs s))
       ++ ser c_OutPoint (u_previous_output i)
       ++ append_list (λ b, ser c_u8 (b2z b)) script_pubkey
       ++ ser c_u64 input_amount
       ++ ser c_u32 (u_sequence i)
       ++ ser c_H256 (hash_output_summaries sighash input_index (s_outputs s))
       ++ ser c_H256 (hash_outputs sighash input_index (s_outputs s))
       ++ ser c_u32 (s_lock_time s)
       ++ ser c_u32 sighashtype)).

(** A tag of sixteen bytes in ASCII. *)
Definition tag (t : string) : bytes := (λ a, z2b (Z.of_N (N_of_ascii a))) <$> list_ascii_of_string t.

(** The hash of a sequence of items, or zeros when there are none. *)
Definition digest_or_zero {A} (items : list A) (write : A → bytes) (personal : bytes) : bytes :=
  match items with
  | [] => zeros 32
  | _ => blake2b_personal (concat (map write items)) personal
  end.

Definition write_spend (sp : ShieldedSpend) : bytes :=
  ser c_H256 (sp_cv sp) ++ ser c_H256 (sp_anchor sp) ++ ser c_H256 (sp_nullifier sp)
  ++ ser c_H256 (sp_rk sp) ++ ser c_ZkProofSapling (sp_zkproof sp).

Definition overwintered_personal : bytes :=
  tag "ZcashSigHash" ++ (if 3 <=? s_version s then le_split 4 (s_consensus_branch_id s) else []).

(** The flags are not looked at. *)
Definition overwintered_preimage (i : UnsignedTransactionInput) : bytes :=
  ser c_i32 (Z.lor (s_version s) (if s_overwintered s then - 2 ^ 31 else 0))
  ++ ser c_u32 (s_version_group_id s)
  ++ ser c_H256 (blake2b_personal (concat (map (λ i, ser c_OutPoint (u_previous_output i)) (s_inputs s)))
                                  (tag "ZcashPrevoutHash"))
  ++ ser c_H256 (blake2b_personal (concat (map (λ i, ser c_u32 (u_sequence i)) (s_inputs s)))
                                  (tag "ZcashSequencHash"))
  ++ ser c_H256 (blake2b_personal (concat (map (ser c_TransactionOutput) (s_outputs s)))
                                  (tag "ZcashOutputsHash"))
  ++ ser c_H256 (digest_or_zero (s_join_splits s) (ser (c_JoinSplit (2 <? s_version s))) (tag "ZcashJSplitsHash"))
  ++ ser c_H256 (digest_or_zero (s_shielded_spends s) write_spend (tag "ZcashSSpendsHash"))
  ++ ser c_H256 (digest_or_zero (s_shielded_outputs s) (ser c_ShieldedOutput) (tag "ZcashSOutputHash"))
  ++ ser c_u32 (s_lock_time s) ++ ser c_u32 (s_expiry_height s) ++ ser c_i64 (s_value_balance s)
  ++ ser c_u32 sighashtype
  ++ ser c_OutPoint (u_previous_output i) ++ ser c_Bytes script_pubkey
  ++ ser c_u64 (u_amount i) ++ ser c_u32 (u_sequence i).

Definition sighash_overwintered : option bytes :=
  i ← s_inputs s !! input_index;
  Some (blake2b_personal (overwintered_preimage i) overwintered_personal).

(** The inputs and outputs of the trimmed transaction the legacy digest hashes. *)
Definition legacy_inputs (code : bytes) : list TransactionInput :=
  if anyone_can_pay sighash then
    match s_inputs s !! input_index with
    | Some i => [mkTransactionInput (u_previous_output i) code (u_sequence i) []]
    | None => []
    end
  else
    imap (λ n i,
      mkTransactionInput (u_previous_output i)
        (if decide (n = input_index) then code else [])
        (match base sighash with
         | Single | None_ => if decide (n = input_index) then u_sequence i else 0
         | All => u_sequence i
         end) []) (s_inputs s).

Definition legacy_outputs : list TransactionOutput :=
  match base sighash with
  | All => s_outputs s
  | None_ => []
  | Single =>
      imap (λ n o, if decide (n = input_index) then o else TransactionOutput_default)
        (take (input_index + 1) (s_outputs s))
  end.

Definition legacy_transaction (code : bytes) : Transaction :=
  mkTransaction (s_version s) (s_n_time s) false 0 (legacy_inputs code) legacy_outputs (s_lock_time s)
    0 [] [] [] 0 (zeros 32) (zeros 64) (zeros 64) (s_zcash s) (s_str_d_zeel s) (tx_algo (s_hash_algo s)).

Definition signer_digest (preimage : bytes) : bytes :=
  match s_hash_algo s with Signer_DSHA256 => dhash256 preimage | Signer_SHA256 => sha256 preimage end.

Definition sighash_legacy (suffix : Z) : option bytes :=
  if no_input then Some (H256_from_u8 1)
  else if no_output then Some (single_out_of_range_digest sighashtype suffix)
  else if (3 <=? s_version s) && s_overwintered s then sighash_overwintered
  else
    Some (signer_digest
      (serialize (legacy_transaction (without_separators script_pubkey))
       ++ ser c_u32 sighashtype ++ suffix_bytes suffix)).

End signer.

Definition signature_hash (s : TransactionInputSigner) (input_index : nat) (input_amount : Z)
    (script_pubkey : bytes) (sigversion : SignatureVersion) (sighashtype : Z) : option bytes :=
  let sighash := from_u32 sigversion sighashtype in
  let suffix := match sigversion with ForkIdRxd => 0 | _ => s_sighash_suffix s end in
  match sigversion, fork_id sighash with
  | ForkId, true => sighash_fork_id s input_index script_pubkey sighashtype sighash input_amount suffix
  | ForkIdRxd, true => sighash_fork_id_rxd s input_index script_pubkey sighashtype sighash input_amount
  | (Base | ForkId | ForkIdRxd), _ => sighash_legacy s input_index script_pubkey sighashtype sighash suffix
  | WitnessV0, _ => sighash_witness_v0 s input_index script_pubkey sighashtype sighash input_amount suffix
  end.

(** [signed_input]; [sign] is the signature of a digest in DER ([None]: the key
    is refused, and the caller panics). *)
Definition signed_input (sign : bytes → option bytes) (s : TransactionInputSigner) (input_index : nat)
    (input_amount : Z) (script_pubkey : bytes) (sigversion : SignatureVersion) (sighash : Z) : option TransactionInput :=
  digest ← signature_hash s input_index input_amount script_pubkey sigversion sighash;
  sig ← sign digest;
  script_sig ← push_data (sig ++ [z2b (u8 sighash)]) builder_default;
  unsigned ← s_inputs s !! input_index;
  Some (mkTransactionInput (u_previous_output unsigned) script_sig (u_sequence unsigned) []).

End sighash.

(** ** The flags are read back *)

Lemma is_defined_small version raw : 0 ≤ raw < 2 ^ 32 → is_defined version raw = true → raw < 256.
Proof.
  intros Hr Hd. unfold is_defined in Hd. set (mask := if _ : bool then _ else _) in Hd. cbv zeta in Hd. fits_inv.
  assert (Z.shiftr (Z.land raw mask) 8 = 0) as E
    by (rewrite Z.shiftr_div_pow2 by lia; apply Z.div_small; lia).
  rewrite Z.shiftr_land in E. replace (Z.shiftr mask 8) with (Z.ones 24) in E by (unfold mask; by destruct version).
  rewrite Z.land_ones, Z.shiftr_div_pow2 in E by lia.
  rewrite Z.mod_small in E; [|split; [apply Z.div_pos; lia|apply Z.div_lt_upper_bound; lia]].
  apply Z.div_small_iff in E; lia.
Qed.

(** a raw type that is defined under a signature version (STRICTENC) is exactly
    the encoding of the flags read from it: no bit of it is dropped or made up. *)
Theorem sighash_flags_roundtrip version raw :
  0 ≤ raw < 2 ^ 32 → is_defined version raw = true → sighash_u32 (from_u32 version raw) = raw.
Proof.
  intros Hr Hd. pose proof (is_defined_small _ _ Hr Hd) as Hs.
  assert (Forall (λ n, ∀ v, is_defined v (Z.of_nat n) = true →
            sighash_u32 (from_u32 v (Z.of_nat n)) = Z.of_nat n) (seq 0 256)) as Hall.
  { cbn [seq]. repeat (constructor; [by intros []|]). constructor. }
  rewrite <-(Z2Nat.id raw) in Hd |- * by lia. apply (proj1 (Forall_forall _ _) Hall); [|done].
  apply elem_of_seq. lia.
Qed.

Lemma sighash_flags_roundtrip_witness : sighash_u32 (from_u32 ForkId 0xc3) = 0xc3.
Proof. apply sighash_flags_roundtrip; [lia|reflexivity]. Defined.

(** ** What the digests cover *)

(** What a signature with some flags is about.  [None] is a part that is left
    out. *)
Record coverage : Type := mkCoverage {
  v_version : Z;
  v_prevouts : option (list OutPoint);
  v_sequences : option (list Z);
  v_outpoint : OutPoint;
  v_code : bytes;
  v_amount : Z;
  v_sequence : Z;
  v_outputs : option (list TransactionOutput);
  v_lock_time : Z;
  v_type : Z;
  v_suffix : Z
}.

Definition covered_prevouts (sh : Sighash) (ins : list UnsignedTransactionInput) : option (list OutPoint) :=
  if anyone_can_pay sh then None else Some (map u_previous_output ins).
Definition covered_sequences (sh : Sighash) (ins : list UnsignedTransactionInput) : option (list Z) :=
  if anyone_can_pay sh then None
  else match base sh with All => Some (map u_sequence ins) | _ => None end.
Definition covered_outputs (sh : Sighash) (input_index : nat) (outs : list TransactionOutput) :
    option (list TransactionOutput) :=
  match base sh with
  | All => Some outs
  | None_ => None
  | Single => (λ o, [o]) <$> outs !! input_index
  end.

Definition bip143_coverage (s : TransactionInputSigner) (input_index : nat) (amount : Z) (code : bytes)
    (sighashtype : Z) (sighash : Sighash) (suffix : Z) : option coverage :=
  i ← s_inputs s !! input_index;
  Some (mkCoverage (s_version s) (covered_prevouts sighash (s_inputs s)) (covered_sequences sighash (s_inputs s))
          (u_previous_output i) code amount (u_sequence i)
          (covered_outputs sighash input_index (s_outputs s)) (s_lock_time s) sighashtype suffix).

(** The fields are within their types, and no script is longer than a reader
    takes. *)
Definition signer_fits (s : TransactionInputSigner) : bool :=
  fits c_i32 (s_version s)
  && forallb (fits c_OutPoint) (map u_previous_output (s_inputs s))
  && forallb (fits c_u32) (map u_sequence (s_inputs s))
  && forallb (fits c_TransactionOutput) (s_outputs s)
  && fits c_u32 (s_lock_time s) && fits c_u32 (s_sighash_suffix s).

(** These two inputs of a hash function are a collision. *)
Definition collide {A} (f : A → bytes) (x y : A) : Prop := x ≠ y ∧ f x = f y.

Lemma collide_or {A} `{EqDecision A} (f : A → bytes) x y : f x = f y → x = y ∨ collide f x y.
Proof. intros E. destruct (decide (x = y)); [by left|by right]. Qed.

Section covers.
Context `{HashLengths}.

(** The digest of a part, or zeros when it is left out. *)
Definition part_digest {A} (enc : A → bytes) (part : option A) : bytes :=
  match part with Some a => dhash256 (enc a) | None => zeros 32 end.

(** The two parts collide: their strings do, or the string of the one that is
    there has the digest zero of the one that is not. *)
Definition part_clash {A} (enc : A → bytes) (p q : option A) : Prop :=
  match p, q with
  | Some a, Some b => collide dhash256 (enc a) (enc b)
  | Some a, None | None, Some a => dhash256 (enc a) = zeros 32
  | None, None => False
  end.

Lemma part_inj {A} (enc : A → bytes) (p q : option A) :
  (∀ a b, p = Some a → q = Some b → enc a = enc b → a = b) →
  part_digest enc p = part_digest enc q → p = q ∨ part_clash enc p q.
Proof.
  intros Hinj. unfold part_digest. destruct p as [a|], q as [b|]; intros E; [|by right..|by left].
  apply collide_or in E as [E|?]; [|by right]. left. f_equal. by apply Hinj.
Qed.

Lemma length_part {A} (enc : A → bytes) p : fits c_H256 (part_digest enc p) = true.
Proof. destruct p; cbn; [by rewrite length_dhash256|done]. Qed.

Lemma hash_prevouts_part sh ins :
  hash_prevouts sh ins = part_digest (λ l, concat (map (ser c_OutPoint) l)) (covered_prevouts sh ins).
Proof. unfold hash_prevouts, covered_prevouts. destruct (anyone_can_pay sh); [done|]. cbn. by rewrite map_map. Qed.

Lemma hash_sequence_part sh ins :
  hash_sequence sh ins = part_digest (λ l, concat (map (ser c_u32) l)) (covered_sequences sh ins).
Proof.
  unfold hash_sequence, covered_sequences. destruct (anyone_can_pay sh), (base sh); try done.
  cbn -[ser]. by rewrite map_map.
Qed.

Lemma hash_outputs_part sh n outs :
  hash_outputs sh n outs = part_digest (λ l, concat (map (ser c_TransactionOutput) l)) (covered_outputs sh n outs).
Proof.
  unfold hash_outputs, covered_outputs. destruct (base sh); try done; destruct (outs !! n); try done.
  cbn -[ser]. by rewrite app_nil_r.
Qed.

Lemma script_bytes code : append_list (λ b, ser c_u8 (b2z b)) code = ser c_Bytes code.
Proof.
  unfold append_list. cbn [ser c_Bytes]. f_equal. induction code as [|b code IH]; [done|].
  cbn [map concat]. by rewrite ser_u8_b2z, IH.
Qed.

Lemma suffix_bytes_inj a b :
  fits c_u32 a = true → fits c_u32 b = true → suffix_bytes a = suffix_bytes b → a = b.
Proof.
  unfold suffix_bytes. intros Ha Hb. destruct (Z.eqb_spec a 0), (Z.eqb_spec b 0); [congruence|..]; intros E.
  - discriminate E.
  - discriminate E.
  - by apply (ser_app_inj c_u32 a b [] []); rewrite ?app_nil_r.
Qed.

(** The digest of a list of parts determines the list. *)
Lemma part_list_inj {A} (c : codec A) `{!Lawful c} p q :
  (∀ a, ser c a ≠ []) →
  from_option (forallb (fits c)) true p = true → from_option (forallb (fits c)) true q = true →
  part_digest (λ l, concat (map (ser c) l)) p = part_digest (λ l, concat (map (ser c) l)) q →
  p = q ∨ part_clash (λ l, concat (map (ser c) l)) p q.
Proof. intros Hne Fp Fq. apply part_inj. intros a b -> ->. by apply concat_ser_inj. Qed.

Lemma covered_outputs_fit sh n outs l :
  forallb (fits c_TransactionOutput) outs = true → covered_outputs sh n outs = Some l →
  forallb (fits c_TransactionOutput) l = true.
Proof.
  unfold covered_outputs. intros F. destruct (base sh); [by intros [= <-]|done|].
  intros (o & Ho & ->)%fmap_Some. cbn [forallb]. rewrite andb_true_r.
  by apply (proj1 (forallb_forall _ _) F), list_elem_of_In, (list_elem_of_lookup_2 _ n).
Qed.

(** The input a signature is for fits. *)
Lemma signer_fits_input s n i :
  signer_fits s = true → s_inputs s !! n = Some i →
  fits c_OutPoint (u_previous_output i) = true ∧ fits c_u32 (u_sequence i) = true.
Proof.
  unfold signer_fits. intros. fits_inv. rewrite !forallb_forall in *.
  split; [match goal with F : ∀ x, In x (map u_previous_output _) → _ |- _ => apply F end
         |match goal with F : ∀ x, In x (map u_sequence _) → _ |- _ => apply F end];
    by apply in_map, list_elem_of_In, (list_elem_of_lookup_2 _ n).
Qed.

End covers.

(** One call of [signature_hash]. *)
Record request : Type := mkRequest {
  r_signer : TransactionInputSigner;
  r_index : nat;
  r_amount : Z;
  r_code : bytes;
  r_sigversion : SignatureVersion;
  r_type : Z
}.

Definition r_sighash (r : request) : Sighash := from_u32 (r_sigversion r) (r_type r).

Definition request_fits (r : request) : bool :=
  signer_fits (r_signer r) && fits c_u64 (r_amount r) && fits c_Bytes (r_code r) && fits c_u32 (r_type r).

(** The digest is the one of BIP-143: the segwit version, or the fork-id version
    with its bit set on an input (and, for Single, an output) that exists. *)
Definition is_bip143 (r : request) : bool :=
  match r_sigversion r with
  | WitnessV0 => true
  | ForkId =>
      fork_id (r_sighash r) && negb (no_input (r_signer r) (r_index r))
      && negb (no_output (r_signer r) (r_index r) (r_sighash r))
  | Base | ForkIdRxd => false
  end.

Definition r_coverage (r : request) : option coverage :=
  bip143_coverage (r_signer r) (r_index r) (r_amount r) (r_code r) (r_type r) (r_sighash r)
    (s_sighash_suffix (r_signer r)).

Section bip143.
Context `{HashLengths}.

Definition r_digest (r : request) : option bytes :=
  signature_hash (r_signer r) (r_index r) (r_amount r) (r_code r) (r_sigversion r) (r_type r).

Lemma bip143_digest r :
  is_bip143 r = true →
  r_digest r = sighash_witness_v0 (r_signer r) (r_index r) (r_code r) (r_type r) (r_sighash r)
                 (r_amount r) (s_sighash_suffix (r_signer r)).
Proof.
  unfold is_bip143, r_digest, signature_hash. fold (r_sighash r).
  destruct (r_sigversion r); try done; intros; fits_inv.
  destruct (fork_id (r_sighash r)); [|done]. unfold sighash_fork_id.
  by destruct (no_input _ _), (no_output _ _ _).
Qed.

(** The string whose digest is signed, computed from what is covered. *)
Definition coverage_preimage (v : coverage) : bytes :=
  ser c_i32 (v_version v)
  ++ ser c_H256 (part_digest (λ l, concat (map (ser c_OutPoint) l)) (v_prevouts v))
  ++ ser c_H256 (part_digest (λ l, concat (map (ser c_u32) l)) (v_sequences v))
  ++ ser c_OutPoint (v_outpoint v)
  ++ ser c_Bytes (v_code v)
  ++ ser c_u64 (v_amount v)
  ++ ser c_u32 (v_sequence v)
  ++ ser c_H256 (part_digest (λ l, concat (map (ser c_TransactionOutput) l)) (v_outputs v))
  ++ ser c_u32 (v_lock_time v)
  ++ ser c_u32 (v_type v)
  ++ suffix_bytes (v_suffix v).

Definition coverage_digest (v : coverage) : bytes := dhash256 (coverage_preimage v).

(** A collision between the strings that are hashed for the one and the strings
    that are hashed for the other: the outpoints, the sequences, the outputs, or
    the whole. *)
Definition coverage_clash (v w : coverage) : Prop :=
  collide dhash256 (coverage_preimage v) (coverage_preimage w)
  ∨ part_clash (λ l, concat (map (ser c_OutPoint) l)) (v_prevouts v) (v_prevouts w)
  ∨ part_clash (λ l, concat (map (ser c_u32) l)) (v_sequences v) (v_sequences w)
  ∨ part_clash (λ l, concat (map (ser c_TransactionOutput) l)) (v_outputs v) (v_outputs w).

Lemma digest_coverage r : is_bip143 r = true → r_digest r = coverage_digest <$> r_coverage r.
Proof.
  intros Hb. rewrite bip143_digest by done. unfold sighash_witness_v0, r_coverage, bip143_coverage, coverage_digest, coverage_preimage.
  destruct (s_inputs (r_signer r) !! r_index r) as [i|]; [|done]. cbn -[ser suffix_bytes append_list].
  by rewrite script_bytes, hash_prevouts_part, hash_sequence_part, hash_outputs_part.
Qed.

Definition coverage_fits (v : coverage) : bool :=
  fits c_i32 (v_version v)
  && from_option (forallb (fits c_OutPoint)) true (v_prevouts v)
  && from_option (forallb (fits c_u32)) true (v_sequences v)
  && fits c_OutPoint (v_outpoint v) && fits c_Bytes (v_code v) && fits c_u64 (v_amount v)
  && fits c_u32 (v_sequence v)
  && from_option (forallb (fits c_TransactionOutput)) true (v_outputs v)
  && fits c_u32 (v_lock_time v) && fits c_u32 (v_type v) && fits c_u32 (v_suffix v).

Lemma request_coverage_fits r v : request_fits r = true → r_coverage r = Some v → coverage_fits v = true.
Proof.
  unfold request_fits, r_coverage, bip143_coverage. intros Hr (i & Hi & [= <-])%bind_Some. fits_inv.
  destruct (signer_fits_input _ _ _ ltac:(eassumption) Hi) as [Fo Fs]. unfold signer_fits in *. fits_inv.
  unfold coverage_fits. cbn [v_version v_prevouts v_sequences v_outpoint v_code v_amount v_sequence v_outputs
    v_lock_time v_type v_suffix]. rewrite !andb_true_iff. split_and!; try done.
  - unfold covered_prevouts. by destruct (anyone_can_pay (r_sighash r)).
  - unfold covered_sequences. by destruct (anyone_can_pay (r_sighash r)), (base (r_sighash r)).
  - destruct (covered_outputs _ _ _) eqn:E; [|done]. by eapply covered_outputs_fit.
Qed.

Lemma coverage_digest_inj v w :
  coverage_fits v = true → coverage_fits w = true → coverage_digest v = coverage_digest w →
  v = w ∨ coverage_clash v w.
Proof.
  unfold coverage_fits, coverage_digest, coverage_clash. intros Fv Fw E. fits_inv.
  apply collide_or in E as [E|]; [|by right; left]. unfold coverage_preimage in E.
  apply (ser_app_inj c_i32) in E as [? E]; [|done..].
  apply (ser_app_inj c_H256) in E as [Ep E]; [|apply length_part..].
  apply (ser_app_inj c_H256) in E as [Es E]; [|apply length_part..].
  apply (ser_app_inj c_OutPoint) in E as [? E]; [|done..].
  apply (ser_app_inj c_Bytes) in E as [? E]; [|done..].
  apply (ser_app_inj c_u64) in E as [? E]; [|done..].
  apply (ser_app_inj c_u32) in E as [? E]; [|done..].
  apply (ser_app_inj c_H256) in E as [Eo E]; [|apply length_part..].
  apply (ser_app_inj c_u32) in E as [? E]; [|done..].
  apply (ser_app_inj c_u32) in E as [? E]; [|done..].
  apply suffix_bytes_inj in E; [|done..].
  apply (part_list_inj c_OutPoint) in Ep as [?|?]; [|by right; right; left|by intros [[|? ?] ?]|done..].
  apply (part_list_inj c_u32) in Es as [?|?]; [|by do 3 right; left|done..].
  apply (part_list_inj c_TransactionOutput) in Eo as [?|?]; [|by do 4 right|done..].
  left. destruct v, w. cbn in *. congruence.
Qed.

(** A collision between the strings hashed for two requests. *)
Definition bip143_clash (r1 r2 : request) : Prop :=
  ∃ v w, r_coverage r1 = Some v ∧ r_coverage r2 = Some w ∧ coverage_clash v w.

Lemma bip143_digest_inj r1 r2 d :
  is_bip143 r1 = true → is_bip143 r2 = true → request_fits r1 = true → request_fits r2 = true →
  r_digest r1 = Some d → r_digest r2 = Some d → r_coverage r1 = r_coverage r2 ∨ bip143_clash r1 r2.
Proof.
  intros B1 B2 F1 F2. rewrite !digest_coverage by done.
  intros (v & Hv & ->)%fmap_Some (w & Hw & E)%fmap_Some.
  pose proof (request_coverage_fits _ _ F1 Hv). pose proof (request_coverage_fits _ _ F2 Hw).
  destruct (coverage_digest_inj v w) as [->|?]; auto; [left; congruence|]. right. by exists v, w.
Qed.

End bip143.

(** C28: a BIP-143 digest (segwit, or fork-id with its bit) is about exactly what its
    flags cover: the version, the lock time, the type, the suffix of the coin, the
    input with its script code, its amount and its sequence, and, as the flags say,
    the outpoints, the sequences and the outputs of the transaction.  Requests that
    agree on that have the same digest, whatever else differs; requests with the
    same digest agree on it, or the very strings that are hashed for the two of
    them are a collision of the hash function (or, where the flags of only one of
    them cover a part, the string of that part has the digest zero). *)
Theorem bip143_covers `{HashLengths} r1 r2 :
  is_bip143 r1 = true → is_bip143 r2 = true → request_fits r1 = true → request_fits r2 = true →
  (r_coverage r1 = r_coverage r2 → r_digest r1 = r_digest r2)
  ∧ (∀ d, r_digest r1 = Some d → r_digest r2 = Some d → r_coverage r1 = r_coverage r2 ∨ bip143_clash r1 r2).
Proof.
  intros B1 B2 F1 F2. split; [by rewrite !digest_coverage by done; intros ->|].
  intros d. by apply bip143_digest_inj.
Qed.

(** ** Overwintered transactions *)

(** The digest is the overwintered one. *)
Definition is_overwintered (r : request) : bool :=
  bool_decide (r_sigversion r = Base) && (3 <=? s_version (r_signer r)) && s_overwintered (r_signer r)
  && negb (no_input (r_signer r) (r_index r)) && negb (no_output (r_signer r) (r_index r) (r_sighash r)).

(** The digest of a tag and a string. *)
Definition tagged_digest `{Hashes} (x : bytes * bytes) : bytes := blake2b_personal x.2 x.1.

(** The tag and the string whose digest is signed. *)
Definition r_tagged `{Hashes} (r : request) : option (bytes * bytes) :=
  (λ i, (overwintered_personal (r_signer r), overwintered_preimage (r_signer r) (r_code r) (r_type r) i))
    <$> s_inputs (r_signer r) !! r_index r.

(** The strings of the lists of a transaction. *)
Definition prevouts_string (s : TransactionInputSigner) : bytes :=
  concat (map (ser c_OutPoint) (map u_previous_output (s_inputs s))).
Definition sequences_string (s : TransactionInputSigner) : bytes :=
  concat (map (ser c_u32) (map u_sequence (s_inputs s))).
Definition outputs_string (s : TransactionInputSigner) : bytes :=
  concat (map (ser c_TransactionOutput) (s_outputs s)).

(** A collision between the strings hashed for two requests. *)
Definition overwintered_clash `{Hashes} (r1 r2 : request) : Prop :=
  let s1 := r_signer r1 in let s2 := r_signer r2 in
  (∃ x y, r_tagged r1 = Some x ∧ r_tagged r2 = Some y ∧ collide tagged_digest x y)
  ∨ collide tagged_digest (tag "ZcashPrevoutHash", prevouts_string s1) (tag "ZcashPrevoutHash", prevouts_string s2)
  ∨ collide tagged_digest (tag "ZcashSequencHash", sequences_string s1) (tag "ZcashSequencHash", sequences_string s2)
  ∨ collide tagged_digest (tag "ZcashOutputsHash", outputs_string s1) (tag "ZcashOutputsHash", outputs_string s2).

Lemma overwintered_digest `{Hashes} r :
  is_overwintered r = true →
  r_digest r = sighash_overwintered (r_signer r) (r_index r) (r_code r) (r_type r).
Proof.
  unfold is_overwintered, r_digest, signature_hash. fold (r_sighash r). intros. fits_inv.
  destruct (r_sigversion r); try done. cbn [takes_fork_id fork_id from_u32 andb]. unfold sighash_legacy.
  by destruct (no_input _ _), (no_output _ _ _), (3 <=? _), (s_overwintered _).
Qed.

(** What an overwintered digest is about: all of the transparent part, whatever
    the flags. *)
Record overwintered_view : Type := mkOverwinteredView {
  o_branch : Z;
  o_header : Z;
  o_version_group_id : Z;
  o_prevouts : list OutPoint;
  o_sequences : list Z;
  o_outputs : list TransactionOutput;
  o_lock_time : Z;
  o_expiry_height : Z;
  o_value_balance : Z;
  o_type : Z;
  o_input : option (OutPoint * Z * Z);
  o_code : bytes
}.

Definition r_overwintered (r : request) : overwintered_view :=
  let s := r_signer r in
  mkOverwinteredView (s_consensus_branch_id s) (Z.lor (s_version s) (- 2 ^ 31)) (s_version_group_id s)
    (map u_previous_output (s_inputs s)) (map u_sequence (s_inputs s)) (s_outputs s) (s_lock_time s)
    (s_expiry_height s) (s_value_balance s) (r_type r)
    ((λ i, (u_previous_output i, u_amount i, u_sequence i)) <$> s_inputs s !! r_index r) (r_code r).

Definition overwintered_fits (r : request) : bool :=
  let s := r_signer r in
  request_fits r && (s_version s <? 2 ^ 31) && fits c_u32 (s_consensus_branch_id s) && fits c_u32 (s_version_group_id s)
  && fits c_u32 (s_expiry_height s) && fits c_i64 (s_value_balance s) && forallb (fits c_u64) (map u_amount (s_inputs s)).

Section overwintered.
Context `{HashLengths}.

Lemma blake2b_fits x p : fits c_H256 (blake2b_personal x p) = true.
Proof. cbn. by rewrite length_blake2b. Qed.

Lemma digest_or_zero_fits {A} (l : list A) w p : fits c_H256 (digest_or_zero l w p) = true.
Proof. destruct l; [done|apply blake2b_fits]. Qed.

(** The lists under one tag. *)
Lemma blake2b_list_inj {A} (c : codec A) `{!Lawful c} l1 l2 p :
  (∀ a, ser c a ≠ []) → forallb (fits c) l1 = true → forallb (fits c) l2 = true →
  blake2b_personal (concat (map (ser c) l1)) p = blake2b_personal (concat (map (ser c) l2)) p →
  l1 = l2 ∨ collide tagged_digest (p, concat (map (ser c) l1)) (p, concat (map (ser c) l2)).
Proof.
  intros Hne F1 F2 E. destruct (collide_or tagged_digest (p, concat (map (ser c) l1)) (p, concat (map (ser c) l2)) E)
    as [[= E']|?]; [left|by right]. by apply (concat_ser_inj c).
Qed.

Lemma overwintered_header_fits r :
  overwintered_fits r = true → is_overwintered r = true →
  fits c_i32 (Z.lor (s_version (r_signer r)) (- 2 ^ 31)) = true.
Proof.
  unfold overwintered_fits, is_overwintered. intros. fits_inv. rewrite overwintered_header by lia. cbn. zcases; done.
Qed.

Lemma r_input r : is_overwintered r = true → ∃ i, s_inputs (r_signer r) !! r_index r = Some i.
Proof.
  unfold is_overwintered, no_input. intros. fits_inv. apply lookup_lt_is_Some.
  match goal with H : negb (_ <=? _)%nat = true |- _ => apply negb_true_iff, Nat.leb_gt in H; done end.
Qed.

Lemma overwintered_input_fits r i :
  overwintered_fits r = true → s_inputs (r_signer r) !! r_index r = Some i →
  fits c_OutPoint (u_previous_output i) = true ∧ fits c_u32 (u_sequence i) = true
  ∧ fits c_u64 (u_amount i) = true.
Proof.
  unfold overwintered_fits, request_fits. intros Hf Hi. fits_inv.
  destruct (signer_fits_input _ _ _ ltac:(eassumption) Hi). split_and!; [done..|].
  match goal with F : forallb (fits c_u64) _ = true |- _ => apply (proj1 (forallb_forall _ _) F) end.
  by apply in_map, list_elem_of_In, (list_elem_of_lookup_2 _ (r_index r)).
Qed.

(** The next field of two equal serializations. *)
Tactic Notation "next_field" constr(c) hyp(E) ident(F) :=
  apply (ser_app_inj c) in E as [F E]; [|first [done|apply blake2b_fits|apply digest_or_zero_fits]..].

Lemma overwintered_personal_inj s1 s2 :
  3 ≤ s_version s1 → 3 ≤ s_version s2 →
  fits c_u32 (s_consensus_branch_id s1) = true → fits c_u32 (s_consensus_branch_id s2) = true →
  overwintered_personal s1 = overwintered_personal s2 → s_consensus_branch_id s1 = s_consensus_branch_id s2.
Proof.
  intros V1 V2 F1 F2 E. unfold overwintered_personal in E.
  rewrite (proj2 (Z.leb_le _ _) V1), (proj2 (Z.leb_le _ _) V2) in E. apply app_inv_head in E.
  by apply (ser_app_inj c_u32 _ _ [] []) in E as [? _]; rewrite ?app_nil_r.
Qed.

Lemma overwintered_digest_inj r1 r2 d :
  is_overwintered r1 = true → is_overwintered r2 = true →
  overwintered_fits r1 = true → overwintered_fits r2 = true →
  r_digest r1 = Some d → r_digest r2 = Some d →
  r_overwintered r1 = r_overwintered r2 ∨ overwintered_clash r1 r2.
Proof.
  intros O1 O2 F1 F2. rewrite !overwintered_digest by done. unfold sighash_overwintered.
  destruct (r_input r1 O1) as [i1 E1], (r_input r2 O2) as [i2 E2]. rewrite E1, E2. cbn [mbind option_bind].
  intros <- E%(inj Some). symmetry in E. unfold overwintered_clash, r_tagged. rewrite E1, E2. cbv zeta.
  apply (collide_or tagged_digest (_, _) (_, _)) in E as [[Et E]%pair_equal_spec|?]; [|by right; left; eauto].
  pose proof (overwintered_header_fits _ F1 O1). pose proof (overwintered_header_fits _ F2 O2).
  destruct (overwintered_input_fits _ _ F1 E1) as (?&?&?), (overwintered_input_fits _ _ F2 E2) as (?&?&?).
  unfold overwintered_preimage in E. unfold overwintered_fits, request_fits, signer_fits, is_overwintered in *.
  cbv zeta in *. fits_inv.
  repeat match goal with Ho : s_overwintered _ = true |- _ => rewrite Ho in E; clear Ho end.
  apply overwintered_personal_inj in Et; [|lia|lia|done..].
  rewrite <-!(map_map u_previous_output (ser c_OutPoint)), <-!(map_map u_sequence (ser c_u32)) in E.
  next_field c_i32 E Ehdr. next_field c_u32 E Evg. next_field c_H256 E Ep. next_field c_H256 E Es.
  next_field c_H256 E Eo. next_field c_H256 E E'. clear E'. next_field c_H256 E E'. clear E'.
  next_field c_H256 E E'. clear E'. next_field c_u32 E El. next_field c_u32 E Ee. next_field c_i64 E Ev.
  next_field c_u32 E Ety. next_field c_OutPoint E Eop. next_field c_Bytes E Ec. next_field c_u64 E Ea.
  apply (ser_app_inj c_u32 _ _ [] []) in E as [Eq _]; [|done..].
  apply (blake2b_list_inj c_OutPoint) in Ep as [Ep|?]; [|by right; right; left|by intros [[|? ?] ?]|done..].
  apply (blake2b_list_inj c_u32) in Es as [Es|?]; [|by do 3 right; left|done..].
  apply (blake2b_list_inj c_TransactionOutput) in Eo as [Eo|?]; [|by do 4 right|done..].
  left. unfold r_overwintered. rewrite E1, E2. cbn -[Z.lor]. congruence.
Qed.

End overwintered.

(** an overwintered digest covers every outpoint, every sequence and every
    output of the transaction under any flags: requests with the same digest
    agree on all of them (and on the branch, the header, the lock time, the expiry
    height, the type, the input, its amount and its script code), or the strings
    hashed for the two are a collision of BLAKE2b. *)
Theorem overwintered_covers `{HashLengths} r1 r2 d :
  is_overwintered r1 = true → is_overwintered r2 = true →
  overwintered_fits r1 = true → overwintered_fits r2 = true →
  r_digest r1 = Some d → r_digest r2 = Some d →
  r_overwintered r1 = r_overwintered r2 ∨ overwintered_clash r1 r2.
Proof. apply overwintered_digest_inj. Qed.

(** ** Single *)

(** The request with outputs added to its transaction. *)
Definition r_append (extra : list TransactionOutput) (r : request) : request :=
  mkRequest (with_outputs (s_outputs (r_signer r) ++ extra) (r_signer r)) (r_index r) (r_amount r) (r_code r)
    (r_sigversion r) (r_type r).

Lemma single_parts `{Hashes} sh n outs extra :
  base sh = Single → (n < length outs)%nat →
  hash_outputs sh n (outs ++ extra) = hash_outputs sh n outs
  ∧ hash_output_summaries sh n (outs ++ extra) = hash_output_summaries sh n outs.
Proof.
  intros Hb Hn. unfold hash_outputs, hash_output_summaries. rewrite Hb.
  by rewrite (lookup_app_l outs extra n Hn).
Qed.

Lemma single_append_digest `{Hashes} r extra :
  base (r_sighash r) = Single → (r_index r < length (s_outputs (r_signer r)))%nat →
  (3 <=? s_version (r_signer r)) && s_overwintered (r_signer r) = false →
  r_digest (r_append extra r) = r_digest r.
Proof.
  destruct r as [s n amount code v t]. unfold r_digest, r_sighash, signature_hash.
  cbn [r_signer r_index r_amount r_code r_sigversion r_type r_append]. intros Hb Hn Ho.
  destruct (single_parts _ _ _ extra Hb Hn) as [E1 E2]. set (sh := from_u32 v t) in *.
  assert (no_output (with_outputs (s_outputs s ++ extra) s) n sh = no_output s n sh) as E3.
  { unfold no_output. cbn. rewrite length_app. f_equal.
    rewrite !(proj2 (Nat.leb_gt _ _)) by lia. done. }
  assert (legacy_outputs (with_outputs (s_outputs s ++ extra) s) n sh = legacy_outputs s n sh) as E4.
  { unfold legacy_outputs. rewrite Hb. cbn. by rewrite take_app_le by lia. }
  assert (∀ c x, sighash_witness_v0 (with_outputs (s_outputs s ++ extra) s) n c t sh amount x
                 = sighash_witness_v0 s n c t sh amount x) as E5.
  { intros. unfold sighash_witness_v0. cbn -[ser]. by rewrite E1. }
  assert (∀ c x, sighash_legacy (with_outputs (s_outputs s ++ extra) s) n c t sh x
                 = sighash_legacy s n c t sh x) as E6.
  { intros. unfold sighash_legacy, legacy_transaction. rewrite E3, E4. cbn -[ser serialize]. by rewrite Ho. }
  cbn [s_sighash_suffix with_outputs]. destruct v, (fork_id sh); try apply E5; try apply E6.
  - unfold sighash_fork_id. by rewrite E3, E5.
  - unfold sighash_fork_id_rxd. rewrite E3. cbn -[ser]. by rewrite E1, E2.
Qed.

(** outside of overwintered transactions a signature with Single holds for the
    output of its own index only: outputs added after the signature leave its
    digest as it was, in the legacy, the segwit and both fork-id dialects. *)
Theorem single_allows_more_outputs `{Hashes} r extra :
  base (r_sighash r) = Single → (r_index r < length (s_outputs (r_signer r)))%nat →
  (3 <=? s_version (r_signer r)) && s_overwintered (r_signer r) = false →
  r_digest (r_append extra r) = r_digest r.
Proof. apply single_append_digest. Qed.

Lemma no_output_append s n sh extra :
  no_output s n sh = false → no_output (with_outputs (s_outputs s ++ extra) s) n sh = false.
Proof.
  unfold no_output. cbn. rewrite length_app, !andb_false_iff, !Nat.leb_gt. intros [?|?]; [by left|right; lia].
Qed.

Lemma overwintered_append r extra :
  is_overwintered r = true → overwintered_fits r = true → forallb (fits c_TransactionOutput) extra = true →
  is_overwintered (r_append extra r) = true ∧ overwintered_fits (r_append extra r) = true.
Proof.
  intros Ho Hf Hfe. split.
  - revert Ho. unfold is_overwintered. rewrite !andb_true_iff, !negb_true_iff. intros [[[[? ?] ?] ?] ?].
    split_and!; try done. by apply no_output_append.
  - revert Hf. unfold overwintered_fits, request_fits, signer_fits.
    cbn [r_append r_signer r_amount r_code r_type s_version s_inputs s_outputs s_consensus_branch_id s_version_group_id
      s_expiry_height s_value_balance s_lock_time s_sighash_suffix with_outputs].
    by rewrite forallb_app, Hfe, andb_true_r.
Qed.

(** in an overwintered transaction it does not: the digest of a Single signature
    is the digest of all outputs, so that a signature made before an output is added
    is not one of the transaction with it, unless the strings hashed for the two are
    a collision of BLAKE2b. *)
Theorem overwintered_single_is_all `{HashLengths} r extra :
  is_overwintered r = true → base (r_sighash r) = Single →
  overwintered_fits r = true → forallb (fits c_TransactionOutput) extra = true → extra ≠ [] →
  r_digest (r_append extra r) ≠ r_digest r ∨ overwintered_clash r (r_append extra r).
Proof.
  intros Ho Hb Hf Hfe Hne. destruct (decide (r_digest (r_append extra r) = r_digest r)) as [E|]; [|by left].
  right. destruct (overwintered_append _ _ Ho Hf Hfe) as [Ho' Hf'].
  destruct (r_digest r) as [d|] eqn:Ed; last first.
  { revert Ed. rewrite overwintered_digest by done. unfold sighash_overwintered. by destruct (r_input r Ho) as [? ->]. }
  destruct (overwintered_digest_inj _ _ d Ho Ho' Hf Hf' Ed E) as [Ev|?]; [|done].
  apply (f_equal o_outputs) in Ev. cbn in Ev. apply (f_equal length) in Ev. rewrite length_app in Ev.
  destruct extra; [done|]. cbn in Ev. lia.
Qed.

(** ** Legacy digests *)

Definition is_legacy (r : request) : bool :=
  bool_decide (r_sigversion r = Base) && negb ((3 <=? s_version (r_signer r)) && s_overwintered (r_signer r))
  && negb (no_input (r_signer r) (r_index r)) && negb (no_output (r_signer r) (r_index r) (r_sighash r)).

(** The trimmed transaction of a request. *)
Definition r_trimmed (r : request) : Transaction :=
  legacy_transaction (r_signer r) (r_index r) (r_sighash r) (without_separators (r_code r)).

Definition trimmed_fits (t : Transaction) : bool :=
  fits c_i32 (version t) && from_option (fits c_u32) true (n_time t)
  && fits c_inputs (inputs t) && fits c_outputs (outputs t) && fits c_u32 (lock_time t).

(** The two signers are for one coin: the layout of its transactions and its
    hash function are the same. *)
Definition same_coin (s1 s2 : TransactionInputSigner) : bool :=
  bool_decide (is_Some (s_n_time s1) ↔ is_Some (s_n_time s2)) && Bool.eqb (s_zcash s1) (s_zcash s2)
  && bool_decide (s_str_d_zeel s1 = s_str_d_zeel s2)
  && bool_decide (s_hash_algo s1 = s_hash_algo s2).

Lemma serialize_trimmed s n sh code :
  let t := legacy_transaction s n sh code in
  serialize t
  = ser c_i32 (version t) ++ (match n_time t with Some x => ser c_u32 x | None => [] end)
    ++ ser c_inputs (inputs t) ++ ser c_outputs (outputs t) ++ ser c_u32 (lock_time t)
    ++ (if s_zcash s && (version t =? 2) then ser CompactInteger 0 else []) ++ ser_str_d_zeel (s_str_d_zeel s).
Proof.
  unfold serialize, serialize_with_flags. change (with_witness 0 _) with false. cbv iota zeta.
  change (overwintered (legacy_transaction s n sh code)) with false. change (tx_header _) with (s_version s).
  cbn [app]. do 5 f_equal. unfold ser_sapling, ser_join_splits, ser_binding_sig. cbn -[ser zeros]. f_equal.
  destruct (s_zcash s); [|done]. rewrite orb_false_r, andb_false_r. cbn -[ser]. by destruct (s_version s =? 2).
Qed.

Lemma opt_u32_inj (a b : option Z) r1 r2 :
  (is_Some a ↔ is_Some b) → from_option (fits c_u32) true a = true → from_option (fits c_u32) true b = true →
  (match a with Some x => ser c_u32 x | None => [] end) ++ r1
  = (match b with Some x => ser c_u32 x | None => [] end) ++ r2 → a = b ∧ r1 = r2.
Proof.
  intros Hab Fa Fb E. destruct a, b; [|exfalso; naive_solver..|done].
  by apply (ser_app_inj c_u32) in E as [-> E].
Qed.

Lemma trimmed_inj r1 r2 x1 x2 :
  same_coin (r_signer r1) (r_signer r2) = true →
  trimmed_fits (r_trimmed r1) = true → trimmed_fits (r_trimmed r2) = true →
  serialize (r_trimmed r1) ++ x1 = serialize (r_trimmed r2) ++ x2 →
  r_trimmed r1 = r_trimmed r2 ∧ x1 = x2.
Proof.
  intros Hc F1 F2 E. unfold r_trimmed in *. rewrite !serialize_trimmed in E. cbv zeta in E.
  set (t1 := legacy_transaction _ _ _ _) in E, F1 |- *. set (t2 := legacy_transaction _ _ _ _) in E, F2 |- *.
  unfold same_coin, trimmed_fits in *. rewrite !andb_true_iff, !bool_decide_eq_true, Bool.eqb_true_iff in *.
  destruct Hc as [[[Hn Hz] Hs] Ha]. destruct_and!. rewrite Hz, Hs in E.
  rewrite <-!app_assoc in E. apply (ser_app_inj c_i32) in E as [Ev E]; [|done..].
  apply opt_u32_inj in E as [En E]; [|done..].
  apply (ser_app_inj c_inputs) in E as [Ei E]; [|done..].
  apply (ser_app_inj c_outputs) in E as [Eo E]; [|done..].
  apply (ser_app_inj c_u32) in E as [El E]; [|done..].
  rewrite Ev in E. do 2 apply app_inv_head in E. split; [|done].
  unfold t1, t2, legacy_transaction in *. cbn in *. congruence.
Qed.

Lemma legacy_digest `{Hashes} r :
  is_legacy r = true →
  r_digest r = Some (signer_digest (r_signer r)
    (serialize (r_trimmed r) ++ ser c_u32 (r_type r) ++ suffix_bytes (s_sighash_suffix (r_signer r)))).
Proof.
  unfold is_legacy, r_digest, signature_hash. fold (r_sighash r). rewrite !andb_true_iff, !negb_true_iff.
  intros [[[Hb Ho] Hi] Hn]. destruct (r_sigversion r); try done.
  cbn [takes_fork_id fork_id from_u32 andb]. unfold sighash_legacy. by rewrite Hi, Hn, Ho.
Qed.

(** The string whose digest is signed. *)
Definition legacy_string (r : request) : bytes :=
  serialize (r_trimmed r) ++ ser c_u32 (r_type r) ++ suffix_bytes (s_sighash_suffix (r_signer r)).

Lemma map_imap {A B C} (f : B → C) (g : nat → A → B) (h : A → C) l :
  (∀ n x, f (g n x) = h x) → map f (imap g l) = map h l.
Proof. revert g. induction l as [|x l IH]; intros g E; [done|]. cbn. rewrite E. f_equal. apply IH. intros. apply E. Qed.

(** The trimmed transaction of an All signature determines the inputs and
    outputs. *)
Lemma trimmed_all r1 r2 :
  base (r_sighash r1) = All → anyone_can_pay (r_sighash r1) = false →
  base (r_sighash r2) = All → anyone_can_pay (r_sighash r2) = false →
  r_trimmed r1 = r_trimmed r2 →
  map u_previous_output (s_inputs (r_signer r1)) = map u_previous_output (s_inputs (r_signer r2))
  ∧ map u_sequence (s_inputs (r_signer r1)) = map u_sequence (s_inputs (r_signer r2))
  ∧ s_outputs (r_signer r1) = s_outputs (r_signer r2).
Proof.
  intros B1 A1 B2 A2 E.
  pose proof (f_equal inputs E) as Ei. pose proof (f_equal outputs E) as Eo. cbn in Ei, Eo.
  unfold legacy_inputs, legacy_outputs in *. rewrite B1, B2, ?A1, ?A2 in *. split_and!; [..|done].
  - apply (f_equal (map previous_output)) in Ei. revert Ei. by rewrite !(map_imap _ _ u_previous_output).
  - apply (f_equal (map sequence)) in Ei. revert Ei. by rewrite !(map_imap _ _ u_sequence).
Qed.

(** a legacy digest covers the trimmed transaction its flags describe (with the
    separators taken out of the script code), the type and the suffix of the coin:
    requests for one coin with the same digest agree on them, or the strings hashed
    for the two are a collision of the coin's hash function.
    With All, and not anyone-can-pay, that is every outpoint, every sequence and
    every output. *)
Theorem legacy_covers `{Hashes} r1 r2 d :
  is_legacy r1 = true → is_legacy r2 = true → same_coin (r_signer r1) (r_signer r2) = true →
  trimmed_fits (r_trimmed r1) = true → trimmed_fits (r_trimmed r2) = true →
  request_fits r1 = true → request_fits r2 = true →
  r_digest r1 = Some d → r_digest r2 = Some d →
  (r_trimmed r1 = r_trimmed r2 ∧ r_type r1 = r_type r2
   ∧ s_sighash_suffix (r_signer r1) = s_sighash_suffix (r_signer r2)
   ∧ (base (r_sighash r1) = All → anyone_can_pay (r_sighash r1) = false →
      map u_previous_output (s_inputs (r_signer r1)) = map u_previous_output (s_inputs (r_signer r2))
      ∧ map u_sequence (s_inputs (r_signer r1)) = map u_sequence (s_inputs (r_signer r2))
      ∧ s_outputs (r_signer r1) = s_outputs (r_signer r2)))
  ∨ collide (signer_digest (r_signer r1)) (legacy_string r1) (legacy_string r2).
Proof.
  intros L1 L2 Hc T1 T2 F1 F2. rewrite !legacy_digest by done. intros <- E%(inj Some). symmetry in E.
  assert (s_hash_algo (r_signer r1) = s_hash_algo (r_signer r2)) as Ha
    by (unfold same_coin in Hc; fits_inv; by eapply bool_decide_eq_true).
  assert (signer_digest (r_signer r2) = signer_digest (r_signer r1)) as Hs by (unfold signer_digest; by rewrite Ha).
  rewrite Hs in E. apply (collide_or _ (legacy_string r1) (legacy_string r2)) in E as [E|?]; [left|by right].
  unfold legacy_string in E.
  apply trimmed_inj in E as [Et E]; [|done..].
  unfold request_fits, signer_fits, is_legacy in *. fits_inv.
  apply (ser_app_inj c_u32) in E as [Ety E]; [|done..]. apply suffix_bytes_inj in E; [|done..].
  split_and!; try done. intros B A. apply trimmed_all; try done.
  all: assert (r_sigversion r1 = Base ∧ r_sigversion r2 = Base) as [V1 V2] by (split; by eapply bool_decide_eq_true);
    unfold r_sighash in *; rewrite V1, Ety in *; by rewrite V2.
Qed.

(** ** A sample transaction *)

Module SignSample.

Definition out (v : Z) : TransactionOutput := mkTransactionOutput v (hex "76a91488ac").
Definition input (n : Z) : UnsignedTransactionInput :=
  mkUnsignedTransactionInput (mkOutPoint (replicate 32 (z2b 7)) n) 0xffffffff 5000 [].
Definition signer (v : Z) (ow : bool) (ins : list UnsignedTransactionInput) : TransactionInputSigner :=
  mkSigner v None ow 0 0 0 0 ins [out 1000] 0 [] [] [] ow None Signer_DSHA256 0.
Definition ask (v : Z) (ow : bool) (ins : list UnsignedTransactionInput) (sv : SignatureVersion) (ty : Z) : request :=
  mkRequest (signer v ow ins) 0 5000 (hex "76a91488ac") sv ty.

End SignSample.

(** Anyone-can-pay: another input may be added. *)
Lemma bip143_covers_witness :
  let _ := sample_hashes in
  r_digest (SignSample.ask 2 false [SignSample.input 0] WitnessV0 0x81)
  = r_digest (SignSample.ask 2 false [SignSample.input 0; SignSample.input 1] WitnessV0 0x81).
Proof.
  apply (proj1 (@bip143_covers sample_hashes sample_lengths
    (SignSample.ask 2 false [SignSample.input 0] WitnessV0 0x81)
    (SignSample.ask 2 false [SignSample.input 0; SignSample.input 1] WitnessV0 0x81)
    eq_refl eq_refl eq_refl eq_refl)).
  reflexivity.
Defined.

Lemma overwintered_covers_witness :
  let _ := sample_hashes in
  let r := SignSample.ask 4 true [SignSample.input 0] Base 1 in
  r_overwintered r = r_overwintered r ∨ overwintered_clash r r.
Proof.
  intros ?. by eapply (@overwintered_covers sample_hashes sample_lengths
    (SignSample.ask 4 true [SignSample.input 0] Base 1) (SignSample.ask 4 true [SignSample.input 0] Base 1)).
Defined.

Lemma single_allows_more_outputs_witness :
  let _ := sample_hashes in
  let r := SignSample.ask 2 false [SignSample.input 0] Base 3 in
  r_digest (r_append [SignSample.out 7] r) = r_digest r.
Proof.
  intros ?. apply (@single_allows_more_outputs sample_hashes
    (SignSample.ask 2 false [SignSample.input 0] Base 3) [SignSample.out 7]); [reflexivity|cbn; lia|reflexivity].
Defined.

Lemma overwintered_single_is_all_witness :
  let _ := sample_hashes in
  let r := SignSample.ask 4 true [SignSample.input 0] Base 3 in
  r_digest (r_append [SignSample.out 7] r) ≠ r_digest r ∨ overwintered_clash r (r_append [SignSample.out 7] r).
Proof.
  intros ?. by apply (@overwintered_single_is_all sample_hashes sample_lengths
    (SignSample.ask 4 true [SignSample.input 0] Base 3) [SignSample.out 7]).
Defined.

Lemma legacy_covers_witness :
  let _ := sample_hashes in
  let r := SignSample.ask 2 false [SignSample.input 0] Base 1 in
  r_trimmed r = r_trimmed r ∨ collide (signer_digest (r_signer r)) (legacy_string r) (legacy_string r).
Proof.
  intros ?. destruct (@legacy_covers sample_hashes
    (SignSample.ask 2 false [SignSample.input 0] Base 1) (SignSample.ask 2 false [SignSample.input 0] Base 1)
    (default [] (@r_digest sample_hashes (SignSample.ask 2 false [SignSample.input 0] Base 1)))
    eq_refl eq_refl eq_refl eq_refl eq_refl eq_refl eq_refl eq_refl eq_refl) as [[? _]|?]; [by left|by right].
Defined.
