(* ===== verification/ScriptRules.v ===== *)
(** * ScriptRules: what the network enforces

    The swap scripts are executed by the nodes of the network, not by the
    program.  [Interpreter] is such a node's evaluation of a script, given as
    the list of its opcodes and payloads, and [ScriptLaws] the documented
    behaviour of the opcodes the swap scripts use (BIP-16, BIP-65 and the
    reference client's rules).  The theorems about swap scripts hold for any
    interpreter with these laws; [run] is one, so that the laws can hold. *)

From stdpp Require Import base tactics list numbers strings option sets.
From coqutil Require Import Byte Word.LittleEndianList.
From S2P Require Import Prelude Codec Tx Crypto Script.

(** The transaction that spends, as far as a script can see it: its lock time, the
    sequence of the input, and which signatures of it are valid for a key. *)
Record spend : Type := mkSpend {
  sp_lock_time : Z;
  sp_sequence : Z;
  sp_checks : bytes → bytes → bool
}.

Definition MAX_SCRIPT_ELEMENT_SIZE : nat := 520.

(** The truth of a stack element: a byte that is not zero, the sign bit of the last
    one aside. *)
Fixpoint truthy (b : bytes) : bool :=
  match b with
  | [] => false
  | [x] => negb (b2z x =? 0) && negb (b2z x =? 0x80)
  | x :: b => negb (b2z x =? 0) || truthy b
  end.

(** BIP-65: the number on the stack, of five bytes at most, is not negative, is a
    height or a time as the lock time of the transaction is, has been reached by
    it, and the input is not final. *)
Definition cltv_ok (s : spend) (l : bytes) : bool :=
  (length l <=? 5)%nat && (0 <=? num_value l)
  && Bool.eqb (num_value l <? LOCKTIME_THRESHOLD) (sp_lock_time s <? LOCKTIME_THRESHOLD)
  && (num_value l <=? sp_lock_time s) && negb (sp_sequence s =? SEQUENCE_FINAL).

(** The opcodes that open, turn and close a block. *)
Inductive control : Type := If | Else | EndIf | Plain.

Definition control_of (i : item) : control :=
  match i with Op OP_IF => If | Op OP_ELSE => Else | Op OP_ENDIF => EndIf | _ => Plain end.

(** The blocks of [items] are closed, [depth] blocks being open before. *)
Fixpoint balanced (depth : nat) (items : list item) : bool :=
  match items with
  | [] => (depth =? 0)%nat
  | i :: k =>
      match control_of i, depth with
      | If, _ => balanced (S depth) k
      | Else, S _ => balanced depth k
      | EndIf, S d => balanced d k
      | Else, O | EndIf, O => false
      | Plain, _ => balanced depth k
      end
  end.

Definition verdict (b : bool) : bytes := if b then [z2b 1] else [].

Class Interpreter := exec : spend → list item → list bytes → option (list bytes).

Class ScriptLaws `{Hashes} `{Interpreter} : Prop := {
  exec_nil s st : exec s [] st = Some st;
  exec_push s p k st : (length p ≤ MAX_SCRIPT_ELEMENT_SIZE)%nat → exec s (Push p :: k) st = exec s k (p :: st);
  exec_if s a b k st :
    balanced 0 a = true → balanced 0 b = true →
    exec s (Op OP_IF :: a ++ Op OP_ELSE :: b ++ Op OP_ENDIF :: k) st
    = match st with [] => None | c :: st => exec s ((if truthy c then a else b) ++ k) st end;
  exec_drop s k st : exec s (Op OP_DROP :: k) st = match st with [] => None | _ :: st => exec s k st end;
  exec_size s k st :
    exec s (Op OP_SIZE :: k) st
    = match st with
      | [] => None
      | x :: st => exec s k (default [] (num_to_bytes 8 (Z.of_nat (length x))) :: x :: st)
      end;
  exec_equalverify s k st :
    exec s (Op OP_EQUALVERIFY :: k) st
    = match st with x :: y :: st => if bool_decide (x = y) then exec s k st else None | _ => None end;
  exec_hash160 s k st :
    exec s (Op OP_HASH160 :: k) st = match st with [] => None | x :: st => exec s k (dhash160 x :: st) end;
  exec_checksig s k st :
    exec s (Op OP_CHECKSIG :: k) st
    = match st with pk :: sig :: st => exec s k (verdict (sp_checks s pk sig) :: st) | _ => None end;
  exec_checksigverify s k st :
    exec s (Op OP_CHECKSIGVERIFY :: k) st
    = match st with pk :: sig :: st => if sp_checks s pk sig then exec s k st else None | _ => None end;
  exec_cltv s k st :
    exec s (Op OP_CHECKLOCKTIMEVERIFY :: k) st
    = match st with [] => None | l :: _ => if cltv_ok s l then exec s k st else None end
}.

(** ** Pay to script hash (BIP-16) *)

(** The value an item of an input script pushes. *)
Definition pushed (i : item) : option bytes :=
  match i with
  | Push p => if (length p <=? MAX_SCRIPT_ELEMENT_SIZE)%nat then Some p else None
  | Op op =>
      if bool_decide (op = OP_1NEGATE) then Some [z2b 0x81]
      else n ← decode_op_n op; Some [z2b n]
  end.

(** The stack an input script that only pushes leaves, the last value on top. *)
Definition input_stack (script_sig : bytes) : option (list bytes) :=
  items ← disassemble script_sig; reverse <$> mapM pushed items.

Section p2sh.
Context `{Hashes} `{Interpreter}.

(** The script succeeds on the stack. *)
Definition script_true (s : spend) (items : list item) (st : list bytes) : Prop :=
  ∃ top rest, exec s items st = Some (top :: rest) ∧ truthy top = true.

(** The input script spends an output that pays to the hash [h], by way of the
    script [redeem], which is on top of the stack it leaves. *)
Definition p2sh_spends (s : spend) (script_sig redeem h : bytes) : Prop :=
  ∃ st items, input_stack script_sig = Some (redeem :: st) ∧ dhash160 redeem = h
    ∧ disassemble redeem = Some items ∧ script_true s items st.

End p2sh.

(** ** An interpreter *)

(** An opcode that is no block opcode, on the stack. *)
Definition step `{Hashes} (s : spend) (i : item) (st : list bytes) : option (list bytes) :=
  match i, st with
  | Push p, _ => if (length p <=? MAX_SCRIPT_ELEMENT_SIZE)%nat then Some (p :: st) else None
  | Op OP_DROP, _ :: st => Some st
  | Op OP_SIZE, x :: st => Some (default [] (num_to_bytes 8 (Z.of_nat (length x))) :: x :: st)
  | Op OP_EQUALVERIFY, x :: y :: st => if bool_decide (x = y) then Some st else None
  | Op OP_HASH160, x :: st => Some (dhash160 x :: st)
  | Op OP_CHECKSIG, pk :: sig :: st => Some (verdict (sp_checks s pk sig) :: st)
  | Op OP_CHECKSIGVERIFY, pk :: sig :: st => if sp_checks s pk sig then Some st else None
  | Op OP_CHECKLOCKTIMEVERIFY, l :: _ => if cltv_ok s l then Some st else None
  | _, _ => None
  end.

(** [cond] are the open blocks, the innermost first: whether it is the branch taken. *)
Fixpoint run `{Hashes} (s : spend) (items : list item) (cond : list bool) (st : list bytes) : option (list bytes) :=
  match items with
  | [] => match cond with [] => Some st | _ => None end
  | i :: k =>
      let active := forallb id cond in
      match control_of i, cond with
      | If, _ =>
          if active then match st with [] => None | c :: st => run s k (truthy c :: cond) st end
          else run s k (false :: cond) st
      | Else, b :: cond => run s k (negb b :: cond) st
      | EndIf, _ :: cond => run s k cond st
      | Else, [] | EndIf, [] => None
      | Plain, _ => if active then st' ← step s i st; run s k cond st' else run s k cond st
      end
  end.

#[local] Instance run_interpreter `{Hashes} : Interpreter := λ s items st, run s items [] st.

Section laws.
Context `{Hashes}.

(** What is not taken does nothing. *)
Lemma run_skip s a inner cond k st :
  forallb id cond = false → balanced (length inner) a = true →
  run s (a ++ k) (inner ++ cond) st = run s k cond st.
Proof.
  intros Hc. revert inner. induction a as [|i a IH]; intros inner Hb; cbn [balanced] in Hb.
  { by destruct inner. }
  assert (forallb id (inner ++ cond) = false) as Ha by (by rewrite forallb_app, Hc, andb_false_r).
  cbn [app run]. destruct (control_of i).
  - rewrite Ha. apply (IH (false :: inner)), Hb.
  - destruct inner as [|b inner]; [done|]. cbn [app]. apply (IH (negb b :: inner)), Hb.
  - destruct inner as [|b inner]; [done|]. cbn [app]. apply IH, Hb.
  - rewrite Ha. apply IH, Hb.
Qed.

(** The branch taken is run as if it were alone, [tail] being what leads out of
    it. *)
Lemma run_taken s a inner cond tail k st :
  forallb id cond = true → balanced (length inner) a = true →
  (∀ st, run s tail (true :: cond) st = run s k cond st) →
  run s (a ++ tail) (inner ++ true :: cond) st = run s (a ++ k) (inner ++ cond) st.
Proof.
  intros Hc Ha Ht. revert inner st Ha. induction a as [|i a IH]; intros inner st Ha; cbn [balanced] in Ha.
  { by destruct inner; [apply Ht|]. }
  assert (forallb id (inner ++ true :: cond) = forallb id (inner ++ cond)) as Hi by (by rewrite !forallb_app).
  cbn [app run]. destruct (control_of i).
  - rewrite Hi. destruct (forallb id (inner ++ cond)).
    + destruct st as [|c st]; [done|]. apply (IH (truthy c :: inner)), Ha.
    + apply (IH (false :: inner)), Ha.
  - destruct inner as [|x inner]; [done|]. cbn [app]. apply (IH (negb x :: inner)), Ha.
  - destruct inner as [|x inner]; [done|]. cbn [app]. apply IH, Ha.
  - rewrite Hi. destruct (forallb id (inner ++ cond)); [|apply IH, Ha].
    destruct (step s i st) as [st'|]; [|done]. cbn. apply IH, Ha.
Qed.

#[export] Instance run_laws : ScriptLaws.
Proof.
  split; unfold exec, run_interpreter.
  - done.
  - intros s p k st Hp. cbn -[MAX_SCRIPT_ELEMENT_SIZE]. by rewrite (proj2 (Nat.leb_le _ _) Hp).
  - intros s a b k st Ha Hb. cbn [run control_of forallb]. destruct st as [|c st]; [done|].
    pose proof (λ k st, run_skip s a [] [false] k st eq_refl Ha) as Ea.
    pose proof (λ k st, run_skip s b [] [false] k st eq_refl Hb) as Eb. cbn [app] in Ea, Eb. destruct (truthy c).
    + apply (run_taken s a [] []); [done..|]. intros. cbn [run control_of negb]. apply Eb.
    + rewrite Ea. cbn [run control_of negb]. by apply (run_taken s b [] []).
  - by intros s k [].
  - by intros s k [].
  - intros s k [|x [|y st]]; cbn; [done..|]. by case_bool_decide.
  - by intros s k [].
  - by intros s k [|? [|? ?]].
  - intros s k [|pk [|sig st]]; cbn; [done..|]. by destruct (sp_checks s pk sig).
  - intros s k [|l st]; cbn; [done|]. by destruct (cltv_ok s l).
Qed.

End laws.
