(* ===== verification/UtxoSigner.v ===== *)
(** * UtxoSigner: signed transactions (mm2src/coins/utxo_signer)

    The inputs of a transaction signed with a key pair, by the kind of the output
    they spend, and the transaction made of them.  ECDSA is third-party code and
    is the class [Ecdsa]; its law is that a signature of a key verifies under its
    public key. *)

From stdpp Require Import base tactics list numbers strings option sets.
From coqutil Require Import Byte Word.LittleEndianList.
From S2P Require Import Prelude Codec Tx Crypto Script Sign.

Class Ecdsa := {
  ec_public : bytes → Public;
  ec_sign : bytes → bytes → result bytes KeysError;
  ec_verify : Public → bytes → bytes → result bool KeysError
}.

Class EcdsaLaws `{Ecdsa} : Prop := {
  ec_sign_verifies k d sig : ec_sign k d = Ok sig → ec_verify (ec_public k) d sig = Ok true;
  ec_public_ok k : public_ok (ec_public k) = true;
  ec_sign_length k d sig : ec_sign k d = Ok sig → (8 ≤ length sig ≤ 72)%nat
}.

Record KeyPair : Type := mkKeyPair { kp_private : bytes; kp_public : Public }.

Inductive UtxoSignWithKeyPairError : Type :=
| MismatchScript (script_type : string) (script prev_script : bytes)
| InputIndexOutOfBound (len index : nat)
| ErrorSigning (e : KeysError).

(** What a call returns; [None] is a panic. *)
Notation sign_result A := (option (result A UtxoSignWithKeyPairError)).

(** ** Input scripts (sign_common.rs) *)

(** The signature followed by its type: [1 | fork_id as u8]. *)
Definition script_sig_of (signature : bytes) (fork_id : Z) : bytes :=
  signature ++ [z2b (Z.lor 1 (u8 fork_id))].

Definition script_sig_with_pub (public_key : Public) (fork_id : Z) (signature : bytes) : Builder :=
  builder_default ▷ push_data (script_sig_of signature fork_id) ▷ push_data (public_bytes public_key).

Section inputs.
Context (unsigned_input : UnsignedTransactionInput) (fork_id : Z) (signature : bytes).

Let signed (script_sig : bytes) (witness : list bytes) : TransactionInput :=
  mkTransactionInput (u_previous_output unsigned_input) script_sig (u_sequence unsigned_input) witness.

Definition p2pk_spend_with_signature : option TransactionInput :=
  b ← builder_default ▷ push_bytes (script_sig_of signature fork_id); Some (signed b []).

Definition p2pkh_spend_with_signature (public_key : Public) : option TransactionInput :=
  b ← script_sig_with_pub public_key fork_id signature; Some (signed b []).

Definition p2sh_spend_with_signature (redeem_script script_data : bytes) : option TransactionInput :=
  sig_part ← builder_default ▷ push_data (script_sig_of signature fork_id);
  redeem_part ← builder_default ▷ push_data redeem_script;
  Some (signed (sig_part ++ script_data ++ redeem_part) []).

Definition p2wpkh_spend_with_signature (public_key : Public) : TransactionInput :=
  signed [] [script_sig_of signature fork_id; public_bytes public_key].

End inputs.

Definition complete_tx (s : TransactionInputSigner) (signed_inputs : list TransactionInput) : Transaction :=
  mkTransaction (s_version s) (s_n_time s) (s_overwintered s) (s_version_group_id s) signed_inputs (s_outputs s)
    (s_lock_time s) (s_expiry_height s) [] [] [] 0 (zeros 32) (zeros 64) (zeros 64) (s_zcash s) (s_str_d_zeel s)
    (tx_algo (s_hash_algo s)).

(** ** Signing with a key pair (with_key_pair.rs) *)

Definition get_input (s : TransactionInputSigner) (input_index : nat) :
    result UnsignedTransactionInput UtxoSignWithKeyPairError :=
  match s_inputs s !! input_index with
  | Some i => Ok i
  | None => Err (InputIndexOutOfBound (length (s_inputs s)) input_index)
  end.

Section spends.
Context `{Hashes} `{Ecdsa}.
Context (signer : TransactionInputSigner) (input_index : nat) (key_pair : KeyPair)
  (signature_version : SignatureVersion) (fork_id : Z).

Definition sighash_type : Z := Z.lor 1 fork_id.

Definition calc_and_sign_sighash (output_script : bytes) : sign_result bytes :=
  match get_input signer input_index with
  | Err e => Some (Err e)
  | Ok i =>
      digest ← signature_hash signer input_index (u_amount i) output_script signature_version sighash_type;
      Some (map_err ErrorSigning (ec_sign (kp_private key_pair) digest))
  end.

(** The steps the four kinds of spends share: the input, the signature of
    [script], and the signed input made of them. *)
Definition spend_with (script : bytes)
    (finish : UnsignedTransactionInput → bytes → option TransactionInput) : sign_result TransactionInput :=
  match get_input signer input_index with
  | Err e => Some (Err e)
  | Ok i =>
      signed ← calc_and_sign_sighash script;
      match signed with
      | Err e => Some (Err e)
      | Ok signature => t ← finish i signature; Some (Ok t)
      end
  end.

Definition p2pk_spend : sign_result TransactionInput :=
  match get_input signer input_index with
  | Err e => Some (Err e)
  | Ok _ =>
      script ← build_p2pk (kp_public key_pair);
      spend_with script (λ i signature, p2pk_spend_with_signature i fork_id signature)
  end.

(** The script of the key, and whether it is the one that is spent. *)
Definition with_p2pkh_script (prev_script : bytes)
    (k : bytes → sign_result TransactionInput) : sign_result TransactionInput :=
  match get_input signer input_index with
  | Err e => Some (Err e)
  | Ok _ =>
      script ← build_p2pkh (AddressHash (address_hash (kp_public key_pair)));
      if bool_decide (script = prev_script) then k script
      else Some (Err (MismatchScript "P2PKH" script prev_script))
  end.

Definition p2pkh_spend (prev_script : bytes) : sign_result TransactionInput :=
  with_p2pkh_script prev_script (λ script,
    spend_with script (λ i signature, p2pkh_spend_with_signature i fork_id signature (kp_public key_pair))).

Definition p2wpkh_spend (prev_script : bytes) : sign_result TransactionInput :=
  with_p2pkh_script prev_script (λ script,
    spend_with script (λ i signature, Some (p2wpkh_spend_with_signature i fork_id signature (kp_public key_pair)))).

Definition p2sh_spend (script_data redeem_script : bytes) : sign_result TransactionInput :=
  spend_with redeem_script (λ i signature, p2sh_spend_with_signature i fork_id signature redeem_script script_data).

End spends.

Section sign_tx.
Context `{Hashes} `{Ecdsa}.
Context (unsigned : TransactionInputSigner) (key_pair : KeyPair) (prev_script : bytes)
  (signature_version : SignatureVersion) (fork_id : Z) (p2pk_outpoints : list OutPoint).

Definition sign_input (n : nat) (i : UnsignedTransactionInput) : sign_result TransactionInput :=
  if bool_decide (u_previous_output i ∈ p2pk_outpoints)
  then p2pk_spend unsigned n key_pair signature_version fork_id
  else match signature_version with
  | WitnessV0 => p2wpkh_spend unsigned n key_pair signature_version fork_id prev_script
  | _ => p2pkh_spend unsigned n key_pair signature_version fork_id prev_script
  end.

(** The loop over the inputs: the first error ends it. *)
Fixpoint sign_inputs (n : nat) (ins : list UnsignedTransactionInput) : sign_result (list TransactionInput) :=
  match ins with
  | [] => Some (Ok [])
  | i :: ins =>
      signed ← sign_input n i;
      match signed with
      | Err e => Some (Err e)
      | Ok t =>
          rest ← sign_inputs (S n) ins;
          Some (match rest with Ok ts => Ok (t :: ts) | Err e => Err e end)
      end
  end.

Definition sign_tx_with_p2pk : sign_result Transaction :=
  signed ← sign_inputs 0 (s_inputs unsigned);
  Some (match signed with Ok ts => Ok (complete_tx unsigned ts) | Err e => Err e end).

End sign_tx.

Definition sign_tx `{Hashes} `{Ecdsa} (unsigned : TransactionInputSigner) (key_pair : KeyPair) (prev_script : bytes)
    (signature_version : SignatureVersion) (fork_id : Z) : sign_result Transaction :=
  sign_tx_with_p2pk unsigned key_pair prev_script signature_version fork_id [].

(** ** What is signed *)

(** The output an input spends is a bare key, or the hash of the key. *)
Definition spent_script `{Hashes} (p2pk : bool) (pub : Public) : option bytes :=
  if p2pk then build_p2pk pub else build_p2pkh (AddressHash (address_hash pub)).

(** Where the signature (with its type) and the key are found in a signed input. *)
Definition carries (sv : SignatureVersion) (p2pk : bool) (pub : Public) (sig : bytes) (t : TransactionInput) : Prop :=
  match p2pk, sv with
  | true, _ => disassemble (script_sig t) = Some [Push sig] ∧ script_witness t = []
  | false, WitnessV0 => script_sig t = [] ∧ script_witness t = [sig; public_bytes pub]
  | false, _ => disassemble (script_sig t) = Some [Push sig; Push (public_bytes pub)] ∧ script_witness t = []
  end.

Section signed.
Context `{Hashes} `{EcdsaLaws}.
Context (unsigned : TransactionInputSigner) (key_pair : KeyPair) (prev_script : bytes)
  (signature_version : SignatureVersion) (fork_id : Z) (p2pk_outpoints : list OutPoint).
Hypothesis key_pair_ok : kp_public key_pair = ec_public (kp_private key_pair).

(** Input [n] of the signer is signed by [t]: it spends the same output with the
    same sequence, and carries a signature of the key over the digest of that
    input. *)
Definition input_signed (n : nat) (i : UnsignedTransactionInput) (t : TransactionInput) : Prop :=
  let p2pk := bool_decide (u_previous_output i ∈ p2pk_outpoints) in
  previous_output t = u_previous_output i ∧ sequence t = u_sequence i
  ∧ ∃ script digest sig,
      spent_script p2pk (kp_public key_pair) = Some script
      ∧ signature_hash unsigned n (u_amount i) script signature_version (sighash_type fork_id) = Some digest
      ∧ ec_verify (kp_public key_pair) digest sig = Ok true
      ∧ carries signature_version p2pk (kp_public key_pair) (script_sig_of sig fork_id) t.

Lemma spend_with_inv n script finish t :
  spend_with unsigned n key_pair signature_version fork_id script finish = Some (Ok t) →
  ∃ i digest sig, s_inputs unsigned !! n = Some i
    ∧ signature_hash unsigned n (u_amount i) script signature_version (sighash_type fork_id) = Some digest
    ∧ ec_verify (kp_public key_pair) digest sig = Ok true ∧ (8 ≤ length sig ≤ 72)%nat
    ∧ finish i sig = Some t.
Proof.
  unfold spend_with, calc_and_sign_sighash, get_input. destruct (s_inputs unsigned !! n) as [i|] eqn:Ei; [|done].
  intros (r & (d & Hd & [= <-])%bind_Some & Hr)%bind_Some.
  destruct (ec_sign (kp_private key_pair) d) as [sig|e] eqn:Es; [|done]. cbn in Hr.
  apply bind_Some in Hr as (t' & Ht & [= <-]). exists i, d, sig. split_and!; try done.
  - rewrite key_pair_ok. by eapply ec_sign_verifies.
  - by eapply ec_sign_length.
  - by eapply ec_sign_length.
Qed.

Lemma script_sig_length sig : length (script_sig_of sig fork_id) = S (length sig).
Proof. unfold script_sig_of. rewrite length_app. cbn. lia. Qed.

Lemma own_public_length : (33 ≤ length (public_bytes (kp_public key_pair)) ≤ 65)%nat.
Proof. rewrite key_pair_ok. apply public_length, ec_public_ok. Qed.

Lemma with_p2pkh_inv n k t :
  with_p2pkh_script unsigned n key_pair prev_script k = Some (Ok t) →
  ∃ script, spent_script false (kp_public key_pair) = Some script ∧ k script = Some (Ok t).
Proof.
  unfold with_p2pkh_script. destruct (get_input _ _); [|done].
  intros (script & Hs & Hk)%bind_Some. case_bool_decide; [|done]. by exists script.
Qed.

(** The finishing step of a kind of spend puts the signature where it belongs. *)
Definition finishes (p2pk : bool) (finish : UnsignedTransactionInput → bytes → option TransactionInput) : Prop :=
  ∀ i sig t, (8 ≤ length sig ≤ 72)%nat → finish i sig = Some t →
    previous_output t = u_previous_output i ∧ sequence t = u_sequence i
    ∧ carries signature_version p2pk (kp_public key_pair) (script_sig_of sig fork_id) t.

Lemma p2pk_finishes : finishes true (λ i sig, p2pk_spend_with_signature i fork_id sig).
Proof.
  intros i sig t Hl (b & Hb & [= <-])%bind_Some. split_and!; try done.
  rewrite push_bytes_data in Hb by (rewrite script_sig_length; lia). split; [|done].
  apply (assemble_back [Push _]); [|done]. repeat constructor. cbn. rewrite script_sig_length. lia.
Qed.

Lemma p2pkh_finishes :
  signature_version ≠ WitnessV0 →
  finishes false (λ i sig, p2pkh_spend_with_signature i fork_id sig (kp_public key_pair)).
Proof.
  intros Hv i sig t Hl (b & Hb & [= <-])%bind_Some. pose proof own_public_length. split_and!; try done.
  assert (disassemble b = Some [Push (script_sig_of sig fork_id); Push (public_bytes (kp_public key_pair))]).
  { apply (assemble_back [Push _; Push _]); [|done]. repeat constructor; cbn; rewrite ?script_sig_length; lia. }
  by destruct signature_version.
Qed.

Lemma p2wpkh_finishes :
  signature_version = WitnessV0 →
  finishes false (λ i sig, Some (p2wpkh_spend_with_signature i fork_id sig (kp_public key_pair))).
Proof. intros Hv i sig t Hl [= <-]. unfold carries. by rewrite Hv. Qed.

Lemma sign_input_valid n i t :
  s_inputs unsigned !! n = Some i →
  sign_input unsigned key_pair prev_script signature_version fork_id p2pk_outpoints n i = Some (Ok t) →
  input_signed n i t.
Proof.
  intros Hi. unfold sign_input, input_signed. set (p2pk := bool_decide _). intros Ht.
  assert (∃ finish script, spent_script p2pk (kp_public key_pair) = Some script
      ∧ spend_with unsigned n key_pair signature_version fork_id script finish = Some (Ok t)
      ∧ finishes p2pk finish) as (finish & script & Hs & Ht' & Hc).
  { destruct p2pk.
    - unfold p2pk_spend in Ht. destruct (get_input _ _); [|done]. apply bind_Some in Ht as (script & Hs & Ht).
      exists (λ i sig, p2pk_spend_with_signature i fork_id sig), script. auto using p2pk_finishes.
    - assert (∃ finish, finishes false finish ∧ with_p2pkh_script unsigned n key_pair prev_script
        (λ script, spend_with unsigned n key_pair signature_version fork_id script finish) = Some (Ok t)) as (f & Hf & Ht').
      { destruct (decide (signature_version = WitnessV0)) as [Hv|Hv].
        - eexists. split; [by apply p2wpkh_finishes|]. by destruct signature_version.
        - eexists. split; [by apply p2pkh_finishes|]. by destruct signature_version. }
      apply with_p2pkh_inv in Ht' as (script & Hs & Ht'). by exists f, script. }
  apply spend_with_inv in Ht' as (i' & d & sig & Hi' & Hd & Hv & Hl & Hf). simplify_eq.
  destruct (Hc _ _ _ Hl Hf) as (? & ? & ?). split_and!; try done. by exists script, d, sig.
Qed.

Lemma sign_inputs_valid ins : ∀ n ts,
  (∀ k i, ins !! k = Some i → s_inputs unsigned !! (n + k)%nat = Some i) →
  sign_inputs unsigned key_pair prev_script signature_version fork_id p2pk_outpoints n ins = Some (Ok ts) →
  length ts = length ins
  ∧ ∀ k i, ins !! k = Some i → ∃ t, ts !! k = Some t ∧ input_signed (n + k) i t.
Proof.
  induction ins as [|i ins IH]; intros n ts Hin; cbn [sign_inputs]; [by intros [= <-]|].
  intros (r & Hr & Hrest)%bind_Some. destruct r as [t|]; [|done].
  apply bind_Some in Hrest as (rest & Hrest & Ets). destruct rest as [ts'|]; [|done]. injection Ets as <-.
  apply sign_input_valid in Hr; [|by rewrite <-(Nat.add_0_r n); apply Hin].
  apply IH in Hrest as [Hlen Hall]; last first.
  { intros k j Hk. replace (S n + k)%nat with (n + S k)%nat by lia. by apply Hin. }
  split; [cbn; lia|]. intros [|k] j Hj.
  - injection Hj as <-. exists t. by rewrite Nat.add_0_r.
  - destruct (Hall k j Hj) as (t' & ? & ?). exists t'. by replace (n + S k)%nat with (S n + k)%nat by lia.
Qed.

End signed.

(** All of a transaction but its inputs is that of the signer, without the shielded
    parts. *)
Definition transparent_part (tx : Transaction) (unsigned : TransactionInputSigner) : Prop :=
  version tx = s_version unsigned ∧ n_time tx = s_n_time unsigned ∧ overwintered tx = s_overwintered unsigned
  ∧ version_group_id tx = s_version_group_id unsigned ∧ outputs tx = s_outputs unsigned
  ∧ lock_time tx = s_lock_time unsigned ∧ expiry_height tx = s_expiry_height unsigned
  ∧ zcash tx = s_zcash unsigned ∧ str_d_zeel tx = s_str_d_zeel unsigned
  ∧ tx_hash_algo tx = tx_algo (s_hash_algo unsigned)
  ∧ shielded_spends tx = [] ∧ shielded_outputs tx = [] ∧ join_splits tx = [] ∧ value_balance tx = 0
  ∧ join_split_pubkey tx = zeros 32 ∧ join_split_sig tx = zeros 64 ∧ binding_sig tx = zeros 64.

(** C27: a transaction signed with a key pair has every field of the one that was to be
    signed but the shielded parts, which are left empty; all inputs are signed, in
    their order, and each carries, where the kind of the output it spends asks for
    it, a signature that verifies under the key over the digest of that very input. *)
Theorem signed_tx_valid `{Hashes} `{EcdsaLaws} unsigned key_pair prev_script sv fork_id p2pk_outpoints tx :
  kp_public key_pair = ec_public (kp_private key_pair) →
  sign_tx_with_p2pk unsigned key_pair prev_script sv fork_id p2pk_outpoints = Some (Ok tx) →
  transparent_part tx unsigned
  ∧ length (inputs tx) = length (s_inputs unsigned)
  ∧ ∀ n i, s_inputs unsigned !! n = Some i →
      ∃ t, inputs tx !! n = Some t ∧ input_signed unsigned key_pair sv fork_id p2pk_outpoints n i t.
Proof.
  intros Hk (r & Hr & Htx)%bind_Some. destruct r as [ts|]; [|done]. injection Htx as <-.
  apply (sign_inputs_valid _ _ _ _ _ _ Hk) in Hr as [Hl Ha]; [done|]. done.
Qed.

(** ** A sample *)

Module SignerSample.

(** A scheme whose signature is the key and the digest. *)
#[local] Instance toy_ecdsa : Ecdsa := {|
  ec_public k := Compressed (resize 33 (z2b 2) k);
  ec_sign k d := Ok (resize 33 (z2b 2) k ++ resize 32 (z2b 0) d);
  ec_verify p d sig := Ok (bool_decide (sig = public_bytes p ++ resize 32 (z2b 0) d))
|}.

#[export] Instance toy_laws : EcdsaLaws.
Proof.
  split; cbn.
  - intros k d sig [= <-]. by rewrite bool_decide_eq_true_2.
  - intros k. by rewrite length_resize.
  - intros k d sig [= <-]. rewrite length_app, !length_resize. lia.
Qed.

Definition key : KeyPair := mkKeyPair (replicate 32 (z2b 9)) (ec_public (replicate 32 (z2b 9))).

Definition unsigned : TransactionInputSigner := SignSample.signer 2 false [SignSample.input 0].

Definition script : bytes :=
  default [] (build_p2pkh (AddressHash (@address_hash sample_hashes (kp_public key)))).

Definition tx : Transaction :=
  match @sign_tx_with_p2pk sample_hashes toy_ecdsa unsigned key script Base 0 [] with
  | Some (Ok tx) => tx
  | _ => transaction_of unsigned
  end.

End SignerSample.

Lemma signed_tx_valid_witness :
  let _ := sample_hashes in
  let _ := SignerSample.toy_ecdsa in
  ∃ t, inputs SignerSample.tx !! 0%nat = Some t
    ∧ input_signed SignerSample.unsigned SignerSample.key Base 0 [] 0 (SignSample.input 0) t.
Proof.
  intros ? ?. destruct (@signed_tx_valid sample_hashes SignerSample.toy_ecdsa SignerSample.toy_laws
    SignerSample.unsigned SignerSample.key SignerSample.script Base 0 [] SignerSample.tx) as (_ & _ & Hall).
  - reflexivity.
  - vm_compute. reflexivity.
  - by apply (Hall 0%nat).
Defined.
