(* ===== verification/Htlc.v ===== *)
(** * Htlc: swap payments on UTXO coins
      (mm2src/coins/utxo/utxo_common/utxo_common_swap.rs)

    The scripts the payments of a swap are locked with, the transactions that
    pay to them, claim them and refund them, and how the other side reads
    those.  What the network makes of a script is [ScriptRules]; what the RPC
    servers answer is an argument of the operation that asks. *)

From stdpp Require Import base tactics list numbers strings option sets.
From coqutil Require Import Byte Word.LittleEndianList.
From S2P Require Import Prelude MmNumber DexFee Codec Tx Crypto Script Sign ScriptRules UtxoSigner.

Local Open Scope Z_scope.

(** ** Scripts *)

Section scripts.
Context `{Hashes}.

Definition htlc_hash160_comparator (secret_hash : bytes) : option bytes :=
  match length secret_hash with
  | 20%nat => Some secret_hash
  | 32%nat => Some (ripemd160 secret_hash)
  | _ => None
  end.

Definition payment_script (time_lock : Z) (secret_hash : bytes) (pub_0 pub_1 : Public) : Builder :=
  let secret_hash_hash160 := default (zeros 20) (htlc_hash160_comparator secret_hash) in
  builder_default
    ▷ push_opcode OP_IF
    ▷ push_bytes (le_split 4 time_lock)
    ▷ push_opcode OP_CHECKLOCKTIMEVERIFY
    ▷ push_opcode OP_DROP
    ▷ push_bytes (public_bytes pub_0)
    ▷ push_opcode OP_CHECKSIG
    ▷ push_opcode OP_ELSE
    ▷ push_opcode OP_SIZE
    ▷ push_bytes [z2b 32]
    ▷ push_opcode OP_EQUALVERIFY
    ▷ push_opcode OP_HASH160
    ▷ push_bytes secret_hash_hash160
    ▷ push_opcode OP_EQUALVERIFY
    ▷ push_bytes (public_bytes pub_1)
    ▷ push_opcode OP_CHECKSIG
    ▷ push_opcode OP_ENDIF.

Definition dex_fee_script (uuid : bytes) (time_lock : Z) (watcher_pub sender_pub : Public) : Builder :=
  builder_default
    ▷ push_bytes uuid
    ▷ push_opcode OP_DROP
    ▷ push_opcode OP_IF
    ▷ push_bytes (le_split 4 time_lock)
    ▷ push_opcode OP_CHECKLOCKTIMEVERIFY
    ▷ push_opcode OP_DROP
    ▷ push_bytes (public_bytes sender_pub)
    ▷ push_opcode OP_CHECKSIG
    ▷ push_opcode OP_ELSE
    ▷ push_bytes (public_bytes watcher_pub)
    ▷ push_opcode OP_CHECKSIG
    ▷ push_opcode OP_ENDIF.

(** The output script of a payment: to the hash of its redeem script. *)
Definition p2sh_of (redeem : bytes) : Builder := build_p2sh (AddressHash (dhash160 redeem)).

End scripts.

(** ** What a script lets pass *)

(** The stack has the flag of the first branch and a signature of [pub], and the
    lock time has passed. *)
Definition refund_path (time_lock : Z) (pub : Public) (s : spend) (st : list bytes) : Prop :=
  ∃ flag sig rest, st = flag :: sig :: rest ∧ truthy flag = true
    ∧ cltv_ok s (le_split 4 time_lock) = true ∧ sp_checks s (public_bytes pub) sig = true.

(** The stack has the flag of the second branch, a secret of 32 bytes with the hash
    [h], and a signature of [pub]. *)
Definition claim_path `{Hashes} (h : bytes) (pub : Public) (s : spend) (st : list bytes) : Prop :=
  ∃ flag secret sig rest, st = flag :: secret :: sig :: rest ∧ truthy flag = false
    ∧ length secret = 32%nat ∧ dhash160 secret = h ∧ sp_checks s (public_bytes pub) sig = true.

Definition refund_items (time_lock : Z) (pub : Public) : list item :=
  [Push (le_split 4 time_lock); Op OP_CHECKLOCKTIMEVERIFY; Op OP_DROP; Push (public_bytes pub); Op OP_CHECKSIG].

Definition secret_items (h : bytes) : list item :=
  [Op OP_SIZE; Push [z2b 32]; Op OP_EQUALVERIFY; Op OP_HASH160; Push h; Op OP_EQUALVERIFY].

Definition claim_items (h : bytes) (pub : Public) : list item :=
  secret_items h ++ [Push (public_bytes pub); Op OP_CHECKSIG].

(** A script of two branches. *)
Definition branches (a b : list item) : list item := Op OP_IF :: a ++ Op OP_ELSE :: b ++ [Op OP_ENDIF].

(** ** Lemmas on the parts *)

(** The size of a value that is pushed as the number 32. *)
Lemma size_is_32 n : default [] (num_to_bytes 8 (Z.of_nat n)) = [z2b 32] ↔ n = 32%nat.
Proof.
  split; [|by intros ->]. destruct (decide (Z.of_nat n ≤ 255)) as [Hn|Hn].
  - destruct (num_roundtrip (Z.of_nat n)) as (b & Hb & Hv); [lia|]. rewrite Hb. cbn. intros ->.
    change (num_value [z2b 32]) with 32 in Hv. lia.
  - unfold num_to_bytes. rewrite (proj2 (Z.eqb_neq _ _)), (proj2 (Z.ltb_ge _ _)) by lia.
    destruct (num_digits 8 (Z.of_nat n)) as [out|] eqn:E; [|done]. cbn. intros Eo. exfalso.
    assert (2 ≤ length out)%nat as Hl.
    { revert E. set (f := 6%nat). change 8%nat with (S (S f)). generalize f. intros m. cbn [num_digits].
      rewrite (proj2 (Z.eqb_neq _ _)) by lia.
      assert (Z.shiftr (Z.of_nat n) 8 ≠ 0) as Hs.
      { rewrite Z.shiftr_div_pow2 by lia. intros ?%Z.div_small_iff; lia. }
      rewrite (proj2 (Z.eqb_neq _ _) Hs). intros (o & (o' & _ & ->)%fmap_Some & ->)%fmap_Some. cbn. lia. }
    apply (f_equal length) in Eo. revert Eo. unfold num_sign. cbv zeta.
    repeat case_match; rewrite ?length_app, ?length_take; cbn; lia.
Qed.

Section laws.
Context `{ScriptLaws} `{!HashLengths}.

Lemma small_push s (p : bytes) k st : (length p ≤ 75)%nat → exec s (Push p :: k) st = exec s k (p :: st).
Proof. intros. apply exec_push. unfold MAX_SCRIPT_ELEMENT_SIZE. lia. Qed.

Lemma verdict_true b : truthy (verdict b) = b.
Proof. by destruct b. Qed.

(** The first branch, run on what is left of the stack. *)
Lemma refund_runs time_lock pub s st :
  public_ok pub = true →
  script_true s (refund_items time_lock pub) st
  ↔ ∃ sig rest, st = sig :: rest ∧ cltv_ok s (le_split 4 time_lock) = true
      ∧ sp_checks s (public_bytes pub) sig = true.
Proof.
  intros Hp%public_length. unfold script_true, refund_items.
  rewrite small_push by (rewrite length_le_split; lia). rewrite exec_cltv, exec_drop, small_push, exec_checksig by lia.
  destruct (cltv_ok s _); [|naive_solver]. destruct st as [|sig rest]; [naive_solver|]. rewrite exec_nil.
  split.
  - intros (top & r & [= <- <-] & Ht). rewrite verdict_true in Ht. eauto.
  - intros (sig' & rest' & [= -> ->] & _ & Hs). eexists _, _. split; [done|]. by rewrite verdict_true.
Qed.

(** The check of the secret leaves the stack without it. *)
Lemma secret_runs h s k st :
  length h = 20%nat →
  exec s (secret_items h ++ k) st
  = match st with
    | secret :: st =>
        if bool_decide (length secret = 32%nat) && bool_decide (dhash160 secret = h) then exec s k st else None
    | [] => None
    end.
Proof.
  intros Hh. unfold secret_items. cbn [app]. rewrite exec_size. destruct st as [|secret st]; [done|].
  rewrite small_push by (cbn; lia). rewrite exec_equalverify.
  rewrite (bool_decide_ext ([z2b 32] = _) (length secret = 32%nat))
    by (rewrite <-size_is_32; split; congruence).
  case_bool_decide; [|done]. rewrite exec_hash160, small_push, exec_equalverify by lia. cbn [andb].
  by rewrite (bool_decide_ext (h = _) (dhash160 secret = h)) by (split; congruence).
Qed.

Lemma claim_runs h pub s st :
  length h = 20%nat → public_ok pub = true →
  script_true s (claim_items h pub) st
  ↔ ∃ secret sig rest, st = secret :: sig :: rest ∧ length secret = 32%nat ∧ dhash160 secret = h
      ∧ sp_checks s (public_bytes pub) sig = true.
Proof.
  intros Hh Hp%public_length. unfold script_true, claim_items. rewrite secret_runs by done.
  destruct st as [|secret st]; [naive_solver|]. repeat case_bool_decide; cbn [andb]; [|naive_solver..].
  rewrite small_push, exec_checksig by lia. destruct st as [|sig rest]; [naive_solver|]. rewrite exec_nil. split.
  - intros (top & r & [= <- <-] & Ht). rewrite verdict_true in Ht. naive_solver.
  - intros (? & ? & ? & [= -> -> ->] & _ & _ & Hs). eexists _, _. split; [done|]. by rewrite verdict_true.
Qed.

(** A script of two branches takes the one the flag selects. *)
Lemma branches_run a b s st :
  balanced 0 a = true → balanced 0 b = true →
  script_true s (branches a b) st
  ↔ ∃ flag st', st = flag :: st' ∧ script_true s (if truthy flag then a else b) st'.
Proof.
  intros Ha Hb. unfold branches, script_true at 1. rewrite exec_if by done. destruct st as [|flag st'].
  - split; [by intros (? & ? & [=] & _)|by intros (? & ? & [=] & _)].
  - rewrite app_nil_r. split; [intros Hs; by exists flag, st'|by intros (? & ? & [= -> ->] & Hs)].
Qed.

End laws.

(** ** The payment script *)

Section payment.
Context `{HashLengths}.

Lemma comparator_length secret_hash h : htlc_hash160_comparator secret_hash = Some h → length h = 20%nat.
Proof.
  unfold htlc_hash160_comparator. destruct (length secret_hash) as [|n] eqn:L; [done|].
  do 19 (destruct n as [|n]; [done|]). destruct n as [|n]; [by intros [= <-]|].
  do 11 (destruct n as [|n]; [done|]). destruct n as [|n]; [intros [= <-]; apply length_ripemd160|done].
Qed.

(** The hash of the secret itself, or its SHA-256, stand for the same script. *)
Lemma comparator_secret secret :
  htlc_hash160_comparator (dhash160 secret) = Some (dhash160 secret)
  ∧ htlc_hash160_comparator (sha256 secret) = Some (dhash160 secret).
Proof. unfold htlc_hash160_comparator. by rewrite length_dhash160, length_sha256. Qed.

Definition script_hash (secret_hash : bytes) : bytes := default (zeros 20) (htlc_hash160_comparator secret_hash).

Lemma script_hash_length secret_hash : length (script_hash secret_hash) = 20%nat.
Proof.
  unfold script_hash. destruct (htlc_hash160_comparator secret_hash) eqn:E; [|done]. by eapply comparator_length.
Qed.

Definition payment_items (time_lock : Z) (secret_hash : bytes) (pub_0 pub_1 : Public) : list item :=
  branches (refund_items time_lock pub_0) (claim_items (script_hash secret_hash) pub_1).

Lemma payment_items_ok time_lock secret_hash pub_0 pub_1 :
  public_ok pub_0 = true → public_ok pub_1 = true → Forall item_ok (payment_items time_lock secret_hash pub_0 pub_1).
Proof.
  intros P0%public_length P1%public_length. pose proof (script_hash_length secret_hash).
  repeat constructor; cbn [item_ok]; rewrite ?length_le_split; cbn [length]; lia.
Qed.

(** The builder makes these items. *)
Lemma payment_script_assemble time_lock secret_hash pub_0 pub_1 :
  public_ok pub_0 = true → public_ok pub_1 = true →
  payment_script time_lock secret_hash pub_0 pub_1 = assemble (payment_items time_lock secret_hash pub_0 pub_1).
Proof.
  intros P0%public_length P1%public_length. pose proof (script_hash_length secret_hash) as Hh. unfold script_hash in Hh.
  unfold payment_script. rewrite !push_bytes_data by (rewrite ?length_le_split, ?Hh; cbn [length]; lia). done.
Qed.

Lemma payment_script_reads time_lock secret_hash pub_0 pub_1 :
  public_ok pub_0 = true → public_ok pub_1 = true →
  ∃ script, payment_script time_lock secret_hash pub_0 pub_1 = Some script
    ∧ disassemble script = Some (payment_items time_lock secret_hash pub_0 pub_1).
Proof.
  intros P0 P1. pose proof (payment_items_ok time_lock secret_hash _ _ P0 P1) as Hok.
  destruct (assemble_Some _ Hok) as [script Es]. exists script.
  rewrite payment_script_assemble by done. split; [done|]. by apply assemble_back.
Qed.

End payment.

Lemma payment_items_run `{ScriptLaws} `{!HashLengths} time_lock secret_hash pub_0 pub_1 s st :
  public_ok pub_0 = true → public_ok pub_1 = true →
  script_true s (payment_items time_lock secret_hash pub_0 pub_1) st
  ↔ refund_path time_lock pub_0 s st ∨ claim_path (script_hash secret_hash) pub_1 s st.
Proof.
  intros P0 P1. unfold payment_items. rewrite branches_run by done. pose proof (script_hash_length secret_hash) as Hl.
  unfold refund_path, claim_path. split.
  - intros (flag & st' & -> & Hs). destruct (truthy flag) eqn:Ef.
    + apply refund_runs in Hs as (sig & rest & -> & ? & ?); [|done]. left. by exists flag, sig, rest.
    + apply claim_runs in Hs as (secret & sig & rest & -> & ? & ? & ?); [|done..]. right.
      by exists flag, secret, sig, rest.
  - intros [(flag & sig & rest & -> & Ef & ? & ?)|(flag & secret & sig & rest & -> & Ef & ? & ? & ?)];
      exists flag; eexists; (split; [done|]); rewrite Ef.
    + apply refund_runs; [done|]. by exists sig, rest.
    + apply claim_runs; [done..|]. by exists secret, sig, rest.
Qed.

(** the script of a payment lets exactly two spends pass: the sender's, with the
    sender's signature once the lock time has passed (refund), and the receiver's,
    with the receiver's signature and a secret of 32 bytes that has the hash the
    swap agreed on (claim).  Whatever else is put on the stack fails. *)
Theorem payment_script_paths `{ScriptLaws} `{!HashLengths} time_lock secret_hash h pub_0 pub_1 :
  public_ok pub_0 = true → public_ok pub_1 = true → htlc_hash160_comparator secret_hash = Some h →
  ∃ script items, payment_script time_lock secret_hash pub_0 pub_1 = Some script
    ∧ disassemble script = Some items
    ∧ ∀ s st, script_true s items st ↔ refund_path time_lock pub_0 s st ∨ claim_path h pub_1 s st.
Proof.
  intros P0 P1 Hh. destruct (payment_script_reads time_lock secret_hash _ _ P0 P1) as (script & Es & Ed).
  exists script, (payment_items time_lock secret_hash pub_0 pub_1). split_and!; [done..|]. intros s st.
  rewrite payment_items_run by done. unfold script_hash. by rewrite Hh.
Qed.

(** ** Lock times as the network reads them *)

Lemma le_combine_snoc (x : bytes) y : le_combine (x ++ [y]) = le_combine x + 2 ^ (8 * Z.of_nat (length x)) * b2z y.
Proof.
  rewrite le_combine_app, le_combine_1. fold (b2z y). pose proof (le_combine_bound x) as Hx.
  set (n := Z.of_nat (length x)) in *. assert (0 ≤ n) by lia.
  replace (n * 8) with (8 * n) by lia.
  assert (Z.land (le_combine x) (Z.shiftl (b2z y) (8 * n)) = 0) as Hl.
  { rewrite <-(Z.mod_small (le_combine x) (2 ^ (8 * n))), <-Z.land_ones by lia.
    apply Z.bits_inj'. intros k Hk. rewrite Z.bits_0, !Z.land_spec, Z.testbit_ones, Z.shiftl_spec by lia.
    destruct (Z.ltb_spec k (8 * n)); [|by rewrite andb_false_r, andb_false_r].
    by rewrite (Z.testbit_neg_r _ (k - 8 * n)), andb_false_r by lia. }
  pose proof (Z.add_lor_land (le_combine x) (Z.shiftl (b2z y) (8 * n))) as E. rewrite Hl, Z.add_0_r in E.
  rewrite E, Z.shiftl_mul_pow2 by lia. lia.
Qed.

Lemma lock_time_value t :
  0 ≤ t < 2 ^ 32 → num_value (le_split 4 t) = if t <? 2 ^ 31 then t else 2 ^ 31 - t.
Proof.
  intros Ht. pose proof (le_combine_split_id 4 t Ht) as Ev.
  assert (∃ x y, le_split 4 t = x ++ [y] ∧ length x = 3%nat) as (x & y & E & Hx).
  { by exists (take 3 (le_split 4 t)), (byte.of_Z (Z.shiftr (Z.shiftr (Z.shiftr t 8) 8) 8)). }
  rewrite E in *. rewrite num_value_snoc. rewrite !le_combine_snoc in *. rewrite Hx in *.
  change (2 ^ (8 * Z.of_nat 3)) with 16777216 in *. pose proof (le_combine_bound x) as Hb. rewrite Hx in Hb.
  change (2 ^ (8 * Z.of_nat 3)) with 16777216 in Hb. change (2 ^ 31) with 2147483648 in *.
  pose proof (b2z_range y). rewrite b2z_z2b by (pose proof (Z.mod_pos_bound (b2z y) 128); lia).
  destruct (Z.leb_spec 128 (b2z y)), (Z.ltb_spec t 2147483648); try lia.
  - rewrite <-(Z.mod_add _ (-1) 128), Z.mod_small by lia. lia.
  - rewrite Z.mod_small by lia. lia.
Qed.

Lemma cltv_ok_iff time_lock s :
  LOCKTIME_THRESHOLD ≤ time_lock < 2 ^ 32 → time_lock ≠ 2 ^ 31 →
  cltv_ok s (le_split 4 time_lock) = true
  ↔ time_lock < 2 ^ 31 ∧ time_lock ≤ sp_lock_time s ∧ sp_sequence s ≠ SEQUENCE_FINAL.
Proof.
  intros Ht Hne. unfold cltv_ok. rewrite length_le_split, lock_time_value by (unfold LOCKTIME_THRESHOLD in *; lia).
  unfold LOCKTIME_THRESHOLD in *. change (2 ^ 31) with 2147483648 in *.
  rewrite !andb_true_iff, Bool.eqb_true_iff, negb_true_iff, !Z.leb_le, Z.eqb_neq.
  destruct (Z.ltb_spec time_lock 2147483648) as [Hlt|Hlt]; split.
  - intros [[[[_ _] _] ?] ?]. lia.
  - intros (_ & ? & ?). split_and!; try done; lia.
  - intros [[[[_ ?] _] _] _]. lia.
  - lia.
Qed.

Lemma cltv_reached time_lock s :
  LOCKTIME_THRESHOLD ≤ time_lock < 2 ^ 31 → time_lock ≤ sp_lock_time s → sp_sequence s ≠ SEQUENCE_FINAL →
  cltv_ok s (le_split 4 time_lock) = true.
Proof. intros. apply cltv_ok_iff; [lia|lia|]. split_and!; [lia|done|done]. Qed.

(** a payment locked beyond the year 2038 can never be refunded: a lock time of
    more than 2^31 seconds is pushed as the four bytes of an unsigned number, which
    the network reads as a negative one, so that the refund branch of the payment
    script fails for every transaction and every signature.  Before that time the
    branch passes exactly for the transactions that are not final, whose lock time
    has reached the one of the payment, and that the sender signed. *)
Theorem refund_lock_time `{ScriptLaws} `{!HashLengths} time_lock secret_hash pub_0 pub_1 s flag st :
  public_ok pub_0 = true → public_ok pub_1 = true →
  LOCKTIME_THRESHOLD ≤ time_lock < 2 ^ 32 → time_lock ≠ 2 ^ 31 → truthy flag = true →
  ∃ script items, payment_script time_lock secret_hash pub_0 pub_1 = Some script ∧ disassemble script = Some items
    ∧ (script_true s items (flag :: st)
       ↔ time_lock < 2 ^ 31 ∧ time_lock ≤ sp_lock_time s ∧ sp_sequence s ≠ SEQUENCE_FINAL
         ∧ ∃ sig rest, st = sig :: rest ∧ sp_checks s (public_bytes pub_0) sig = true).
Proof.
  intros P0 P1 Ht Hne Hf. destruct (payment_script_reads time_lock secret_hash _ _ P0 P1) as (script & Es & Ed).
  exists script, (payment_items time_lock secret_hash pub_0 pub_1). split_and!; [done..|].
  rewrite payment_items_run by done. pose proof (cltv_ok_iff time_lock s Ht Hne) as Hc. split.
  - intros [(flag' & sig & rest & [= <- ->] & _ & Hl & Hs)|(flag' & secret & sig & rest & [= <- ->] & Hf' & _)]; [|congruence].
    apply Hc in Hl as (? & ? & ?). split_and!; try done. by exists sig, rest.
  - intros (? & ? & ? & sig & rest & -> & Hs). left. exists flag, sig, rest. split_and!; try done. by apply Hc.
Qed.

(** ** Amounts and fees *)

(** [BigDecimal::to_u64] of [amount * 10^decimals]: the fraction is cut off, a
    negative value and one of more than 64 bits are refused. *)
Definition sat_from_big_decimal (amount : BigDecimal) (decimals : Z) : option Z :=
  let v := int_val amount * u64 (10 ^ decimals) in
  let sat := if 0 <=? scale amount then v / 10 ^ scale amount else v * 10 ^ (- scale amount) in
  if (0 <=? v) && (sat <? 2 ^ 64) then Some sat else None.

Definition U64_MAX : Z := 2 ^ 64 - 1.
Definition KILO_BYTE : Z := 1000.

Inductive ActualTxFee : Type :=
| Dynamic (rate : Z)
| FixedPerKb (rate : Z)
| FixedPerStartedKb (rate : Z).

(** [size.div_ceil(KILO_BYTE)]. *)
Definition started_kilobytes (size : Z) : Z := (size + (KILO_BYTE - 1)) / KILO_BYTE.

Definition fee_for_size (f : ActualTxFee) (size : Z) : Z :=
  match f with
  | Dynamic rate | FixedPerKb rate => Z.min (rate * size / KILO_BYTE) U64_MAX
  | FixedPerStartedKb rate => Z.min (rate * started_kilobytes size) U64_MAX
  end.

Definition DEFAULT_SWAP_TX_SPEND_SIZE : Z := 496.
Definition DEFAULT_SWAP_VOUT : nat := 0.

(** [force_min_relay_fee]: the rate of the node's minimum, when the coin forces it. *)
Definition get_htlc_spend_fee (coin_fee : ActualTxFee) (relay_rate : option Z) (tx_size : Z) : Z :=
  let fee := fee_for_size coin_fee tx_size in
  match relay_rate with
  | Some rate =>
      let relay_component := fee_for_size (Dynamic rate) tx_size in
      if fee <? relay_component then relay_component else fee
  | None => fee
  end.

Definition htlc_spend_output_value (htlc_value fee : Z) : option Z :=
  if htlc_value <=? fee then None else Some (htlc_value - fee).

(** ** Coins *)

Record UtxoConf : Type := {
  cf_ticker : string;
  cf_decimals : Z;
  cf_is_pos : bool;
  cf_tx_version : Z;
  cf_overwintered : bool;
  cf_version_group_id : Z;
  cf_consensus_branch_id : Z;
  cf_zcash : bool;
  cf_signature_version : SignatureVersion;
  cf_fork_id : Z;
  cf_sighash_suffix : Z;
  cf_tx_hash_algo : TxHashAlgo;
  cf_segwit : bool;
  cf_enable_spv_proof : bool;
  cf_dust_amount : Z
}.

(** What an operation fails with.  The text of a message is not kept. *)
Inductive HtlcError : Type :=
| BadPublic (e : KeysError)
| BadAmount
| BadTransaction (e : fault)
| BadSecretHash
| NoSecret
| NotTheHtlc
| UnknownSpend
| RpcError
| RpcMismatch
| OutputMismatch
| SpvError
| WrongSender
| ConfirmedEarly
| FeeNotBelowValue
| SigningError (e : UtxoSignWithKeyPairError)
| NotBroadcast
| BadScriptSig.

(** [None] is a panic. *)
Notation outcome A := (option (result A HtlcError)).

(** [deserialize] of a transaction, with the hash function of the coin put in. *)
Definition with_algo (a : TxHashAlgo) (t : Transaction) : Transaction :=
  mkTransaction (version t) (n_time t) (overwintered t) (version_group_id t) (inputs t) (outputs t) (lock_time t)
    (expiry_height t) (shielded_spends t) (shielded_outputs t) (join_splits t) (value_balance t)
    (join_split_pubkey t) (join_split_sig t) (binding_sig t) (zcash t) (str_d_zeel t) a.

Definition read_tx (coin : UtxoConf) (tx : bytes) : result Transaction HtlcError :=
  let? t := map_err BadTransaction (deserialize_transaction tx) in
  Ok (with_algo (cf_tx_hash_algo coin) t).

Definition tx_hash `{Hashes} (t : Transaction) : bytes :=
  match tx_hash_algo t with DSHA256 => dhash256 (serialize t) | SHA256 => sha256 (serialize t) end.

(** ** Payments *)

Section payments.
Context `{Hashes}.

Definition is_arrr (coin : UtxoConf) : bool := bool_decide (cf_ticker coin = "ARRR").

Definition generate_swap_payment_outputs (coin : UtxoConf) (time_lock : Z) (my_pub other_pub secret_hash : bytes)
    (amount : BigDecimal) : outcome (list TransactionOutput) :=
  match public_from_slice my_pub, public_from_slice other_pub with
  | Err e, _ | _, Err e => Some (Err (BadPublic e))
  | Ok my_public, Ok other_public =>
      redeem_script ← payment_script time_lock secret_hash my_public other_public;
      match sat_from_big_decimal amount (cf_decimals coin) with
      | None => Some (Err BadAmount)
      | Some sat =>
          htlc_script ← p2sh_of redeem_script;
          op_return_script ←
            (if is_arrr coin then builder_default ▷ push_opcode OP_RETURN ▷ push_data redeem_script
             else builder_default ▷ push_opcode OP_RETURN ▷ push_bytes secret_hash);
          Some (Ok [mkTransactionOutput sat htlc_script; mkTransactionOutput 0 op_return_script])
      end
  end.

(** The answer of the server to one attempt, and what becomes of the payment. *)
Definition check_payment (coin : UtxoConf) (tx : Transaction) (output_index : nat) (expected : TransactionOutput)
    (confirmations : Z) (spv : bool) (answer : bytes) : result () HtlcError :=
  if negb (bool_decide (serialize tx = answer))
     && negb (bool_decide (serialize_with_flags tx SERIALIZE_TRANSACTION_WITNESS = answer))
  then Err RpcMismatch
  else if negb (bool_decide (outputs tx !! output_index = Some expected)) then Err OutputMismatch
  else if negb (cf_enable_spv_proof coin) then Ok ()
  else if confirmations =? 0 then Ok ()
  else if spv then Ok () else Err SpvError.

(** The attempts to get the transaction: three errors are forgiven. *)
Fixpoint fetch (attempts : nat) (answers : list (option bytes)) : option (result bytes HtlcError) :=
  match answers with
  | [] => None
  | Some answer :: _ => Some (Ok answer)
  | None :: answers => match attempts with O => Some (Err RpcError) | S n => fetch n answers end
  end.

(** [validate_payment]; [answers] are what the server says to each attempt and [spv]
    whether the proof of inclusion is accepted. *)
Definition validate_payment (coin : UtxoConf) (tx : Transaction) (output_index : nat) (first_pub second_pub : Public)
    (secret_hash : bytes) (amount : BigDecimal) (time_lock confirmations : Z) (spv : bool)
    (answers : list (option bytes)) : outcome () :=
  match sat_from_big_decimal amount (cf_decimals coin) with
  | None => Some (Err BadAmount)
  | Some sat =>
      expected_redeem ← payment_script time_lock secret_hash first_pub second_pub;
      answer ← fetch 3 answers;
      script ← p2sh_of expected_redeem;
      Some (let? answer := answer in
            check_payment coin tx output_index (mkTransactionOutput sat script) confirmations spv answer)
  end.

(** [validate_maker_payment] and [validate_taker_payment]: the sender's key comes
    first. *)
Definition validate_swap_payment (coin : UtxoConf) (payment_tx : bytes) (sender_pub my_pub secret_hash : bytes)
    (amount : BigDecimal) (time_lock confirmations : Z) (spv : bool) (answers : list (option bytes)) : outcome () :=
  match public_from_slice my_pub with
  | Err e => Some (Err (BadPublic e))
  | Ok my_public =>
      match read_tx coin payment_tx with
      | Err e => Some (Err e)
      | Ok tx =>
          match public_from_slice sender_pub with
          | Err e => Some (Err (BadPublic e))
          | Ok sender_public =>
              validate_payment coin tx DEFAULT_SWAP_VOUT sender_public my_public secret_hash amount time_lock
                confirmations spv answers
          end
      end
  end.

(** ** Reading a spend *)

(** One input script of [extract_secret_from_script_sigs]. *)
Definition secret_of (secret_hash script : bytes) : option bytes :=
  match get_instruction script 1 with
  | Some (Ok i) =>
      if bool_decide (i_opcode i = OP_PUSHBYTES_32) then
        secret ← i_data i;
        expected ← htlc_hash160_comparator secret_hash;
        if bool_decide (dhash160 secret = expected) then Some secret else None
      else None
  | _ => None
  end.

Fixpoint extract_secret_from_script_sigs (secret_hash : bytes) (script_sigs : list bytes) : result bytes HtlcError :=
  match script_sigs with
  | [] => Err NoSecret
  | script :: rest =>
      match secret_of secret_hash script with
      | Some secret => Ok secret
      | None => extract_secret_from_script_sigs secret_hash rest
      end
  end.

Definition extract_secret (secret_hash spend_tx : bytes) : result bytes HtlcError :=
  let? t := map_err BadTransaction (deserialize_transaction spend_tx) in
  extract_secret_from_script_sigs secret_hash (map script_sig (inputs t)).

Inductive SwapSpendKind : Type := Spent | Refunded.

Definition opcode_is (script : bytes) (n : nat) (op : Opcode) : bool :=
  match get_instruction script n with
  | Some (Ok i) => bool_decide (i_opcode i = op)
  | _ => false
  end.

Definition classify_swap_spend (script : bytes) : option SwapSpendKind :=
  if opcode_is script 2 OP_0 then Some Spent
  else if opcode_is script 1 OP_1 then Some Refunded
  else None.

(** [ensure_payment_pays_htlc]. *)
Definition ensure_payment_pays_htlc (time_lock : Z) (first_pub second_pub : Public) (secret_hash : bytes)
    (output0_script_pubkey : bytes) : outcome () :=
  script ← payment_script time_lock secret_hash first_pub second_pub;
  expected ← p2sh_of script;
  Some (if bool_decide (output0_script_pubkey = expected) then Ok () else Err NotTheHtlc).

(** [search_for_swap_output_spend], given what [find_output_spend] answers. *)
Definition search_for_swap_output_spend (coin : UtxoConf) (time_lock : Z) (first_pub second_pub : Public)
    (secret_hash tx : bytes) (output_index : nat) (find_output_spend : option (option Transaction)) :
    outcome (option (SwapSpendKind * Transaction)) :=
  match read_tx coin tx with
  | Err e => Some (Err e)
  | Ok tx =>
      output0 ← outputs tx !! 0%nat;
      _ ← outputs tx !! output_index;
      ensured ← ensure_payment_pays_htlc time_lock first_pub second_pub secret_hash (script_pubkey output0);
      match ensured, find_output_spend with
      | Err e, _ => Some (Err e)
      | Ok _, None => Some (Err RpcError)
      | Ok _, Some None => Some (Ok None)
      | Ok _, Some (Some spending_tx) =>
          let spending_tx := with_algo (cf_tx_hash_algo coin) spending_tx in
          input0 ← inputs spending_tx !! 0%nat;
          Some (match classify_swap_spend (script_sig input0) with
                | Some kind => Ok (Some (kind, spending_tx))
                | None => Err UnknownSpend
                end)
      end
  end.

End payments.

(** ** Spending a payment *)

(** What the environment says during a spend: the clock in seconds, the median time
    of the chain ([None]: the server failed), the fee of the coin ([None] alike),
    and whether the transaction was broadcast. *)
Record SpendEnv : Type := mkSpendEnv {
  se_now : Z;
  se_mtp : option Z;
  se_fee : option Z;
  se_broadcast : bool
}.

Definition p2sh_tx_locktime (coin : UtxoConf) (htlc_locktime now : Z) (mtp : option Z) : option Z :=
  let lock_time :=
    if bool_decide (cf_ticker coin = "KMD") then Some (u32 (u32 now - 3600 + 2 * 777))
    else mtp ← mtp; Some (u32 (mtp - 1)) in
  lock_time ← lock_time;
  Some (Z.max lock_time htlc_locktime).

Section spending.
Context `{Hashes} `{Ecdsa} (coin : UtxoConf).

Definition p2sh_unsigned (prev_hash : bytes) (amount : Z) (outs : list TransactionOutput)
    (sequence lock_time now : Z) : TransactionInputSigner :=
  mkSigner (cf_tx_version coin) (if cf_is_pos coin then Some (u32 now) else None) (cf_overwintered coin)
    (cf_version_group_id coin) (cf_consensus_branch_id coin) 0 0
    [mkUnsignedTransactionInput (mkOutPoint prev_hash (Z.of_nat DEFAULT_SWAP_VOUT)) sequence amount []]
    outs lock_time [] [] [] (cf_zcash coin)
    (if bool_decide (cf_ticker coin = "NAV") then Some [] else None)
    (signer_algo (cf_tx_hash_algo coin)) (cf_sighash_suffix coin).

Definition p2sh_spending_tx (prev : Transaction) (redeem_script : bytes) (outs : list TransactionOutput)
    (script_data : bytes) (sequence lock_time : Z) (keypair : KeyPair) (env : SpendEnv) : outcome Transaction :=
  match p2sh_tx_locktime coin lock_time (se_now env) (se_mtp env) with
  | None => Some (Err RpcError)
  | Some lock_time =>
      output0 ← outputs prev !! 0%nat;
      let unsigned := p2sh_unsigned (tx_hash prev) (value output0) outs sequence lock_time (se_now env) in
      signed ← p2sh_spend unsigned DEFAULT_SWAP_VOUT keypair (cf_signature_version coin) (cf_fork_id coin)
                 script_data redeem_script;
      Some (match signed with
            | Err e => Err (SigningError e)
            | Ok signed_input => Ok (complete_tx unsigned [signed_input])
            end)
  end.

(** The steps the four spends share, once the transaction to spend and the redeem
    script are known. *)
Definition spend_output (prev : Transaction) (redeem_script script_data : bytes) (sequence time_lock : Z)
    (key_pair : KeyPair) (env : SpendEnv) : outcome Transaction :=
  match se_fee env with
  | None => Some (Err RpcError)
  | Some fee =>
      script_pubkey ← output_script (cf_segwit coin) P2PKH (AddressHash (address_hash (kp_public key_pair)));
      output0 ← outputs prev !! 0%nat;
      match htlc_spend_output_value (value output0) fee with
      | None => Some (Err FeeNotBelowValue)
      | Some v =>
          tx ← p2sh_spending_tx prev redeem_script [mkTransactionOutput v script_pubkey] script_data sequence
                 time_lock key_pair env;
          Some (let? tx := tx in if se_broadcast env then Ok tx else Err NotBroadcast)
      end
  end.

(** [send_maker_spends_taker_payment] and [send_taker_spends_maker_payment]: the
    payment of the holder of [other_pub] is claimed with the secret. *)
Definition spends_payment (payment_tx : bytes) (time_lock : Z) (other_pub secret : bytes) (key_pair : KeyPair)
    (env : SpendEnv) : outcome Transaction :=
  match read_tx coin payment_tx with
  | Err e => Some (Err e)
  | Ok prev =>
      script_data ← builder_default ▷ push_data secret ▷ push_opcode OP_0;
      match public_from_slice other_pub with
      | Err e => Some (Err (BadPublic e))
      | Ok other_public =>
          redeem_script ← payment_script time_lock (dhash160 secret) other_public (kp_public key_pair);
          spend_output prev redeem_script script_data SEQUENCE_FINAL time_lock key_pair env
      end
  end.

(** [send_taker_refunds_payment] and [send_maker_refunds_payment]: the own payment
    to the holder of [other_pub] is taken back. *)
Definition refunds_payment (payment_tx : bytes) (time_lock : Z) (other_pub secret_hash : bytes) (key_pair : KeyPair)
    (env : SpendEnv) : outcome Transaction :=
  match read_tx coin payment_tx with
  | Err e => Some (Err e)
  | Ok prev =>
      script_data ← builder_default ▷ push_opcode OP_1;
      match public_from_slice other_pub with
      | Err e => Some (Err (BadPublic e))
      | Ok other_public =>
          redeem_script ← payment_script time_lock secret_hash (kp_public key_pair) other_public;
          spend_output prev redeem_script script_data (SEQUENCE_FINAL - 1) time_lock key_pair env
      end
  end.

End spending.

(** ** When a refund is due *)

Definition MAX_REFUND_WAIT_SECS : Z := 3600.

Inductive CanRefundHtlc : Type := CanRefundNow | HaveToWait (secs : Z).

Definition capped_refund_wait (remaining_secs : Z) : CanRefundHtlc :=
  HaveToWait (Z.min remaining_secs MAX_REFUND_WAIT_SECS).

(** The differences are of numbers in order and do not wrap; the sums with one do. *)
Definition refund_eligibility (now locktime : Z) (p2sh_locktime_and_mtp : option (Z * Z)) : CanRefundHtlc :=
  if now <? locktime then capped_refund_wait (u64 (locktime - now + 1))
  else match p2sh_locktime_and_mtp with
  | Some (p2sh_locktime, mtp) =>
      if mtp <=? p2sh_locktime then capped_refund_wait (u32 (p2sh_locktime - mtp + 1)) else CanRefundNow
  | None => CanRefundNow
  end.

(** [mtp] is the answer to the first question, [mtp'] the one the lock time is made
    of. *)
Definition can_refund_htlc (coin : UtxoConf) (locktime now : Z) (mtp mtp' : option Z) (now' : Z) :
    result CanRefundHtlc HtlcError :=
  if now <? locktime then Ok (refund_eligibility now locktime None)
  else match mtp with
  | None => Err RpcError
  | Some mtp =>
      match p2sh_tx_locktime coin (u32 locktime) now' mtp' with
      | None => Err RpcError
      | Some p2sh_locktime => Ok (refund_eligibility now locktime (Some (p2sh_locktime, mtp)))
      end
  end.

(** ** The scripts of inputs *)

Definition item_size (i : item) : nat := match i with Op _ => 1 | Push p => 5 + length p end.

Lemma item_bytes_length i b : item_bytes i = Some b → (length b ≤ item_size i)%nat.
Proof.
  destruct i as [op|p]; cbn; [by intros [= <-]|]. unfold push_prefix.
  repeat case_match; intros [= <-]; cbn; rewrite ?length_app, ?length_le_split; cbn; lia.
Qed.

Lemma assemble_length items data : assemble items = Some data → (length data ≤ sum_list_with item_size items)%nat.
Proof.
  rewrite assemble_concat. intros (bs & Hbs & ->)%fmap_Some. revert bs Hbs.
  induction items as [|i items IH]; intros bs; cbn [mapM]; [by intros [= <-]|].
  intros (b & Hb & (bs' & Hbs & [= <-])%bind_Some)%bind_Some. cbn [concat sum_list_with].
  rewrite length_app. apply item_bytes_length in Hb. specialize (IH _ Hbs). lia.
Qed.

Lemma payment_script_length `{HashLengths} time_lock secret_hash pub_0 pub_1 script :
  public_ok pub_0 = true → public_ok pub_1 = true →
  payment_script time_lock secret_hash pub_0 pub_1 = Some script → (length script ≤ MAX_SCRIPT_ELEMENT_SIZE)%nat.
Proof.
  intros P0 P1. rewrite payment_script_assemble by done. intros E%assemble_length.
  apply public_length in P0, P1. pose proof (script_hash_length secret_hash).
  unfold payment_items, branches, refund_items, claim_items, secret_items in E. cbn [app sum_list_with item_size] in E.
  rewrite length_le_split in E. cbn [length] in E. unfold MAX_SCRIPT_ELEMENT_SIZE. lia.
Qed.

Section input.
Context `{Hashes} `{EcdsaLaws} (key_pair : KeyPair).
Hypothesis key_pair_ok : kp_public key_pair = ec_public (kp_private key_pair).

(** A signed input that spends by way of a redeem script pushes the signature, the
    data of the branch and the script. *)
Lemma p2sh_spend_inv unsigned n sv fork_id data_items script_data redeem t :
  Forall item_ok data_items → assemble data_items = Some script_data → Z.of_nat (length redeem) < 2 ^ 32 →
  p2sh_spend unsigned n key_pair sv fork_id script_data redeem = Some (Ok t) →
  ∃ i digest sig, s_inputs unsigned !! n = Some i
    ∧ signature_hash unsigned n (u_amount i) redeem sv (sighash_type fork_id) = Some digest
    ∧ ec_verify (kp_public key_pair) digest sig = Ok true ∧ (8 ≤ length sig ≤ 72)%nat
    ∧ previous_output t = u_previous_output i ∧ sequence t = u_sequence i ∧ script_witness t = []
    ∧ Forall item_ok (Push (script_sig_of sig fork_id) :: data_items ++ [Push redeem])
    ∧ assemble (Push (script_sig_of sig fork_id) :: data_items ++ [Push redeem]) = Some (script_sig t).
Proof.
  intros Hok Hdata Hr Ht.
  apply (spend_with_inv _ _ _ _ key_pair_ok) in Ht as (i & d & sig & Hi & Hd & Hv & Hl & Hf).
  apply bind_Some in Hf as (a & Ha & (b & Hb & [= <-])%bind_Some). exists i, d, sig. split_and!; try done; try lia.
  - pose proof (script_sig_length fork_id sig) as Hs. constructor; [cbn; lia|]. apply Forall_app.
    split; [done|]. by repeat constructor.
  - apply (assemble_app [Push _]); [done|]. by apply (assemble_app _ [Push _]).
Qed.

End input.

(** The stack such an input leaves. *)
Lemma input_stack_items script_sig items st :
  disassemble script_sig = Some items → mapM pushed items = Some st → input_stack script_sig = Some (reverse st).
Proof. unfold input_stack. intros -> Hst. cbn. by rewrite Hst. Qed.

Lemma pushed_small p : (length p ≤ MAX_SCRIPT_ELEMENT_SIZE)%nat → pushed (Push p) = Some p.
Proof. intros. cbn -[MAX_SCRIPT_ELEMENT_SIZE]. by rewrite (proj2 (Nat.leb_le _ _)). Qed.

(** What a spend of output 0 of [prev] by way of [redeem] is: one input that spends
    it with a valid signature of the key, [data] and the script, one output that
    pays its value less the fee the environment gave to the key, and a lock time that
    has reached [time_lock]. *)
Definition spends_output `{Hashes} `{Ecdsa} (coin : UtxoConf) (env : SpendEnv) (prev : Transaction) (redeem : bytes)
    (data : list item) (sequence' time_lock : Z) (key_pair : KeyPair) (tx : Transaction) (sig : bytes) : Prop :=
  ∃ t unsigned amount digest script fee,
    inputs tx = [t] ∧ previous_output t = mkOutPoint (tx_hash prev) 0 ∧ sequence t = sequence'
    ∧ time_lock ≤ lock_time tx
    ∧ (time_lock < 2 ^ 32 → lock_time tx < 2 ^ 32)
    ∧ assemble (Push (script_sig_of sig (cf_fork_id coin)) :: data ++ [Push redeem]) = Some (script_sig t)
    ∧ signature_hash unsigned 0 amount redeem (cf_signature_version coin) (sighash_type (cf_fork_id coin)) = Some digest
    ∧ (tx = complete_tx unsigned [t]
       ∧ ∃ now, unsigned = p2sh_unsigned coin (tx_hash prev) amount (outputs tx) sequence' (lock_time tx) now)
    ∧ ec_verify (kp_public key_pair) digest sig = Ok true ∧ (length sig ≤ 72)%nat ∧ script_witness t = []
    ∧ (value <$> outputs prev !! 0%nat) = Some amount ∧ se_fee env = Some fee ∧ 0 < amount - fee ≤ amount
    ∧ outputs tx = [mkTransactionOutput (amount - fee) script]
    ∧ output_script (cf_segwit coin) P2PKH (AddressHash (address_hash (kp_public key_pair))) = Some script.

Section spends.
Context `{Hashes} `{EcdsaLaws} (coin : UtxoConf) (key_pair : KeyPair).
Hypothesis key_pair_ok : kp_public key_pair = ec_public (kp_private key_pair).

Lemma p2sh_tx_locktime_reaches t now mtp l :
  p2sh_tx_locktime coin t now mtp = Some l → t ≤ l ∧ (t < 2 ^ 32 → l < 2 ^ 32).
Proof.
  unfold p2sh_tx_locktime. intros (x & Hx & [= <-])%bind_Some. split; [lia|]. intros Ht.
  assert (x < 2 ^ 32) as Hx'; [|lia]. revert Hx. case_bool_decide.
  - intros [= <-]. pose proof (uwrap_range 32 (u32 now - 3600 + 2 * 777) ltac:(lia)). unfold is_u in *. lia.
  - intros (y & _ & [= <-])%bind_Some. pose proof (uwrap_range 32 (y - 1) ltac:(lia)). unfold is_u in *. lia.
Qed.

Lemma spend_output_inv prev redeem data script_data seq time_lock env tx :
  Forall item_ok data → assemble data = Some script_data → Z.of_nat (length redeem) < 2 ^ 32 →
  (∀ fee, se_fee env = Some fee → 0 ≤ fee) →
  spend_output coin prev redeem script_data seq time_lock key_pair env = Some (Ok tx) →
  ∃ sig, spends_output coin env prev redeem data seq time_lock key_pair tx sig.
Proof.
  intros Hok Hdata Hr Hfee. unfold spend_output. destruct (se_fee env) as [fee|] eqn:Efee; [|done].
  specialize (Hfee _ eq_refl). intros (script & Hs & (o & Ho & E)%bind_Some)%bind_Some.
  unfold htlc_spend_output_value in E. destruct (Z.leb_spec (value o) fee) as [|Hlt]; [done|].
  apply bind_Some in E as (r & Hp & Etx). destruct r as [tx'|]; [|done]. cbn in Etx.
  destruct (se_broadcast env); [|done]. injection Etx as ->.
  unfold p2sh_spending_tx in Hp. destruct (p2sh_tx_locktime _ _ _ _) as [l|] eqn:El; [|done].
  apply p2sh_tx_locktime_reaches in El as [El El']. rewrite Ho in Hp. cbn [mbind option_bind] in Hp.
  apply bind_Some in Hp as (signed & Hsig & Etx). destruct signed as [t|]; [|done]. injection Etx as <-.
  eapply (p2sh_spend_inv _ key_pair_ok) in Hsig as (i & d & sig & Hi & Hd & Hv & Hl & Hprev & Hseq & Hwit & _ & Hdis); [|done..].
  injection Hi as <-. cbn [u_previous_output u_sequence u_amount] in *.
  exists sig, t. eexists _, (value o), d, script, fee. split_and!; try done; try lia.
  - by eexists.
  - by rewrite Ho.
Qed.

End spends.

(** The scripts of the two spends of a payment. *)
Section readings.
Context `{HashLengths} `{!Interpreter} `{!ScriptLaws} `{EcdsaLaws} (coin : UtxoConf).
Context (time_lock : Z) (secret_hash : bytes) (pub_0 pub_1 : Public) (redeem : bytes).
Hypothesis (ok_0 : public_ok pub_0 = true) (ok_1 : public_ok pub_1 = true).
Hypothesis redeem_is : payment_script time_lock secret_hash pub_0 pub_1 = Some redeem.

Lemma redeem_reads : disassemble redeem = Some (payment_items time_lock secret_hash pub_0 pub_1).
Proof.
  destruct (payment_script_reads time_lock secret_hash _ _ ok_0 ok_1) as (r & Er & Ed). by simplify_eq.
Qed.

Lemma redeem_small : (length redeem ≤ MAX_SCRIPT_ELEMENT_SIZE)%nat.
Proof. exact (payment_script_length _ _ _ _ _ ok_0 ok_1 redeem_is). Qed.

Lemma claim_script sig secret script_sig :
  length secret = 32%nat → dhash160 secret = script_hash secret_hash → (length sig ≤ 73)%nat →
  assemble [Push sig; Push secret; Push []; Push redeem] = Some script_sig →
  (∀ s, sp_checks s (public_bytes pub_1) sig = true → p2sh_spends s script_sig redeem (dhash160 redeem))
  ∧ classify_swap_spend script_sig = Some Spent
  ∧ secret_of secret_hash script_sig = (h ← htlc_hash160_comparator secret_hash; Some secret).
Proof.
  intros Hl Hh Hs Ha. pose proof redeem_small as Hr. unfold MAX_SCRIPT_ELEMENT_SIZE in Hr.
  assert (Forall item_ok [Push sig; Push secret; Push []; Push redeem]) as Hok
    by (repeat constructor; cbn [item_ok length]; lia).
  destruct (assemble_instruction _ _ 1 (Push secret) Hok Ha eq_refl) as (i1 & E1 & [R1 O1]).
  destruct (assemble_instruction _ _ 2 (Push []) Hok Ha eq_refl) as (i2 & E2 & [R2 O2]).
  rewrite Hl in O1. cbn [length Nat.leb] in O1, O2.
  apply (inj opcode_u8 _ OP_PUSHBYTES_32) in O1. apply (inj opcode_u8 _ OP_0) in O2. split_and!.
  - intros s Hc. exists [[]; secret; sig], (payment_items time_lock secret_hash pub_0 pub_1). split_and!; [|done|apply redeem_reads|].
    + rewrite (input_stack_items _ _ [sig; secret; []; redeem] (assemble_back _ _ Hok Ha)); [done|].
      cbn [mapM]. rewrite !pushed_small by (unfold MAX_SCRIPT_ELEMENT_SIZE; cbn [length]; lia). done.
    + apply payment_items_run; [done..|]. right. by exists [], secret, sig, [].
  - unfold classify_swap_spend, opcode_is. rewrite E2, O2. by rewrite bool_decide_eq_true_2.
  - unfold secret_of. rewrite E1, O1, bool_decide_eq_true_2 by done. unfold item_of in R1.
    destruct (i_data i1); [|done]. injection R1 as ->. cbn [mbind option_bind].
    unfold script_hash in Hh. destruct (htlc_hash160_comparator secret_hash) as [h|]; [|done]. cbn in Hh |- *.
    by rewrite bool_decide_eq_true_2.
Qed.

Lemma refund_script sig script_sig :
  (length sig ≤ 73)%nat → assemble [Push sig; Op OP_1; Push redeem] = Some script_sig →
  (∀ s, sp_checks s (public_bytes pub_0) sig = true → cltv_ok s (le_split 4 time_lock) = true →
     p2sh_spends s script_sig redeem (dhash160 redeem))
  ∧ classify_swap_spend script_sig = Some Refunded
  ∧ ∀ h, secret_of h script_sig = None.
Proof.
  intros Hs Ha. pose proof redeem_small as Hr. unfold MAX_SCRIPT_ELEMENT_SIZE in Hr.
  assert (Forall item_ok [Push sig; Op OP_1; Push redeem]) as Hok
    by (repeat constructor; cbn [item_ok length]; lia).
  destruct (assemble_instruction _ _ 1 (Op OP_1) Hok Ha eq_refl) as (i1 & E1 & [R1 O1]).
  destruct (assemble_instruction _ _ 2 (Push redeem) Hok Ha eq_refl) as (i2 & E2 & [_ O2]).
  split_and!.
  - intros s Hc Ht. exists [[z2b 1]; sig], (payment_items time_lock secret_hash pub_0 pub_1). split_and!; [|done|apply redeem_reads|].
    + rewrite (input_stack_items _ _ [sig; [z2b 1]; redeem] (assemble_back _ _ Hok Ha)); [done|].
      cbn [mapM]. rewrite !pushed_small by (unfold MAX_SCRIPT_ELEMENT_SIZE; cbn [length]; lia). done.
    + apply payment_items_run; [done..|]. left. by exists [z2b 1], sig, [].
  - unfold classify_swap_spend, opcode_is. rewrite E1, E2, O1. rewrite bool_decide_eq_false_2; [done|].
    intros E. rewrite E in O2. destruct (length redeem <=? 75)%nat; [|done]. cbn in O2.
    pose proof redeem_reads as Hd. by destruct redeem; cbn in O2.
  - intros h. unfold secret_of. by rewrite E1, O1.
Qed.

End readings.

(** The claim and the refund, once the payment and the keys are read. *)
Section claims.
Context `{HashLengths} `{!Interpreter} `{!ScriptLaws} `{EcdsaLaws} (coin : UtxoConf) (key_pair : KeyPair).
Hypothesis key_pair_ok : kp_public key_pair = ec_public (kp_private key_pair).

Lemma own_key_ok : public_ok (kp_public key_pair) = true.
Proof. rewrite key_pair_ok. apply ec_public_ok. Qed.

Lemma script_hash_secret secret : script_hash (dhash160 secret) = dhash160 secret ∧ script_hash (sha256 secret) = dhash160 secret.
Proof. destruct (comparator_secret secret) as [E1 E2]. unfold script_hash. by rewrite E1, E2. Qed.

(** Both forms of the secret hash make the same script. *)
Lemma payment_script_forms time_lock secret pub_0 pub_1 :
  payment_script time_lock (sha256 secret) pub_0 pub_1 = payment_script time_lock (dhash160 secret) pub_0 pub_1.
Proof. destruct (script_hash_secret secret) as [E1 E2]. unfold script_hash in *. unfold payment_script. by rewrite E1, E2. Qed.

Lemma spends_payment_inv payment_tx time_lock other_pub secret env tx :
  (∀ fee, se_fee env = Some fee → 0 ≤ fee) → length secret = 32%nat →
  spends_payment coin payment_tx time_lock other_pub secret key_pair env = Some (Ok tx) →
  ∃ prev other redeem sig,
    read_tx coin payment_tx = Ok prev ∧ public_from_slice other_pub = Ok other ∧ public_ok other = true
    ∧ payment_script time_lock (dhash160 secret) other (kp_public key_pair) = Some redeem
    ∧ spends_output coin env prev redeem [Push secret; Push []] SEQUENCE_FINAL time_lock key_pair tx sig.
Proof.
  intros Hfee Hsec. unfold spends_payment. destruct (read_tx coin payment_tx) as [prev|]; [|done].
  intros (data & Hd & E)%bind_Some. destruct (public_from_slice other_pub) as [other|] eqn:Eo; [|done].
  apply public_from_slice_Ok in Eo as Ho. destruct Ho as [_ Ho]. apply bind_Some in E as (redeem & Er & E).
  pose proof (payment_script_length _ _ _ _ _ Ho own_key_ok Er) as Hrl. unfold MAX_SCRIPT_ELEMENT_SIZE in Hrl.
  eapply (spend_output_inv coin _ key_pair_ok _ _ [Push secret; Push []]) in E as (sig & Hs); [|..|done]; try done.
  - exists prev, other, redeem, sig. done.
  - repeat constructor; cbn [item_ok length]; lia.
  - lia.
Qed.

Lemma refunds_payment_inv payment_tx time_lock other_pub secret_hash env tx :
  (∀ fee, se_fee env = Some fee → 0 ≤ fee) →
  refunds_payment coin payment_tx time_lock other_pub secret_hash key_pair env = Some (Ok tx) →
  ∃ prev other redeem sig,
    read_tx coin payment_tx = Ok prev ∧ public_from_slice other_pub = Ok other ∧ public_ok other = true
    ∧ payment_script time_lock secret_hash (kp_public key_pair) other = Some redeem
    ∧ spends_output coin env prev redeem [Op OP_1] (SEQUENCE_FINAL - 1) time_lock key_pair tx sig.
Proof.
  intros Hfee. unfold refunds_payment. destruct (read_tx coin payment_tx) as [prev|]; [|done].
  intros (data & Hd & E)%bind_Some. destruct (public_from_slice other_pub) as [other|] eqn:Eo; [|done].
  apply public_from_slice_Ok in Eo as Ho. destruct Ho as [_ Ho]. apply bind_Some in E as (redeem & Er & E).
  pose proof (payment_script_length _ _ _ _ _ own_key_ok Ho Er) as Hrl. unfold MAX_SCRIPT_ELEMENT_SIZE in Hrl.
  eapply (spend_output_inv coin _ key_pair_ok _ _ [Op OP_1]) in E as (sig & Hs); [|..|done]; try done.
  - exists prev, other, redeem, sig. done.
  - by repeat constructor.
  - lia.
Qed.

End claims.

(** ** What is built can be written *)

(** The transactions of the coin have the standard layout. *)
Definition standard_coin (coin : UtxoConf) : bool :=
  negb (cf_is_pos coin) && negb (bool_decide (cf_ticker coin = "NAV")) && (0 <=? cf_tx_version coin) && (cf_tx_version coin <? 2 ^ 31)
  && Bool.eqb (cf_zcash coin) (cf_overwintered coin)
  && (if cf_overwintered coin then fits c_u32 (cf_version_group_id coin) else cf_version_group_id coin =? 0)
  && bool_decide (cf_tx_hash_algo coin = DSHA256) && fits c_u32 (cf_sighash_suffix coin)
  && fits c_u32 (cf_consensus_branch_id coin).

(** A script short enough for any reader. *)
Definition short (script : Builder) : Prop := ∀ s, script = Some s → (length s ≤ 80)%nat.

Lemma push_length op p b s : (op ▷ push_bytes p) = b → b = Some s → ∃ s', op = Some s' ∧ (length s ≤ length s' + 76)%nat.
Proof.
  intros <-. unfold push_bytes. intros (s' & -> & E)%bind_Some. case_match eqn:Ec; [|done]. injection E as <-.
  apply andb_true_iff in Ec as [_ Ec%Nat.leb_le]. exists s'. split; [done|]. rewrite length_app. cbn. lia.
Qed.

Lemma opcode_length op p b s : (op ▷ push_opcode p) = b → b = Some s → ∃ s', op = Some s' ∧ (length s ≤ length s' + 1)%nat.
Proof.
  intros <-. unfold push_opcode. intros (s' & -> & [= <-])%bind_Some. exists s'. rewrite length_app. done.
Qed.

Lemma p2pkh_short h : short (build_p2pkh h).
Proof.
  intros s E. unfold build_p2pkh in E.
  apply (opcode_length _ _ _ _ eq_refl) in E as (s1 & E & ?). apply (opcode_length _ _ _ _ eq_refl) in E as (s2 & E & ?).
  apply (push_length _ _ _ _ eq_refl) in E as (s3 & E & ?). injection E as <-. cbn in *. lia.
Qed.

Lemma output_script_short segwit h : short (output_script segwit P2PKH h).
Proof.
  unfold output_script. destruct segwit; [|apply p2pkh_short]. intros s E. unfold build_witness_script in E.
  apply (push_length _ _ _ _ eq_refl) in E as (s1 & E & ?). injection E as <-. cbn in *. lia.
Qed.

Lemma tx_hash_length `{HashLengths} prev : length (tx_hash prev) = 32%nat.
Proof. unfold tx_hash, dhash256. case_match; apply length_sha256. Qed.

(** Closes a condition on widths and lengths. *)
Ltac fits_goal :=
  rewrite ?andb_true_iff, ?Z.leb_le, ?Z.ltb_lt; unfold BYTES_DECODE_LIMIT, MAX_LIST_SIZE;
  change (2 ^ (Z.of_nat 4 * 8)) with (2 ^ 32); change (2 ^ (Z.of_nat 8 * 8)) with (2 ^ 64);
  split_and?; (done || lia).

Lemma standard_read_back tx :
  tx_fits StandardWithWitness tx = true → has_witness tx = false → deserialize_transaction (serialize tx) = Ok tx.
Proof.
  intros Hf Hw. unfold deserialize_transaction, Transaction_deserialize. rewrite <-(app_nil_r (serialize tx)).
  unfold serialize. rewrite deserialize_tx_back by done. change (with_witness 0 tx) with false. cbn.
  by rewrite strip_no_witness.
Qed.

Section well_formed.
Context `{HashLengths} `{EcdsaLaws} (coin : UtxoConf) (key_pair : KeyPair).
Hypothesis coin_ok : standard_coin coin = true.

Lemma standard_coin_inv :
  standard_coin coin = true → cf_is_pos coin = false ∧ cf_ticker coin ≠ "NAV" ∧ cf_tx_hash_algo coin = DSHA256.
Proof.
  unfold standard_coin. rewrite !andb_true_iff, !negb_true_iff, bool_decide_eq_true, bool_decide_eq_false. tauto.
Qed.

Lemma standard_fits tx ins outs lt :
  tx = mkTransaction (cf_tx_version coin) None (cf_overwintered coin) (cf_version_group_id coin) ins outs lt 0 [] [] [] 0
         (zeros 32) (zeros 64) (zeros 64) (cf_zcash coin) None DSHA256 →
  fits c_inputs ins = true → Forall (λ i, script_witness i = []) ins → ins ≠ [] →
  fits c_outputs outs = true → outs ≠ [] → fits c_u32 lt = true →
  tx_fits StandardWithWitness tx = true.
Proof.
  unfold standard_coin in coin_ok. intros -> Hi Hw Hin Ho Hon Hl. fits_inv.
  assert (map strip_input ins = ins) as Hst.
  { clear Hi Hin. induction Hw as [|[] ins E _ IH]; [done|]. cbn in *. by rewrite IH, E. }
  assert (forallb (λ i, fits c_witness (script_witness i)) ins = true) as Hwit.
  { apply forallb_forall. intros i Hii. by rewrite (proj1 (Forall_forall _ _) Hw i (proj2 (list_elem_of_In _ _) Hii)). }
  unfold tx_fits, version_fits, n_time_fits, io_fits, sapling_fits, join_splits_fit, binding_sig_fits.
  cbn -[fits c_inputs c_outputs c_u32 zeros Z.pow]. rewrite Hst, Hi, Ho, Hl, Hwit.
  rewrite !bool_decide_eq_true_2 by done. destruct ins; [done|]. destruct outs; [done|].
  rewrite !andb_false_r, orb_false_r. repeat (apply andb_true_iff; split); try done.
  by repeat case_match.
Qed.

Lemma spends_output_fits env prev redeem data seq time_lock tx sig :
  spends_output coin env prev redeem data seq time_lock key_pair tx sig →
  0 ≤ time_lock < 2 ^ 32 → 0 ≤ seq < 2 ^ 32 → (∀ o, outputs prev !! 0%nat = Some o → value o < 2 ^ 64) →
  (length redeem ≤ MAX_SCRIPT_ELEMENT_SIZE)%nat → (sum_list_with item_size data ≤ 1000)%nat →
  tx_fits StandardWithWitness tx = true.
Proof.
  intros (t & unsigned & amount & digest & script & fee & Hi & Hp & Hq & Hl & Hl' & Ha & _ & (Etx & now & Eu) & _ & Hsl
    & Hwit & Hv & _ & Hf & Ho & Hs) Ht Hseq Hval Hr Hd.
  apply fmap_Some in Hv as (o & Eo & ->). specialize (Hval _ Eo). specialize (Hl' ltac:(lia)).
  apply assemble_length in Ha. cbn [sum_list_with item_size] in Ha. rewrite sum_list_with_app in Ha.
  cbn [sum_list_with item_size] in Ha. rewrite script_sig_length in Ha. unfold MAX_SCRIPT_ELEMENT_SIZE in Hr.
  pose proof (output_script_short _ _ _ Hs) as Hss. pose proof (tx_hash_length prev) as Hh.
  destruct t as [po ss sq wit]. cbn in Hp, Hq, Ha, Hwit. subst po sq wit.
  destruct (standard_coin_inv coin_ok) as (Hpos & Hnav & Halgo).
  eapply (standard_fits tx _ (outputs tx) (lock_time tx)).
  - rewrite Etx at 1. rewrite Eu. unfold complete_tx, p2sh_unsigned. cbn [s_version s_n_time s_overwintered
      s_version_group_id s_outputs s_lock_time s_expiry_height s_zcash s_str_d_zeel s_hash_algo].
    by rewrite Hpos, Halgo, (bool_decide_eq_false_2 _ Hnav).
  - cbn. rewrite Hh. cbn. fits_goal.
  - by repeat constructor.
  - done.
  - rewrite Ho. cbn. fits_goal.
  - by rewrite Ho.
  - cbn. fits_goal.
Qed.

Lemma spends_output_back env prev redeem data seq time_lock tx sig :
  spends_output coin env prev redeem data seq time_lock key_pair tx sig →
  0 ≤ time_lock < 2 ^ 32 → 0 ≤ seq < 2 ^ 32 → (∀ o, outputs prev !! 0%nat = Some o → value o < 2 ^ 64) →
  (length redeem ≤ MAX_SCRIPT_ELEMENT_SIZE)%nat → (sum_list_with item_size data ≤ 1000)%nat →
  tx_fits StandardWithWitness tx = true ∧ deserialize_transaction (serialize tx) = Ok tx.
Proof.
  intros Hs Ht Hseq Hval Hr Hd. pose proof (spends_output_fits _ _ _ _ _ _ _ _ Hs Ht Hseq Hval Hr Hd) as Hf.
  split; [done|]. apply standard_read_back; [done|].
  destruct Hs as (t & ? & ? & ? & ? & ? & Hi & _ & _ & _ & _ & _ & _ & _ & _ & _ & Hwit & _).
  unfold has_witness. rewrite Hi. cbn. unfold input_has_witness. by rewrite Hwit.
Qed.

End well_formed.

(** C36: the claims and refunds are well-formed transactions: on a coin with the
    standard layout every field of what is built is within the type and the limits
    of the wire, so that the bytes that are broadcast are read back as the very
    transaction. *)
Theorem spend_well_formed `{HashLengths} `{EcdsaLaws} coin payment_tx time_lock other_pub key_pair env tx :
  standard_coin coin = true → kp_public key_pair = ec_public (kp_private key_pair) →
  (∀ fee, se_fee env = Some fee → 0 ≤ fee) → 0 ≤ time_lock < 2 ^ 32 →
  (∀ prev o, read_tx coin payment_tx = Ok prev → outputs prev !! 0%nat = Some o → value o < 2 ^ 64) →
  (∃ secret, length secret = 32%nat
     ∧ spends_payment coin payment_tx time_lock other_pub secret key_pair env = Some (Ok tx))
  ∨ (∃ secret_hash, refunds_payment coin payment_tx time_lock other_pub secret_hash key_pair env = Some (Ok tx)) →
  tx_fits StandardWithWitness tx = true ∧ deserialize_transaction (serialize tx) = Ok tx.
Proof.
  intros Hc Hk Hfee Ht Hval Hb. pose proof (own_key_ok _ Hk) as Hp. destruct Hb as [(secret & Hl & Htx)|(h & Htx)].
  - destruct (spends_payment_inv coin _ Hk _ _ _ _ _ _ Hfee Hl Htx) as (prev & other & redeem & sig & Ep & _ & Ho & Er & Hs).
    eapply (spends_output_back coin key_pair Hc _ _ _ _ _ _ _ _ Hs); try done; [intros o; by apply Hval|..|cbn; lia].
    exact (payment_script_length _ _ _ _ _ Ho Hp Er).
  - destruct (refunds_payment_inv coin _ Hk _ _ _ _ _ _ Hfee Htx) as (prev & other & redeem & sig & Ep & _ & Ho & Er & Hs).
    eapply (spends_output_back coin key_pair Hc _ _ _ _ _ _ _ _ Hs); try done; [intros o; by apply Hval|..|cbn; lia].
    exact (payment_script_length _ _ _ _ _ Hp Ho Er).
Qed.

(** C9: a claim is one the network accepts and the other side can read: the
    transaction [spends_payment] builds spends output 0 of the payment with one
    input, and its input script, for any view of it in which the signature it
    carries is valid, satisfies the script of the payment by the claim path;
    [classify_swap_spend] sees a spend, and [extract_secret] finds the secret, for
    either form of the secret hash.  The value of the output is that of the payment
    less the fee the environment gave for the transaction, and is paid to the key. *)
Theorem claim_accepted `{HashLengths} `{!Interpreter} `{!ScriptLaws} `{EcdsaLaws}
    coin payment_tx time_lock other_pub secret key_pair env tx :
  kp_public key_pair = ec_public (kp_private key_pair) →
  (∀ fee, se_fee env = Some fee → 0 ≤ fee) → length secret = 32%nat →
  spends_payment coin payment_tx time_lock other_pub secret key_pair env = Some (Ok tx) →
  ∃ prev other redeem sig t,
    read_tx coin payment_tx = Ok prev ∧ public_from_slice other_pub = Ok other
    ∧ payment_script time_lock (dhash160 secret) other (kp_public key_pair) = Some redeem
    ∧ payment_script time_lock (sha256 secret) other (kp_public key_pair) = Some redeem
    ∧ spends_output coin env prev redeem [Push secret; Push []] SEQUENCE_FINAL time_lock key_pair tx sig
    ∧ inputs tx = [t]
    ∧ (∀ s, sp_checks s (public_bytes (kp_public key_pair)) (script_sig_of sig (cf_fork_id coin)) = true →
        p2sh_spends s (script_sig t) redeem (dhash160 redeem))
    ∧ classify_swap_spend (script_sig t) = Some Spent
    ∧ secret_of (dhash160 secret) (script_sig t) = Some secret
    ∧ secret_of (sha256 secret) (script_sig t) = Some secret.
Proof.
  intros Hk Hfee Hsec Htx.
  destruct (spends_payment_inv coin _ Hk _ _ _ _ _ _ Hfee Hsec Htx) as (prev & other & redeem & sig & Ep & Eo & Ho & Er & Hs).
  pose proof (own_key_ok _ Hk) as Hp. destruct (script_hash_secret secret) as [S1 S2].
  pose proof Hs as (t & ? & ? & ? & ? & ? & Hi & _ & _ & _ & _ & Ha & _ & _ & _ & Hl & _).
  assert (length (script_sig_of sig (cf_fork_id coin)) ≤ 73)%nat as Hsl by (rewrite script_sig_length; lia).
  destruct (claim_script _ _ _ _ _ Ho Hp Er _ _ _ Hsec (eq_sym S1) Hsl Ha) as (Hn & Hc & Hx).
  pose proof Er as Er'. rewrite <-payment_script_forms in Er'.
  destruct (claim_script _ _ _ _ _ Ho Hp Er' _ _ _ Hsec (eq_sym S2) Hsl Ha) as (_ & _ & Hx').
  destruct (comparator_secret secret) as [C1 C2]. rewrite C1 in Hx. rewrite C2 in Hx'.
  exists prev, other, redeem, sig, t. done.
Qed.

(** C10: a refund is one the network accepts once the lock time has passed: the
    transaction [refunds_payment] builds has a lock time that has reached the one of
    the payment and an input that is not final, and its input script satisfies the
    script of the payment by the refund path in every view of it with that lock
    time and sequence in which the signature is valid; [classify_swap_spend] sees a
    refund, and no secret is found in it. *)
Theorem refund_accepted `{HashLengths} `{!Interpreter} `{!ScriptLaws} `{EcdsaLaws}
    coin payment_tx time_lock other_pub secret_hash key_pair env tx :
  kp_public key_pair = ec_public (kp_private key_pair) →
  (∀ fee, se_fee env = Some fee → 0 ≤ fee) → LOCKTIME_THRESHOLD ≤ time_lock < 2 ^ 31 →
  refunds_payment coin payment_tx time_lock other_pub secret_hash key_pair env = Some (Ok tx) →
  ∃ prev other redeem sig t,
    read_tx coin payment_tx = Ok prev ∧ public_from_slice other_pub = Ok other
    ∧ payment_script time_lock secret_hash (kp_public key_pair) other = Some redeem
    ∧ spends_output coin env prev redeem [Op OP_1] (SEQUENCE_FINAL - 1) time_lock key_pair tx sig
    ∧ inputs tx = [t]
    ∧ (∀ checks, checks (public_bytes (kp_public key_pair)) (script_sig_of sig (cf_fork_id coin)) = true →
        p2sh_spends (mkSpend (lock_time tx) (sequence t) checks) (script_sig t) redeem (dhash160 redeem))
    ∧ classify_swap_spend (script_sig t) = Some Refunded
    ∧ ∀ h, secret_of h (script_sig t) = None.
Proof.
  intros Hk Hfee Ht Htx.
  destruct (refunds_payment_inv coin _ Hk _ _ _ _ _ _ Hfee Htx) as (prev & other & redeem & sig & Ep & Eo & Ho & Er & Hs).
  pose proof (own_key_ok _ Hk) as Hp.
  pose proof Hs as (t & ? & ? & ? & ? & ? & Hi & _ & Hq & Hlt & _ & Ha & _ & _ & _ & Hl & _).
  assert (length (script_sig_of sig (cf_fork_id coin)) ≤ 73)%nat as Hsl by (rewrite script_sig_length; lia).
  destruct (refund_script _ _ _ _ _ Hp Ho Er _ _ Hsl Ha) as (Hn & Hc & Hx).
  exists prev, other, redeem, sig, t. split_and!; try done. intros checks Hck. apply Hn; [done|].
  apply cltv_reached; [done|done|]. cbn. by rewrite Hq.
Qed.

(** C40: the readers of a spend look at fixed places of the input script, the network
    at the top of the stack: a claim with two more values pushed before it is as
    good to the network as the plain one, but [classify_swap_spend] takes it for a
    refund and [extract_secret] finds no secret in it, whatever hash it is given. *)
Theorem hidden_claim `{HashLengths} `{!Interpreter} `{!ScriptLaws}
    time_lock secret_hash pub_0 pub_1 redeem sig secret :
  public_ok pub_0 = true → public_ok pub_1 = true →
  payment_script time_lock secret_hash pub_0 pub_1 = Some redeem →
  length secret = 32%nat → dhash160 secret = script_hash secret_hash → (1 ≤ length sig ≤ 73)%nat →
  ∃ script_sig, assemble [Op OP_1; Op OP_1; Push sig; Push secret; Push []; Push redeem] = Some script_sig
    ∧ (∀ s, sp_checks s (public_bytes pub_1) sig = true → p2sh_spends s script_sig redeem (dhash160 redeem))
    ∧ classify_swap_spend script_sig = Some Refunded
    ∧ ∀ h, secret_of h script_sig = None.
Proof.
  intros P0 P1 Er Hl Hh Hs. pose proof (redeem_small _ _ _ _ _ P0 P1 Er) as Hr. unfold MAX_SCRIPT_ELEMENT_SIZE in Hr.
  assert (Forall item_ok [Op OP_1; Op OP_1; Push sig; Push secret; Push []; Push redeem]) as Hok
    by (repeat constructor; cbn [item_ok length]; lia).
  destruct (assemble_Some _ Hok) as [script_sig Ha]. exists script_sig. split; [done|].
  destruct (assemble_instruction _ _ 1 (Op OP_1) Hok Ha eq_refl) as (i1 & E1 & [R1 O1]).
  destruct (assemble_instruction _ _ 2 (Push sig) Hok Ha eq_refl) as (i2 & E2 & [_ O2]). split_and!.
  - intros s Hc. exists [[]; secret; sig; [z2b 1]; [z2b 1]], (payment_items time_lock secret_hash pub_0 pub_1).
    split_and!; [|done|by eapply redeem_reads|].
    + rewrite (input_stack_items _ _ [[z2b 1]; [z2b 1]; sig; secret; []; redeem] (assemble_back _ _ Hok Ha)); [done|].
      cbn [mapM]. rewrite !pushed_small by (unfold MAX_SCRIPT_ELEMENT_SIZE; cbn [length]; lia). done.
    + apply payment_items_run; [done..|]. right. by exists [], secret, sig, [[z2b 1]; [z2b 1]].
  - unfold classify_swap_spend, opcode_is. rewrite E1, E2, O1. rewrite bool_decide_eq_false_2; [done|].
    intros E. rewrite E in O2. rewrite (proj2 (Nat.leb_le _ 75)) in O2 by lia. cbn in O2. lia.
  - intros h. unfold secret_of. by rewrite E1, O1.
Qed.

(** Every instruction read is the first one of some part of the script. *)
Lemma iter_instruction data n ins :
  get_instruction data n = Some (Ok ins) → ∃ rest, instruction rest = Ok ins.
Proof.
  unfold get_instruction, iter. generalize (length data). intros fuel. revert data n.
  induction fuel as [|fuel IH]; intros data n; cbn [instructions]; [done|].
  destruct data as [|b data]; [done|]. destruct (instruction (b :: data)) as [i|e] eqn:E.
  - destruct n as [|n]; cbn; [intros [= <-]; by eexists|apply IH].
  - by destruct n.
Qed.

Lemma push32_length ins rest data :
  instruction rest = Ok ins → i_opcode ins = OP_PUSHBYTES_32 → i_data ins = Some data → length data = 32%nat.
Proof.
  destruct rest as [|b rest]; [done|]. cbn [instruction]. destruct (opcode_of b) as [op|]; [|done].
  destruct (prefix_len op) as [n|] eqn:En.
  - destruct (range rest _); [|done]. destruct (range (drop n rest) _); [|done]. intros [= <-] Hop. cbn in Hop. by subst op.
  - case_match; [|by intros [= <-]]. destruct (range rest _) as [p|] eqn:Er; [|done]. intros [= <-] Hop [= <-]. cbn in Hop. subst op.
    apply range_Ok in Er as [-> ?]; [|done]. rewrite length_take. cbn in *. lia.
Qed.

(** what [extract_secret] returns is a secret of the payment: 32 bytes with the
    hash the payment is locked with. *)
Theorem extract_secret_sound `{Hashes} secret_hash spend_tx secret :
  extract_secret secret_hash spend_tx = Ok secret →
  htlc_hash160_comparator secret_hash = Some (dhash160 secret) ∧ length secret = 32%nat.
Proof.
  unfold extract_secret. destruct (deserialize_transaction spend_tx) as [t|]; [|done]. cbn [map_err].
  induction (map script_sig (inputs t)) as [|sc rest IH]; [done|]. cbn [extract_secret_from_script_sigs].
  destruct (secret_of secret_hash sc) as [x|] eqn:E; [|done]. intros [= <-]. clear IH. unfold secret_of in E.
  destruct (get_instruction sc 1) as [[ins|]|] eqn:Ei; try done. apply iter_instruction in Ei as [r Ei].
  case_bool_decide; [|done]. apply bind_Some in E as (d & Hd & (h & Hh & E)%bind_Some).
  case_bool_decide; [|done]. simplify_eq. split; [done|]. by eapply push32_length.
Qed.

(** ** Payments are validated as they are made *)

(** The outputs a sender makes, in terms of the script and the amount. *)
Lemma generate_inv `{Hashes} coin time_lock my_pub other_pub secret_hash amount outs :
  generate_swap_payment_outputs coin time_lock my_pub other_pub secret_hash amount = Some (Ok outs) →
  ∃ my other redeem script sat op_return,
    public_from_slice my_pub = Ok my ∧ public_from_slice other_pub = Ok other
    ∧ payment_script time_lock secret_hash my other = Some redeem ∧ p2sh_of redeem = Some script
    ∧ sat_from_big_decimal amount (cf_decimals coin) = Some sat
    ∧ outs = [mkTransactionOutput sat script; mkTransactionOutput 0 op_return].
Proof.
  unfold generate_swap_payment_outputs.
  destruct (public_from_slice my_pub) as [my|], (public_from_slice other_pub) as [other|]; try done.
  intros (redeem & Er & E)%bind_Some. destruct (sat_from_big_decimal _ _) as [sat|]; [|done].
  apply bind_Some in E as (script & Es & (op & Eop & [= <-])%bind_Some).
  by exists my, other, redeem, script, sat, op.
Qed.

Lemma check_payment_iff `{Hashes} coin tx n expected confirmations spv answer :
  check_payment coin tx n expected confirmations spv answer = Ok ()
  ↔ outputs tx !! n = Some expected
    ∧ (answer = serialize tx ∨ answer = serialize_with_flags tx SERIALIZE_TRANSACTION_WITNESS)
    ∧ (cf_enable_spv_proof coin = false ∨ confirmations = 0 ∨ spv = true).
Proof.
  unfold check_payment. generalize (serialize_with_flags tx SERIALIZE_TRANSACTION_WITNESS), (serialize tx). intros x y.
  destruct (bool_decide_reflect (y = answer)), (bool_decide_reflect (x = answer)),
    (bool_decide_reflect (outputs tx !! n = Some expected)), (Z.eqb_spec confirmations 0),
    (cf_enable_spv_proof coin), spv; cbn; naive_solver.
Qed.

Lemma swap_payment_validates `{Hashes} coin time_lock sender_pub my_pub secret_hash amount outs
    payment_tx tx answers answer confirmations spv :
  generate_swap_payment_outputs coin time_lock sender_pub my_pub secret_hash amount = Some (Ok outs) →
  read_tx coin payment_tx = Ok tx → fetch 3 answers = Some (Ok answer) →
  validate_swap_payment coin payment_tx sender_pub my_pub secret_hash amount time_lock confirmations spv answers
    = Some (Ok ())
  ↔ outputs tx !! 0%nat = outs !! 0%nat
    ∧ (answer = serialize tx ∨ answer = serialize_with_flags tx SERIALIZE_TRANSACTION_WITNESS)
    ∧ (cf_enable_spv_proof coin = false ∨ confirmations = 0 ∨ spv = true).
Proof.
  intros (my & other & redeem & script & sat & op & E1 & E2 & Er & Es & Ea & ->)%generate_inv Et Ef.
  unfold validate_swap_payment, validate_payment. rewrite E1, E2, Et, Ea, Er. cbn [mbind option_bind].
  rewrite Ef, Es. cbn [mbind option_bind]. change DEFAULT_SWAP_VOUT with 0%nat.
  pose proof (check_payment_iff coin tx 0 (mkTransactionOutput sat script) confirmations spv answer) as Hc.
  split; [by intros [= ?]; apply Hc|by intros ->%Hc].
Qed.

(** C29: the receiver of a payment accepts a transaction exactly when its output 0 is
    the output the sender makes for the same swap (the same amount to the same
    script), the server knows the transaction as it was received, and the proof of
    inclusion holds where the coin asks for one. *)
Theorem payment_validates_iff `{Hashes} coin time_lock sender_pub my_pub secret_hash amount outs
    payment_tx tx answers answer confirmations spv :
  generate_swap_payment_outputs coin time_lock sender_pub my_pub secret_hash amount = Some (Ok outs) →
  read_tx coin payment_tx = Ok tx → fetch 3 answers = Some (Ok answer) →
  validate_swap_payment coin payment_tx sender_pub my_pub secret_hash amount time_lock confirmations spv answers
    = Some (Ok ())
  ↔ outputs tx !! 0%nat = outs !! 0%nat
    ∧ (answer = serialize tx ∨ answer = serialize_with_flags tx SERIALIZE_TRANSACTION_WITNESS)
    ∧ (cf_enable_spv_proof coin = false ∨ confirmations = 0 ∨ spv = true).
Proof. apply swap_payment_validates. Qed.

(** ** Refunds are due when they pass *)

(** C33: a refund is attempted only when it passes: [can_refund_htlc] says so only
    after the lock time, and only when the lock time of the refund transaction is
    past the median time of the chain, so that the transaction is final; a refund
    built later on a coin other than KMD is final too, with a lock time that has
    reached the one of the payment.  Otherwise the wait is at least a second, at
    most an hour, and before the lock time no longer than to the second after it. *)
Theorem refund_when_due coin locktime now mtp mtp' now' r :
  0 ≤ now < 2 ^ 63 → 0 ≤ locktime < 2 ^ 32 →
  (∀ m, mtp = Some m → 0 < m < 2 ^ 32) →
  can_refund_htlc coin locktime now mtp mtp' now' = Ok r →
  match r with
  | CanRefundNow =>
      locktime ≤ now
      ∧ ∃ m l, mtp = Some m ∧ p2sh_tx_locktime coin locktime now' mtp' = Some l ∧ locktime ≤ l < m
      ∧ (cf_ticker coin ≠ "KMD" → ∀ later m', m ≤ m' < 2 ^ 32 →
         ∃ l', p2sh_tx_locktime coin locktime later (Some m') = Some l' ∧ locktime ≤ l' < m')
  | HaveToWait secs => 1 ≤ secs ≤ MAX_REFUND_WAIT_SECS ∧ (now < locktime → secs ≤ locktime - now + 1)
  end.
Proof.
  intros Hn Hl Hm. unfold can_refund_htlc, refund_eligibility, capped_refund_wait, MAX_REFUND_WAIT_SECS.
  rewrite (uwrap_id 32 locktime) by (unfold is_u; lia).
  destruct (Z.ltb_spec now locktime) as [Hlt|Hge].
  { intros [= <-]. rewrite uwrap_id by (unfold is_u; lia). lia. }
  destruct mtp as [m|]; [|done]. specialize (Hm _ eq_refl).
  destruct (p2sh_tx_locktime coin locktime now' mtp') as [l|] eqn:El; [|done].
  pose proof (p2sh_tx_locktime_reaches _ _ _ _ _ El) as [Hll Hll'].
  destruct (Z.leb_spec m l) as [Hml|Hml]; intros [= <-].
  { rewrite uwrap_id by (unfold is_u; lia). lia. }
  split; [done|]. exists m, l. split_and!; try done; try lia. intros Hk later m' Hm2.
  unfold p2sh_tx_locktime. rewrite bool_decide_eq_false_2 by done. cbn [mbind option_bind].
  rewrite uwrap_id by (unfold is_u; lia). eexists. split; [done|]. lia.
Qed.
