(* ===== verification/UtxoSwap.v ===== *)
(** * UtxoSwap: the payments of a swap as a whole
      (mm2src/coins/utxo/utxo_common/utxo_common_swap.rs)

    The operations of Htlc.v composed the way a swap composes them.  A claim and a
    refund are not only right when they are made: they are made, whenever the chain
    answers and the payment is worth more than the fee.  The maker's claim of the
    taker's payment reveals the secret to the taker, who claims the maker's payment
    with it; and nobody takes an output of a payment but by these two ways. *)

From stdpp Require Import base tactics list numbers strings option sets.
From coqutil Require Import Byte Word.LittleEndianList.
From S2P Require Import Prelude MmNumber Codec Tx Crypto Script Sign ScriptRules UtxoSigner Htlc.

Local Open Scope Z_scope.

(** ** Spends are made *)

(** The digest of an input that exists can be computed. *)
Lemma signature_hash_total `{Hashes} s n amount code sv ty :
  is_Some (s_inputs s !! n) → is_Some (signature_hash s n amount code sv ty).
Proof.
  intros [i Hi]. unfold signature_hash, sighash_fork_id, sighash_fork_id_rxd, sighash_legacy, sighash_witness_v0,
    sighash_overwintered. rewrite Hi. cbn [mbind option_bind]. repeat case_match; eauto.
Qed.

(** The key signs, as ECDSA does for every digest but with negligible probability. *)
Definition signs `{Ecdsa} (key_pair : KeyPair) : Prop := ∀ digest, ∃ sig, ec_sign (kp_private key_pair) digest = Ok sig.

(** The chain answers, takes the transaction, and the output is worth more than the
    fee. *)
Definition spendable (env : SpendEnv) (prev : Transaction) : Prop :=
  ∃ o fee, outputs prev !! 0%nat = Some o ∧ se_fee env = Some fee ∧ 0 ≤ fee < value o
    ∧ is_Some (se_mtp env) ∧ se_broadcast env = true.

Section made.
Context `{HashLengths} `{EcdsaLaws} (coin : UtxoConf) (key_pair : KeyPair) (env : SpendEnv).
Hypothesis key_pair_ok : kp_public key_pair = ec_public (kp_private key_pair).
Hypothesis key_pair_signs : signs key_pair.

Lemma p2sh_spend_made unsigned n i sv fork_id data script_data redeem :
  s_inputs unsigned !! n = Some i → Forall item_ok data → assemble data = Some script_data →
  Z.of_nat (length redeem) < 2 ^ 32 →
  ∃ t, p2sh_spend unsigned n key_pair sv fork_id script_data redeem = Some (Ok t).
Proof.
  intros Hi Hd Ha Hr. unfold p2sh_spend, spend_with, calc_and_sign_sighash, get_input. rewrite Hi.
  destruct (signature_hash_total unsigned n (u_amount i) redeem sv (sighash_type fork_id)) as [d ->]; [by eexists|].
  cbn [mbind option_bind]. destruct (key_pair_signs d) as [sig Es]. rewrite Es. cbn [map_err].
  pose proof (ec_sign_length _ _ _ Es) as Hl. pose proof (script_sig_length fork_id sig) as Hs.
  unfold p2sh_spend_with_signature.
  destruct (assemble_Some [Push (script_sig_of sig fork_id)]) as [a Ea]; [repeat constructor; cbn; lia|].
  destruct (assemble_Some [Push redeem]) as [b Eb]; [by repeat constructor|].
  change (push_data (script_sig_of sig fork_id) builder_default = Some a) in Ea.
  change (push_data redeem builder_default = Some b) in Eb. rewrite Ea, Eb. cbn. eauto.
Qed.

Lemma p2sh_tx_locktime_made t now mtp : is_Some mtp → is_Some (p2sh_tx_locktime coin t now mtp).
Proof. intros [m ->]. unfold p2sh_tx_locktime. case_bool_decide; cbn; eauto. Qed.

Lemma output_script_made : is_Some (output_script (cf_segwit coin) P2PKH (AddressHash (address_hash (kp_public key_pair)))).
Proof.
  unfold output_script, build_witness_script, build_p2pkh, hash_to_vec, address_hash, push_bytes.
  rewrite length_dhash160. destruct (cf_segwit coin); cbn; eauto.
Qed.

Lemma spend_output_made prev redeem data script_data seq time_lock :
  Forall item_ok data → assemble data = Some script_data → Z.of_nat (length redeem) < 2 ^ 32 → spendable env prev →
  ∃ tx, spend_output coin prev redeem script_data seq time_lock key_pair env = Some (Ok tx).
Proof.
  intros Hok Hdata Hr (o & fee & Ho & Hf & Hv & Hm & Hb). unfold spend_output. rewrite Hf, Hb.
  destruct output_script_made as [script ->]. cbn [mbind option_bind]. rewrite Ho. cbn [mbind option_bind].
  unfold htlc_spend_output_value. rewrite (proj2 (Z.leb_gt _ _)) by lia. unfold p2sh_spending_tx.
  destruct (p2sh_tx_locktime_made time_lock (se_now env) _ Hm) as [l ->]. rewrite Ho. cbn [mbind option_bind].
  edestruct (p2sh_spend_made (p2sh_unsigned coin (tx_hash prev) (value o)
    [mkTransactionOutput (value o - fee) script] seq l (se_now env)) DEFAULT_SWAP_VOUT) as [t ->]; [done..|].
  cbn. eauto.
Qed.

End made.

Section payments_made.
Context `{HashLengths} `{EcdsaLaws} (coin : UtxoConf) (key_pair : KeyPair) (env : SpendEnv).
Hypothesis key_pair_ok : kp_public key_pair = ec_public (kp_private key_pair).
Hypothesis key_pair_signs : signs key_pair.

Lemma spends_payment_made payment_tx prev time_lock other_pub other secret :
  read_tx coin payment_tx = Ok prev → public_from_slice other_pub = Ok other → length secret = 32%nat →
  spendable env prev →
  ∃ tx, spends_payment coin payment_tx time_lock other_pub secret key_pair env = Some (Ok tx).
Proof.
  intros Hp Ho Hl Hs. unfold spends_payment. rewrite Hp, Ho.
  apply public_from_slice_Ok in Ho as [_ Ho]. pose proof (own_key_ok _ key_pair_ok) as Hk.
  assert (Forall item_ok [Push secret; Push []]) as Hok by (repeat constructor; cbn [item_ok length]; lia).
  destruct (assemble_Some _ Hok) as [data Ed].
  change (builder_default ▷ push_data secret ▷ push_opcode OP_0) with (assemble [Push secret; Push []]). rewrite Ed.
  destruct (payment_script_reads time_lock (dhash160 secret) _ _ Ho Hk) as (redeem & Er & _).
  pose proof (payment_script_length _ _ _ _ _ Ho Hk Er) as Hr. unfold MAX_SCRIPT_ELEMENT_SIZE in Hr.
  cbn [mbind option_bind]. rewrite Er. cbn [mbind option_bind].
  eapply spend_output_made; try done. lia.
Qed.

Lemma refunds_payment_made payment_tx prev time_lock other_pub other secret_hash :
  read_tx coin payment_tx = Ok prev → public_from_slice other_pub = Ok other → spendable env prev →
  ∃ tx, refunds_payment coin payment_tx time_lock other_pub secret_hash key_pair env = Some (Ok tx).
Proof.
  intros Hp Ho Hs. unfold refunds_payment. rewrite Hp, Ho.
  apply public_from_slice_Ok in Ho as [_ Ho]. pose proof (own_key_ok _ key_pair_ok) as Hk.
  destruct (payment_script_reads time_lock secret_hash _ _ Hk Ho) as (redeem & Er & _).
  pose proof (payment_script_length _ _ _ _ _ Hk Ho Er) as Hr. unfold MAX_SCRIPT_ELEMENT_SIZE in Hr.
  cbn [mbind option_bind push_opcode builder_default]. rewrite Er. cbn [mbind option_bind].
  eapply (spend_output_made _ _ _ key_pair_signs _ _ [Op OP_1]); try done; [by repeat constructor|lia].
Qed.

End payments_made.

(** C11: a payment does not get stuck.  When the chain answers and the payment is worth
    more than the fee, the receiver who knows the secret gets a claim, and the sender
    a refund; the operations neither fail nor panic. *)
Theorem payment_settles `{HashLengths} `{EcdsaLaws} coin payment_tx prev time_lock pub other secret_hash key_pair env :
  kp_public key_pair = ec_public (kp_private key_pair) → signs key_pair →
  read_tx coin payment_tx = Ok prev → public_from_slice pub = Ok other → spendable env prev →
  (∃ tx, refunds_payment coin payment_tx time_lock pub secret_hash key_pair env = Some (Ok tx))
  ∧ ∀ secret, length secret = 32%nat →
      ∃ tx, spends_payment coin payment_tx time_lock pub secret key_pair env = Some (Ok tx).
Proof.
  intros Hk Hsig Hp Ho Hs. split; [by eapply refunds_payment_made|]. intros secret Hl. by eapply spends_payment_made.
Qed.

(** ** The secret goes round *)

(** What a payment that validated is: output 0 pays to the hash of the script of the
    swap. *)
Lemma validate_swap_payment_inv `{Hashes} coin payment_tx sender_pub my_pub secret_hash amount time_lock confirmations
    spv answers :
  validate_swap_payment coin payment_tx sender_pub my_pub secret_hash amount time_lock confirmations spv answers
    = Some (Ok ()) →
  ∃ tx sender my redeem script sat, read_tx coin payment_tx = Ok tx
    ∧ public_from_slice sender_pub = Ok sender ∧ public_from_slice my_pub = Ok my
    ∧ payment_script time_lock secret_hash sender my = Some redeem ∧ p2sh_of redeem = Some script
    ∧ outputs tx !! 0%nat = Some (mkTransactionOutput sat script).
Proof.
  unfold validate_swap_payment, validate_payment.
  destruct (public_from_slice my_pub) as [my|]; [|done]. destruct (read_tx coin payment_tx) as [tx|]; [|done].
  destruct (public_from_slice sender_pub) as [sender|]; [|done].
  destruct (sat_from_big_decimal amount (cf_decimals coin)) as [sat|]; [|done].
  intros (redeem & Er & (answer & Ea & (script & Es & E)%bind_Some)%bind_Some)%bind_Some.
  exists tx, sender, my, redeem, script, sat. split_and!; try done.
  destruct answer as [answer|]; [|done]. cbn in E. unfold check_payment in E. case_match; [done|].
  case_bool_decide as Eo; [done|by cbn in E].
Qed.

(** The script depends on the hash of the secret only by what the script compares. *)
Lemma payment_script_same `{Hashes} time_lock h1 h2 pub_0 pub_1 :
  htlc_hash160_comparator h1 = htlc_hash160_comparator h2 →
  payment_script time_lock h1 pub_0 pub_1 = payment_script time_lock h2 pub_0 pub_1.
Proof. unfold payment_script. by intros ->. Qed.

Section round.
Context `{HashLengths} `{!Interpreter} `{!ScriptLaws} `{EcdsaLaws}.
Context (secret_hash secret : bytes).
Hypothesis secret_length : length secret = 32%nat.
Hypothesis secret_hash_ok : htlc_hash160_comparator secret_hash = Some (dhash160 secret).

Lemma secret_script_hash : dhash160 secret = script_hash secret_hash.
Proof. unfold script_hash. by rewrite secret_hash_ok. Qed.

Lemma secret_script time_lock pub_0 pub_1 :
  payment_script time_lock (dhash160 secret) pub_0 pub_1 = payment_script time_lock secret_hash pub_0 pub_1.
Proof. apply payment_script_same. rewrite secret_hash_ok. apply comparator_secret. Qed.

(** The claim, read in its bytes, gives the secret away. *)
Lemma claim_reveals coin payment_tx time_lock other_pub key_pair env tx :
  standard_coin coin = true → kp_public key_pair = ec_public (kp_private key_pair) →
  (∀ fee, se_fee env = Some fee → 0 ≤ fee) → 0 ≤ time_lock < 2 ^ 32 →
  (∀ prev o, read_tx coin payment_tx = Ok prev → outputs prev !! 0%nat = Some o → value o < 2 ^ 64) →
  spends_payment coin payment_tx time_lock other_pub secret key_pair env = Some (Ok tx) →
  extract_secret secret_hash (serialize tx) = Ok secret.
Proof.
  intros Hc Hk Hfee Ht Hval Htx. pose proof (own_key_ok _ Hk) as Hp.
  destruct (spends_payment_inv coin _ Hk _ _ _ _ _ _ Hfee secret_length Htx)
    as (prev & other & redeem & sig & Ep & _ & Ho & Er & Hs).
  assert (deserialize_transaction (serialize tx) = Ok tx) as Hback.
  { eapply (spends_output_back coin key_pair Hc _ _ _ _ _ _ _ _ Hs); try done; [intros o; by apply Hval|..|cbn; lia].
    exact (payment_script_length _ _ _ _ _ Ho Hp Er). }
  destruct Hs as (t & ? & ? & ? & ? & ? & Hi & _ & _ & _ & _ & Ha & _ & _ & _ & Hl & _).
  assert (length (script_sig_of sig (cf_fork_id coin)) ≤ 73)%nat as Hsl by (rewrite script_sig_length; lia).
  rewrite secret_script in Er.
  destruct (claim_script _ _ _ _ _ Ho Hp Er _ _ _ secret_length secret_script_hash Hsl Ha) as (_ & _ & Hx).
  rewrite secret_hash_ok in Hx. unfold extract_secret. rewrite Hback. cbn [map_err]. rewrite Hi. cbn [map].
  cbn [extract_secret_from_script_sigs]. by rewrite Hx.
Qed.

(** The claim of a payment that validated passes the output it validated. *)
Lemma claim_passes coin payment_tx sender_pub key_pair amount time_lock confirmations spv answers env tx :
  kp_public key_pair = ec_public (kp_private key_pair) → (∀ fee, se_fee env = Some fee → 0 ≤ fee) →
  validate_swap_payment coin payment_tx sender_pub (public_bytes (kp_public key_pair)) secret_hash amount time_lock
    confirmations spv answers = Some (Ok ()) →
  spends_payment coin payment_tx time_lock sender_pub secret key_pair env = Some (Ok tx) →
  ∃ prev o redeem sig t, read_tx coin payment_tx = Ok prev ∧ outputs prev !! 0%nat = Some o
    ∧ p2sh_of redeem = Some (script_pubkey o)
    ∧ spends_output coin env prev redeem [Push secret; Push []] SEQUENCE_FINAL time_lock key_pair tx sig
    ∧ inputs tx = [t]
    ∧ ∀ s, sp_checks s (public_bytes (kp_public key_pair)) (script_sig_of sig (cf_fork_id coin)) = true →
        p2sh_spends s (script_sig t) redeem (dhash160 redeem).
Proof.
  intros Hk Hfee Hv Htx. pose proof (own_key_ok _ Hk) as Hp.
  destruct (spends_payment_inv coin _ Hk _ _ _ _ _ _ Hfee secret_length Htx)
    as (prev & other & redeem & sig & Ep & Eo & Ho & Er & Hs).
  destruct (validate_swap_payment_inv _ _ _ _ _ _ _ _ _ _ Hv) as (prev' & sender & my & redeem' & script & sat
    & Ep' & Esn & Em & Er' & Es & Eout).
  rewrite Ep in Ep'. injection Ep' as <-. rewrite Eo in Esn. injection Esn as <-.
  rewrite (proj2 (public_from_slice_Ok _ _) (conj eq_refl Hp)) in Em. injection Em as <-. rewrite secret_script in Er. rewrite Er in Er'.
  injection Er' as <-.
  pose proof Hs as (t & ? & ? & ? & ? & ? & Hi & _ & _ & _ & _ & Ha & _ & _ & _ & Hl & _).
  assert (length (script_sig_of sig (cf_fork_id coin)) ≤ 73)%nat as Hsl by (rewrite script_sig_length; lia).
  destruct (claim_script _ _ _ _ _ Ho Hp Er _ _ _ secret_length secret_script_hash Hsl Ha) as (Hn & _).
  by eexists prev, _, redeem, sig, t.
Qed.

End round.

(** C1: the two payments of a swap go together: once the maker takes the taker's
    payment, the taker can take the maker's.  For a maker's payment the taker has
    validated, and either form of the hash of the secret: the bytes of the maker's
    claim of the taker's payment give the taker the secret; the taker's claim with
    it is made, whenever the chain answers and the payment is worth more than the
    fee; it spends the output that was validated, pays it to the taker less the fee,
    and its input script passes in every view of it in which its signature is
    valid. *)
Theorem revealed_secret_claims `{HashLengths} `{!Interpreter} `{!ScriptLaws} `{EcdsaLaws}
    taker_coin maker_coin taker_payment maker_payment taker_lock maker_lock secret_hash secret
    maker taker amount confirmations spv answers env env' claim prev :
  kp_public maker = ec_public (kp_private maker) → kp_public taker = ec_public (kp_private taker) → signs taker →
  standard_coin taker_coin = true → 0 ≤ taker_lock < 2 ^ 32 → length secret = 32%nat →
  htlc_hash160_comparator secret_hash = Some (dhash160 secret) →
  (∀ fee, se_fee env = Some fee → 0 ≤ fee) →
  (∀ prev o, read_tx taker_coin taker_payment = Ok prev → outputs prev !! 0%nat = Some o → value o < 2 ^ 64) →
  validate_swap_payment maker_coin maker_payment (public_bytes (kp_public maker)) (public_bytes (kp_public taker))
    secret_hash amount maker_lock confirmations spv answers = Some (Ok ()) →
  spends_payment taker_coin taker_payment taker_lock (public_bytes (kp_public taker)) secret maker env = Some (Ok claim) →
  read_tx maker_coin maker_payment = Ok prev → spendable env' prev →
  extract_secret secret_hash (serialize claim) = Ok secret
  ∧ ∃ tx o redeem sig t,
      spends_payment maker_coin maker_payment maker_lock (public_bytes (kp_public maker)) secret taker env' = Some (Ok tx)
      ∧ outputs prev !! 0%nat = Some o ∧ p2sh_of redeem = Some (script_pubkey o)
      ∧ spends_output maker_coin env' prev redeem [Push secret; Push []] SEQUENCE_FINAL maker_lock taker tx sig
      ∧ inputs tx = [t]
      ∧ ∀ s, sp_checks s (public_bytes (kp_public taker)) (script_sig_of sig (cf_fork_id maker_coin)) = true →
          p2sh_spends s (script_sig t) redeem (dhash160 redeem).
Proof.
  intros Hm Ht Hsig Hc Htl Hl Hh Hfee Hval Hv Hclaim Hp Hs. split; [exact (claim_reveals _ _ Hl Hh _ _ _ _ _ _ _ Hc Hm Hfee Htl Hval Hclaim)|].
  destruct (spends_payment_made maker_coin taker env' Ht Hsig maker_payment prev maker_lock _ (kp_public maker) secret Hp
    (proj2 (public_from_slice_Ok _ _) (conj eq_refl (own_key_ok _ Hm))) Hl Hs) as [tx Etx].
  assert (∀ fee, se_fee env' = Some fee → 0 ≤ fee) as Hfee'.
  { destruct Hs as (o & fee & _ & Ef & Hf & _). intros fee'. rewrite Ef. intros [= <-]. lia. }
  destruct (claim_passes _ _ Hl Hh _ _ _ _ _ _ _ _ _ _ _ Ht Hfee' Hv Etx) as (prev' & o & redeem & sig & t & Ep & Ho & Hr & Hsp & Hi & Hn).
  rewrite Hp in Ep. injection Ep as <-. by exists tx, o, redeem, sig, t.
Qed.

(** ** Nobody else takes a payment *)

(** C4: an output of a payment is taken in two ways only.  Whatever the input script
    that spends output 0 of what the sender pays out, and whatever script it reveals
    for the hash in the output: a hash collision is found, or the script is the one
    of the payment and the stack left for it is the sender's refund after the lock
    time, or the receiver's claim with 32 bytes of the hash the payment is locked
    with. *)
Theorem payment_taken_two_ways `{HashLengths} `{!Interpreter} `{!ScriptLaws}
    coin time_lock my_pub other_pub secret_hash h amount outs s script_sig revealed :
  htlc_hash160_comparator secret_hash = Some h →
  generate_swap_payment_outputs coin time_lock my_pub other_pub secret_hash amount = Some (Ok outs) →
  ∃ my other redeem o, public_from_slice my_pub = Ok my ∧ public_from_slice other_pub = Ok other
    ∧ payment_script time_lock secret_hash my other = Some redeem
    ∧ outs !! 0%nat = Some o ∧ p2sh_of redeem = Some (script_pubkey o)
    ∧ (p2sh_spends s script_sig revealed (dhash160 redeem) →
       (revealed ≠ redeem ∧ dhash160 revealed = dhash160 redeem)
       ∨ revealed = redeem ∧ ∃ st, input_stack script_sig = Some (redeem :: st)
           ∧ (refund_path time_lock my s st ∨ claim_path h other s st)).
Proof.
  intros Hh. unfold generate_swap_payment_outputs. destruct (public_from_slice my_pub) as [my|] eqn:Em; [|by repeat case_match].
  destruct (public_from_slice other_pub) as [other|] eqn:Eo; [|done].
  intros (redeem & Er & E)%bind_Some. destruct (sat_from_big_decimal amount (cf_decimals coin)) as [sat|]; [|done].
  apply bind_Some in E as (script & Es & (op & _ & [= <-])%bind_Some).
  exists my, other, redeem. eexists. split_and!; [done..|].
  apply public_from_slice_Ok in Em as [_ Hm], Eo as [_ Ho].
  intros (st & items & Hst & Heq & Hd & Ht). destruct (decide (revealed = redeem)) as [->|]; [|by left]. right.
  split; [done|]. exists st. split; [done|]. destruct (payment_script_reads time_lock secret_hash _ _ Hm Ho) as (r & Er' & Ed).
  rewrite Er in Er'. injection Er' as <-. rewrite Hd in Ed. injection Ed as ->.
  apply payment_items_run in Ht; [|done..]. unfold script_hash in Ht. by rewrite Hh in Ht.
Qed.
