(* ===== verification/UtxoTx.v ===== *)
(** * UtxoTx: building a transaction of a UTXO coin
      (mm2src/coins/utxo/utxo_common/utxo_common_tx.rs, mm2src/coins/utxo.rs)

    [UtxoTxBuilder] collects inputs until they pay for the outputs and for the fee
    of the transaction so far, and sends the rest back as change.  The fee depends on
    the size, the size on the inputs and on whether there is change.  Komodo's
    interest is added to what was built.  The answers of the server are the fields
    of [BuildEnv]. *)

From stdpp Require Import base tactics list numbers strings option.
From coqutil Require Import Byte Word.LittleEndianList.
From S2P Require Import Prelude Codec Tx Crypto Script Sign UtxoSigner Htlc.

Local Open Scope Z_scope.

(** ** Data *)

Definition MAX_DER_SIGNATURE_LEN : Z := 72.
Definition COMPRESSED_PUBKEY_LEN : Z := 33.
Definition P2PKH_OUTPUT_LEN : Z := 34.

(** An address, as far as a script is made of it: whether its format is segwit, and
    its hash. *)
Record Address : Type := mkAddress { ad_segwit : bool; ad_hash : bytes }.

Record UnspentInfo : Type := mkUnspent { un_outpoint : OutPoint; un_value : Z; un_height : option Z }.

Inductive FeePolicy : Type := SendExact | DeductFromOutput (index : nat).

(** [kmd_rewards] is the interest claimed. *)
Record AdditionalTxData : Type := mkTxData {
  received_by_me : Z;
  spent_by_me : Z;
  fee_amount : Z;
  unused_change : option Z;
  kmd_rewards : option Z
}.

Inductive GenerateTxError : Type :=
| EmptyUtxoSet (required : Z)
| EmptyOutputs
| OutputValueLessThanDust (value dust : Z)
| DeductFeeFromOutputFailed (output_idx : nat) (output_value required : Z)
| NotEnoughUtxos (sum_utxos required : Z)
| Transport
| Internal.

(** What the server and the clock say: the fee of the coin, the relay fee when the
    coin forces it, the median time, and for a transaction its height and lock time. *)
Record BuildEnv : Type := mkBuildEnv {
  be_tx_fee : option ActualTxFee;
  be_force_min_relay_fee : bool;
  be_relay_fee : option Z;
  be_mtp : option Z;
  be_verbose : bytes → option (option Z * Z);
  be_now : Z
}.

(** ** Fees *)

Definition change_output_increase (f : ActualTxFee) (size : Z) : Z :=
  Z.max 0 (fee_for_size f (Z.min (size + P2PKH_OUTPUT_LEN) U64_MAX) - fee_for_size f size).

(** [(base_size * 3 + total_size).div_ceil(4)]. *)
Definition segwit_virtual_size (base_size total_size : Z) : Z := (base_size * 3 + total_size + 3) / 4.

Definition tx_size_in_v_bytes (segwit : bool) (tx : Transaction) : Z :=
  let transaction_bytes := Z.of_nat (length (serialize tx)) in
  let additional_len := 2 + MAX_DER_SIGNATURE_LEN + COMPRESSED_PUBKEY_LEN in
  let inputs := Z.of_nat (length (inputs tx)) in
  if segwit then
    segwit_virtual_size transaction_bytes (transaction_bytes + 4 + inputs * (additional_len + 1))
  else transaction_bytes + inputs * additional_len.

Definition relay_fee_for_size (relay_rate : option Z) (size : Z) : option Z :=
  (λ rate, fee_for_size (Dynamic rate) size) <$> relay_rate.

Definition is_change_output (change dust : Z) : bool := (0 <? change) && (dust <=? change).

(** ** The builder *)

Definition transaction_preimage (coin : UtxoConf) (now : Z) : TransactionInputSigner :=
  let lock_time := if bool_decide (cf_ticker coin = "KMD") then u32 (u32 now - 3600 + 777 * 2) else u32 now in
  let str_d_zeel := if bool_decide (cf_ticker coin = "NAV") then Some [] else None in
  let n_time := if cf_is_pos coin then Some (u32 now) else None in
  mkSigner (cf_tx_version coin) n_time (cf_overwintered coin) (cf_version_group_id coin) (cf_consensus_branch_id coin)
    0 0 [] [] lock_time [] [] [] (cf_zcash coin) str_d_zeel (signer_algo (cf_tx_hash_algo coin))
    (cf_sighash_suffix coin).

Record UtxoTxBuilder : Type := mkBuilder {
  b_from : option Address;
  b_available_inputs : list UnspentInfo;
  b_fee_policy : FeePolicy;
  b_fee : option ActualTxFee;
  b_gas_fee : option Z;
  b_tx : TransactionInputSigner;
  b_change : Z;
  b_sum_inputs : Z;
  b_sum_outputs_value : Z;
  b_tx_fee : Z;
  b_min_relay_fee : option Z;
  b_dust : option Z
}.

Definition with_inputs (ins : list UnsignedTransactionInput) (s : TransactionInputSigner) : TransactionInputSigner :=
  mkSigner (s_version s) (s_n_time s) (s_overwintered s) (s_version_group_id s) (s_consensus_branch_id s)
    (s_expiry_height s) (s_value_balance s) ins (s_outputs s) (s_lock_time s) (s_join_splits s) (s_shielded_spends s)
    (s_shielded_outputs s) (s_zcash s) (s_str_d_zeel s) (s_hash_algo s) (s_sighash_suffix s).

Definition with_lock_time (l : Z) (s : TransactionInputSigner) : TransactionInputSigner :=
  mkSigner (s_version s) (s_n_time s) (s_overwintered s) (s_version_group_id s) (s_consensus_branch_id s)
    (s_expiry_height s) (s_value_balance s) (s_inputs s) (s_outputs s) l (s_join_splits s) (s_shielded_spends s)
    (s_shielded_outputs s) (s_zcash s) (s_str_d_zeel s) (s_hash_algo s) (s_sighash_suffix s).

(** The builder with other inputs and their sum, outputs and their sum, or change and
    fee. *)
Definition set_inputs (ins : list UnsignedTransactionInput) (sum : Z) (b : UtxoTxBuilder) : UtxoTxBuilder :=
  mkBuilder (b_from b) (b_available_inputs b) (b_fee_policy b) (b_fee b) (b_gas_fee b) (with_inputs ins (b_tx b))
    (b_change b) sum (b_sum_outputs_value b) (b_tx_fee b) (b_min_relay_fee b) (b_dust b).

Definition set_outputs (outs : list TransactionOutput) (sum : Z) (b : UtxoTxBuilder) : UtxoTxBuilder :=
  mkBuilder (b_from b) (b_available_inputs b) (b_fee_policy b) (b_fee b) (b_gas_fee b) (with_outputs outs (b_tx b))
    (b_change b) (b_sum_inputs b) sum (b_tx_fee b) (b_min_relay_fee b) (b_dust b).

Definition set_fees (change tx_fee : Z) (b : UtxoTxBuilder) : UtxoTxBuilder :=
  mkBuilder (b_from b) (b_available_inputs b) (b_fee_policy b) (b_fee b) (b_gas_fee b) (b_tx b)
    change (b_sum_inputs b) (b_sum_outputs_value b) tx_fee (b_min_relay_fee b) (b_dust b).

Definition set_relay (relay : option Z) (b : UtxoTxBuilder) : UtxoTxBuilder :=
  mkBuilder (b_from b) (b_available_inputs b) (b_fee_policy b) (b_fee b) (b_gas_fee b) (b_tx b)
    (b_change b) (b_sum_inputs b) (b_sum_outputs_value b) (b_tx_fee b) relay (b_dust b).

Definition builder_new (coin : UtxoConf) (now : Z) (iguana : option Address) : UtxoTxBuilder :=
  mkBuilder iguana [] SendExact None None (transaction_preimage coin now) 0 0 0 0 None None.

Definition with_from_address (from : Address) (b : UtxoTxBuilder) : UtxoTxBuilder :=
  mkBuilder (Some from) (b_available_inputs b) (b_fee_policy b) (b_fee b) (b_gas_fee b) (b_tx b)
    (b_change b) (b_sum_inputs b) (b_sum_outputs_value b) (b_tx_fee b) (b_min_relay_fee b) (b_dust b).

Definition with_dust (dust_amount : Z) (b : UtxoTxBuilder) : UtxoTxBuilder :=
  mkBuilder (b_from b) (b_available_inputs b) (b_fee_policy b) (b_fee b) (b_gas_fee b) (b_tx b)
    (b_change b) (b_sum_inputs b) (b_sum_outputs_value b) (b_tx_fee b) (b_min_relay_fee b) (Some dust_amount).

(** An unspent as an input of the transaction. *)
Definition input_of (u : UnspentInfo) : UnsignedTransactionInput :=
  mkUnsignedTransactionInput (un_outpoint u) SEQUENCE_FINAL (un_value u) [].

Definition push_input (u : UnspentInfo) (b : UtxoTxBuilder) : UtxoTxBuilder :=
  set_inputs (s_inputs (b_tx b) ++ [input_of u]) (u64 (b_sum_inputs b + un_value u)) b.

Definition add_required_inputs (ins : list UnspentInfo) (b : UtxoTxBuilder) : UtxoTxBuilder :=
  foldl (λ b u, push_input u b) b ins.

Definition add_available_inputs (ins : list UnspentInfo) (b : UtxoTxBuilder) : UtxoTxBuilder :=
  mkBuilder (b_from b) (b_available_inputs b ++ ins) (b_fee_policy b) (b_fee b) (b_gas_fee b) (b_tx b)
    (b_change b) (b_sum_inputs b) (b_sum_outputs_value b) (b_tx_fee b) (b_min_relay_fee b) (b_dust b).

Definition add_outputs (outs : list TransactionOutput) (b : UtxoTxBuilder) : UtxoTxBuilder :=
  set_outputs (s_outputs (b_tx b) ++ outs) (b_sum_outputs_value b) b.

Definition with_fee_policy (policy : FeePolicy) (b : UtxoTxBuilder) : UtxoTxBuilder :=
  mkBuilder (b_from b) (b_available_inputs b) policy (b_fee b) (b_gas_fee b) (b_tx b)
    (b_change b) (b_sum_inputs b) (b_sum_outputs_value b) (b_tx_fee b) (b_min_relay_fee b) (b_dust b).

Definition with_fee (fee : ActualTxFee) (b : UtxoTxBuilder) : UtxoTxBuilder :=
  mkBuilder (b_from b) (b_available_inputs b) (b_fee_policy b) (Some fee) (b_gas_fee b) (b_tx b)
    (b_change b) (b_sum_inputs b) (b_sum_outputs_value b) (b_tx_fee b) (b_min_relay_fee b) (b_dust b).

Definition with_gas_fee (gas_fee : Z) (b : UtxoTxBuilder) : UtxoTxBuilder :=
  mkBuilder (b_from b) (b_available_inputs b) (b_fee_policy b) (b_fee b) (Some gas_fee) (b_tx b)
    (b_change b) (b_sum_inputs b) (b_sum_outputs_value b) (b_tx_fee b) (b_min_relay_fee b) (b_dust b).

Definition dust_of (coin : UtxoConf) (b : UtxoTxBuilder) : Z := default (cf_dust_amount coin) (b_dust b).

Section update.
Context (coin : UtxoConf) (segwit : bool) (actual_tx_fee : ActualTxFee).

(** The size of the transaction so far, that is without the change. *)
Definition v_size_of (b : UtxoTxBuilder) : Z := tx_size_in_v_bytes segwit (transaction_of (b_tx b)).

Definition raised (min_relay : option Z) (fee : Z) : Z :=
  match min_relay with Some min_relay => if fee <? min_relay then min_relay else fee | None => fee end.

Definition update_fee_and_check_completeness (b : UtxoTxBuilder) : UtxoTxBuilder * bool :=
  let v_size := v_size_of b in
  let tx_fee := fee_for_size actual_tx_fee v_size in
  match b_fee_policy b with
  | SendExact =>
      let outputs_plus_fee := u64 (b_sum_outputs_value b + tx_fee) in
      if outputs_plus_fee <=? b_sum_inputs b then
        let change := b_sum_inputs b - outputs_plus_fee in
        let '(final_size, tx_fee, outputs_plus_fee) :=
          if is_change_output change (dust_of coin b) then
            let change_increase := change_output_increase actual_tx_fee v_size in
            (u64 (v_size + P2PKH_OUTPUT_LEN), u64 (tx_fee + change_increase), u64 (outputs_plus_fee + change_increase))
          else (v_size, tx_fee, outputs_plus_fee) in
        let '(tx_fee, outputs_plus_fee) :=
          match relay_fee_for_size (b_min_relay_fee b) final_size with
          | Some min_relay =>
              if tx_fee <? min_relay then (min_relay, u64 (u64 (outputs_plus_fee - tx_fee) + min_relay))
              else (tx_fee, outputs_plus_fee)
          | None => (tx_fee, outputs_plus_fee)
          end in
        (set_fees change tx_fee b, outputs_plus_fee <=? b_sum_inputs b)
      else (set_fees (b_change b) tx_fee b, false)
  | DeductFromOutput _ =>
      if b_sum_outputs_value b <=? b_sum_inputs b then
        let change := b_sum_inputs b - b_sum_outputs_value b in
        let '(final_size, tx_fee) :=
          if is_change_output change (dust_of coin b)
          then (u64 (v_size + P2PKH_OUTPUT_LEN), u64 (tx_fee + change_output_increase actual_tx_fee v_size))
          else (v_size, tx_fee) in
        (set_fees change (raised (relay_fee_for_size (b_min_relay_fee b) final_size) tx_fee) b, true)
      else (set_fees (b_change b) tx_fee b, false)
  end.

(** The loop over the available inputs. *)
Fixpoint collect (utxos : list UnspentInfo) (b : UtxoTxBuilder) : UtxoTxBuilder :=
  match utxos with
  | [] => b
  | utxo :: utxos =>
      let '(b, complete) := update_fee_and_check_completeness (push_input utxo b) in
      if complete then b else collect utxos b
  end.

(** The inputs chosen: the required ones alone where they pay, or as many of the
    available ones as it takes. *)
Definition choose (b : UtxoTxBuilder) : UtxoTxBuilder :=
  let '(b, complete) := if is_nil (s_inputs (b_tx b)) then (b, false) else update_fee_and_check_completeness b in
  if complete then b else collect (b_available_inputs b) b.

End update.

(** ** Komodo's interest *)

Inductive KmdRewardsNotAccruedReason : Type :=
| LocktimeNotSet
| LocktimeLessThanThreshold
| UtxoHeightGreaterThanEndOfEra
| UtxoAmountLessThanTen
| OneHourNotPassedYet
| TransactionInMempool.

Definition KOMODO_ENDOFERA : Z := 7777777.
Definition KIP_0001_HARDFORK_HEIGHT : Z := 3484958.

(** The differences are of numbers in order. *)
Definition kmd_interest (height : option Z) (value lock_time current_time : Z) : result Z KmdRewardsNotAccruedReason :=
  if value <? 1000000000 then Err UtxoAmountLessThanTen
  else if lock_time =? 0 then Err LocktimeNotSet
  else if lock_time <? LOCKTIME_THRESHOLD then Err LocktimeLessThanThreshold
  else match height with
  | None => Err TransactionInMempool
  | Some height =>
      if KOMODO_ENDOFERA <=? height then Err UtxoHeightGreaterThanEndOfEra
      else if current_time <? lock_time then Err OneHourNotPassedYet
      else
        let minutes := (current_time - lock_time) / 60 in
        if minutes <? 60 then Err OneHourNotPassedYet
        else
          let minutes := if 365 * 24 * 60 <? minutes then 365 * 24 * 60 else minutes in
          let minutes := if (1000000 <=? height) && (31 * 24 * 60 <? minutes) then 31 * 24 * 60 else minutes in
          let minutes := minutes - 59 in
          let accrued := u64 (value / 10512000 * minutes) in
          Ok (if KIP_0001_HARDFORK_HEIGHT <=? height then accrued / 500 else accrued)
  end.

Definition kmd_interest_accrue_stop_at (height lock_time : Z) : Z :=
  u64 (lock_time + (if height <? 1000000 then 365 * 24 * 60 * 60 else 31 * 24 * 60 * 60)).

Definition kmd_interest_accrue_start_at (lock_time : Z) : Z := u64 (lock_time + 60 * 60).

(** The sum over the inputs; [None]: the server failed. *)
Fixpoint interest_of (env : BuildEnv) (lock_time : Z) (ins : list UnsignedTransactionInput) (interest : Z) : option Z :=
  match ins with
  | [] => Some interest
  | i :: ins =>
      tx ← be_verbose env (op_hash (u_previous_output i));
      interest_of env lock_time ins
        (match kmd_interest (fst tx) (u_amount i) (snd tx) lock_time with
         | Ok output_interest => u64 (interest + output_interest)
         | Err _ => interest
         end)
  end.

(** The first output to the own script with the interest added, if there is one. *)
Fixpoint add_interest (interest : Z) (my_script_pub : bytes) (outs : list TransactionOutput) :
    option (list TransactionOutput) :=
  match outs with
  | [] => None
  | o :: outs =>
      if bool_decide (script_pubkey o = my_script_pub)
      then Some (mkTransactionOutput (u64 (value o + interest)) (script_pubkey o) :: outs)
      else cons o <$> add_interest interest my_script_pub outs
  end.

Definition calc_interest_if_required (coin : UtxoConf) (env : BuildEnv) (unsigned : TransactionInputSigner)
    (data : AdditionalTxData) (my_script_pub : bytes) :
    result (TransactionInputSigner * AdditionalTxData) GenerateTxError :=
  if negb (bool_decide (cf_ticker coin = "KMD")) then Ok (unsigned, data)
  else match be_mtp env with
  | None => Err Transport
  | Some lock_time =>
      match interest_of env lock_time (s_inputs unsigned) 0 with
      | None => Err Transport
      | Some interest =>
          let claimed d := mkTxData (received_by_me d) (spent_by_me d) (fee_amount d) (unused_change d) (Some interest) in
          if 0 <? interest then
            let outs := match add_interest interest my_script_pub (s_outputs unsigned) with
                        | Some outs => outs
                        | None => s_outputs unsigned ++ [mkTransactionOutput interest my_script_pub]
                        end in
            Ok (with_outputs outs (with_lock_time lock_time unsigned),
                claimed (mkTxData (u64 (received_by_me data + interest)) (spent_by_me data) (fee_amount data)
                           (unused_change data) (kmd_rewards data)))
          else Ok (with_lock_time (u32 (u32 (be_now env) - 3600 + 777 * 2)) unsigned, claimed data)
      end
  end.

(** ** Building *)

(** [script.opcodes().next() == Some(Ok(OP_RETURN))]. *)
Definition begins_op_return (script : bytes) : bool :=
  match opcodes script with Ok OP_RETURN :: _ => true | _ => false end.

(** The loop over the outputs: each pays at least the dust, unless its script begins
    with OP_RETURN.  The sums are of all outputs and of those to the own script. *)
Fixpoint check_outputs (dust : Z) (change_script_pubkey : bytes) (outs : list TransactionOutput) (sum received : Z) :
    result (Z * Z) GenerateTxError :=
  match outs with
  | [] => Ok (sum, received)
  | o :: outs =>
      if negb (begins_op_return (script_pubkey o)) && (value o <? dust)
      then Err (OutputValueLessThanDust (value o) dust)
      else check_outputs dust change_script_pubkey outs (u64 (sum + value o))
             (if bool_decide (script_pubkey o = change_script_pubkey) then u64 (received + value o) else received)
  end.

(** The fee is taken from the sum of the inputs or from an output.  [None] is the
    panic of an output that does not exist. *)
Definition apply_policy (dust : Z) (change_script_pubkey : bytes) (b : UtxoTxBuilder) (received : Z) :
    option (result (UtxoTxBuilder * Z) GenerateTxError) :=
  match b_fee_policy b with
  | SendExact => Some (Ok (set_outputs (s_outputs (b_tx b)) (u64 (b_sum_outputs_value b + b_tx_fee b)) b, received))
  | DeductFromOutput i =>
      let min_output := u64 (b_tx_fee b + dust) in
      o ← s_outputs (b_tx b) !! i;
      Some (if negb (min_output <=? value o) then Err (DeductFeeFromOutputFailed i (value o) min_output)
            else Ok (set_outputs (<[i := mkTransactionOutput (u64 (value o - b_tx_fee b)) (script_pubkey o)]> (s_outputs (b_tx b)))
                       (b_sum_outputs_value b) b,
                     if bool_decide (script_pubkey o = change_script_pubkey) then u64 (received - b_tx_fee b) else received))
  end.

(** The change, as an output or left to the miner. *)
Definition finish (dust : Z) (change_script_pubkey : bytes) (b : UtxoTxBuilder) (received : Z) :
    result (TransactionInputSigner * AdditionalTxData) GenerateTxError :=
  if negb (b_sum_outputs_value b <=? b_sum_inputs b)
  then Err (NotEnoughUtxos (b_sum_inputs b) (b_sum_outputs_value b))
  else
    let change := b_sum_inputs b - b_sum_outputs_value b in
    if is_change_output change dust then
      Ok (with_outputs (s_outputs (b_tx b) ++ [mkTransactionOutput change change_script_pubkey]) (b_tx b),
          mkTxData (u64 (received + change)) (b_sum_inputs b) (b_tx_fee b) None None)
    else
      Ok (b_tx b, mkTxData received (b_sum_inputs b) (b_tx_fee b) (if 0 <? change then Some change else None) None).

Section build.
Context (coin : UtxoConf) (env : BuildEnv).

Definition relay_answer : result (option Z) GenerateTxError :=
  if be_force_min_relay_fee env then match be_relay_fee env with Some fee => Ok (Some fee) | None => Err Transport end
  else Ok None.

(** From the point where the fee and the change script are known. *)
Definition build_with (b : UtxoTxBuilder) (segwit : bool) (change_script_pubkey : bytes) (actual_tx_fee : ActualTxFee) :
    option (result (TransactionInputSigner * AdditionalTxData) GenerateTxError) :=
  let dust := dust_of coin b in
  if is_nil (s_outputs (b_tx b)) then Some (Err EmptyOutputs)
  else match check_outputs dust change_script_pubkey (s_outputs (b_tx b)) (b_sum_outputs_value b) 0 with
  | Err e => Some (Err e)
  | Ok (sum, received) =>
      let sum := match b_gas_fee b with Some gas_fee => u64 (sum + gas_fee) | None => sum end in
      let b := set_outputs (s_outputs (b_tx b)) sum b in
      if is_nil (b_available_inputs b) && is_nil (s_inputs (b_tx b)) then Some (Err (EmptyUtxoSet sum))
      else match relay_answer with
      | Err e => Some (Err e)
      | Ok relay =>
          let b := set_relay relay b in
          let b := choose coin segwit actual_tx_fee b in
          policy ← apply_policy dust change_script_pubkey b received;
          Some (let? bp := policy in
                let? built := finish dust change_script_pubkey (fst bp) (snd bp) in
                calc_interest_if_required coin env (fst built) (snd built) change_script_pubkey)
      end
  end.

Definition build (b : UtxoTxBuilder) : option (result (TransactionInputSigner * AdditionalTxData) GenerateTxError) :=
  match b_from b with
  | None => Some (Err Internal)
  | Some from =>
      change_script_pubkey ← output_script (ad_segwit from) P2PKH (AddressHash (ad_hash from));
      match b_fee b, be_tx_fee env with
      | Some fee, _ | None, Some fee => build_with b (ad_segwit from) change_script_pubkey fee
      | None, None => Some (Err Transport)
      end
  end.

End build.

(** ** Builders and sums *)

Definition sum_amounts : list UnsignedTransactionInput → Z := foldr (λ i s, u_amount i + s) 0.
Definition sum_values : list TransactionOutput → Z := foldr (λ o s, value o + s) 0.
Definition sum_unspents : list UnspentInfo → Z := foldr (λ u s, un_value u + s) 0.

(** What the outputs pay to a script. *)
Definition paid_to (script : bytes) (outs : list TransactionOutput) : Z :=
  sum_values (filter (λ o, script_pubkey o = script) outs).
#[global] Arguments paid_to _ _ : simpl never.

(** The builders the methods make. *)
Inductive Built (coin : UtxoConf) : UtxoTxBuilder → Prop :=
| Built_new now iguana : Built coin (builder_new coin now iguana)
| Built_from from b : Built coin b → Built coin (with_from_address from b)
| Built_dust dust b : 0 ≤ dust → Built coin b → Built coin (with_dust dust b)
| Built_required ins b :
    Forall (λ u, 0 ≤ un_value u) ins → Built coin b → Built coin (add_required_inputs ins b)
| Built_available ins b :
    Forall (λ u, 0 ≤ un_value u) ins → Built coin b → Built coin (add_available_inputs ins b)
| Built_outputs outs b : Forall (λ o, 0 ≤ value o) outs → Built coin b → Built coin (add_outputs outs b)
| Built_policy policy b : Built coin b → Built coin (with_fee_policy policy b)
| Built_fee fee b : Built coin b → Built coin (with_fee fee b)
| Built_gas gas b : 0 ≤ gas → Built coin b → Built coin (with_gas_fee gas b).

(** The totals leave one bit of 64. *)
Definition totals_ok (coin : UtxoConf) (b : UtxoTxBuilder) : bool :=
  (sum_amounts (s_inputs (b_tx b)) + sum_unspents (b_available_inputs b) <? 2 ^ 63)
  && (sum_values (s_outputs (b_tx b)) + default 0 (b_gas_fee b) <? 2 ^ 63)
  && (0 <=? cf_dust_amount coin) && (dust_of coin b <? 2 ^ 63).

(** What a builder that is not wrapped around has. *)
Record sound (coin : UtxoConf) (b : UtxoTxBuilder) : Prop := mkSound {
  sound_inputs : Forall (λ i, 0 ≤ u_amount i) (s_inputs (b_tx b));
  sound_sum : b_sum_inputs b = sum_amounts (s_inputs (b_tx b));
  sound_available : Forall (λ u, 0 ≤ un_value u) (b_available_inputs b);
  sound_outputs : Forall (λ o, 0 ≤ value o) (s_outputs (b_tx b));
  sound_value : b_sum_outputs_value b = 0;
  sound_gas : 0 ≤ default 0 (b_gas_fee b);
  sound_dust : 0 ≤ dust_of coin b
}.

Lemma sum_amounts_app l k : sum_amounts (l ++ k) = sum_amounts l + sum_amounts k.
Proof. induction l as [|i l IH]; cbn in *; lia. Qed.
Lemma sum_values_app l k : sum_values (l ++ k) = sum_values l + sum_values k.
Proof. induction l as [|i l IH]; cbn in *; lia. Qed.
Lemma sum_unspents_app l k : sum_unspents (l ++ k) = sum_unspents l + sum_unspents k.
Proof. induction l as [|i l IH]; cbn in *; lia. Qed.
Lemma sum_amounts_nonneg l : Forall (λ i, 0 ≤ u_amount i) l → 0 ≤ sum_amounts l.
Proof. induction 1; cbn in *; lia. Qed.
Lemma sum_values_nonneg l : Forall (λ o, 0 ≤ value o) l → 0 ≤ sum_values l.
Proof. induction 1; cbn in *; lia. Qed.
Lemma sum_unspents_nonneg l : Forall (λ u, 0 ≤ un_value u) l → 0 ≤ sum_unspents l.
Proof. induction 1; cbn in *; lia. Qed.
Lemma sum_amounts_of l : sum_amounts (input_of <$> l) = sum_unspents l.
Proof. induction l as [|i l IH]; cbn in *; lia. Qed.

Lemma paid_to_cons script o l :
  paid_to script (o :: l) = (if bool_decide (script_pubkey o = script) then value o else 0) + paid_to script l.
Proof. unfold paid_to. rewrite filter_cons. case_bool_decide; case_decide; (done || cbn; lia). Qed.
Lemma paid_to_app script l k : paid_to script (l ++ k) = paid_to script l + paid_to script k.
Proof. induction l as [|o l IH]; [done|]. cbn [app]. rewrite !paid_to_cons. lia. Qed.
Lemma paid_to_range script l : Forall (λ o, 0 ≤ value o) l → 0 ≤ paid_to script l ≤ sum_values l.
Proof. induction 1 as [|o l ?? IH]; [done|]. rewrite paid_to_cons. cbn. case_bool_decide; lia. Qed.

(** Pushing unspents, as one change of the inputs. *)
Lemma push_inputs ins b :
  Forall (λ u, 0 ≤ un_value u) ins → 0 ≤ b_sum_inputs b → b_sum_inputs b + sum_unspents ins < 2 ^ 64 →
  foldl (λ b u, push_input u b) b ins
  = set_inputs (s_inputs (b_tx b) ++ (input_of <$> ins)) (b_sum_inputs b + sum_unspents ins) b.
Proof.
  intros Hp. revert b. induction Hp as [|u ins Hu Hp IH]; intros b H0 H64; cbn [foldl].
  - cbn. rewrite app_nil_r, Z.add_0_r. by destruct b as [???????]; destruct b_tx0.
  - pose proof (sum_unspents_nonneg _ Hp). change (sum_unspents (u :: ins)) with (un_value u + sum_unspents ins) in *.
    assert (push_input u b = set_inputs (s_inputs (b_tx b) ++ [input_of u]) (b_sum_inputs b + un_value u) b) as ->
      by (unfold push_input; by rewrite uwrap_id by (unfold is_u; lia)).
    rewrite IH by (cbn; lia). unfold set_inputs. cbn. f_equal; [|lia]. by rewrite <-app_assoc.
Qed.

Lemma push_inputs_shape ins b :
  ∃ sum, foldl (λ b u, push_input u b) b ins = set_inputs (s_inputs (b_tx b) ++ (input_of <$> ins)) sum b.
Proof.
  revert b. induction ins as [|u ins IH]; intros b; cbn [foldl fmap list_fmap].
  - exists (b_sum_inputs b). rewrite app_nil_r. by destruct b as [???????]; destruct b_tx0.
  - destruct (IH (push_input u b)) as [sum ->]. exists sum. unfold set_inputs. cbn. by rewrite <-app_assoc.
Qed.

(** Every method keeps the amounts non-negative, and the sum of the inputs right. *)
Lemma built_nonneg coin b :
  Built coin b → 0 ≤ cf_dust_amount coin →
  Forall (λ i, 0 ≤ u_amount i) (s_inputs (b_tx b)) ∧ Forall (λ u, 0 ≤ un_value u) (b_available_inputs b)
  ∧ Forall (λ o, 0 ≤ value o) (s_outputs (b_tx b)) ∧ b_sum_outputs_value b = 0 ∧ 0 ≤ default 0 (b_gas_fee b)
  ∧ 0 ≤ dust_of coin b.
Proof.
  intros HB Hd. unfold dust_of.
  induction HB as [now iguana|from b _ IH|dust b ? _ IH|ins b Hp _ IH|ins b Hp _ IH|outs b Hp _ IH|policy b _ IH
    |fee b _ IH|gas b ? _ IH]; cbn in *; try tauto; [done|..].
  - unfold add_required_inputs. destruct (push_inputs_shape ins b) as [sum ->]. cbn.
    rewrite Forall_app, Forall_fmap. cbn. split_and!; tauto.
  - rewrite Forall_app. tauto.
  - rewrite Forall_app. tauto.
Qed.

Lemma built_sum coin b :
  Built coin b → 0 ≤ cf_dust_amount coin → sum_amounts (s_inputs (b_tx b)) < 2 ^ 64 →
  b_sum_inputs b = sum_amounts (s_inputs (b_tx b)).
Proof.
  intros HB Hd.
  induction HB as [now iguana|from b _ IH|dust b ? _ IH|ins b Hp HB IH|ins b Hp _ IH|outs b Hp _ IH|policy b _ IH
    |fee b _ IH|gas b ? _ IH]; cbn in *; try tauto.
  unfold add_required_inputs. destruct (push_inputs_shape ins b) as [sum Es]. rewrite Es at 1. cbn.
  rewrite sum_amounts_app, sum_amounts_of. intros Hs. pose proof (sum_unspents_nonneg _ Hp).
  pose proof (sum_amounts_nonneg _ (proj1 (built_nonneg _ _ HB Hd))). rewrite push_inputs by (auto; rewrite IH; lia). cbn.
  rewrite sum_amounts_app, sum_amounts_of, IH; lia.
Qed.

Lemma built_sound coin b : Built coin b → totals_ok coin b = true → sound coin b.
Proof.
  intros HB. unfold totals_ok. rewrite !andb_true_iff, !Z.ltb_lt, Z.leb_le. intros [[[Hi Ho] Hd] _].
  destruct (built_nonneg _ _ HB Hd) as (?&Ha&?&?&?&?). pose proof (sum_unspents_nonneg _ Ha).
  split; try done. apply (built_sum coin); auto; lia.
Qed.

(** ** The choice of the inputs *)

Section choice.
Context (coin : UtxoConf) (segwit : bool) (fee : ActualTxFee).

Local Notation update := (update_fee_and_check_completeness coin segwit fee).

(** The fee of the builder, and whether its inputs pay for it. *)
Definition fee_at (b : UtxoTxBuilder) : Z := b_tx_fee (fst (update b)).
Definition complete_at (b : UtxoTxBuilder) : bool := snd (update b).

(** The builder with the first [k] of the unspents. *)
Definition pushed (k : nat) (utxos : list UnspentInfo) (b : UtxoTxBuilder) : UtxoTxBuilder :=
  foldl (λ b u, push_input u b) b (take k utxos).

Lemma update_shape b : ∃ c, fst (update b) = set_fees c (fee_at b) b.
Proof.
  unfold fee_at, update_fee_and_check_completeness. destruct (b_fee_policy b); repeat case_match; cbn; by eexists.
Qed.

(** The change and the fee of the round before do not matter. *)
Lemma update_set_fees c f b : fee_at (set_fees c f b) = fee_at b ∧ complete_at (set_fees c f b) = complete_at b.
Proof.
  unfold fee_at, complete_at, update_fee_and_check_completeness, v_size_of, dust_of.
  cbn [b_fee_policy b_tx b_sum_outputs_value b_sum_inputs b_min_relay_fee b_dust set_fees].
  destruct (b_fee_policy b); repeat case_match; done.
Qed.

Lemma pushed_set_fees c f k utxos b : pushed k utxos (set_fees c f b) = set_fees c f (pushed k utxos b).
Proof.
  unfold pushed. generalize (take k utxos). intros l. revert b. induction l as [|u l IH]; intros b; cbn; [done|].
  by rewrite <-IH.
Qed.

Lemma collect_spec utxos b :
  utxos ≠ [] →
  ∃ k c, (1 ≤ k ≤ length utxos)%nat ∧ collect coin segwit fee utxos b = set_fees c (fee_at (pushed k utxos b)) (pushed k utxos b)
    ∧ (complete_at (pushed k utxos b) = true ∨ k = length utxos)
    ∧ ∀ j, (1 ≤ j < k)%nat → complete_at (pushed j utxos b) = false.
Proof.
  revert b. induction utxos as [|u utxos IH]; intros b; [done|]. intros _. cbn [collect].
  destruct (update (push_input u b)) as [b1 complete] eqn:Eu.
  destruct (update_shape (push_input u b)) as [c Ec]. rewrite Eu in Ec. cbn in Ec.
  assert (Hc : complete_at (push_input u b) = complete) by (unfold complete_at; by rewrite Eu).
  destruct complete; [|destruct utxos as [|u' utxos']].
  - exists 1%nat, c. cbn. rewrite take_0. split_and!; try lia; auto.
  - exists 1%nat, c. cbn. split_and!; try lia; auto.
  - destruct (IH b1) as (k & c' & Hk & -> & Hd & Hj); [done|]. subst b1. rewrite pushed_set_fees in Hd |- *.
    rewrite (proj1 (update_set_fees _ _ _)). rewrite (proj2 (update_set_fees _ _ _)) in Hd.
    exists (S k), c'. cbn [length] in *. split_and!; try lia.
    + done.
    + destruct Hd as [Hd|Hd]; [by left|right; lia].
    + intros [|[|j]] Hj'; [lia|done|]. specialize (Hj (S j) ltac:(lia)).
      rewrite pushed_set_fees in Hj. by rewrite (proj2 (update_set_fees _ _ _)) in Hj.
Qed.

Lemma choose_spec b :
  (b_available_inputs b ≠ [] ∨ s_inputs (b_tx b) ≠ []) →
  let at_ k := pushed k (b_available_inputs b) b in
  ∃ k c, (k ≤ length (b_available_inputs b))%nat ∧ choose coin segwit fee b = set_fees c (fee_at (at_ k)) (at_ k)
    ∧ (complete_at (at_ k) = true ∨ k = length (b_available_inputs b))
    ∧ (k = 0%nat → s_inputs (b_tx b) ≠ [])
    ∧ ∀ j, (j < k)%nat → (j = 0%nat → s_inputs (b_tx b) ≠ []) → complete_at (at_ j) = false.
Proof.
  intros Hne at_. unfold choose. destruct (is_nil (s_inputs (b_tx b))) eqn:En.
  - assert (s_inputs (b_tx b) = []) as E0 by (by destruct (s_inputs (b_tx b))).
    destruct (collect_spec (b_available_inputs b) b) as (k & c & Hk & -> & Hd & Hj); [naive_solver|].
    exists k, c. split_and!; auto; try lia. intros [|j] ??; [naive_solver|]. apply Hj. lia.
  - assert (s_inputs (b_tx b) ≠ []) as E0 by (by destruct (s_inputs (b_tx b))).
    destruct (update b) as [b1 complete] eqn:Eu. destruct (update_shape b) as [c Ec]. rewrite Eu in Ec. cbn in Ec.
    assert (Hc : complete_at b = complete) by (unfold complete_at; by rewrite Eu).
    assert (H0 : at_ 0%nat = b) by done. destruct complete.
    + exists 0%nat, c. rewrite H0. split_and!; auto; lia.
    + destruct (decide (b_available_inputs b = [])) as [Ea|Ea].
      { exists 0%nat, c. rewrite H0. subst b1. cbn. rewrite Ea. cbn. split_and!; auto; lia. }
      destruct (collect_spec (b_available_inputs b1) b1) as (k & c' & Hk & -> & Hd & Hj); subst b1; [done|].
      cbn [b_available_inputs set_fees] in *. rewrite pushed_set_fees in Hd |- *.
      rewrite (proj1 (update_set_fees _ _ _)). rewrite (proj2 (update_set_fees _ _ _)) in Hd.
      exists k, c'. split_and!; auto; try lia. intros [|j] Hj' _; [by rewrite H0|]. specialize (Hj (S j) ltac:(lia)).
      rewrite pushed_set_fees in Hj. by rewrite (proj2 (update_set_fees _ _ _)) in Hj.
Qed.

End choice.

(** ** What is built *)

(** The builder when the inputs are chosen. *)
Definition prepared (sum : Z) (relay : option Z) (b : UtxoTxBuilder) : UtxoTxBuilder :=
  set_relay relay (set_outputs (s_outputs (b_tx b))
    (match b_gas_fee b with Some gas_fee => u64 (sum + gas_fee) | None => sum end) b).

(** The steps of a build that succeeds. *)
Record build_steps (coin : UtxoConf) (env : BuildEnv) (b : UtxoTxBuilder) (segwit : bool) (script : bytes)
    (fee : ActualTxFee) (tx : TransactionInputSigner) (data : AdditionalTxData) (k : nat) (sum received : Z)
    (relay : option Z) (c : Z) (b' : UtxoTxBuilder) (received' : Z) (tx' : TransactionInputSigner)
    (data' : AdditionalTxData) : Prop := mkSteps {
  steps_outputs : check_outputs (dust_of coin b) script (s_outputs (b_tx b)) (b_sum_outputs_value b) 0 = Ok (sum, received);
  steps_relay : relay_answer env = Ok relay;
  steps_k : (k ≤ length (b_available_inputs b))%nat;
  steps_some : k = 0%nat → s_inputs (b_tx b) ≠ [];
  steps_complete :
    complete_at coin segwit fee (pushed k (b_available_inputs b) (prepared sum relay b)) = true
    ∨ k = length (b_available_inputs b);
  steps_least : ∀ j, (j < k)%nat → (j = 0%nat → s_inputs (b_tx b) ≠ []) →
    complete_at coin segwit fee (pushed j (b_available_inputs b) (prepared sum relay b)) = false;
  steps_policy :
    let chosen := pushed k (b_available_inputs b) (prepared sum relay b) in
    apply_policy (dust_of coin b) script (set_fees c (fee_at coin segwit fee chosen) chosen) received
    = Some (Ok (b', received'));
  steps_finish : finish (dust_of coin b) script b' received' = Ok (tx', data');
  steps_interest : calc_interest_if_required coin env tx' data' script = Ok (tx, data)
}.

Lemma build_with_inv coin env b segwit script fee tx data :
  build_with coin env b segwit script fee = Some (Ok (tx, data)) →
  ∃ k sum received relay c b' received' tx' data',
    build_steps coin env b segwit script fee tx data k sum received relay c b' received' tx' data'.
Proof.
  unfold build_with. destruct (is_nil (s_outputs (b_tx b))); [done|].
  destruct (check_outputs _ _ _ _ _) as [[sum received]|] eqn:Eo; [|done].
  change (b_available_inputs (set_outputs _ _ b)) with (b_available_inputs b).
  change (s_inputs (b_tx (set_outputs _ _ b))) with (s_inputs (b_tx b)).
  destruct (is_nil (b_available_inputs b) && is_nil (s_inputs (b_tx b))) eqn:En; [done|].
  destruct (relay_answer env) as [relay|] eqn:Er; [|done]. fold (prepared sum relay b).
  destruct (choose_spec coin segwit fee (prepared sum relay b)) as (k & c & Hk & -> & Hc & H0 & Hj).
  { cbn. destruct (b_available_inputs b); [|by left]. destruct (s_inputs (b_tx b)); [done|by right]. }
  intros ([[b' received']|] & Ep & E)%bind_Some; [|done]. cbn [fst snd] in E. injection E as E.
  destruct (finish _ _ _ _) as [[tx' data']|] eqn:Ef; [|done]. cbn [fst snd] in E.
  exists k, sum, received, relay, c, b', received', tx', data'. by split.
Qed.

Lemma build_inv coin env b tx data :
  build coin env b = Some (Ok (tx, data)) →
  ∃ from script fee, b_from b = Some from ∧ output_script (ad_segwit from) P2PKH (AddressHash (ad_hash from)) = Some script
    ∧ (match b_fee b with Some fee => Some fee | None => be_tx_fee env end) = Some fee
    ∧ build_with coin env b (ad_segwit from) script fee = Some (Ok (tx, data)).
Proof.
  unfold build. destruct (b_from b) as [from|]; [|done]. intros (script & Es & E)%bind_Some.
  exists from, script. destruct (b_fee b) as [fee|], (be_tx_fee env) as [fee'|]; try done; by eexists.
Qed.

(** An output the network relays. *)
Definition not_dust (dust : Z) (o : TransactionOutput) : Prop := begins_op_return (script_pubkey o) = true ∨ dust ≤ value o.

Lemma check_outputs_inv dust script outs s r s' r' :
  check_outputs dust script outs s r = Ok (s', r') → Forall (λ o, 0 ≤ value o) outs → 0 ≤ r ≤ s → s + sum_values outs < 2 ^ 64 →
  s' = s + sum_values outs ∧ r' = r + paid_to script outs ∧ Forall (not_dust dust) outs.
Proof.
  revert s r. induction outs as [|o outs IH]; intros s r; cbn [check_outputs].
  { intros [= <- <-] _ _ _. unfold paid_to. cbn. split_and!; (done || lia). }
  destruct (negb _ && _) eqn:Ed; [done|]. intros Hc [Ho Hos]%Forall_cons_1 Hr Hs. cbn in Hs.
  pose proof (sum_values_nonneg _ Hos). rewrite paid_to_cons. rewrite (uwrap_id 64 (s + value o)) in Hc by (unfold is_u; lia).
  apply IH in Hc as (-> & -> & Hd); [|done|case_bool_decide; rewrite ?uwrap_id by (unfold is_u; lia); lia|lia].
  split_and!; cbn.
  - lia.
  - case_bool_decide; rewrite ?uwrap_id by (unfold is_u; lia); lia.
  - constructor; [|done]. unfold not_dust. destruct (begins_op_return _); [by left|]. cbn in Ed. apply Z.ltb_ge in Ed. by right.
Qed.

(** Komodo never pays more than a twentieth. *)
Lemma kmd_interest_range height v lock_time now interest :
  kmd_interest height v lock_time now = Ok interest → v < 2 ^ 64 → 0 ≤ interest ≤ v / 20.
Proof.
  unfold kmd_interest. destruct (Z.ltb_spec v 1000000000); [done|]. do 2 (case_match; [done|]).
  destruct height as [h|]; [|done]. do 2 (case_match; [done|]).
  destruct (Z.ltb_spec ((now - lock_time) / 60) 60) as [|Hl]; [done|]. intros [= <-] Hv. set (q := v / 10512000).
  match goal with |- context [u64 (q * ?m)] => set (minutes := m) end.
  assert (Hq : 95 ≤ q ∧ q * 10512000 ≤ v) by (unfold q; split; [apply Z.div_le_lower_bound; lia|]; pose proof (Z.mul_div_le v 10512000); lia).
  assert (Hm : 1 ≤ minutes ≤ 525541).
  { unfold minutes. destruct (Z.ltb_spec (365 * 24 * 60) ((now - lock_time) / 60)), (1000000 <=? h); cbn; try lia;
      case_match eqn:E; rewrite ?Z.ltb_lt, ?Z.ltb_ge in E; lia. }
  assert (Hp : 0 ≤ q * minutes ≤ v / 20) by (split; [nia|apply Z.div_le_lower_bound; nia]).
  assert (v / 20 ≤ v) by (apply Z.div_le_upper_bound; lia). rewrite uwrap_id by (unfold is_u; lia).
  case_match; [|done]. split; [apply Z.div_pos; lia|]. transitivity (q * minutes); [|lia]. apply Z.div_le_upper_bound; lia.
Qed.

Lemma interest_of_range env lock_time ins acc interest :
  interest_of env lock_time ins acc = Some interest → Forall (λ i, 0 ≤ u_amount i) ins → 0 ≤ acc →
  acc + sum_amounts ins < 2 ^ 64 → acc ≤ interest ∧ 20 * (interest - acc) ≤ sum_amounts ins.
Proof.
  revert acc. induction ins as [|i ins IH]; intros acc; [intros [= <-] *; cbn; lia|].
  cbn [interest_of]. intros ([height lt] & _ & E)%bind_Some [Hi Hin]%Forall_cons_1 Ha Hs. cbn [fst snd] in E.
  change (sum_amounts (i :: ins)) with (u_amount i + sum_amounts ins) in *. pose proof (sum_amounts_nonneg _ Hin).
  destruct (kmd_interest _ _ _ _) as [r|] eqn:Ek.
  - apply kmd_interest_range in Ek; [|lia]. pose proof (Z.mul_div_le (u_amount i) 20).
    rewrite uwrap_id in E by (unfold is_u; lia). apply IH in E; (assumption || lia).
  - apply IH in E; (assumption || lia).
Qed.

Lemma add_interest_some interest script outs outs' :
  add_interest interest script outs = Some outs' → Forall (λ o, 0 ≤ value o) outs → 0 ≤ interest →
  sum_values outs + interest < 2 ^ 64 →
  sum_values outs' = sum_values outs + interest ∧ paid_to script outs' = paid_to script outs + interest.
Proof.
  revert outs'. induction outs as [|o outs IH]; intros outs'; [done|].
  cbn [add_interest]. intros E [Ho Hos]%Forall_cons_1 Hi Hs. pose proof (sum_values_nonneg _ Hos).
  change (sum_values (o :: outs)) with (value o + sum_values outs) in *. case_bool_decide as Hc.
  - injection E as <-. rewrite !paid_to_cons. cbn. rewrite Hc, !bool_decide_true, uwrap_id by (done || (unfold is_u; lia)).
    split; lia.
  - destruct (add_interest interest script outs) as [outs1|]; [|done]. injection E as <-.
    destruct (IH outs1) as (H1 & H2); [done..|lia|]. rewrite !paid_to_cons. cbn.
    change (foldr _ 0 outs1) with (sum_values outs1). split; lia.
Qed.

Lemma sum_values_insert outs i o o' :
  outs !! i = Some o → sum_values (<[i := o']> outs) = sum_values outs - value o + value o'.
Proof. revert i. induction outs as [|x outs IH]; intros [|i] E; [done..| |]; cbn in *; [simplify_eq; lia|]. rewrite IH; [lia|done]. Qed.

Lemma paid_to_insert script outs i o o' :
  outs !! i = Some o → script_pubkey o' = script_pubkey o →
  paid_to script (<[i := o']> outs)
  = paid_to script outs + (if bool_decide (script_pubkey o = script) then value o' - value o else 0).
Proof.
  intros Hi Hs. revert i Hi. induction outs as [|x outs IH]; intros [|i] E; [done..| |]; simpl in E.
  - change (<[0%nat := o']> (x :: outs)) with (o' :: outs). rewrite !paid_to_cons. simplify_eq. rewrite Hs. case_bool_decide; lia.
  - change (<[S i := o']> (x :: outs)) with (x :: <[i := o']> outs). rewrite !paid_to_cons, IH by done. lia.
Qed.

Lemma paid_to_ge script outs i o :
  Forall (λ o, 0 ≤ value o) outs → outs !! i = Some o → script_pubkey o = script → value o ≤ paid_to script outs.
Proof.
  intros Hp. revert i. induction Hp as [|x outs Hx Hp IH]; intros [|i] E Hs; [done..| |]; rewrite paid_to_cons; cbn in E.
  - simplify_eq. rewrite bool_decide_true by done. pose proof (paid_to_range (script_pubkey o) _ Hp). lia.
  - specialize (IH _ E Hs). case_bool_decide; lia.
Qed.

Lemma sum_values_ge outs i o : Forall (λ o, 0 ≤ value o) outs → outs !! i = Some o → value o ≤ sum_values outs.
Proof.
  intros Hp. revert i. induction Hp as [|x outs Hx Hp IH]; intros [|i] E; [done..| |]; cbn in *;
    pose proof (sum_values_nonneg _ Hp); [simplify_eq; unfold sum_values in *; lia|]. specialize (IH _ E). unfold sum_values in *. lia.
Qed.

(** What [finish] and the interest keep of a builder whose fee is taken. *)
Record settled (script : bytes) (dust gas : Z) (b : UtxoTxBuilder) (received : Z) : Prop := mkSettled {
  settled_sum : b_sum_inputs b = sum_amounts (s_inputs (b_tx b));
  settled_outputs : Forall (λ o, 0 ≤ value o) (s_outputs (b_tx b));
  settled_value : b_sum_outputs_value b = sum_values (s_outputs (b_tx b)) + gas + b_tx_fee b;
  settled_received : received = paid_to script (s_outputs (b_tx b));
  settled_dust : Forall (not_dust dust) (s_outputs (b_tx b))
}.

Lemma apply_policy_settled dust script gas b received b' received' :
  apply_policy dust script b received = Some (Ok (b', received')) →
  b_sum_inputs b = sum_amounts (s_inputs (b_tx b)) → Forall (λ o, 0 ≤ value o) (s_outputs (b_tx b)) →
  Forall (not_dust dust) (s_outputs (b_tx b)) →
  b_sum_outputs_value b = sum_values (s_outputs (b_tx b)) + gas → 0 ≤ gas → sum_values (s_outputs (b_tx b)) + gas < 2 ^ 63 →
  is_u 63 (b_tx_fee b) → is_u 63 dust → received = paid_to script (s_outputs (b_tx b)) →
  settled script dust gas b' received' ∧ b_tx_fee b' = b_tx_fee b ∧ s_inputs (b_tx b') = s_inputs (b_tx b)
  ∧ map script_pubkey (s_outputs (b_tx b')) = map script_pubkey (s_outputs (b_tx b))
  ∧ (b_fee_policy b = SendExact → s_outputs (b_tx b') = s_outputs (b_tx b)).
Proof.
  unfold is_u. intros E Hs Hp Hd Hv Hg H63 Hf Hdu ->. pose proof (sum_values_nonneg _ Hp). pose proof (paid_to_range script _ Hp).
  unfold apply_policy in E. destruct (b_fee_policy b) as [|i].
  - injection E as <- <-. split_and!; try done. split; try done. cbn. rewrite uwrap_id by (unfold is_u; lia). lia.
  - apply bind_Some in E as (o & Eo & E). rewrite (uwrap_id 64 (b_tx_fee b + dust)) in E by (unfold is_u; lia).
    destruct (Z.leb_spec (b_tx_fee b + dust) (value o)) as [Hm|]; [|done]. injection E as <- <-.
    assert (value o < 2 ^ 63) by (pose proof (sum_values_ge _ _ _ Hp Eo); lia).
    rewrite !(uwrap_id 64 (value o - _)) by (unfold is_u; lia).
    split_and!; try done. 2: { cbn. erewrite list_fmap_insert, list_insert_id; [done|]. by rewrite list_lookup_fmap, Eo. }
    split; cbn; try done.
    + apply Forall_insert; [done|cbn; lia].
    + erewrite sum_values_insert by done. cbn. lia.
    + erewrite paid_to_insert by done. cbn. case_bool_decide as Ec; [|lia].
      pose proof (paid_to_ge _ _ _ _ Hp Eo Ec). rewrite uwrap_id by (unfold is_u; lia). lia.
    + apply Forall_insert; [done|]. right. cbn. lia.
Qed.

(** The transaction and the data that are reported of it: what goes in comes out, and
    the data are right. *)
Record balanced (script : bytes) (gas : Z) (tx : TransactionInputSigner) (data : AdditionalTxData) : Prop := mkBalanced {
  balanced_sum :
    sum_amounts (s_inputs tx) + default 0 (kmd_rewards data)
    = sum_values (s_outputs tx) + gas + fee_amount data + default 0 (unused_change data);
  balanced_spent : spent_by_me data = sum_amounts (s_inputs tx);
  balanced_received : received_by_me data = paid_to script (s_outputs tx)
}.

(** The outputs of a transaction, with the change that may follow them. *)
Definition change_of (script : bytes) (outs outs' : list TransactionOutput) : Prop :=
  outs' = outs ∨ ∃ change, 0 < change ∧ outs' = outs ++ [mkTransactionOutput change script].

Lemma finish_balanced dust script gas b received tx data :
  finish dust script b received = Ok (tx, data) → settled script dust gas b received → is_u 63 (b_tx_fee b) → 0 ≤ gas →
  sum_amounts (s_inputs (b_tx b)) < 2 ^ 63 →
  balanced script gas tx data ∧ fee_amount data = b_tx_fee b ∧ s_inputs tx = s_inputs (b_tx b)
  ∧ kmd_rewards data = None ∧ 0 ≤ default 0 (unused_change data) < Z.max 1 dust
  ∧ change_of script (s_outputs (b_tx b)) (s_outputs tx) ∧ Forall (λ o, 0 ≤ value o) (s_outputs tx)
  ∧ Forall (not_dust dust) (s_outputs tx).
Proof.
  unfold finish. intros E [Hs Hp Hv -> Hd] Hf Hg H63. unfold is_u in Hf.
  pose proof (sum_values_nonneg _ Hp). pose proof (paid_to_range script _ Hp).
  destruct (Z.leb_spec (b_sum_outputs_value b) (b_sum_inputs b)) as [Hle|]; [|done]. cbn in E.
  unfold is_change_output in E. set (change := b_sum_inputs b - b_sum_outputs_value b) in *.
  destruct (Z.ltb_spec 0 change); [destruct (Z.leb_spec dust change)|]; cbn in E; injection E as <- <-.
  - split_and!; cbn; try done; try lia.
    + split; cbn; [rewrite sum_values_app; cbn; lia|done|]. rewrite paid_to_app, paid_to_cons. cbn.
      rewrite bool_decide_true, uwrap_id by (done || (unfold is_u; lia)). change (paid_to script []) with 0. lia.
    + right. by exists change.
    + apply Forall_app_2; [done|]. apply Forall_singleton. cbn. lia.
    + apply Forall_app_2; [done|]. apply Forall_singleton. by right.
  - split_and!; cbn; try done; try lia; [|by left]. split; cbn; [lia|done|done].
  - split_and!; cbn; try done; try lia; [|by left]. split; cbn; [lia|done|done].
Qed.

(** The interest is paid on top. *)
Lemma interest_balanced coin env script gas tx data tx' data' :
  calc_interest_if_required coin env tx data script = Ok (tx', data') → balanced script gas tx data →
  kmd_rewards data = None → Forall (λ i, 0 ≤ u_amount i) (s_inputs tx) → Forall (λ o, 0 ≤ value o) (s_outputs tx) →
  sum_amounts (s_inputs tx) < 2 ^ 63 → 0 ≤ gas → 0 ≤ fee_amount data → 0 ≤ default 0 (unused_change data) →
  balanced script gas tx' data' ∧ s_inputs tx' = s_inputs tx ∧ fee_amount data' = fee_amount data
  ∧ unused_change data' = unused_change data.
Proof.
  intros E [Hb Hsp Hr] Hk Hi Ho H63 Hg Hf Hu. unfold calc_interest_if_required in E.
  destruct (bool_decide _); cbn in E; [|injection E as <- <-; split_and!; try done; by split].
  destruct (be_mtp env) as [lt|]; [|done]. destruct (interest_of _ _ _ _) as [interest|] eqn:Ei; [|done].
  pose proof (sum_amounts_nonneg _ Hi). rewrite Hk in Hb. cbn in Hb.
  apply interest_of_range in Ei as [Hi0 Hi20]; [|done|lia..]. pose proof (paid_to_range script _ Ho).
  destruct (Z.ltb_spec 0 interest); injection E as <- <-; cbn; [|split_and!; try done; split; cbn; (done || lia)].
  split_and!; try done. rewrite Hr, uwrap_id by (unfold is_u; lia).
  destruct (add_interest _ _ _) as [outs'|] eqn:Ea; split; cbn; try done.
  - apply add_interest_some in Ea as (Hv & _); [lia|done|lia..].
  - apply add_interest_some in Ea as (_ & Hv); [lia|done|lia..].
  - rewrite sum_values_app. cbn. lia.
  - rewrite paid_to_app, paid_to_cons. cbn. rewrite bool_decide_true by done. change (paid_to script []) with 0. lia.
Qed.

Lemma steps_fee coin env b segwit script fee tx data k sum received relay c b' received' tx' data' :
  build_steps coin env b segwit script fee tx data k sum received relay c b' received' tx' data' →
  fee_amount data = fee_at coin segwit fee (pushed k (b_available_inputs b) (prepared sum relay b)).
Proof.
  intros []. transitivity (fee_amount data').
  - unfold calc_interest_if_required in steps_interest0. repeat case_match; by simplify_eq.
  - transitivity (b_tx_fee b').
    + unfold finish in steps_finish0. repeat case_match; by simplify_eq.
    + unfold apply_policy in steps_policy0. case_match; [by simplify_eq|].
      apply bind_Some in steps_policy0 as (o & _ & E). case_match; by simplify_eq.
Qed.

(** The sums of a builder as the loops see them. *)
Lemma prepared_sums coin b script sum received relay k :
  sound coin b → totals_ok coin b = true →
  check_outputs (dust_of coin b) script (s_outputs (b_tx b)) (b_sum_outputs_value b) 0 = Ok (sum, received) →
  let ins := s_inputs (b_tx b) ++ (input_of <$> take k (b_available_inputs b)) in
  pushed k (b_available_inputs b) (prepared sum relay b) = set_inputs ins (sum_amounts ins) (prepared sum relay b)
  ∧ b_sum_outputs_value (prepared sum relay b) = sum_values (s_outputs (b_tx b)) + default 0 (b_gas_fee b)
  ∧ received = paid_to script (s_outputs (b_tx b)) ∧ Forall (not_dust (dust_of coin b)) (s_outputs (b_tx b))
  ∧ Forall (λ i, 0 ≤ u_amount i) ins ∧ 0 ≤ sum_amounts ins < 2 ^ 63.
Proof.
  intros [Hi Hs Ha Ho Hv Hg Hd] HT Ec ins. unfold totals_ok in HT. rewrite !andb_true_iff, !Z.ltb_lt, Z.leb_le in HT.
  destruct HT as [[[HT1 HT2] _] _]. pose proof (sum_values_nonneg _ Ho).
  apply check_outputs_inv in Ec as (-> & -> & Hnd); [|done|lia..]. rewrite Hv in *.
  assert (Hk : Forall (λ u, 0 ≤ un_value u) (take k (b_available_inputs b))) by by apply Forall_take.
  assert (Hsum : sum_unspents (take k (b_available_inputs b)) ≤ sum_unspents (b_available_inputs b)).
  { rewrite <-(take_drop k (b_available_inputs b)) at 2. rewrite sum_unspents_app.
    pose proof (sum_unspents_nonneg (drop k (b_available_inputs b)) ltac:(by apply Forall_drop)). lia. }
  pose proof (sum_unspents_nonneg _ Hk). pose proof (sum_amounts_nonneg _ Hi).
  assert (Hins : sum_amounts ins = sum_amounts (s_inputs (b_tx b)) + sum_unspents (take k (b_available_inputs b)))
    by (unfold ins; by rewrite sum_amounts_app, sum_amounts_of).
  split_and!; try done; try lia.
  - unfold pushed. rewrite push_inputs by (cbn; rewrite ?Hs; (done || lia)). rewrite Hins. cbn. by rewrite Hs.
  - unfold prepared. cbn. destruct (b_gas_fee b); cbn in *; [rewrite uwrap_id by (unfold is_u; lia)|]; lia.
  - unfold ins. apply Forall_app_2; [done|]. by apply Forall_fmap.
Qed.

Lemma steps_settled coin env b segwit script fee tx data k sum received relay c b' received' tx' data' :
  sound coin b → totals_ok coin b = true → is_u 63 (fee_amount data) →
  build_steps coin env b segwit script fee tx data k sum received relay c b' received' tx' data' →
  settled script (dust_of coin b) (default 0 (b_gas_fee b)) b' received' ∧ b_tx_fee b' = fee_amount data
  ∧ s_inputs (b_tx b') = s_inputs (b_tx b) ++ (input_of <$> take k (b_available_inputs b))
  ∧ map script_pubkey (s_outputs (b_tx b')) = map script_pubkey (s_outputs (b_tx b))
  ∧ (b_fee_policy b = SendExact → s_outputs (b_tx b') = s_outputs (b_tx b)).
Proof.
  intros Hs HT Hf Hst. pose proof (steps_fee _ _ _ _ _ _ _ _ _ _ _ _ _ _ _ _ _ Hst) as Ef. destruct Hst.
  destruct (prepared_sums _ _ _ _ _ relay k Hs HT steps_outputs0) as (Ep & Ev & -> & Hnd & _ & Hr).
  cbn zeta in steps_policy0. rewrite <-Ef, Ep in steps_policy0.
  unfold totals_ok in HT. rewrite !andb_true_iff, !Z.ltb_lt, Z.leb_le in HT.
  eapply apply_policy_settled in steps_policy0 as (? & -> & -> & -> & Ho); cbn in *; try done; try (by apply Hs); try tauto.
  split; [by apply Hs|tauto].
Qed.

(** C12: whatever sequence of the builder's methods made the builder, the transaction it
    builds spends the required inputs and the first of the available ones, and is
    balanced: the inputs, with Komodo's interest, are the outputs, the gas, the fee
    and what is left to the miner, which is below the dust.  The amounts reported as
    spent and received are those of the transaction. *)
Theorem build_balance coin env b tx data :
  Built coin b → totals_ok coin b = true → build coin env b = Some (Ok (tx, data)) → is_u 63 (fee_amount data) →
  ∃ from script k, b_from b = Some from ∧ output_script (ad_segwit from) P2PKH (AddressHash (ad_hash from)) = Some script
    ∧ s_inputs tx = s_inputs (b_tx b) ++ (input_of <$> take k (b_available_inputs b))
    ∧ balanced script (default 0 (b_gas_fee b)) tx data
    ∧ 0 ≤ default 0 (unused_change data) < Z.max 1 (dust_of coin b).
Proof.
  intros HB HT (from & script & fee & Ef & Es & _ & E)%build_inv Hfee. pose proof (built_sound _ _ HB HT) as Hs.
  apply build_with_inv in E as (k & sum & received & relay & c & b' & received' & tx' & data' & Hst).
  destruct (steps_settled _ _ _ _ _ _ _ _ _ _ _ _ _ _ _ _ _ Hs HT Hfee Hst) as (Hse & Hfe & Hi & _).
  destruct Hst. destruct (prepared_sums _ _ _ _ _ relay k Hs HT steps_outputs0) as (_ & _ & _ & _ & Hp & Hr).
  rewrite <-Hfe in Hfee. rewrite <-Hi in Hp, Hr.
  destruct (finish_balanced _ _ _ _ _ _ _ steps_finish0 Hse Hfee (sound_gas _ _ Hs) (proj2 Hr))
    as (Hb & Hfa & Hi' & Hk & Hu & _ & Ho & _).
  rewrite <-Hi' in Hp, Hr. unfold is_u in Hfee.
  destruct (interest_balanced _ _ _ _ _ _ _ _ steps_interest0 Hb Hk Hp Ho (proj2 Hr) (sound_gas _ _ Hs))
    as (Hb' & Hi'' & _ & Hu'); [lia..|]. exists from, script, k. rewrite Hu', Hi'', Hi'. done.
Qed.

(** ** The size and the fee *)

(** Another output does not lengthen the count of outputs (up to three bytes). *)
Definition counts_on (n : nat) : bool := negb (Z.of_nat n =? 0xfc) && (Z.of_nat n <? 0xffff).

Lemma ser_outputs_snoc l o :
  counts_on (length l) = true → (length (script_pubkey o) ≤ 25)%nat →
  Z.of_nat (length (ser c_outputs l)) ≤ Z.of_nat (length (ser c_outputs (l ++ [o])))
  ≤ Z.of_nat (length (ser c_outputs l)) + P2PKH_OUTPUT_LEN.
Proof.
  unfold counts_on. rewrite andb_true_iff, negb_true_iff, Z.eqb_neq, Z.ltb_lt. intros [Hl Hl'] Ho.
  cbn [ser c_list]. unfold append_list, P2PKH_OUTPUT_LEN.
  rewrite map_app, concat_app, !length_app, !Nat2Z.inj_add, !CompactInteger_length by lia. cbn [map concat].
  rewrite app_nil_r. cbn [ser c_TransactionOutput c_Bytes]. rewrite !length_app, !Nat2Z.inj_add, CompactInteger_length by lia.
  unfold serialized_length. cbn [length]. change (length (ser c_u64 (value o))) with 8%nat. zcases; lia.
Qed.

Lemma ser_outputs_prefix l k : (length (ser c_outputs l) ≤ length (ser c_outputs (l ++ k)))%nat.
Proof.
  apply Nat2Z.inj_le. cbn [ser c_list]. unfold append_list.
  rewrite map_app, concat_app, !length_app, !Nat2Z.inj_add, !CompactInteger_length by lia.
  unfold serialized_length. zcases; lia.
Qed.

(** The values do not matter to the size. *)
Lemma ser_outputs_length l k :
  map script_pubkey l = map script_pubkey k → length (ser c_outputs l) = length (ser c_outputs k).
Proof.
  intros E. cbn [ser c_list]. unfold append_list. rewrite !length_app.
  assert (Hl : length l = length k) by (rewrite <-(length_map script_pubkey l), E; apply length_map). rewrite Hl. f_equal.
  clear Hl. revert k E. induction l as [|o l IH]; intros [|o' k] [=]; [done|]. cbn [map concat]. rewrite !length_app.
  rewrite (IH k) by done. cbn [ser c_TransactionOutput]. rewrite !length_app.
  change (length (ser c_u64 _)) with 8%nat. congruence.
Qed.

Lemma serialize_outputs_length s outs outs' :
  (length (serialize (transaction_of (with_outputs outs s))) + length (ser c_outputs outs')
   = length (serialize (transaction_of (with_outputs outs' s))) + length (ser c_outputs outs))%nat.
Proof.
  unfold serialize, serialize_with_flags. change (with_witness 0 _) with false. cbv iota.
  rewrite !length_app. cbn [inputs outputs transaction_of with_outputs s_inputs s_outputs].
  change (tx_header (transaction_of (with_outputs outs s))) with (tx_header (transaction_of (with_outputs outs' s))).
  change (ser_sapling (transaction_of (with_outputs outs s))) with (ser_sapling (transaction_of (with_outputs outs' s))).
  change (ser_join_splits (transaction_of (with_outputs outs s))) with (ser_join_splits (transaction_of (with_outputs outs' s))).
  change (ser_binding_sig (transaction_of (with_outputs outs s))) with (ser_binding_sig (transaction_of (with_outputs outs' s))).
  cbn [overwintered version_group_id n_time lock_time zcash str_d_zeel transaction_of with_outputs
    s_overwintered s_version_group_id s_n_time s_lock_time s_zcash s_str_d_zeel]. lia.
Qed.

Lemma size_of_outputs segwit s outs outs' d :
  0 ≤ d → Z.of_nat (length (ser c_outputs outs)) ≤ Z.of_nat (length (ser c_outputs outs')) ≤ Z.of_nat (length (ser c_outputs outs)) + d →
  let size outs := tx_size_in_v_bytes segwit (transaction_of (with_outputs outs s)) in
  size outs ≤ size outs' ≤ size outs + d.
Proof.
  intros Hd Hl size. unfold size, tx_size_in_v_bytes, segwit_virtual_size.
  change (inputs (transaction_of (with_outputs outs' s))) with (inputs (transaction_of (with_outputs outs s))).
  pose proof (serialize_outputs_length s outs outs') as E. apply (f_equal Z.of_nat) in E. rewrite !Nat2Z.inj_add in E.
  set (x := Z.of_nat (length (serialize (transaction_of (with_outputs outs s))))) in *.
  set (y := Z.of_nat (length (serialize (transaction_of (with_outputs outs' s))))) in *.
  destruct segwit; [|lia]. split; [apply Z.div_le_mono; lia|].
  match goal with |- _ ≤ ?t / 4 + d => rewrite <-(Z.div_add t d 4) by lia end. apply Z.div_le_mono; lia.
Qed.

Definition rate_per_kb (f : ActualTxFee) : Z :=
  match f with Dynamic rate | FixedPerKb rate | FixedPerStartedKb rate => rate end.

Lemma fee_for_size_mono f x y : 0 ≤ rate_per_kb f → 0 ≤ x ≤ y → 0 ≤ fee_for_size f x ≤ fee_for_size f y.
Proof.
  intros Hr Hx. assert (0 ≤ U64_MAX) by done. unfold fee_for_size, KILO_BYTE, started_kilobytes, KILO_BYTE.
  destruct f; cbn in Hr.
  1,2: assert (0 ≤ rate * x / 1000) by (apply Z.div_pos; nia);
       assert (rate * x / 1000 ≤ rate * y / 1000) by (apply Z.div_le_mono; nia); lia.
  assert (0 ≤ (x + (1000 - 1)) / 1000) by (apply Z.div_pos; lia).
  assert ((x + (1000 - 1)) / 1000 ≤ (y + (1000 - 1)) / 1000) by (apply Z.div_le_mono; lia). nia.
Qed.

(** The fee of the policy and the relay fee, for a size. *)
Definition required_fee (fee : ActualTxFee) (relay : option Z) (size : Z) : Z :=
  Z.max (fee_for_size fee size) (default 0 (relay_fee_for_size relay size)).

Lemma required_fee_mono fee relay x y :
  0 ≤ rate_per_kb fee → 0 ≤ default 0 relay → 0 ≤ x ≤ y → 0 ≤ required_fee fee relay x ≤ required_fee fee relay y.
Proof.
  intros Hf Hr Hx. pose proof (fee_for_size_mono fee x y Hf Hx). unfold required_fee, relay_fee_for_size.
  destruct relay as [r|]; cbn in *; [|lia]. pose proof (fee_for_size_mono (Dynamic r) x y Hr Hx). cbn in *. lia.
Qed.

(** One case of the fee, with nothing wrapped around. *)
Ltac leaf :=
  rewrite ?(uwrap_id 64 (_ + _ + (_ - _))) by (unfold is_u; lia);
  try match goal with |- context [?f <? ?r] => destruct (Z.ltb_spec f r) end;
  cbn [fst snd b_tx_fee set_fees];
  rewrite ?(uwrap_id 64 (_ - _)) by (unfold is_u; lia); rewrite ?uwrap_id by (unfold is_u; lia);
  (split; [lia|]); first [symmetry; apply Z.leb_le; lia | f_equal; lia].

Section update_fee.
Context (coin : UtxoConf) (segwit : bool) (fee : ActualTxFee) (b : UtxoTxBuilder).
Context (Hfee : 0 ≤ rate_per_kb fee) (Hrelay : 0 ≤ default 0 (b_min_relay_fee b)).
Context (Hin : is_u 63 (b_sum_inputs b)) (Hout : is_u 63 (b_sum_outputs_value b)).

Local Notation v := (v_size_of segwit b).

(** What the inputs have to cover, with the fee [f]. *)
Definition to_pay (f : Z) : Z :=
  match b_fee_policy b with SendExact => b_sum_outputs_value b + f | DeductFromOutput _ => b_sum_outputs_value b end.

(** The fee in one expression: that of the size with the change, if the inputs leave
    one after the fee of the size without it. *)
Definition plain_fee : Z :=
  let base := to_pay (fee_for_size fee v) in
  if base <=? b_sum_inputs b then
    required_fee fee (b_min_relay_fee b)
      (if is_change_output (b_sum_inputs b - base) (dust_of coin b) then v + P2PKH_OUTPUT_LEN else v)
  else fee_for_size fee v.

Context (Hv : 0 ≤ v < 2 ^ 63) (Hbound : required_fee fee (b_min_relay_fee b) (v + P2PKH_OUTPUT_LEN) < 2 ^ 63).

Lemma increase_plain :
  change_output_increase fee v = fee_for_size fee (v + P2PKH_OUTPUT_LEN) - fee_for_size fee v
  ∧ 0 ≤ fee_for_size fee v ≤ fee_for_size fee (v + P2PKH_OUTPUT_LEN) ∧ fee_for_size fee (v + P2PKH_OUTPUT_LEN) < 2 ^ 63.
Proof using Hfee Hv Hbound.
  unfold required_fee, change_output_increase, P2PKH_OUTPUT_LEN in *.
  pose proof (fee_for_size_mono fee v (v + 34) Hfee ltac:(lia)). rewrite Z.min_l by (unfold U64_MAX; lia). lia.
Qed.

(** The routine computes it, and its round is the last when the inputs pay for it. *)
Lemma update_plain :
  fee_at coin segwit fee b = plain_fee ∧ complete_at coin segwit fee b = (to_pay plain_fee <=? b_sum_inputs b).
Proof using Hfee Hrelay Hin Hout Hv Hbound.
  destruct increase_plain as (Hi & Hf & H63). unfold is_u in *.
  assert (Hsz : 0 ≤ v ≤ v + P2PKH_OUTPUT_LEN) by (unfold P2PKH_OUTPUT_LEN; lia).
  pose proof (required_fee_mono fee (b_min_relay_fee b) _ _ Hfee Hrelay Hsz) as Hm. revert Hbound Hm.
  unfold fee_at, complete_at, plain_fee, to_pay, update_fee_and_check_completeness, required_fee.
  rewrite (uwrap_id 64 (v + P2PKH_OUTPUT_LEN)), Hi by (unfold is_u, P2PKH_OUTPUT_LEN; lia). intros Hb' Hm.
  remember (fee_for_size fee (v + P2PKH_OUTPUT_LEN)) as F1 eqn:E1. remember (fee_for_size fee v) as F0 eqn:E0.
  replace (F0 + (F1 - F0)) with F1 by lia. rewrite (uwrap_id 64 F1) by (unfold is_u; lia).
  destruct (b_fee_policy b).
  - rewrite (uwrap_id 64 (_ + F0)) by (unfold is_u; lia).
    destruct (Z.leb_spec (b_sum_outputs_value b + F0) (b_sum_inputs b)) as [Hle|Hlt]; cbn [fst snd].
    2: { cbn. split; [done|]. symmetry. by apply Z.leb_gt. }
    destruct (is_change_output _ _); rewrite <-?E0, <-?E1.
    + destruct (relay_fee_for_size _ (v + _)) as [r|]; cbn [default from_option id] in *; leaf.
    + destruct (relay_fee_for_size _ v) as [r|]; cbn [default from_option id] in *; leaf.
  - destruct (Z.leb_spec (b_sum_outputs_value b) (b_sum_inputs b)) as [Hle|Hlt]; cbn [fst snd].
    2: { by cbn. }
    destruct (is_change_output _ _); rewrite <-?E0, <-?E1; unfold raised.
    + destruct (relay_fee_for_size _ (v + _)) as [r|]; cbn [default from_option id] in *; leaf.
    + destruct (relay_fee_for_size _ v) as [r|]; cbn [default from_option id] in *; leaf.
Qed.

End update_fee.

Lemma plain_fee_covers coin segwit fee b :
  0 ≤ rate_per_kb fee → 0 ≤ default 0 (b_min_relay_fee b) → 0 ≤ v_size_of segwit b →
  let v := v_size_of segwit b in
  let f := plain_fee coin segwit fee b in
  0 ≤ f ≤ required_fee fee (b_min_relay_fee b) (v + P2PKH_OUTPUT_LEN)
  ∧ (to_pay b f ≤ b_sum_inputs b →
     required_fee fee (b_min_relay_fee b) v ≤ f
     ∧ (is_change_output (b_sum_inputs b - to_pay b f) (dust_of coin b) = true →
        required_fee fee (b_min_relay_fee b) (v + P2PKH_OUTPUT_LEN) ≤ f)).
Proof.
  intros Hf Hr Hv v f. assert (Hsz : 0 ≤ v ≤ v + P2PKH_OUTPUT_LEN) by (unfold v, P2PKH_OUTPUT_LEN; lia).
  pose proof (required_fee_mono fee (b_min_relay_fee b) _ _ Hf Hr Hsz). pose proof (fee_for_size_mono fee _ _ Hf Hsz).
  assert (Hle : fee_for_size fee v ≤ required_fee fee (b_min_relay_fee b) v) by (unfold required_fee; lia).
  unfold f, plain_fee. fold v.
  destruct (Z.leb_spec (to_pay b (fee_for_size fee v)) (b_sum_inputs b)) as [|Hlt]; [|split; [lia|]; lia].
  destruct (is_change_output _ _) eqn:Ec; (split; [lia|]); intros Hp; (split; [lia|]); [done|].
  unfold is_change_output, to_pay in *. rewrite andb_true_iff, andb_false_iff, Z.ltb_lt, Z.ltb_ge, Z.leb_le, Z.leb_gt in *.
  destruct (b_fee_policy b); lia.
Qed.

(** The transaction before the interest, as outputs put into the chosen builder. *)
Lemma steps_shape coin env b segwit script fee tx data k sum received relay c b' received' tx' data' :
  build_steps coin env b segwit script fee tx data k sum received relay c b' received' tx' data' →
  let chosen := pushed k (b_available_inputs b) (prepared sum relay b) in
  ∃ outs, map script_pubkey outs = map script_pubkey (s_outputs (b_tx b))
  ∧ let sum_out := match b_fee_policy b with
                   | SendExact => u64 (b_sum_outputs_value chosen + fee_amount data)
                   | DeductFromOutput _ => b_sum_outputs_value chosen
                   end in
    sum_out ≤ b_sum_inputs chosen
    ∧ ((tx' = with_outputs outs (b_tx chosen))
       ∨ ∃ change, change = b_sum_inputs chosen - sum_out ∧ is_change_output change (dust_of coin b) = true
           ∧ tx' = with_outputs (outs ++ [mkTransactionOutput change script]) (b_tx chosen)).
Proof.
  intros Hst. pose proof (steps_fee _ _ _ _ _ _ _ _ _ _ _ _ _ _ _ _ _ Hst) as Ef. destruct Hst. cbn zeta in *.
  set (chosen := pushed k (b_available_inputs b) (prepared sum relay b)) in *. rewrite <-Ef in steps_policy0. clear Ef.
  assert (Hp : b_fee_policy chosen = b_fee_policy b ∧ s_outputs (b_tx chosen) = s_outputs (b_tx b)).
  { unfold chosen, pushed. by destruct (push_inputs_shape (take k (b_available_inputs b)) (prepared sum relay b)) as [s ->]. }
  exists (s_outputs (b_tx b')).
  assert (Hb' : map script_pubkey (s_outputs (b_tx b')) = map script_pubkey (s_outputs (b_tx b))
    ∧ b_tx b' = with_outputs (s_outputs (b_tx b')) (b_tx chosen) ∧ b_sum_inputs b' = b_sum_inputs chosen
    ∧ b_sum_outputs_value b' = match b_fee_policy b with
                   | SendExact => u64 (b_sum_outputs_value chosen + fee_amount data)
                   | DeductFromOutput _ => b_sum_outputs_value chosen end).
  { destruct Hp as [Hp Ho]. unfold apply_policy in steps_policy0. cbn in steps_policy0. rewrite Hp in steps_policy0.
    destruct (b_fee_policy b); [injection steps_policy0 as <- _; cbn; by rewrite Ho|].
    apply bind_Some in steps_policy0 as (o & Eo & E). case_match; [done|]. simplify_eq. split_and!; try done. cbn.
    erewrite list_fmap_insert, list_insert_id; [by rewrite Ho|]. cbn. by rewrite list_lookup_fmap, Eo. }
  destruct Hb' as (-> & Et & <- & <-). split; [done|]. unfold finish in steps_finish0.
  destruct (Z.leb_spec (b_sum_outputs_value b') (b_sum_inputs b')) as [Hle|]; [|done]. split; [done|]. cbn in steps_finish0.
  destruct (is_change_output _ _) eqn:Ei; injection steps_finish0 as <- _; [right|by left].
  exists (b_sum_inputs b' - b_sum_outputs_value b'). split_and!; [done..|]. by rewrite Et.
Qed.

Lemma own_script_length segwit h script :
  length h = 20%nat → output_script segwit P2PKH (AddressHash h) = Some script → (length script ≤ 25)%nat.
Proof.
  intros Hl. unfold output_script, build_witness_script, build_p2pkh, push_bytes. cbn [hash_to_vec]. rewrite Hl.
  destruct segwit; intros [= <-]; cbn; rewrite ?length_app, ?length_cons; cbn; lia.
Qed.

Lemma no_interest coin env tx data script :
  cf_ticker coin ≠ "KMD" → calc_interest_if_required coin env tx data script = Ok (tx, data).
Proof. intros. unfold calc_interest_if_required. by rewrite bool_decide_false. Qed.

Lemma v_size_nonneg segwit tx : 0 ≤ tx_size_in_v_bytes segwit tx.
Proof.
  unfold tx_size_in_v_bytes, segwit_virtual_size, MAX_DER_SIGNATURE_LEN, COMPRESSED_PUBKEY_LEN.
  destruct segwit; [apply Z.div_pos|]; lia.
Qed.

(** The sizes before and after the change. *)
Lemma shape_size segwit s outs change script :
  counts_on (length outs) = true → (length script ≤ 25)%nat → map script_pubkey outs = map script_pubkey (s_outputs s) →
  let size := tx_size_in_v_bytes segwit (transaction_of s) in
  tx_size_in_v_bytes segwit (transaction_of (with_outputs outs s)) = size
  ∧ size ≤ tx_size_in_v_bytes segwit (transaction_of (with_outputs (outs ++ [mkTransactionOutput change script]) s))
    ≤ size + P2PKH_OUTPUT_LEN.
Proof.
  intros Hl Hs E size. apply ser_outputs_length in E as Es.
  assert (E0 : with_outputs (s_outputs s) s = s) by by destruct s.
  assert (Hsize : tx_size_in_v_bytes segwit (transaction_of (with_outputs outs s)) = size).
  { transitivity (tx_size_in_v_bytes segwit (transaction_of (with_outputs (s_outputs s) s))); [|by rewrite E0].
    pose proof (size_of_outputs segwit s outs (s_outputs s) 0 ltac:(lia) ltac:(rewrite Es; lia)). cbv beta zeta in *. lia. }
  split; [done|]. rewrite <-Hsize.
  assert (Hsn := ser_outputs_snoc outs (mkTransactionOutput change script) Hl Hs).
  exact (size_of_outputs segwit s outs _ P2PKH_OUTPUT_LEN ltac:(unfold P2PKH_OUTPUT_LEN; lia) Hsn).
Qed.

(** The fee of a round whose inputs pay, whatever the size of the change. *)
Lemma fee_at_covers coin segwit fee b size :
  0 ≤ rate_per_kb fee → 0 ≤ default 0 (b_min_relay_fee b) → is_u 63 (b_sum_inputs b) → is_u 63 (b_sum_outputs_value b) →
  v_size_of segwit b ≤ size < 2 ^ 63 → required_fee fee (b_min_relay_fee b) (size + P2PKH_OUTPUT_LEN) < 2 ^ 63 →
  let f := fee_at coin segwit fee b in
  is_u 63 f
  ∧ (to_pay b f ≤ b_sum_inputs b →
     size = v_size_of segwit b
     ∨ size ≤ v_size_of segwit b + P2PKH_OUTPUT_LEN ∧ is_change_output (b_sum_inputs b - to_pay b f) (dust_of coin b) = true →
     required_fee fee (b_min_relay_fee b) size ≤ f).
Proof.
  intros Hf Hr Hi Ho Hs Hreq f. assert (Hv : 0 ≤ v_size_of segwit b) by apply v_size_nonneg.
  pose proof (required_fee_mono fee (b_min_relay_fee b) (v_size_of segwit b + P2PKH_OUTPUT_LEN) (size + P2PKH_OUTPUT_LEN) Hf Hr
    ltac:(unfold P2PKH_OUTPUT_LEN; lia)).
  destruct (update_plain coin segwit fee b Hf Hr Hi Ho ltac:(lia) ltac:(lia)) as [Ef _].
  destruct (plain_fee_covers coin segwit fee b Hf Hr Hv) as (H0 & Hc). unfold f. rewrite Ef. split; [unfold is_u; lia|].
  intros [Hc1 Hc2]%Hc [->|[Hs' Ec]]; [done|]. specialize (Hc2 Ec).
  pose proof (required_fee_mono fee (b_min_relay_fee b) size _ Hf Hr (conj (Z.le_trans _ _ _ Hv (proj1 Hs)) Hs')). lia.
Qed.

(** The lock time does not matter to the size. *)
Lemma size_with_lock_time segwit l s :
  tx_size_in_v_bytes segwit (transaction_of (with_lock_time l s)) = tx_size_in_v_bytes segwit (transaction_of s).
Proof.
  unfold tx_size_in_v_bytes.
  assert (length (serialize (transaction_of (with_lock_time l s))) = length (serialize (transaction_of s))) as ->; [|done].
  unfold serialize, serialize_with_flags. change (with_witness 0 _) with false. cbv iota. by rewrite !length_app.
Qed.

(** What the interest adds to a transaction: to the value of an output to the own
    script or, where there is none, an output. *)
Lemma interest_shape coin env tx data script tx' data' :
  calc_interest_if_required coin env tx data script = Ok (tx', data') →
  ∃ l, tx' = with_outputs (s_outputs tx') (with_lock_time l tx)
    ∧ (map script_pubkey (s_outputs tx') = map script_pubkey (s_outputs tx)
       ∨ cf_ticker coin = "KMD" ∧ Forall (λ o, script_pubkey o ≠ script) (s_outputs tx)
         ∧ ∃ interest, kmd_rewards data' = Some interest ∧ s_outputs tx' = s_outputs tx ++ [mkTransactionOutput interest script]).
Proof.
  unfold calc_interest_if_required. case_bool_decide as Hk; cbn [negb].
  2: { intros [= <- <-]. exists (s_lock_time tx). split; [by destruct tx|by left]. }
  destruct (be_mtp env) as [l|]; [|done]. destruct (interest_of _ _ _ _) as [interest|]; [|done].
  destruct (0 <? interest); intros [= <- <-]; [exists l|].
  2: { exists (u32 (u32 (be_now env) - 3600 + 777 * 2)). split; [by destruct tx|by left]. }
  split; [done|]. cbn. assert (Ha : ∀ outs, match add_interest interest script outs with
    | Some outs' => map script_pubkey outs' = map script_pubkey outs
    | None => Forall (λ o, script_pubkey o ≠ script) outs end).
  { induction outs as [|o outs IH]; [by apply Forall_nil_2|]. cbn [add_interest]. case_bool_decide; [done|].
    destruct (add_interest interest script outs); cbn; [by f_equal|by constructor]. }
  specialize (Ha (s_outputs tx)). destruct (add_interest _ _ _); [by left|right]. eauto.
Qed.

(** The fee covers the transaction as it is before the interest. *)
Lemma steps_fee_covers coin env b segwit script fee tx data k sum received relay c b' received' tx' data' :
  build_steps coin env b segwit script fee tx data k sum received relay c b' received' tx' data' →
  sound coin b → totals_ok coin b = true → (length script ≤ 25)%nat →
  0 ≤ rate_per_kb fee → 0 ≤ default 0 relay → counts_on (length (s_outputs (b_tx b))) = true →
  let size := tx_size_in_v_bytes segwit (transaction_of tx') in
  size < 2 ^ 63 → required_fee fee relay (size + P2PKH_OUTPUT_LEN) < 2 ^ 63 →
  required_fee fee relay size ≤ fee_amount data.
Proof.
  intros Hst Hs HT Hl Hf0 Hr0 Hout size Hsize Hreq.
  pose proof (steps_fee _ _ _ _ _ _ _ _ _ _ _ _ _ _ _ _ _ Hst) as Ef.
  destruct (steps_shape _ _ _ _ _ _ _ _ _ _ _ _ _ _ _ _ _ Hst) as (outs & Eo & Hle & Htx). destruct Hst.
  destruct (prepared_sums _ _ _ _ _ relay k Hs HT steps_outputs0) as (Ep & Ev & _ & _ & _ & Hr).
  set (chosen := pushed k (b_available_inputs b) (prepared sum relay b)) in *.
  assert (Hc : b_sum_outputs_value chosen = b_sum_outputs_value (prepared sum relay b) ∧ b_min_relay_fee chosen = relay
    ∧ s_outputs (b_tx chosen) = s_outputs (b_tx b) ∧ b_fee_policy chosen = b_fee_policy b ∧ dust_of coin chosen = dust_of coin b
    ∧ is_u 63 (b_sum_inputs chosen)) by (rewrite Ep; cbn; unfold is_u; done).
  destruct Hc as (Hc1 & Hc2 & Hc3 & Hc4 & Hc5 & Hc6). rewrite <-Hc3 in Eo.
  assert (Hol : counts_on (length outs) = true) by (rewrite <-(length_map script_pubkey outs), Eo, length_map, Hc3; done).
  assert (Hv : is_u 63 (b_sum_outputs_value chosen)).
  { rewrite Hc1, Ev. unfold totals_ok in HT. rewrite !andb_true_iff, !Z.ltb_lt in HT. destruct Hs.
    pose proof (sum_values_nonneg _ sound_outputs0). unfold is_u. lia. }
  assert (Hsz : v_size_of segwit chosen ≤ size ≤ v_size_of segwit chosen + P2PKH_OUTPUT_LEN).
  { unfold size, v_size_of. destruct Htx as [Htx|(change & _ & _ & Htx)]; rewrite Htx.
    - pose proof (proj1 (shape_size segwit (b_tx chosen) outs 0 script Hol Hl Eo)). unfold P2PKH_OUTPUT_LEN. lia.
    - apply (shape_size segwit (b_tx chosen) outs change script Hol Hl Eo). }
  rewrite <-Hc2 in Hreq, Hr0 |- *.
  destruct (fee_at_covers coin segwit fee chosen size Hf0 Hr0 Hc6 Hv (conj (proj1 Hsz) Hsize) Hreq) as [Hu Hcov].
  rewrite <-Ef in Hu, Hcov. unfold is_u in *.
  assert (Hpay : to_pay chosen (fee_amount data) = match b_fee_policy b with
      SendExact => u64 (b_sum_outputs_value chosen + fee_amount data) | DeductFromOutput _ => b_sum_outputs_value chosen end).
  { unfold to_pay. rewrite Hc4. destruct (b_fee_policy b); [|done]. by rewrite uwrap_id by (unfold is_u; lia). }
  rewrite <-Hpay in Hle, Htx. apply Hcov; [done|]. destruct Htx as [Htx|(change & -> & Hch & Htx)].
  - left. unfold size. rewrite Htx. apply (shape_size segwit (b_tx chosen) outs 0 script Hol Hl Eo).
  - right. rewrite Hc5. split; [lia|done].
Qed.

(** The size of the transaction before the interest, in the one after it. *)
Lemma interest_size coin env segwit tx data script tx' data' :
  calc_interest_if_required coin env tx data script = Ok (tx', data') →
  let size outs := tx_size_in_v_bytes segwit (transaction_of (with_outputs outs tx')) in
  let before := tx_size_in_v_bytes segwit (transaction_of tx) in
  before ≤ size (s_outputs tx')
  ∧ (size (s_outputs tx') = before
     ∨ cf_ticker coin = "KMD" ∧ Forall (λ o, script_pubkey o ≠ script) (s_outputs tx) ∧ size (s_outputs tx) = before
       ∧ ∃ interest, kmd_rewards data' = Some interest ∧ s_outputs tx' = s_outputs tx ++ [mkTransactionOutput interest script]).
Proof.
  intros (l & Etx & Hs)%interest_shape size before.
  assert (Hsize : ∀ outs, size outs = tx_size_in_v_bytes segwit (transaction_of (with_outputs outs tx))).
  { intros outs. unfold size. rewrite Etx. change (with_outputs outs (with_outputs _ (with_lock_time l tx)))
      with (with_lock_time l (with_outputs outs tx)). apply size_with_lock_time. }
  assert (Hb : before = tx_size_in_v_bytes segwit (transaction_of (with_outputs (s_outputs tx) tx))) by (by destruct tx).
  rewrite !Hsize, Hb. destruct Hs as [E|(Hk & Hf & interest & Hr & E)].
  - apply ser_outputs_length in E as E'.
    pose proof (size_of_outputs segwit tx (s_outputs tx) (s_outputs tx') 0 ltac:(lia) ltac:(rewrite E'; lia)).
    cbv beta zeta in *. split; [|left]; lia.
  - split; [|right; eauto 8]. rewrite E. pose proof (ser_outputs_prefix (s_outputs tx) [mkTransactionOutput interest script]).
    refine (proj1 (size_of_outputs segwit tx (s_outputs tx) _
      (Z.of_nat (length (ser c_outputs (s_outputs tx ++ [mkTransactionOutput interest script])))) _ _)); lia.
Qed.

(** C22: the fee of a built transaction is at least the policy's fee for its size, and
    at least the minimum relay fee where the coin forces one, change output included.
    There is one exception: on Komodo, when no output pays the own script, an output
    with the interest is added after the fee is fixed, and what is covered is the
    transaction without it.  The outputs asked for are fewer than 65535 and not 252,
    so that the change does not lengthen their count, and the totals, the size and
    the fee have 63 bits. *)
Theorem build_fee_covers coin env b tx data from script fee relay :
  Built coin b → totals_ok coin b = true → b_from b = Some from → length (ad_hash from) = 20%nat →
  output_script (ad_segwit from) P2PKH (AddressHash (ad_hash from)) = Some script →
  (match b_fee b with Some fee => Some fee | None => be_tx_fee env end) = Some fee → relay_answer env = Ok relay →
  0 ≤ rate_per_kb fee → 0 ≤ default 0 relay → counts_on (length (s_outputs (b_tx b))) = true →
  build coin env b = Some (Ok (tx, data)) →
  let size outs := tx_size_in_v_bytes (ad_segwit from) (transaction_of (with_outputs outs tx)) in
  size (s_outputs tx) < 2 ^ 63 → required_fee fee relay (size (s_outputs tx) + P2PKH_OUTPUT_LEN) < 2 ^ 63 →
  required_fee fee relay (size (s_outputs tx)) ≤ fee_amount data
  ∨ cf_ticker coin = "KMD"
    ∧ ∃ outs interest, kmd_rewards data = Some interest ∧ s_outputs tx = outs ++ [mkTransactionOutput interest script]
      ∧ Forall (λ o, script_pubkey o ≠ script) outs ∧ required_fee fee relay (size outs) ≤ fee_amount data.
Proof.
  intros HB HT Hfrom Hlen Hscr Hfee Hrel Hf0 Hr0 Hout (from' & script' & fee' & E1 & Es & E2 & E)%build_inv size Hsize Hreq.
  simplify_eq. pose proof (built_sound _ _ HB HT) as Hs. apply own_script_length in Hscr as Hl; [|done].
  apply build_with_inv in E as (k & sum & received & relay' & c & b' & received' & tx' & data' & Hst).
  assert (relay' = relay) as -> by (destruct Hst; congruence).
  destruct (interest_size _ _ (ad_segwit from) _ _ _ _ _ (steps_interest _ _ _ _ _ _ _ _ _ _ _ _ _ _ _ _ _ Hst)) as [Hle Hi].
  fold size in Hle, Hi. pose proof (v_size_nonneg (ad_segwit from) (transaction_of tx')) as Hn.
  pose proof (required_fee_mono fee relay _ (size (s_outputs tx) + P2PKH_OUTPUT_LEN) Hf0 Hr0
    (conj (Z.add_nonneg_nonneg _ P2PKH_OUTPUT_LEN Hn ltac:(done)) (Zplus_le_compat_r _ _ _ Hle))) as Hm.
  pose proof (steps_fee_covers _ _ _ _ _ _ _ _ _ _ _ _ _ _ _ _ _ Hst Hs HT Hl Hf0 Hr0 Hout) as Hc.
  cbv zeta in Hc. specialize (Hc (Z.le_lt_trans _ _ _ Hle Hsize) (Z.le_lt_trans _ _ _ (proj2 Hm) Hreq)). destruct Hi as [E|(Hk & Hf & E & interest & Hrw & Eo)]; [left; unfold size; by rewrite E|right].
  split; [done|]. exists (s_outputs tx'), interest. unfold size. by rewrite E.
Qed.

(** ** A transaction is built when it can be paid for *)

Lemma add_interest_lookup interest script outs outs' n o :
  add_interest interest script outs = Some outs' → outs !! n = Some o → script_pubkey o ≠ script → outs' !! n = Some o.
Proof.
  revert outs' n. induction outs as [|x outs IH]; intros outs' n; [done|]. cbn [add_interest]. case_bool_decide as Hc.
  - intros [= <-]. destruct n; [|done]. by intros [= <-].
  - destruct (add_interest interest script outs) as [outs1|]; [|done]. intros [= <-]. destruct n as [|n]; [done|]. exact (IH outs1 n eq_refl).
Qed.

Lemma interest_keeps coin env tx data script tx' data' :
  calc_interest_if_required coin env tx data script = Ok (tx', data') →
  s_inputs tx' = s_inputs tx
  ∧ ∀ n o, s_outputs tx !! n = Some o → script_pubkey o ≠ script → s_outputs tx' !! n = Some o.
Proof.
  unfold calc_interest_if_required. destruct (negb _); [by intros [= <- <-]|]. destruct (be_mtp env); [|done].
  destruct (interest_of _ _ _ _) as [interest|]; [|done]. destruct (0 <? interest); intros [= <- <-]; [|done].
  split; [done|]. cbn. intros n o Ho Hs. destruct (add_interest _ _ _) as [outs'|] eqn:Ea; [by eapply add_interest_lookup|].
  by apply lookup_app_l_Some.
Qed.

Lemma check_outputs_ok dust script outs s r :
  Forall (not_dust dust) outs → ∃ s' r', check_outputs dust script outs s r = Ok (s', r').
Proof.
  intros Hd. revert s r. induction Hd as [|o outs Ho Hd IH]; intros s r; [by eexists _, _|]. cbn [check_outputs].
  assert (negb (begins_op_return (script_pubkey o)) && (value o <? dust) = false) as ->; [|apply IH].
  destruct Ho as [->|Ho]; [done|]. apply andb_false_iff. right. by apply Z.ltb_ge.
Qed.

(** The outputs with the fee taken from one of them, where the policy says so; [None]
    is the panic of an output that does not exist. *)
Definition deducted (policy : FeePolicy) (dust fee : Z) (outs : list TransactionOutput) :
    option (result (list TransactionOutput) GenerateTxError) :=
  match policy with
  | SendExact => Some (Ok outs)
  | DeductFromOutput i =>
      o ← outs !! i;
      Some (if value o <? fee + dust then Err (DeductFeeFromOutputFailed i (value o) (fee + dust))
            else Ok (<[i := mkTransactionOutput (value o - fee) (script_pubkey o)]> outs))
  end.

Lemma policy_deducted dust script b r :
  Forall (λ o, 0 ≤ value o) (s_outputs (b_tx b)) → sum_values (s_outputs (b_tx b)) < 2 ^ 63 →
  is_u 63 dust → is_u 63 (b_tx_fee b) → is_u 64 (to_pay b (b_tx_fee b)) →
  match deducted (b_fee_policy b) dust (b_tx_fee b) (s_outputs (b_tx b)) with
  | None => apply_policy dust script b r = None
  | Some (Err e) => apply_policy dust script b r = Some (Err e)
  | Some (Ok outs) => ∃ r', apply_policy dust script b r = Some (Ok (set_outputs outs (to_pay b (b_tx_fee b)) b, r'))
  end.
Proof.
  unfold deducted, apply_policy, to_pay, is_u. intros Ho Hs Hd Hf Hp. destruct (b_fee_policy b) as [|i].
  - exists r. by rewrite uwrap_id by done.
  - destruct (s_outputs (b_tx b) !! i) as [o|] eqn:Eo; [|done]. cbn [mbind option_bind].
    pose proof (sum_values_ge _ _ _ Ho Eo). rewrite uwrap_id by (unfold is_u; lia).
    destruct (Z.ltb_spec (value o) (b_tx_fee b + dust)).
    + by rewrite (proj2 (Z.leb_gt _ _)) by done.
    + rewrite (proj2 (Z.leb_le _ _)) by done. cbn [negb]. rewrite uwrap_id by (unfold is_u; lia). by eexists.
Qed.

(** The server answers what Komodo's interest is computed from. *)
Definition interest_known (coin : UtxoConf) (env : BuildEnv) : Prop :=
  cf_ticker coin = "KMD" → is_Some (be_mtp env) ∧ ∀ hash, is_Some (be_verbose env hash).

Lemma interest_answered coin env tx data script :
  interest_known coin env → ∃ tx' data', calc_interest_if_required coin env tx data script = Ok (tx', data').
Proof.
  intros Hk. unfold calc_interest_if_required. case_bool_decide as Hc; cbn [negb]; [|by eexists _, _].
  destruct (Hk Hc) as [[l ->] Hv].
  assert (∀ acc, is_Some (interest_of env l (s_inputs tx) acc)) as Hi.
  { induction (s_inputs tx) as [|i ins IH]; intros acc; [by eexists|]. cbn [interest_of].
    destruct (Hv (op_hash (u_previous_output i))) as [x ->]. apply IH. }
  destruct (Hi 0) as [interest ->]. destruct (0 <? interest); by eexists _, _.
Qed.

Section affordable.
Context (coin : UtxoConf) (env : BuildEnv) (b : UtxoTxBuilder) (segwit : bool) (script : bytes) (fee : ActualTxFee).
Context (relay : option Z).

(** The builder with the first [k] available inputs, and whether they pay for the
    outputs and the fee. *)
Definition stage (k : nat) : UtxoTxBuilder :=
  pushed k (b_available_inputs b) (prepared (sum_values (s_outputs (b_tx b))) relay b).
Definition pays (k : nat) : bool :=
  negb ((k =? 0)%nat && is_nil (s_inputs (b_tx b)))
  && (to_pay (stage k) (plain_fee coin segwit fee (stage k)) <=? b_sum_inputs (stage k)).

(** The sizes and fees of every stage fit in 63 bits. *)
Definition stage_ok (k : nat) : bool :=
  let v := v_size_of segwit (stage k) in
  (v <? 2 ^ 63) && (required_fee fee relay (v + P2PKH_OUTPUT_LEN) <? 2 ^ 63).

Context (Hsound : sound coin b) (HT : totals_ok coin b = true) (Hfee : 0 ≤ rate_per_kb fee) (Hrelay : 0 ≤ default 0 relay).
Context (Hok : ∀ k, (k ≤ length (b_available_inputs b))%nat → stage_ok k = true).
Context (Hdust : Forall (not_dust (dust_of coin b)) (s_outputs (b_tx b))).

Lemma stage_sums k :
  stage k = set_inputs (s_inputs (b_tx b) ++ (input_of <$> take k (b_available_inputs b))) (b_sum_inputs (stage k))
              (prepared (sum_values (s_outputs (b_tx b))) relay b)
  ∧ is_u 63 (b_sum_inputs (stage k)) ∧ is_u 63 (b_sum_outputs_value (stage k))
  ∧ ∀ script, ∃ r, check_outputs (dust_of coin b) script (s_outputs (b_tx b)) (b_sum_outputs_value b) 0
                   = Ok (sum_values (s_outputs (b_tx b)), r).
Proof using Hsound HT Hdust.
  assert (Hc : ∀ script, ∃ r, check_outputs (dust_of coin b) script (s_outputs (b_tx b)) (b_sum_outputs_value b) 0
                              = Ok (sum_values (s_outputs (b_tx b)), r)).
  { intros sc. destruct (check_outputs_ok _ sc _ (b_sum_outputs_value b) 0 Hdust) as (s & r & Ec). exists r.
    rewrite Ec. pose proof Hsound as [_ _ _ Ho Hv _ _]. pose proof (sum_values_nonneg _ Ho). unfold totals_ok in HT.
    rewrite !andb_true_iff, !Z.ltb_lt in HT. pose proof (sound_gas _ _ Hsound).
    apply check_outputs_inv in Ec as [-> _]; [|done|lia..]. by rewrite Hv. }
  destruct (Hc []) as [r Ec]. destruct (prepared_sums _ _ _ _ _ relay k Hsound HT Ec) as (Ep & Ev & _ & _ & _ & Hr).
  fold (stage k) in Ep. split_and!; [by rewrite Ep at 1; rewrite Ep|..|done].
  - rewrite Ep. exact Hr.
  - rewrite Ep. unfold is_u. cbn [set_inputs b_sum_outputs_value]. rewrite Ev. pose proof Hsound as [_ _ _ Ho _ Hg _].
    pose proof (sum_values_nonneg _ Ho). unfold totals_ok in HT. rewrite !andb_true_iff, !Z.ltb_lt in HT. lia.
Qed.

Lemma stage_complete k :
  (k ≤ length (b_available_inputs b))%nat →
  fee_at coin segwit fee (stage k) = plain_fee coin segwit fee (stage k)
  ∧ complete_at coin segwit fee (stage k) = (to_pay (stage k) (plain_fee coin segwit fee (stage k)) <=? b_sum_inputs (stage k)).
Proof using Hsound HT Hfee Hrelay Hok Hdust.
  intros Hk. destruct (stage_sums k) as (Ep & Hi & Ho & _). specialize (Hok k Hk). unfold stage_ok in Hok.
  rewrite andb_true_iff, !Z.ltb_lt in Hok. assert (Hr : b_min_relay_fee (stage k) = relay) by by rewrite Ep.
  apply update_plain; rewrite ?Hr; try done; try tauto. split; [apply v_size_nonneg|tauto].
Qed.

Lemma pays_complete k :
  (k ≤ length (b_available_inputs b))%nat → (k = 0%nat → s_inputs (b_tx b) ≠ []) →
  complete_at coin segwit fee (stage k) = pays k.
Proof using Hsound HT Hfee Hrelay Hok Hdust.
  intros Hk H0. rewrite (proj2 (stage_complete k Hk)). unfold pays.
  destruct (Nat.eqb_spec k 0) as [->|]; [|done]. specialize (H0 eq_refl). by destruct (s_inputs (b_tx b)).
Qed.

Context (Hcoin : interest_known coin env) (Hrel : relay_answer env = Ok relay).
Context (Houts : s_outputs (b_tx b) ≠ []).

(** What a build comes to when the first [k] available inputs are chosen. *)
Definition outcome_of (k : nat) (result : option (result (TransactionInputSigner * AdditionalTxData) GenerateTxError)) : Prop :=
  match deducted (b_fee_policy b) (dust_of coin b) (plain_fee coin segwit fee (stage k)) (s_outputs (b_tx b)) with
  | None => result = None
  | Some (Err e) => result = Some (Err e)
  | Some (Ok outs) =>
      if pays k then
        ∃ tx data tx' data', result = Some (Ok (tx, data))
          ∧ s_inputs tx = s_inputs (b_tx b) ++ (input_of <$> take k (b_available_inputs b))
          ∧ change_of script outs (s_outputs tx') ∧ fee_amount data = plain_fee coin segwit fee (stage k)
          ∧ calc_interest_if_required coin env tx' data' script = Ok (tx, data)
      else ∃ sum required, result = Some (Err (NotEnoughUtxos sum required))
  end.

(** The steps after the choice of the inputs. *)
Lemma build_with_stage k c :
  b_available_inputs b ≠ [] ∨ s_inputs (b_tx b) ≠ [] → (k ≤ length (b_available_inputs b))%nat →
  choose coin segwit fee (prepared (sum_values (s_outputs (b_tx b))) relay b) = set_fees c (fee_at coin segwit fee (stage k)) (stage k) →
  ∃ r, build_with coin env b segwit script fee
    = policy ← apply_policy (dust_of coin b) script (set_fees c (plain_fee coin segwit fee (stage k)) (stage k)) r;
      Some (let? bp := policy in
            let? built := finish (dust_of coin b) script (fst bp) (snd bp) in
            calc_interest_if_required coin env (fst built) (snd built) script).
Proof using Hsound HT Hfee Hrelay Hok Hdust Hrel Houts.
  intros Hne Hk Ech. destruct (stage_sums k) as (Ep & _ & _ & Hc). destruct (Hc script) as [r Ec]. exists r.
  unfold build_with. rewrite Ec, Hrel. destruct (is_nil (s_outputs (b_tx b))) eqn:En; [by destruct (s_outputs (b_tx b))|].
  change (b_available_inputs (set_outputs _ _ b)) with (b_available_inputs b).
  change (s_inputs (b_tx (set_outputs _ _ b))) with (s_inputs (b_tx b)).
  destruct (is_nil (b_available_inputs b) && is_nil (s_inputs (b_tx b))) eqn:En'.
  { destruct (b_available_inputs b), (s_inputs (b_tx b)); try done. by destruct Hne. }
  fold (prepared (sum_values (s_outputs (b_tx b))) relay b). by rewrite Ech, (proj1 (stage_complete k Hk)).
Qed.

(** The fee and what it makes the inputs pay are not wrapped around. *)
Lemma stage_range k :
  (k ≤ length (b_available_inputs b))%nat →
  is_u 63 (plain_fee coin segwit fee (stage k)) ∧ is_u 64 (to_pay (stage k) (plain_fee coin segwit fee (stage k))).
Proof using Hsound HT Hfee Hrelay Hok Hdust.
  intros Hk. destruct (stage_sums k) as (Ep & Hi & Ho & _).
  specialize (Hok k Hk). unfold stage_ok in Hok. rewrite andb_true_iff, !Z.ltb_lt in Hok.
  assert (Hmr : b_min_relay_fee (stage k) = relay) by by rewrite Ep.
  destruct (plain_fee_covers coin segwit fee (stage k)) as [Hpf _]; [done|by rewrite Hmr|apply v_size_nonneg|].
  rewrite Hmr in Hpf. unfold is_u, to_pay in *. split; [lia|]. destruct (b_fee_policy (stage k)); lia.
Qed.

Lemma chosen_outcome k c :
  b_available_inputs b ≠ [] ∨ s_inputs (b_tx b) ≠ [] → (k ≤ length (b_available_inputs b))%nat →
  (k = 0%nat → s_inputs (b_tx b) ≠ []) →
  choose coin segwit fee (prepared (sum_values (s_outputs (b_tx b))) relay b) = set_fees c (fee_at coin segwit fee (stage k)) (stage k) →
  outcome_of k (build_with coin env b segwit script fee).
Proof using Hsound HT Hfee Hrelay Hok Hdust Hcoin Hrel Houts.
  intros Hne Hk H0 Ech. destruct (build_with_stage k c Hne Hk Ech) as [r ->]. destruct (stage_sums k) as (Ep & Hi & Ho & _).
  destruct (stage_range k Hk) as [Hf63 Hpay]. set (f := plain_fee coin segwit fee (stage k)) in *.
  assert (Hso : s_outputs (b_tx (stage k)) = s_outputs (b_tx b) ∧ b_fee_policy (stage k) = b_fee_policy b) by by rewrite Ep.
  destruct Hso as [Hso Hpo]. pose proof Hsound as [_ _ _ Hov _ Hg Hdu]. pose proof HT as HT'. unfold totals_ok in HT'.
  rewrite !andb_true_iff, !Z.ltb_lt in HT'. pose proof (policy_deducted (dust_of coin b) script (set_fees c f (stage k)) r) as Hp.
  cbn [set_fees b_tx b_tx_fee b_fee_policy] in Hp. rewrite Hso, Hpo in Hp.
  specialize (Hp Hov ltac:(lia) ltac:(unfold is_u; lia) Hf63 Hpay). unfold outcome_of. fold f.
  destruct (deducted _ _ f _) as [[outs|e]|]; [|by rewrite Hp..]. destruct Hp as [r' ->]. cbn [mbind option_bind fst snd].
  rewrite <-(pays_complete k Hk H0), (proj2 (stage_complete k Hk)). fold f.
  change (to_pay (set_fees c f (stage k)) f) with (to_pay (stage k) f).
  unfold finish. cbn [set_outputs set_fees b_sum_outputs_value b_sum_inputs b_tx b_tx_fee].
  destruct (to_pay _ _ <=? _); cbn [negb]; [|by eexists _, _].
  assert (Hin : s_inputs (b_tx (stage k)) = s_inputs (b_tx b) ++ (input_of <$> take k (b_available_inputs b))) by by rewrite Ep.
  destruct (is_change_output _ _) eqn:Eco; cbn [fst snd];
    match goal with |- context [calc_interest_if_required _ _ ?t ?d _] =>
      destruct (interest_answered coin env t d script Hcoin) as (tx & data & E) end;
    rewrite E; exists tx, data; eexists _, _; (split_and!; [done|..|exact E]);
    try (by rewrite (proj1 (interest_keeps _ _ _ _ _ _ _ E)));
    try (unfold calc_interest_if_required in E; repeat case_match; by simplify_eq).
  - right. unfold is_change_output in Eco. apply andb_true_iff in Eco as [Eco%Z.ltb_lt _]. by eexists.
  - by left.
Qed.

Lemma build_with_chosen :
  b_available_inputs b ≠ [] ∨ s_inputs (b_tx b) ≠ [] →
  ∃ k, (k ≤ length (b_available_inputs b))%nat ∧ (∀ j, (j < k)%nat → pays j = false)
    ∧ (pays k = true ∨ k = length (b_available_inputs b)) ∧ outcome_of k (build_with coin env b segwit script fee).
Proof using Hsound HT Hfee Hrelay Hok Hdust Hcoin Hrel Houts.
  intros Hne.
  destruct (choose_spec coin segwit fee (prepared (sum_values (s_outputs (b_tx b))) relay b) Hne) as (k & c & Hk & Ech & Hc & H0 & Hj).
  change (pushed k (b_available_inputs (prepared _ relay b)) _) with (stage k) in *. exists k. rewrite (pays_complete k Hk H0) in Hc.
  split_and!; [done| |done|by apply (chosen_outcome k c)].
  intros j Hjk. destruct (decide (j = 0%nat ∧ s_inputs (b_tx b) = [])) as [[-> E0]|Hn]; [unfold pays; by rewrite E0|].
  assert (H0j : j = 0%nat → s_inputs (b_tx b) ≠ []) by tauto. cbn in Hk.
  rewrite <-(pays_complete j); [|lia|done]. by apply Hj.
Qed.

End affordable.

(** C21: a transaction is built whenever it can be paid for.  For outputs of which none
    is below the dust and inputs of which there is at least one, with a server that
    answers and totals, sizes and fees of 63 bits: the builder takes the fewest of
    the available inputs, in their order, that pay for the outputs and the fee
    (under the policy that deducts the fee: for the outputs alone), and all of them
    if no number does.  Then, if the policy deducts the fee from an output that does
    not exist, it panics; from one that is worth less than the fee and the dust, it
    fails with that error; otherwise the transaction is built exactly when the
    inputs pay, with these inputs, that fee, the outputs (less the fee, if deducted),
    the change that may follow and Komodo's interest, and else the error says that
    there is not enough. *)
Theorem build_when_affordable coin env b from script fee relay :
  Built coin b → totals_ok coin b = true → interest_known coin env →
  b_from b = Some from → output_script (ad_segwit from) P2PKH (AddressHash (ad_hash from)) = Some script →
  (match b_fee b with Some fee => Some fee | None => be_tx_fee env end) = Some fee → relay_answer env = Ok relay →
  0 ≤ rate_per_kb fee → 0 ≤ default 0 relay →
  s_outputs (b_tx b) ≠ [] → Forall (not_dust (dust_of coin b)) (s_outputs (b_tx b)) →
  b_available_inputs b ≠ [] ∨ s_inputs (b_tx b) ≠ [] →
  (∀ k, (k ≤ length (b_available_inputs b))%nat → stage_ok b (ad_segwit from) fee relay k = true) →
  let pays := pays coin b (ad_segwit from) fee relay in
  ∃ k, (k ≤ length (b_available_inputs b))%nat ∧ (∀ j, (j < k)%nat → pays j = false)
    ∧ pays k = existsb pays (seq 0 (S (length (b_available_inputs b))))
    ∧ outcome_of coin env b (ad_segwit from) script fee relay k (build coin env b).
Proof.
  intros HB HT Hk Ef Es Efee Er Hf Hr Ho Hd Hne Hok pays. pose proof (built_sound _ _ HB HT) as Hs.
  destruct (build_with_chosen coin env b (ad_segwit from) script fee relay Hs HT Hf Hr Hok Hd Hk Er Ho Hne)
    as (k & Hkn & Hj & Hc & Hb). fold pays in Hj, Hc.
  assert (build coin env b = build_with coin env b (ad_segwit from) script fee) as ->.
  { unfold build. rewrite Ef. cbn. rewrite Es. cbn. destruct (b_fee b), (be_tx_fee env); by simplify_eq. }
  exists k. split_and!; [done..| |done]. symmetry. destruct (pays k) eqn:Ek.
  - apply existsb_exists. exists k. split; [apply in_seq; lia|done].
  - destruct Hc as [?| ->]; [done|]. apply not_true_iff_false. intros (j & Hjn%in_seq & Ej)%existsb_exists.
    destruct (decide (j < length (b_available_inputs b))%nat) as [Hlt|Hge]; [by rewrite Hj in Ej|].
    assert (j = length (b_available_inputs b)) as -> by lia. congruence.
Qed.

(** ** What is kept of the request *)

(** The inputs are the required ones and some of the available ones, in their order;
    with the exact amounts to send, every output to another script stays where it
    was. *)
Lemma build_keeps coin env b tx data :
  build coin env b = Some (Ok (tx, data)) →
  (∃ k, (k ≤ length (b_available_inputs b))%nat ∧ (k = 0%nat → s_inputs (b_tx b) ≠ [])
     ∧ s_inputs tx = s_inputs (b_tx b) ++ (input_of <$> take k (b_available_inputs b)))
  ∧ ∃ from script, b_from b = Some from ∧ output_script (ad_segwit from) P2PKH (AddressHash (ad_hash from)) = Some script
    ∧ (b_fee_policy b = SendExact →
       ∀ n o, s_outputs (b_tx b) !! n = Some o → script_pubkey o ≠ script → s_outputs tx !! n = Some o).
Proof.
  intros (from & script & fee & Ef & Es & _ & E)%build_inv.
  apply build_with_inv in E as (k & sum & received & relay & c & b' & received' & tx' & data' & Hst).
  destruct (steps_shape _ _ _ _ _ _ _ _ _ _ _ _ _ _ _ _ _ Hst) as (outs & _ & _ & Htx). destruct Hst.
  destruct (interest_keeps _ _ _ _ _ _ _ steps_interest0) as [Hi Ho].
  assert (Hc : s_inputs (b_tx (pushed k (b_available_inputs b) (prepared sum relay b)))
               = s_inputs (b_tx b) ++ (input_of <$> take k (b_available_inputs b))
             ∧ s_outputs (b_tx (pushed k (b_available_inputs b) (prepared sum relay b))) = s_outputs (b_tx b)
             ∧ b_fee_policy (pushed k (b_available_inputs b) (prepared sum relay b)) = b_fee_policy b).
  { unfold pushed. by destruct (push_inputs_shape (take k (b_available_inputs b)) (prepared sum relay b)) as [s ->]. }
  destruct Hc as (Hc1 & Hc2 & Hc3). split.
  - exists k. split_and!; [done..|]. rewrite Hi. destruct Htx as [->|(? & _ & _ & ->)]; exact Hc1.
  - exists from, script. split_and!; [done..|]. intros Hp n o Hn Hs. apply Ho; [|done]. cbn zeta in steps_policy0.
    unfold apply_policy in steps_policy0. cbn [set_fees b_fee_policy b_tx] in steps_policy0.
    rewrite Hc3, Hp, Hc2 in steps_policy0. injection steps_policy0 as <- <-. unfold finish in steps_finish0. cbn in steps_finish0.
    repeat case_match; simplify_eq; cbn; [by apply lookup_app_l_Some|done..].
Qed.
