(* ===== verification/UtxoWallet.v ===== *)
(** * UtxoWallet: the outputs a UTXO wallet has, and what it has spent
      (mm2src/coins/utxo.rs, mm2src/coins/utxo/utxo_common/utxo_common_tx.rs)

    A server lists spent outputs for some time after they are spent.
    [RecentlySpentOutPoints] is the wallet's own record of what it spent and of the
    outputs it got in return: [replace_spent_outputs_with_cache] puts the latter in
    place of the former in a listing.  [sound_history] is what the sends of a wallet
    look like, [owned] what it has after them, and [replaced_is_owned] says that a
    listing is brought up to date whatever the server has seen.  A sending step
    asks the server, and then replaces, builds, signs, broadcasts and records under
    one lock. *)

From stdpp Require Import base tactics list numbers strings option countable gmap sets.
From coqutil Require Import Byte Word.LittleEndianList.
From S2P Require Import Prelude Codec Tx Crypto Script Sign UtxoSigner Htlc UtxoTx.

Local Open Scope Z_scope.

(** ** Data *)

#[global] Instance byte_countable : Countable Byte.byte := inj_countable Byte.to_N Byte.of_N Byte.of_to_N.

#[global] Instance OutPoint_eq_dec : EqDecision OutPoint.
Proof. solve_decision. Defined.
#[global] Instance OutPoint_countable : Countable OutPoint :=
  inj_countable' (λ o, (op_hash o, op_index o)) (λ p, mkOutPoint (fst p) (snd p)) (λ o, match o with mkOutPoint _ _ => eq_refl end).

Record CachedUnspentInfo : Type := mkCached { cu_outpoint : OutPoint; cu_value : Z }.

#[global] Instance CachedUnspentInfo_eq_dec : EqDecision CachedUnspentInfo.
Proof. solve_decision. Defined.
#[global] Instance CachedUnspentInfo_countable : Countable CachedUnspentInfo :=
  inj_countable' (λ c, (cu_outpoint c, cu_value c)) (λ p, mkCached (fst p) (snd p)) (λ c, match c with mkCached _ _ => eq_refl end).

#[global] Instance UnspentInfo_eq_dec : EqDecision UnspentInfo.
Proof. solve_decision. Defined.
#[global] Instance UnspentInfo_countable : Countable UnspentInfo :=
  inj_countable' (λ u, (un_outpoint u, un_value u, un_height u)) (λ p, mkUnspent (fst (fst p)) (snd (fst p)) (snd p))
    (λ u, match u with mkUnspent _ _ _ => eq_refl end).

(** The two conversions: the height is forgotten. *)
Definition cached_of (u : UnspentInfo) : CachedUnspentInfo := mkCached (un_outpoint u) (un_value u).
Definition unspent_of (c : CachedUnspentInfo) : UnspentInfo := mkUnspent (cu_outpoint c) (cu_value c) None.

Definition PENDING_WITHDRAW_TTL_MS : Z := 10 * 60 * 1000.
Definition PENDING_WITHDRAW_CAP : nat := 64.

Record PendingWithdraw : Type := mkPending {
  pw_inputs : list UnspentInfo;
  pw_tx_hash : bytes;
  pw_outputs : list TransactionOutput;
  pw_created_ms : Z;
  pw_seq : Z
}.

Record RecentlySpentOutPoints : Type := mkRecent {
  input_to_output_map : gmap CachedUnspentInfo (gset CachedUnspentInfo);
  output_to_input_map : gmap CachedUnspentInfo (gset CachedUnspentInfo);
  for_script_pubkey : bytes;
  pending_withdraws : gmap bytes PendingWithdraw;
  pending_withdraw_seq : Z
}.

Definition recent_new (for_script_pubkey : bytes) : RecentlySpentOutPoints := mkRecent ∅ ∅ for_script_pubkey ∅ 0.

Definition set_pending (m : gmap bytes PendingWithdraw) (seq : Z) (r : RecentlySpentOutPoints) : RecentlySpentOutPoints :=
  mkRecent (input_to_output_map r) (output_to_input_map r) (for_script_pubkey r) m seq.

(** ** The record of spends *)

(** The outputs to the script of the record, by their position. *)
Definition own_outputs (script : bytes) (spend_tx_hash : bytes) (outs : list TransactionOutput) : gset CachedUnspentInfo :=
  list_to_set (omap id (imap (λ index o,
    if bool_decide (script_pubkey o = script)
    then Some (mkCached (mkOutPoint spend_tx_hash (u32 (Z.of_nat index))) (value o)) else None) outs)).

(** A set is iterated over in an order that is not specified: [iter] gives it. *)
Section hash_order.
Context (iter : gset CachedUnspentInfo → list CachedUnspentInfo).

Notation spent_maps := (gmap CachedUnspentInfo (gset CachedUnspentInfo) * gset CachedUnspentInfo)%type.

(** One earlier input of the chain: its outputs lose [input] and gain [to_replace]. *)
Definition replace_in_chain (to_replace : gset CachedUnspentInfo) (input : CachedUnspentInfo)
    (acc : spent_maps) (prev_input : CachedUnspentInfo) : spent_maps :=
  match fst acc !! prev_input with
  | Some outputs =>
      (<[prev_input := (outputs ∖ {[input]}) ∪ to_replace]> (fst acc), {[prev_input]} ∪ snd acc)
  | None => acc
  end.

Definition replace_chain (output_to_input : gmap CachedUnspentInfo (gset CachedUnspentInfo))
    (to_replace : gset CachedUnspentInfo) (acc : spent_maps) (input : CachedUnspentInfo) : spent_maps :=
  match output_to_input !! input with
  | Some prev_inputs => foldl (replace_in_chain to_replace input) acc (iter prev_inputs)
  | None => acc
  end.

Definition add_spent (inputs : list UnspentInfo) (spend_tx_hash : bytes) (outputs : list TransactionOutput)
    (r : RecentlySpentOutPoints) : RecentlySpentOutPoints :=
  let inputs : gset CachedUnspentInfo := list_to_set (cached_of <$> inputs) in
  let to_replace := own_outputs (for_script_pubkey r) spend_tx_hash outputs in
  let chain := foldl (replace_chain (output_to_input_map r) to_replace) (input_to_output_map r, ∅) (iter inputs) in
  let prev_inputs_spent := snd chain ∪ inputs in
  mkRecent
    (foldl (λ m input, <[input := to_replace]> m) (fst chain) (iter inputs))
    (foldl (λ m output, <[output := prev_inputs_spent]> m) (output_to_input_map r) (iter to_replace))
    (for_script_pubkey r) (pending_withdraws r) (pending_withdraw_seq r).

End hash_order.

(** One round: the listed outputs that are not spent, and what replaces the others. *)
Definition not_spent (r : RecentlySpentOutPoints) (outputs : gset UnspentInfo) : gset UnspentInfo :=
  filter (λ u, input_to_output_map r !! cached_of u = None) outputs.
Definition replacements (r : RecentlySpentOutPoints) (outputs : gset UnspentInfo) : gset CachedUnspentInfo :=
  ⋃ ((λ u, default ∅ (input_to_output_map r !! cached_of u)) <$> elements outputs).

(** The recursion; [None] when the rounds given are used up. *)
Fixpoint replace_spent_outputs_with_cache (rounds : nat) (r : RecentlySpentOutPoints) (outputs : gset UnspentInfo) :
    option (gset UnspentInfo) :=
  match rounds with
  | O => None
  | S rounds =>
      let replacement_unspents := replacements r outputs in
      if decide (replacement_unspents = ∅) then Some (not_spent r outputs)
      else replace_spent_outputs_with_cache rounds r (not_spent r outputs ∪ set_map unspent_of replacement_unspents)
  end.

(** ** Withdraws that are not broadcast yet *)

(** [now_ms.saturating_sub(created) < TTL]. *)
Definition purge_pending_withdraws (now_ms : Z) (r : RecentlySpentOutPoints) : RecentlySpentOutPoints :=
  set_pending (filter (λ p, Z.max 0 (now_ms - pw_created_ms p.2) < PENDING_WITHDRAW_TTL_MS) (pending_withdraws r))
    (pending_withdraw_seq r) r.

(** [min_by_key]: the first entry whose number is least. *)
Definition older (best : option (bytes * PendingWithdraw)) (e : bytes * PendingWithdraw) : option (bytes * PendingWithdraw) :=
  match best with
  | Some b => if pw_seq e.2 <? pw_seq b.2 then Some e else Some b
  | None => Some e
  end.
Definition oldest (l : list (bytes * PendingWithdraw)) : option (bytes * PendingWithdraw) := foldl older None l.

(** The loop that drops the oldest entries: each round drops one, so that the size is
    enough rounds. *)
Fixpoint drop_oldest (rounds : nat) (m : gmap bytes PendingWithdraw) : gmap bytes PendingWithdraw :=
  match rounds with
  | O => m
  | S rounds =>
      if (PENDING_WITHDRAW_CAP <? size m)%nat then
        match oldest (map_to_list m) with
        | Some e => drop_oldest rounds (delete e.1 m)
        | None => m
        end
      else m
  end.

Section pending.
Context `{Hashes} (iter : gset CachedUnspentInfo → list CachedUnspentInfo).

Definition note_pending_withdraw_at (now_ms : Z) (tx_bytes : bytes) (inputs : list UnspentInfo) (tx_hash : bytes)
    (outputs : list TransactionOutput) (r : RecentlySpentOutPoints) : RecentlySpentOutPoints :=
  let r := purge_pending_withdraws now_ms r in
  let seq := u64 (pending_withdraw_seq r + 1) in
  let m := <[sha256 tx_bytes := mkPending inputs tx_hash outputs now_ms seq]> (pending_withdraws r) in
  set_pending (drop_oldest (size m) m) seq r.

Definition promote_pending_withdraw_at (now_ms : Z) (tx_bytes : bytes) (r : RecentlySpentOutPoints) :
    RecentlySpentOutPoints * bool :=
  let r := purge_pending_withdraws now_ms r in
  match pending_withdraws r !! sha256 tx_bytes with
  | Some pending =>
      (add_spent iter (pw_inputs pending) (pw_tx_hash pending) (pw_outputs pending)
         (set_pending (delete (sha256 tx_bytes) (pending_withdraws r)) (pending_withdraw_seq r) r), true)
  | None => (r, false)
  end.

End pending.

(** ** Listing and sending *)

(** What ends a send.  A failed broadcast returns the transaction. *)
Inductive SendError : Type :=
| ListError
| NoAddress
| BuildError (e : GenerateTxError)
| NoKeyPair
| P2pkLookup
| SignError (e : UtxoSignWithKeyPairError)
| TrezorError
| BroadcastError (tx : Transaction).

(** [unique_by]: the first of those with the same outpoint. *)
Fixpoint unique_by_outpoint (seen : gset OutPoint) (l : list UnspentInfo) : list UnspentInfo :=
  match l with
  | [] => []
  | u :: l =>
      if decide (un_outpoint u ∈ seen) then unique_by_outpoint seen l
      else u :: unique_by_outpoint ({[un_outpoint u]} ∪ seen) l
  end.

(** The comparison the unspents are sorted with. *)
Definition unspent_cmp (a b : UnspentInfo) : comparison := if un_value a <? un_value b then Lt else Gt.

Section listing.
(** The order of a set, and [sort_unstable_by], which may panic ([None]). *)
Context (order : gset UnspentInfo → list UnspentInfo).
Context (sort : (UnspentInfo → UnspentInfo → comparison) → list UnspentInfo → option (list UnspentInfo)).

Definition sort_dedup_unspents (unspents : gset UnspentInfo) : option (list UnspentInfo) :=
  sort unspent_cmp (unique_by_outpoint ∅ (order unspents)).

(** [rounds] bounds the recursion of the replacement. *)
Definition get_all_unspent_ordered_list (rounds : nat) (listed : option (list UnspentInfo)) (r : RecentlySpentOutPoints) :
    option (result (list UnspentInfo) SendError) :=
  match listed with
  | None => Some (Err ListError)
  | Some unspents =>
      unordered ← replace_spent_outputs_with_cache rounds r (list_to_set unspents);
      ordered ← sort_dedup_unspents unordered;
      Some (Ok ordered)
  end.

End listing.

(** Who signs: a key pair of the wallet, with the bare-key outputs a server lists for
    the address, or a hardware wallet. *)
Inductive PrivKeyPolicy : Type :=
| SoftwareKey (key_pair : option KeyPair) (p2pk_outpoints : option (list OutPoint))
| Trezor (sign : TransactionInputSigner → option Transaction).

Section send.
Context `{Hashes} `{Ecdsa} (iter : gset CachedUnspentInfo → list CachedUnspentInfo) (coin : UtxoConf).

Definition sign_with_policy (policy : PrivKeyPolicy) (address : Address) (unsigned : TransactionInputSigner) :
    option (result Transaction SendError) :=
  match policy with
  | Trezor sign => Some (match sign unsigned with Some tx => Ok tx | None => Err TrezorError end)
  | SoftwareKey None _ => Some (Err NoKeyPair)
  | SoftwareKey _ None => Some (Err P2pkLookup)
  | SoftwareKey (Some key_pair) (Some p2pk_outpoints) =>
      let signature_version := if ad_segwit address then WitnessV0 else cf_signature_version coin in
      prev_script ← build_p2pkh (AddressHash (ad_hash address));
      signed ← sign_tx_with_p2pk unsigned key_pair prev_script signature_version (cf_fork_id coin) p2pk_outpoints;
      Some (map_err SignError signed)
  end.

Definition spent_unspents (unsigned : TransactionInputSigner) : list UnspentInfo :=
  (λ i, mkUnspent (u_previous_output i) (u_amount i) None) <$> s_inputs unsigned.

(** The end of a send.  [broadcast] is whether the server takes the transaction. *)
Definition broadcast_and_record (broadcast : Transaction → bool) (recently_spent : RecentlySpentOutPoints)
    (unsigned : TransactionInputSigner) (signed : result Transaction SendError) :
    result Transaction SendError * RecentlySpentOutPoints :=
  match signed with
  | Err e => (Err e, recently_spent)
  | Ok signed =>
      if broadcast signed
      then (Ok signed, add_spent iter (spent_unspents unsigned) (tx_hash signed) (outputs signed) recently_spent)
      else (Err (BroadcastError signed), recently_spent)
  end.

Definition generate_and_send_tx_from_sender (env : BuildEnv) (policy : PrivKeyPolicy) (iguana : option Address)
    (sender : Address) (unspents : list UnspentInfo) (required_inputs : option (list UnspentInfo)) (fee_policy : FeePolicy)
    (broadcast : Transaction → bool) (recently_spent : RecentlySpentOutPoints) (outs : list TransactionOutput) :
    option (result Transaction SendError * RecentlySpentOutPoints) :=
  let builder := with_fee_policy fee_policy (add_outputs outs (add_available_inputs unspents
    (with_from_address sender (builder_new coin (be_now env) iguana)))) in
  let builder := match required_inputs with Some required => add_required_inputs required builder | None => builder end in
  built ← build coin env builder;
  match built with
  | Err e => Some (Err (BuildError e), recently_spent)
  | Ok (unsigned, _) =>
      signed ← sign_with_policy policy sender unsigned;
      Some (broadcast_and_record broadcast recently_spent unsigned signed)
  end.

(** The same from the address of the wallet, whose bare-key outputs are looked up
    first. *)
Definition generate_and_send_tx (env : BuildEnv) (my_address : option Address) (key_pair : option KeyPair)
    (p2pk_outpoints : option (list OutPoint)) (unspents : list UnspentInfo) (required_inputs : option (list UnspentInfo))
    (fee_policy : FeePolicy) (broadcast : Transaction → bool) (recently_spent : RecentlySpentOutPoints)
    (outs : list TransactionOutput) : option (result Transaction SendError * RecentlySpentOutPoints) :=
  match my_address, key_pair, p2pk_outpoints with
  | None, _, _ => Some (Err NoAddress, recently_spent)
  | _, None, _ => Some (Err NoKeyPair, recently_spent)
  | _, _, None => Some (Err P2pkLookup, recently_spent)
  | Some address, Some key_pair, Some p2pk_outpoints =>
      let builder := with_fee_policy fee_policy (add_outputs outs (add_available_inputs unspents
        (builder_new coin (be_now env) my_address))) in
      let builder := match required_inputs with Some required => add_required_inputs required builder | None => builder end in
      built ← build coin env builder;
      match built with
      | Err e => Some (Err (BuildError e), recently_spent)
      | Ok (unsigned, _) =>
          signed ← sign_with_policy (SoftwareKey (Some key_pair) (Some p2pk_outpoints)) address unsigned;
          Some (broadcast_and_record broadcast recently_spent unsigned signed)
      end
  end.

Context (order : gset UnspentInfo → list UnspentInfo).
Context (sort : (UnspentInfo → UnspentInfo → comparison) → list UnspentInfo → option (list UnspentInfo)).

(** The server is asked before the lock on the record is taken, which is then held from
    the replacing to the recording: [listed] may be from before sends that have been
    recorded since.  A coin that checks the maturity of its outputs lists the mature
    ones only, which is not modelled. *)
Definition send_outputs_from_my_address_impl (rounds : nat) (env : BuildEnv) (policy : PrivKeyPolicy)
    (iguana : option Address) (sender : Address) (listed : option (list UnspentInfo)) (broadcast : Transaction → bool)
    (recently_spent : RecentlySpentOutPoints) (outs : list TransactionOutput) :
    option (result Transaction SendError * RecentlySpentOutPoints) :=
  unspents ← get_all_unspent_ordered_list order sort rounds listed recently_spent;
  match unspents with
  | Err e => Some (Err e, recently_spent)
  | Ok unspents =>
      generate_and_send_tx_from_sender env policy iguana sender unspents None SendExact broadcast recently_spent outs
  end.

End send.

(** ** What recording a spend does *)

(** The outputs an entry has after [D] is spent, with [O] in return. *)
Definition repl (O D X : gset CachedUnspentInfo) : gset CachedUnspentInfo :=
  if decide (X ∩ D = ∅) then X else (X ∖ D) ∪ O.

(** The inverse of the entries of [m], at [o]. *)
Definition inverse_at (m inv : gmap CachedUnspentInfo (gset CachedUnspentInfo)) (o : CachedUnspentInfo) : Prop :=
  ∀ j, (∃ X, m !! j = Some X ∧ o ∈ X) ↔ (∃ P, inv !! o = Some P ∧ j ∈ P).

Section add_spent.
Context (iter : gset CachedUnspentInfo → list CachedUnspentInfo) (iter_elements : ∀ X, iter X ≡ₚ elements X).

Lemma iter_NoDup X : NoDup (iter X).
Proof using iter_elements. rewrite iter_elements. apply NoDup_elements. Qed.
Lemma elem_of_iter j X : j ∈ iter X ↔ j ∈ X.
Proof using iter_elements. rewrite iter_elements. apply elem_of_elements. Qed.

Lemma replace_in_chain_spec O i l : ∀ m p, NoDup l →
  (∀ j, (foldl (replace_in_chain O i) (m, p) l).1 !! j
        = if decide (j ∈ l) then (λ X, (X ∖ {[i]}) ∪ O) <$> m !! j else m !! j)
  ∧ (∀ j, j ∈ (foldl (replace_in_chain O i) (m, p) l).2 ↔ j ∈ p ∨ j ∈ l ∧ is_Some (m !! j)).
Proof.
  induction l as [|k l IH]; intros m p Hl; cbn [foldl].
  { split; intros j; [by rewrite decide_False by set_solver|set_solver]. }
  apply NoDup_cons in Hl as [Hk Hl]. unfold replace_in_chain at 2 4. cbn [fst snd].
  destruct (m !! k) as [X|] eqn:Em.
  - destruct (IH (<[k := (X ∖ {[i]}) ∪ O]> m) ({[k]} ∪ p) Hl) as [H1 H2]. split; intros j; [rewrite H1|rewrite H2].
    + destruct (decide (j = k)) as [->|Hne].
      * rewrite decide_False by done. rewrite decide_True by set_solver. by rewrite lookup_insert_eq, Em.
      * rewrite lookup_insert_ne by done. destruct (decide (j ∈ l)); [rewrite decide_True by set_solver; done|].
        rewrite decide_False by set_solver. done.
    + destruct (decide (j = k)) as [->|Hne]; [rewrite Em; set_solver|]. rewrite lookup_insert_ne by done. set_solver.
  - destruct (IH m p Hl) as [H1 H2]. split; intros j; [rewrite H1|rewrite H2].
    + destruct (decide (j = k)) as [->|Hne]; [rewrite Em; by repeat case_decide|].
      destruct (decide (j ∈ l)); [rewrite decide_True by set_solver; done|]. rewrite decide_False by set_solver. done.
    + destruct (decide (j = k)) as [->|Hne]; [rewrite Em; split; [|]; intros; naive_solver|]. set_solver.
Qed.

Lemma repl_nil O X : repl O ∅ X = X.
Proof. unfold repl. by rewrite decide_True by set_solver. Qed.

(** The step of the outer loop. *)
Lemma repl_step O D X i : i ∉ O → repl O ({[i]} ∪ D) X = if decide (i ∈ X) then (repl O D X ∖ {[i]}) ∪ O else repl O D X.
Proof.
  intros Hi. unfold repl. destruct (decide (X ∩ D = ∅)) as [E|E].
  - destruct (decide (i ∈ X)) as [Hx|Hx].
    + rewrite decide_False by set_solver. set_solver.
    + by rewrite decide_True by set_solver.
  - rewrite decide_False by set_solver. destruct (decide (i ∈ X)); set_solver.
Qed.

Lemma replace_chain_spec m0 inv O l : ∀ D m p,
  NoDup l → (∀ i, i ∈ l → i ∉ D ∧ i ∉ O ∧ inverse_at m0 inv i) →
  (∀ j, m !! j = repl O D <$> m0 !! j) → (∀ j, j ∈ p ↔ ∃ X, m0 !! j = Some X ∧ X ∩ D ≠ ∅) →
  let r := foldl (replace_chain iter inv O) (m, p) l in
  (∀ j, r.1 !! j = repl O (D ∪ list_to_set l) <$> m0 !! j)
  ∧ (∀ j, j ∈ r.2 ↔ ∃ X, m0 !! j = Some X ∧ X ∩ (D ∪ list_to_set l) ≠ ∅).
Proof using iter_elements.
  induction l as [|i l IH]; intros D m p Hl Hi Hm Hp; cbn [foldl].
  { cbn. rewrite (right_id_L ∅ (∪)). done. }
  apply NoDup_cons in Hl as [Hil Hl]. destruct (Hi i) as (HiD & HiO & Hinv); [set_solver|].
  assert (HD : D ∪ list_to_set (i :: l) = ({[i]} ∪ D) ∪ list_to_set l) by set_solver. rewrite HD.
  set (acc := replace_chain iter inv O (m, p) i).
  assert (Hacc : (∀ j, acc.1 !! j = repl O ({[i]} ∪ D) <$> m0 !! j)
    ∧ (∀ j, j ∈ acc.2 ↔ ∃ X, m0 !! j = Some X ∧ X ∩ ({[i]} ∪ D) ≠ ∅)).
  { unfold acc, replace_chain. destruct (inv !! i) as [P|] eqn:EP.
    - destruct (replace_in_chain_spec O i (iter P) m p (iter_NoDup P)) as [H1 H2].
      assert (Hj : ∀ j, j ∈ P ↔ ∃ X, m0 !! j = Some X ∧ i ∈ X) by (intros j; rewrite (Hinv j), EP; naive_solver).
      split; intros j; [rewrite H1, Hm|rewrite H2, Hp, Hm].
      + destruct (m0 !! j) as [X|] eqn:EX; [|by repeat case_decide]. cbn. rewrite repl_step by done.
        destruct (decide (i ∈ X)) as [Hx|Hx].
        * rewrite decide_True by (rewrite elem_of_iter, Hj; by eexists). done.
        * rewrite decide_False; [done|]. rewrite elem_of_iter, Hj, EX. naive_solver.
      + rewrite elem_of_iter, Hj. split; [|intros (X & -> & HX)].
        * intros [(X & -> & HX)|[(X & -> & HX) _]]; eexists; (split; [done|]); set_solver.
        * destruct (decide (i ∈ X)) as [Hx|Hx]; [right; split; [by exists X|by eexists]|left; exists X; split; [done|set_solver]].
    - assert (Hj : ∀ j X, m0 !! j = Some X → i ∉ X).
      { intros j X EX Hx. destruct (proj1 (Hinv j)) as (P & HP & _); [by exists X|]. congruence. }
      cbn. split; intros j; [rewrite Hm|rewrite Hp].
      + destruct (m0 !! j) as [X|] eqn:EX; [|done]. cbn. rewrite repl_step by done. by rewrite decide_False by eauto.
      + split; intros (X & EX & HX); exists X; (split; [done|]); pose proof (Hj j X EX); set_solver. }
  destruct acc as [m1 p1], Hacc as [Ha1 Ha2]. apply IH; try done. intros k Hk. destruct (Hi k) as (?&?&?); [set_solver|].
  split_and!; try done. assert (k ≠ i) by (intros ->; done). set_solver.
Qed.

Lemma insert_all {A} (v : A) l : ∀ (m : gmap CachedUnspentInfo A) j,
  foldl (λ m k, <[k := v]> m) m l !! j = if decide (j ∈ l) then Some v else m !! j.
Proof.
  induction l as [|k l IH]; intros m j; cbn [foldl]; [by rewrite decide_False by set_solver|]. rewrite IH.
  destruct (decide (j ∈ l)); [by rewrite decide_True by set_solver|]. destruct (decide (j = k)) as [->|Hne].
  - rewrite decide_True by set_solver. apply lookup_insert_eq.
  - rewrite decide_False by set_solver. by apply lookup_insert_ne.
Qed.

(** The two maps after a spend, entry by entry. *)
Lemma add_spent_spec ins h outs r :
  let I : gset CachedUnspentInfo := list_to_set (cached_of <$> ins) in
  let O := own_outputs (for_script_pubkey r) h outs in
  I ## O → (∀ i, i ∈ I → inverse_at (input_to_output_map r) (output_to_input_map r) i) →
  let r' := add_spent iter ins h outs r in
  (∀ j, input_to_output_map r' !! j = if decide (j ∈ I) then Some O else repl O I <$> input_to_output_map r !! j)
  ∧ ∃ P : gset CachedUnspentInfo,
      (∀ j, j ∈ P ↔ j ∈ I ∨ ∃ X, input_to_output_map r !! j = Some X ∧ X ∩ I ≠ ∅)
      ∧ ∀ o, output_to_input_map r' !! o = if decide (o ∈ O) then Some P else output_to_input_map r !! o.
Proof using iter_elements.
  intros I O Hd Hinv r'. unfold r', add_spent. fold I O. cbn [input_to_output_map output_to_input_map].
  destruct (replace_chain_spec (input_to_output_map r) (output_to_input_map r) O (iter I) ∅ (input_to_output_map r) ∅)
    as [H1 H2]; [apply iter_NoDup| | | |].
  - intros i Hi%elem_of_iter. split_and!; [set_solver..|]. by apply Hinv.
  - intros j. destruct (input_to_output_map r !! j); cbn; [|done]. by rewrite repl_nil.
  - intros j. split; [set_solver|]. intros (X & _ & HX). set_solver.
  - assert (HI : ∅ ∪ list_to_set (iter I) = I) by (apply set_eq; intros x; rewrite elem_of_union, elem_of_list_to_set, elem_of_iter; set_solver).
    rewrite HI in H1, H2. split.
    + intros j. rewrite insert_all. destruct (decide (j ∈ I)) as [Hj|Hj].
      * by rewrite decide_True by by apply elem_of_iter.
      * rewrite decide_False by by rewrite elem_of_iter. apply H1.
    + eexists (_ ∪ I). split; [|intros o; by rewrite insert_all; destruct (decide (o ∈ O));
        [rewrite decide_True by by apply elem_of_iter|rewrite decide_False by by rewrite elem_of_iter]].
      intros j. rewrite elem_of_union, H2. tauto.
Qed.
End add_spent.

(** ** The wallet over its sends *)

(** A transaction the wallet sent. *)
Record sent : Type := mkSent { sn_inputs : list UnspentInfo; sn_hash : bytes; sn_outputs : list TransactionOutput }.

Section history.
Context (script : bytes) (E : gset CachedUnspentInfo).

Definition sent_in (t : sent) : gset CachedUnspentInfo := list_to_set (cached_of <$> sn_inputs t).
Definition sent_out (t : sent) : gset CachedUnspentInfo := own_outputs script (sn_hash t) (sn_outputs t).

(** From the outputs [E] on: what the wallet has, has spent and has ever had. *)
Definition owned (H : list sent) : gset CachedUnspentInfo := foldl (λ U t, (U ∖ sent_in t) ∪ sent_out t) E H.
Definition spent (H : list sent) : gset CachedUnspentInfo := foldl (λ S t, S ∪ sent_in t) ∅ H.
Definition known (H : list sent) : gset CachedUnspentInfo := foldl (λ K t, K ∪ sent_out t) E H.

(** Every transaction spends something, only what the wallet has, and its hash is that
    of no earlier output. *)
Inductive sound_history : list sent → Prop :=
| history_nil : sound_history []
| history_snoc H t :
    sound_history H → sent_in t ≠ ∅ → sent_in t ⊆ owned H →
    (∀ c, c ∈ known H → op_hash (cu_outpoint c) ≠ sn_hash t) → sound_history (H ++ [t]).

Definition recorded (iter : gset CachedUnspentInfo → list CachedUnspentInfo) (H : list sent) : RecentlySpentOutPoints :=
  foldl (λ r t, add_spent iter (sn_inputs t) (sn_hash t) (sn_outputs t) r) (recent_new script) H.

Lemma owned_snoc H t : owned (H ++ [t]) = (owned H ∖ sent_in t) ∪ sent_out t.
Proof. unfold owned. by rewrite foldl_app. Qed.
Lemma spent_snoc H t : spent (H ++ [t]) = spent H ∪ sent_in t.
Proof. unfold spent. by rewrite foldl_app. Qed.
Lemma known_snoc H t : known (H ++ [t]) = known H ∪ sent_out t.
Proof. unfold known. by rewrite foldl_app. Qed.
Lemma recorded_snoc iter H t : recorded iter (H ++ [t]) = add_spent iter (sn_inputs t) (sn_hash t) (sn_outputs t) (recorded iter H).
Proof. unfold recorded. by rewrite foldl_app. Qed.

Lemma sent_out_hash t c : c ∈ sent_out t → op_hash (cu_outpoint c) = sn_hash t.
Proof.
  unfold sent_out, own_outputs. rewrite elem_of_list_to_set, list_elem_of_omap.
  intros (x & (n & y & -> & _)%elem_of_lookup_imap & Hc). cbn in Hc. case_bool_decide; [|done]. by injection Hc as <-.
Qed.

Lemma fresh_out H t : (∀ c, c ∈ known H → op_hash (cu_outpoint c) ≠ sn_hash t) → sent_out t ## known H.
Proof. intros Hf c Hc%sent_out_hash Hk. by apply (Hf c). Qed.

Lemma owned_known H : sound_history H → owned H ⊆ known H ∧ spent H ⊆ known H ∧ owned H ## spent H.
Proof.
  induction 1 as [|H t HH (IH1 & IH2 & IH3) Hne Hin Hf]; [set_solver|].
  apply fresh_out in Hf. rewrite owned_snoc, spent_snoc, known_snoc. set_solver.
Qed.

(** The record of a history: the spent outputs are its keys, an entry has only what
    the wallet has, and the second map inverts the first. *)
Record tracks (r : RecentlySpentOutPoints) (H : list sent) : Prop := mkTracks {
  tracks_script : for_script_pubkey r = script;
  tracks_dom : ∀ j, is_Some (input_to_output_map r !! j) ↔ j ∈ spent H;
  tracks_owned : ∀ j X, input_to_output_map r !! j = Some X → X ⊆ owned H;
  tracks_inverse : ∀ o, o ∈ owned H → inverse_at (input_to_output_map r) (output_to_input_map r) o;
  (** An older state of the wallet, with what is spent replaced by its entries, is the
      present one. *)
  tracks_current : ∀ n o, (n ≤ length H)%nat →
    o ∈ owned H ↔ (o ∈ owned (take n H) ∧ o ∉ spent H)
                  ∨ ∃ j X, j ∈ owned (take n H) ∧ input_to_output_map r !! j = Some X ∧ o ∈ X
}.

Lemma tracks_nil : tracks (recent_new script) [].
Proof.
  split; cbn; try done.
  - intros j. rewrite lookup_empty, is_Some_alt. set_solver.
  - intros o _ j. split; intros (X & HX & _); rewrite lookup_empty in HX; done.
  - intros n o _. rewrite take_nil. cbn. split; [by left; split; [|apply not_elem_of_empty]|].
    intros [[]|(j & X & _ & HX & _)]; [done|]. by rewrite lookup_empty in HX.
Qed.


Lemma elem_of_repl O D X o : o ∈ repl O D X ↔ (o ∈ X ∧ o ∉ D) ∨ (o ∈ O ∧ X ∩ D ≠ ∅).
Proof. unfold repl. case_decide; set_solver. Qed.

(** One send, in terms of the sets: [U] is what the wallet has, [S] what it spent. *)
Section step.
Context (iter : gset CachedUnspentInfo → list CachedUnspentInfo) (iter_elements : ∀ X, iter X ≡ₚ elements X).
Context (r : RecentlySpentOutPoints) (H : list sent) (t : sent).
Context (Hr : tracks r H) (HH : sound_history (H ++ [t])).

Local Notation r' := (add_spent iter (sn_inputs t) (sn_hash t) (sn_outputs t) r).

Lemma step_sound :
  sound_history H ∧ sent_in t ≠ ∅ ∧ sent_in t ⊆ owned H ∧ sent_out t ## known H.
Proof using HH.
  inversion HH as [E0|H' t' ? Hne Hin Hf E0]; [by apply app_cons_not_nil in E0|]. apply app_inj_tail in E0 as [-> ->].
  split_and!; try done. by apply fresh_out.
Qed.

(** The maps after the step. *)
Lemma step_maps :
  (∀ j, input_to_output_map r' !! j
        = if decide (j ∈ sent_in t) then Some (sent_out t) else repl (sent_out t) (sent_in t) <$> input_to_output_map r !! j)
  ∧ (∀ j, j ∈ sent_in t → input_to_output_map r !! j = None)
  ∧ (∀ j X, input_to_output_map r !! j = Some X → X ⊆ owned H ∧ X ## sent_out t ∧ j ∉ sent_in t)
  ∧ ∃ P : gset CachedUnspentInfo,
      (∀ j, j ∈ P ↔ j ∈ sent_in t ∨ ∃ X, input_to_output_map r !! j = Some X ∧ X ∩ sent_in t ≠ ∅)
      ∧ ∀ o, output_to_input_map r' !! o = if decide (o ∈ sent_out t) then Some P else output_to_input_map r !! o.
Proof using iter_elements Hr HH.
  destruct step_sound as (Hs & Hne & Hin & Hf). destruct (owned_known _ Hs) as (Hk & Hsk & Hd). destruct Hr as [Hsc Hdom Ho Hinv _].
  assert (HI : ∀ j, j ∈ sent_in t → input_to_output_map r !! j = None).
  { intros j Hj. apply eq_None_not_Some. rewrite Hdom. set_solver. }
  destruct (add_spent_spec iter iter_elements (sn_inputs t) (sn_hash t) (sn_outputs t) r) as [H1 H2].
  - rewrite Hsc. fold (sent_in t) (sent_out t). set_solver.
  - intros i Hi. apply Hinv. by apply Hin.
  - rewrite Hsc in H1, H2. split_and!; [exact H1|done| |exact H2].
    intros j X EX. pose proof (Ho _ _ EX). split_and!; [done|set_solver|]. intros Hj%HI. congruence.
Qed.

Lemma step_entry j o :
  (∃ X, input_to_output_map r' !! j = Some X ∧ o ∈ X)
  ↔ (j ∈ sent_in t ∧ o ∈ sent_out t)
    ∨ ∃ X, input_to_output_map r !! j = Some X ∧ (o ∈ X ∧ o ∉ sent_in t ∨ o ∈ sent_out t ∧ X ∩ sent_in t ≠ ∅).
Proof using iter_elements Hr HH.
  destruct step_maps as (Hm & Hn & Hx & _). rewrite Hm. destruct (decide (j ∈ sent_in t)) as [Hj|Hj].
  - rewrite Hn by done. split; [intros (X & [= <-] & ?); by left|]. intros [[_ ?]|(X & ? & _)]; [by eexists|done].
  - destruct (input_to_output_map r !! j) as [X|]; cbn; [|split; [naive_solver|]; intros [[]|(X & ? & _)]; done].
    setoid_rewrite <-elem_of_repl. split; [intros (? & [= <-] & ?); right; by exists X|].
    intros [[]|(? & [= <-] & ?)]; [done|by eexists].
Qed.

Lemma step_inverse o : o ∈ owned (H ++ [t]) → inverse_at (input_to_output_map r') (output_to_input_map r') o.
Proof using iter_elements Hr HH.
  destruct step_sound as (Hs & Hne & Hin & Hf). destruct (owned_known _ Hs) as (Hk & _).
  destruct step_maps as (_ & _ & Hx & P & HP & Hinv). rewrite owned_snoc. intros Ho j. rewrite step_entry, Hinv.
  destruct (decide (o ∈ sent_out t)) as [HO|HO].
  - split.
    + intros Hj. exists P. split; [done|]. apply HP. destruct Hj as [[]|(X & EX & [[HoX _]|[_ ?]])]; [by left| |right; by exists X].
      destruct (Hx _ _ EX) as (_ & Hd & _). set_solver.
    + intros (? & [= <-] & [Hj|(X & EX & ?)]%HP); [by left|right; exists X; auto].
  - assert (HoU : o ∈ owned H ∧ o ∉ sent_in t) by set_solver. rewrite <-(tracks_inverse _ _ Hr o (proj1 HoU) j).
    split; [|intros (X & ? & ?); right; exists X; tauto]. intros [[]|(X & ? & [[]|[]])]; try done; by exists X.
Qed.

Lemma step_current n o :
  (n ≤ length H)%nat →
  o ∈ owned (H ++ [t]) ↔ (o ∈ owned (take n H) ∧ o ∉ spent (H ++ [t]))
                         ∨ ∃ j X, j ∈ owned (take n H) ∧ input_to_output_map r' !! j = Some X ∧ o ∈ X.
Proof using iter_elements Hr HH.
  intros Hn. destruct step_sound as (Hs & Hne & Hin & Hf). destruct (owned_known _ Hs) as (Hk & _ & Hd).
  destruct step_maps as (_ & HI & Hx & _). pose proof (λ o, tracks_current _ _ Hr n o Hn) as Hc.
  assert (He : (∃ j X, j ∈ owned (take n H) ∧ input_to_output_map r' !! j = Some X ∧ o ∈ X)
    ↔ ∃ j, j ∈ owned (take n H) ∧ ((j ∈ sent_in t ∧ o ∈ sent_out t) ∨ ∃ X, input_to_output_map r !! j = Some X
        ∧ (o ∈ X ∧ o ∉ sent_in t ∨ o ∈ sent_out t ∧ X ∩ sent_in t ≠ ∅))).
  { setoid_rewrite <-step_entry. split; [intros (j & X & ? & ? & ?); exists j; split; [done|by exists X]|].
    intros (j & ? & X & ? & ?). by exists j, X. }
  rewrite He, owned_snoc, spent_snoc, elem_of_union, elem_of_difference, not_elem_of_union. split.
  - intros [[HU HI']|HO].
    + apply Hc in HU as [[]|(j & X & ? & ? & ?)]; [by left|]. right. exists j. split; [done|]. right. exists X. auto.
    + right. apply set_choose_L in Hne as [i Hi]. pose proof (Hin _ Hi) as HiU.
      apply Hc in HiU as [[]|(j & X & ? & EX & ?)]; [by exists i; auto|]. exists j. split; [done|]. right. exists X.
      split; [done|]. right. set_solver.
  - intros [(HV & HS & HI')|(j & HV & [[]|(X & EX & [[]|[]])])]; auto; left; (split; [|done]); apply Hc; auto.
    right. by exists j, X.
Qed.

Lemma tracks_snoc : tracks r' (H ++ [t]).
Proof using iter_elements Hr HH.
  destruct step_sound as (Hs & Hne & Hin & Hf). destruct (owned_known _ Hs) as (Hk & Hsk & Hd).
  destruct step_maps as (Hm & HI & Hx & _). pose proof (tracks_dom _ _ Hr) as Hdom.
  assert (Hdom' : ∀ j, is_Some (input_to_output_map r' !! j) ↔ j ∈ spent (H ++ [t])).
  { intros j. rewrite Hm, spent_snoc, elem_of_union, <-Hdom. destruct (decide (j ∈ sent_in t)); [naive_solver|].
    rewrite fmap_is_Some. tauto. }
  split; [apply Hr|done| |apply step_inverse|].
  - intros j X EX o Ho. rewrite owned_snoc. destruct (proj1 (step_entry j o)) as [[]|(X' & EX' & Ho')]; [by exists X|set_solver|].
    destruct (Hx _ _ EX') as (? & _). set_solver.
  - intros n o Hn. rewrite length_app in Hn. cbn in Hn. destruct (decide (n ≤ length H)%nat) as [Hle|Hgt].
    + rewrite take_app_le by done. by apply step_current.
    + rewrite take_ge by (rewrite length_app; cbn; lia). destruct (owned_known _ HH) as (_ & _ & Hd').
      split; [intros Ho; left; split; [done|set_solver]|]. intros [[]|(j & X & Hj & EX & _)]; [done|].
      exfalso. apply (Hd' j); [done|]. apply Hdom'. by exists X.
Qed.
End step.

Lemma recorded_tracks iter H : (∀ X, iter X ≡ₚ elements X) → sound_history H → tracks (recorded iter H) H.
Proof.
  intros Hi HH. pose proof HH as HH'. induction HH as [|H t HH IH Hne Hin Hf]; [apply tracks_nil|].
  rewrite recorded_snoc. apply tracks_snoc; auto.
Qed.

Lemma elem_of_replacements r (L : gset UnspentInfo) o :
  o ∈ replacements r L ↔ ∃ j X, j ∈ (set_map cached_of L : gset CachedUnspentInfo) ∧ input_to_output_map r !! j = Some X ∧ o ∈ X.
Proof.
  unfold replacements. rewrite elem_of_union_list. setoid_rewrite list_elem_of_fmap. split.
  - intros (X & (u & -> & Hu%elem_of_elements) & Ho). exists (cached_of u).
    destruct (input_to_output_map r !! cached_of u) as [X|] eqn:EX; [|set_solver]. exists X. set_solver.
  - intros (j & X & Hj & EX & Ho). apply elem_of_map in Hj as (u & -> & Hu). exists X. split; [|done]. exists u.
    rewrite EX. split; [done|by apply elem_of_elements].
Qed.

Lemma elem_of_not_spent r H (L : gset UnspentInfo) o :
  tracks r H → o ∈ (set_map cached_of (not_spent r L) : gset CachedUnspentInfo)
    ↔ o ∈ (set_map cached_of L : gset CachedUnspentInfo) ∧ o ∉ spent H.
Proof.
  intros Hr. rewrite !elem_of_map. unfold not_spent. setoid_rewrite elem_of_filter. setoid_rewrite eq_None_not_Some.
  setoid_rewrite (tracks_dom _ _ Hr). naive_solver.
Qed.

Lemma cached_unspent (X : gset CachedUnspentInfo) : set_map cached_of (set_map unspent_of X : gset UnspentInfo) = X.
Proof.
  apply set_eq. intros c. rewrite elem_of_map. setoid_rewrite elem_of_map. split; [intros (? & -> & c' & -> & ?); by destruct c'|].
  intros Hc. exists (unspent_of c). split; [by destruct c|by exists c].
Qed.

(** Two rounds are enough, and bring the listing up to date. *)
Lemma replaced_current r H L n rounds :
  tracks r H → sound_history H → (n ≤ length H)%nat →
  set_map cached_of L = owned (take n H) → (2 ≤ rounds)%nat →
  ∃ current, replace_spent_outputs_with_cache rounds r L = Some current ∧ set_map cached_of current = owned H.
Proof.
  intros Hr HH Hn HL Hrounds. destruct (owned_known _ HH) as (_ & _ & Hd). destruct rounds as [|[|rounds]]; [lia..|].
  assert (Hc : ∀ o, o ∈ owned H ↔ o ∈ (set_map cached_of (not_spent r L) : gset CachedUnspentInfo) ∨ o ∈ replacements r L).
  { intros o. rewrite (tracks_current _ _ Hr n o Hn), (elem_of_not_spent _ _ _ _ Hr), elem_of_replacements, HL. done. }
  cbn [replace_spent_outputs_with_cache]. destruct (decide (replacements r L = ∅)) as [Ee|Ee].
  { exists (not_spent r L). split; [done|]. apply set_eq. intros o. rewrite Hc, Ee. set_solver. }
  set (L2 := not_spent r L ∪ set_map unspent_of (replacements r L)).
  assert (H2 : set_map cached_of L2 = owned H).
  { apply set_eq. intros o. rewrite Hc. unfold L2. by rewrite set_map_union_L, cached_unspent, elem_of_union. }
  assert (Hn2 : ∀ u, u ∈ L2 → input_to_output_map r !! cached_of u = None).
  { intros u Hu. apply eq_None_not_Some. rewrite (tracks_dom _ _ Hr). intros Hs. apply (Hd (cached_of u)); [|done].
    rewrite <-H2. apply elem_of_map. by exists u. }
  rewrite decide_True; [|apply set_eq; intros o; rewrite elem_of_replacements; split; [|set_solver]].
  - exists (not_spent r L2). split; [done|]. rewrite <-H2. f_equal. unfold not_spent. apply set_eq. intros u.
    rewrite elem_of_filter. split; [tauto|]. auto.
  - intros (j & X & Hj & EX & _). apply elem_of_map in Hj as (u & -> & Hu). rewrite Hn2 in EX; done.
Qed.

End history.

(** C23: whatever prefix of the wallet's own sends the server has seen, its listing with
    the recorded spends put in is exactly what the wallet has after all of them:
    nothing spent is offered again, no change is missing, and nothing is invented.
    The recursion ends in two rounds, in whatever order the sets are iterated. *)
Theorem replaced_is_owned iter script E H n listing rounds :
  (∀ X, iter X ≡ₚ elements X) → sound_history script E H → (n ≤ length H)%nat →
  set_map cached_of listing = owned script E (take n H) → (2 ≤ rounds)%nat →
  ∃ current, replace_spent_outputs_with_cache rounds (recorded script iter H) listing = Some current
    ∧ set_map cached_of current = owned script E H.
Proof. intros Hi HH Hn HL Hr. by apply (replaced_current script E _ H listing n); [apply recorded_tracks|..]. Qed.

(** ** Pending withdraws *)

Lemma oldest_some l : l ≠ [] → is_Some (oldest l).
Proof.
  unfold oldest. destruct l as [|y l]; [done|]. intros _. cbn [foldl older]. revert y.
  induction l as [|z l IH]; intros y; cbn [foldl older]; [by eexists|]. case_match; apply IH.
Qed.

Lemma oldest_spec l e : oldest l = Some e → e ∈ l ∧ ∀ e', e' ∈ l → pw_seq e.2 ≤ pw_seq e'.2.
Proof.
  revert e. induction l as [|x l IH] using rev_ind; intros e; [done|].
  assert (oldest (l ++ [x]) = older (oldest l) x) as -> by (unfold oldest; by rewrite foldl_app).
  destruct (oldest l) as [b|] eqn:Eb; cbn [older].
  - specialize (IH b eq_refl) as [Hb Hm]. destruct (Z.ltb_spec (pw_seq x.2) (pw_seq b.2)) as [Hlt|Hge]; intros [= <-].
    + split; [set_solver|]. intros e' [He|He%list_elem_of_singleton]%elem_of_app; [specialize (Hm _ He); lia|subst; lia].
    + split; [set_solver|]. intros e' [He|He%list_elem_of_singleton]%elem_of_app; [by apply Hm|subst; lia].
  - intros [= <-]. destruct (decide (l = [])) as [->|Hl]; [|destruct (oldest_some l Hl); congruence].
    split; [set_solver|]. intros e' He%list_elem_of_singleton. subst. lia.
Qed.

(** The loop ends with at most the cap, and never drops the newest entry. *)
Lemma drop_oldest_spec rounds : ∀ m k p,
  (size m ≤ rounds)%nat → m !! k = Some p → (∀ k' p', m !! k' = Some p' → k' ≠ k → pw_seq p' < pw_seq p) →
  (size (drop_oldest rounds m) ≤ PENDING_WITHDRAW_CAP)%nat ∧ drop_oldest rounds m !! k = Some p ∧ drop_oldest rounds m ⊆ m.
Proof.
  induction rounds as [|rounds IH]; intros m k p Hs Hk Hnew; cbn [drop_oldest].
  { assert (size m = 0%nat) as Hm%map_size_empty_inv by lia. subst m. done. }
  destruct (Nat.ltb_spec PENDING_WITHDRAW_CAP (size m)) as [Hc|Hc]; [|done].
  destruct (oldest_some (map_to_list m)) as [[j q] Ho].
  { intros Hn%map_to_list_empty_iff. subst m. rewrite map_size_empty in Hc. lia. }
  rewrite Ho. apply oldest_spec in Ho as [Hj%elem_of_map_to_list Hmin]. cbn [fst snd] in *.
  assert (Hne : j ≠ k).
  { intros ->. rewrite Hk in Hj. injection Hj as <-.
    assert (Hsz : size (delete k m) ≠ 0%nat) by (rewrite map_size_delete, Hk; unfold PENDING_WITHDRAW_CAP in Hc; lia).
    apply map_size_non_empty_iff, map_choose in Hsz as (k' & p' & (Hne & Hk')%lookup_delete_Some).
    specialize (Hmin (k', p') ltac:(by apply elem_of_map_to_list)). specialize (Hnew _ _ Hk' ltac:(done)). cbn in Hmin. lia. }
  destruct (IH (delete j m) k p) as (H1 & H2 & H3).
  - rewrite map_size_delete, Hj. lia.
  - by rewrite lookup_delete_ne.
  - intros k' p' [_ Hk']%lookup_delete_Some. by apply Hnew.
  - split_and!; try done. etrans; [exact H3|apply delete_subseteq].
Qed.

(** The entries are few and numbered in the order they were made. *)
Definition pending_ok (r : RecentlySpentOutPoints) : Prop :=
  (size (pending_withdraws r) ≤ PENDING_WITHDRAW_CAP)%nat
  ∧ ∀ k p, pending_withdraws r !! k = Some p → pw_seq p ≤ pending_withdraw_seq r.

(** Two records with the same spends. *)
Definition same_spends (r r' : RecentlySpentOutPoints) : Prop :=
  input_to_output_map r = input_to_output_map r' ∧ output_to_input_map r = output_to_input_map r'
  ∧ for_script_pubkey r = for_script_pubkey r'.

Section pending_laws.
Context `{Hashes} (iter : gset CachedUnspentInfo → list CachedUnspentInfo).
Context (now : Z) (tx_bytes : bytes) (ins : list UnspentInfo) (h : bytes) (outs : list TransactionOutput).

Lemma note_pending_spec r :
  pending_ok r → 0 ≤ pending_withdraw_seq r < 2 ^ 64 - 1 →
  let r' := note_pending_withdraw_at now tx_bytes ins h outs r in
  pending_ok r' ∧ same_spends r' r
  ∧ pending_withdraws r' !! sha256 tx_bytes = Some (mkPending ins h outs now (pending_withdraw_seq r + 1)).
Proof.
  intros [Hs Hq] H64 r'. unfold r', note_pending_withdraw_at. cbn [purge_pending_withdraws set_pending pending_withdraw_seq pending_withdraws].
  rewrite uwrap_id by (unfold is_u; lia).
  set (m := filter _ (pending_withdraws r)). set (p := mkPending _ _ _ _ _).
  assert (Hm : ∀ k q, m !! k = Some q → pw_seq q ≤ pending_withdraw_seq r).
  { intros k q [Hk _]%map_lookup_filter_Some. by eapply Hq. }
  destruct (drop_oldest_spec (size (<[sha256 tx_bytes := p]> m)) (<[sha256 tx_bytes := p]> m) (sha256 tx_bytes) p)
    as (H1 & H2 & H3); [done|apply lookup_insert_eq| |].
  { intros k q [[-> _]|[_ Hk]]%lookup_insert_Some Hne; [done|]. specialize (Hm _ _ Hk). cbn. lia. }
  split; [split; [exact H1|]|split; [done|exact H2]]. intros k q Hk. eapply lookup_weaken in Hk; [|exact H3]. cbn.
  apply lookup_insert_Some in Hk as [[_ <-]|[_ Hk]]; [cbn; lia|]. specialize (Hm _ _ Hk). lia.
Qed.

Lemma promote_spec r later p :
  pending_withdraws r !! sha256 tx_bytes = Some p →
  let r' := promote_pending_withdraw_at iter later tx_bytes r in
  if later - pw_created_ms p <? PENDING_WITHDRAW_TTL_MS
  then r'.2 = true ∧ same_spends r'.1 (add_spent iter (pw_inputs p) (pw_tx_hash p) (pw_outputs p) r)
       ∧ pending_withdraws r'.1 !! sha256 tx_bytes = None
  else r'.2 = false ∧ same_spends r'.1 r ∧ pending_withdraws r'.1 !! sha256 tx_bytes = None.
Proof.
  intros Hp r'. unfold r', promote_pending_withdraw_at. cbn [purge_pending_withdraws set_pending pending_withdraws].
  destruct (Z.ltb_spec (later - pw_created_ms p) PENDING_WITHDRAW_TTL_MS) as [Hlt|Hge].
  - rewrite (map_lookup_filter_Some_2 _ _ _ p); [|done|cbn; unfold PENDING_WITHDRAW_TTL_MS in *; lia].
    cbn [fst snd]. split_and!; try done. cbn. apply lookup_delete_eq.
  - assert (Hn : filter (λ q, Z.max 0 (later - pw_created_ms q.2) < PENDING_WITHDRAW_TTL_MS) (pending_withdraws r)
                 !! sha256 tx_bytes = None).
    { apply map_lookup_filter_None. right. intros q Hq. simplify_eq. cbn. unfold PENDING_WITHDRAW_TTL_MS in *. lia. }
    by rewrite Hn.
Qed.

Lemma promote_absent r later :
  pending_withdraws r !! sha256 tx_bytes = None →
  (promote_pending_withdraw_at iter later tx_bytes r).2 = false
  ∧ same_spends (promote_pending_withdraw_at iter later tx_bytes r).1 r.
Proof.
  intros Hp. unfold promote_pending_withdraw_at. cbn [purge_pending_withdraws set_pending pending_withdraws].
  assert (filter (λ q, Z.max 0 (later - pw_created_ms q.2) < PENDING_WITHDRAW_TTL_MS) (pending_withdraws r)
                 !! sha256 tx_bytes = None) as -> by (apply map_lookup_filter_None; by left). done.
Qed.

End pending_laws.

(** a withdraw that is signed changes nothing in the record of spends.  The
    broadcast of exactly its bytes, less than ten minutes later, enters its spend into
    the record, once; a later broadcast enters nothing.  There are never more than 64
    pending withdraws, and the newest is always among them. *)
Theorem pending_promoted_once `{Hashes} iter now later again tx_bytes ins h outs r :
  pending_ok r → 0 ≤ pending_withdraw_seq r < 2 ^ 64 - 1 →
  let noted := note_pending_withdraw_at now tx_bytes ins h outs r in
  let promoted := promote_pending_withdraw_at iter later tx_bytes noted in
  let twice := promote_pending_withdraw_at iter again tx_bytes promoted.1 in
  pending_ok noted ∧ same_spends noted r
  ∧ promoted.2 = (later - now <? PENDING_WITHDRAW_TTL_MS)
  ∧ same_spends promoted.1 (if promoted.2 then add_spent iter ins h outs r else r)
  ∧ twice.2 = false ∧ same_spends twice.1 promoted.1.
Proof.
  intros Hr H64 noted promoted twice. destruct (note_pending_spec now tx_bytes ins h outs r Hr H64) as (Hok & Hs & Hn).
  fold noted in Hok, Hs, Hn. pose proof (promote_spec iter tx_bytes noted later _ Hn) as Hp. fold promoted in Hp.
  cbn zeta in Hp. cbn [pw_created_ms pw_inputs pw_tx_hash pw_outputs] in Hp.
  destruct (later - now <? PENDING_WITHDRAW_TTL_MS); destruct Hp as (H2 & (H3 & H4 & H5) & Habs);
    destruct (promote_absent iter tx_bytes promoted.1 again Habs); rewrite H2; split_and!; try done.
Qed.

(** ** Sends never spend an output twice *)

(** An outpoint has one value. *)
Definition functional (X : gset CachedUnspentInfo) : Prop :=
  ∀ c c', c ∈ X → c' ∈ X → cu_outpoint c = cu_outpoint c' → c = c'.

Lemma unique_by_outpoint_spec l : ∀ seen,
  NoDup (un_outpoint <$> unique_by_outpoint seen l)
  ∧ ∀ u, u ∈ unique_by_outpoint seen l → u ∈ l ∧ un_outpoint u ∉ seen.
Proof.
  induction l as [|u l IH]; intros seen; cbn [unique_by_outpoint]; [split; [constructor|set_solver]|].
  destruct (decide (un_outpoint u ∈ seen)) as [Hs|Hs]; [destruct (IH seen) as [H1 H2]; set_solver|].
  destruct (IH ({[un_outpoint u]} ∪ seen)) as [H1 H2]. cbn. split.
  - constructor; [|done]. intros (u' & Eu & Hu')%list_elem_of_fmap. apply H2 in Hu' as [_ Hu']. set_solver.
  - intros u' [->|Hu']%elem_of_cons; [set_solver|]. apply H2 in Hu'. set_solver.
Qed.

Lemma sign_inputs_previous `{Hashes} `{EcdsaLaws} unsigned key_pair prev_script sv fork_id p2pk tx :
  kp_public key_pair = ec_public (kp_private key_pair) →
  sign_tx_with_p2pk unsigned key_pair prev_script sv fork_id p2pk = Some (Ok tx) →
  previous_output <$> inputs tx = u_previous_output <$> s_inputs unsigned ∧ outputs tx = s_outputs unsigned.
Proof.
  intros Hk (r & Hr & Htx)%bind_Some. destruct r as [ts|]; [|done]. injection Htx as <-. split; [|done].
  apply (sign_inputs_valid _ _ _ _ _ _ Hk) in Hr as [Hl Ha]; [|done]. cbn. apply list_eq_same_length with (length ts);
    [by rewrite length_fmap|by rewrite length_fmap|]. intros n x y _ Hx Hy.
  apply list_lookup_fmap_Some in Hx as (t & -> & Ht). apply list_lookup_fmap_Some in Hy as (i & -> & Hi).
  destruct (Ha n i Hi) as (t' & Ht' & Hp & _). by simplify_eq.
Qed.

Lemma add_spent_ext iter ins ins' h outs r :
  (list_to_set (cached_of <$> ins) : gset CachedUnspentInfo) = list_to_set (cached_of <$> ins') →
  add_spent iter ins h outs r = add_spent iter ins' h outs r.
Proof. intros E. unfold add_spent. by rewrite E. Qed.

Section sends.
Context `{Hashes} `{EcdsaLaws}.
Context (iter : gset CachedUnspentInfo → list CachedUnspentInfo) (iter_elements : ∀ X, iter X ≡ₚ elements X).
Context (order : gset UnspentInfo → list UnspentInfo) (order_elements : ∀ X, order X ≡ₚ elements X).
Context (sort : (UnspentInfo → UnspentInfo → comparison) → list UnspentInfo → option (list UnspentInfo)).
Context (sort_perm : ∀ cmp l l', sort cmp l = Some l' → l' ≡ₚ l).
Context (coin : UtxoConf) (key_pair : KeyPair) (key_pair_ok : kp_public key_pair = ec_public (kp_private key_pair)).
Context (script : bytes) (E : gset CachedUnspentInfo).

(** The transaction as a send of a wallet that has [U]. *)
Definition sent_of (U : gset CachedUnspentInfo) (tx : Transaction) : sent :=
  mkSent (unspent_of <$> filter (λ c, cu_outpoint c ∈ previous_output <$> inputs tx) (elements U)) (tx_hash tx) (outputs tx).

Lemma sent_of_in U tx c : c ∈ sent_in (sent_of U tx) ↔ c ∈ U ∧ cu_outpoint c ∈ previous_output <$> inputs tx.
Proof.
  unfold sent_in, sent_of. cbn. rewrite elem_of_list_to_set, <-list_fmap_compose.
  assert (cached_of ∘ unspent_of <$> filter (λ c, cu_outpoint c ∈ previous_output <$> inputs tx) (elements U)
          = filter (λ c, cu_outpoint c ∈ previous_output <$> inputs tx) (elements U)) as ->.
  { rewrite <-list_fmap_id. apply list_fmap_ext. intros _ [] _. done. }
  rewrite list_elem_of_filter, elem_of_elements. tauto.
Qed.

(** A send that succeeds spends what the wallet has, each output once, and records
    it. *)
Lemma send_inv rounds env iguana sender p2pk listing broadcast r past n outs signed r' :
  tracks script E r past → sound_history script E past → (n ≤ length past)%nat → (2 ≤ rounds)%nat →
  set_map cached_of (list_to_set listing : gset UnspentInfo) = owned script E (take n past) →
  send_outputs_from_my_address_impl iter coin order sort rounds env (SoftwareKey (Some key_pair) (Some p2pk)) iguana sender
    (Some listing) broadcast r outs = Some (Ok signed, r') →
  ∃ ins, ins ≠ [] ∧ NoDup (un_outpoint <$> ins) ∧ (∀ u, u ∈ ins → cached_of u ∈ owned script E past)
    ∧ previous_output <$> inputs signed = un_outpoint <$> ins
    ∧ r' = add_spent iter ins (tx_hash signed) (outputs signed) r.
Proof.
  intros Ht HH Hn Hr HL. destruct (replaced_current script E r past _ n rounds Ht HH Hn HL Hr) as (current & Ec & Hc).
  unfold send_outputs_from_my_address_impl, get_all_unspent_ordered_list. rewrite Ec. cbn [mbind option_bind].
  intros (us & (l & Hl & [= <-])%bind_Some & Hs)%bind_Some. unfold sort_dedup_unspents in Hl. apply sort_perm in Hl.
  unfold generate_and_send_tx_from_sender in Hs. apply bind_Some in Hs as ([[unsigned data]|] & Hb & Hs); [|done].
  apply bind_Some in Hs as (res & Hsig & [= Hs]). unfold broadcast_and_record in Hs. destruct res as [tx|]; [|done].
  destruct (broadcast tx); [|done]. injection Hs as -> <-.
  apply bind_Some in Hsig as (ps & _ & (sres & Hsig & [= Es])%bind_Some). destruct sres as [tx'|]; [|done]. injection Es as ->.
  apply sign_inputs_previous in Hsig as [Hprev _]; [|done].
  apply build_keeps in Hb as [(k & Hk & Hk0 & Hi) _]. cbn in Hk, Hk0, Hi.
  destruct (unique_by_outpoint_spec (order current) ∅) as [Hnd Hsub].
  assert (Hnd' : NoDup (un_outpoint <$> take k l)).
  { rewrite <-Hl in Hnd. rewrite <-(take_drop k l), fmap_app in Hnd. by apply NoDup_app in Hnd as [? _]. }
  exists (spent_unspents unsigned). unfold spent_unspents. rewrite Hprev, Hi, <-!list_fmap_compose.
  split_and!; [|exact Hnd'| |done|done].
  - destruct k as [|k]; [by destruct (Hk0 eq_refl)|]. destruct l; [cbn in Hk; lia|done].
  - intros u (v & -> & Hv)%list_elem_of_fmap. rewrite <-Hc. apply elem_of_map. exists v. split; [done|].
    apply elem_of_elements. rewrite <-order_elements. apply Hsub. rewrite <-Hl, <-(take_drop k l). apply elem_of_app. by left.
Qed.

(** The sends of a wallet, one after the other, whatever its server lists: each listing
    is of the outputs after some number of the sends so far.  The hash of a new
    transaction is that of no output seen before. *)
Inductive wallet_run : RecentlySpentOutPoints → list sent → list Transaction → Prop :=
| run_new : wallet_run (recent_new script) [] []
| run_sent rounds env iguana sender p2pk listing broadcast r past txs n outs signed r' :
    wallet_run r past txs → (n ≤ length past)%nat → (2 ≤ rounds)%nat →
    set_map cached_of (list_to_set listing : gset UnspentInfo) = owned script E (take n past) →
    send_outputs_from_my_address_impl iter coin order sort rounds env (SoftwareKey (Some key_pair) (Some p2pk)) iguana sender
      (Some listing) broadcast r outs = Some (Ok signed, r') →
    (∀ c, c ∈ known script E past → op_hash (cu_outpoint c) ≠ tx_hash signed) → Z.of_nat (length (outputs signed)) < 2 ^ 32 →
    wallet_run r' (past ++ [sent_of (owned script E past) signed]) (txs ++ [signed])
| run_failed rounds env iguana sender p2pk listing broadcast r past txs outs e r' :
    wallet_run r past txs →
    send_outputs_from_my_address_impl iter coin order sort rounds env (SoftwareKey (Some key_pair) (Some p2pk)) iguana sender
      listing broadcast r outs = Some (Err e, r') →
    wallet_run r' past txs.

Lemma send_failed rounds env policy iguana sender listing broadcast r outs e r' :
  send_outputs_from_my_address_impl iter coin order sort rounds env policy iguana sender listing broadcast r outs
  = Some (Err e, r') → r' = r.
Proof.
  intros (us & _ & Hs)%bind_Some. destruct us as [us|]; [|by simplify_eq].
  apply bind_Some in Hs as ([[unsigned data]|] & _ & Hs); [|by simplify_eq].
  apply bind_Some in Hs as (res & _ & [= Hs]). unfold broadcast_and_record in Hs. repeat case_match; by simplify_eq.
Qed.

Lemma sent_out_functional t : Z.of_nat (length (sn_outputs t)) < 2 ^ 32 → functional (sent_out script t).
Proof.
  intros Hl c c'. unfold sent_out, own_outputs. rewrite !elem_of_list_to_set, !list_elem_of_omap.
  intros (x & (n & o & -> & Ho)%elem_of_lookup_imap & Hc) (x' & (n' & o' & -> & Ho')%elem_of_lookup_imap & Hc').
  cbn in Hc, Hc'. apply lookup_lt_Some in Ho as Hn. apply lookup_lt_Some in Ho' as Hn'.
  repeat case_bool_decide; simplify_eq. cbn. intros [= Hi]. rewrite !uwrap_id in Hi by (unfold is_u; lia).
  apply Nat2Z.inj in Hi. subst n'. by simplify_eq.
Qed.

(** Spending exactly the outputs of [ins] out of [U]. *)
Lemma sent_of_exact U ins tx :
  functional U → (∀ u, u ∈ ins → cached_of u ∈ U) → previous_output <$> inputs tx = un_outpoint <$> ins →
  (list_to_set (cached_of <$> ins) : gset CachedUnspentInfo) = sent_in (sent_of U tx).
Proof.
  intros Hf Hin Hp. apply set_eq. intros c. rewrite sent_of_in, Hp, elem_of_list_to_set, !list_elem_of_fmap. split.
  - intros (u & -> & Hu). split; [by apply Hin|by exists u].
  - intros (Hc & u & Eu & Hu). exists u. split; [|done]. by apply Hf; [|apply Hin|].
Qed.

(** The outputs the transactions spend. *)
Definition outpoints_of (txs : list Transaction) : list OutPoint := txs ≫= λ tx, previous_output <$> inputs tx.

Lemma functional_snoc past t :
  functional (known script E past) → (∀ c, c ∈ known script E past → op_hash (cu_outpoint c) ≠ sn_hash t) →
  Z.of_nat (length (sn_outputs t)) < 2 ^ 32 → functional (known script E (past ++ [t])).
Proof.
  intros Hf Hfresh Hl c c'. rewrite known_snoc, !elem_of_union. intros [Hc|Hc] [Hc'|Hc'] Ho; [by apply Hf| | |].
  - apply sent_out_hash in Hc'. destruct (Hfresh c Hc). congruence.
  - apply sent_out_hash in Hc. destruct (Hfresh c' Hc'). congruence.
  - by apply (sent_out_functional t Hl).
Qed.

Lemma run_invariant r past txs :
  functional E → wallet_run r past txs →
  sound_history script E past ∧ tracks script E r past ∧ functional (known script E past)
  ∧ NoDup (outpoints_of txs) ∧ ∀ p, p ∈ outpoints_of txs ↔ ∃ c, c ∈ spent past ∧ cu_outpoint c = p.
Proof.
  intros HE. induction 1 as [|rounds env iguana sender p2pk listing broadcast r past txs n outs signed r' _ IH Hn Hr HL Hs Hfresh Hlen
    |rounds env iguana sender p2pk listing broadcast r past txs outs e r' _ IH Hs].
  - split_and!; [constructor|apply tracks_nil|done|constructor|]. cbn. set_solver.
  - destruct IH as (HH & Ht & Hf & Hnd & Hsp). destruct (owned_known _ _ _ HH) as (Hok & Hsk & Hd).
    destruct (send_inv _ _ _ _ _ _ _ _ _ _ _ _ _ Ht HH Hn Hr HL Hs) as (ins & Hne & Hni & Hin & Hp & ->).
    set (t := sent_of (owned script E past) signed).
    assert (HI : list_to_set (cached_of <$> ins) = sent_in t)
      by (apply sent_of_exact; [intros c c' ??; apply Hf; set_solver|done..]).
    assert (HH' : sound_history script E (past ++ [t])).
    { constructor; try done; [|intros c; unfold t; rewrite sent_of_in; tauto]. rewrite <-HI. destruct ins; [done|]. set_solver. }
    rewrite (add_spent_ext iter ins (sn_inputs t)) by done.
    split_and!; [done|by apply (tracks_snoc script E iter iter_elements r past t)|by apply functional_snoc| |].
    + unfold outpoints_of. rewrite bind_app. cbn. rewrite app_nil_r, Hp. apply NoDup_app. split_and!; try done.
      intros p (c & Hc & <-)%Hsp (u & Eu & Hu)%list_elem_of_fmap. apply (Hd c); [|done].
      rewrite (Hf c (cached_of u)); auto; set_solver.
    + intros p. unfold outpoints_of. rewrite bind_app, elem_of_app. cbn. rewrite app_nil_r. fold (outpoints_of txs).
      rewrite Hsp, spent_snoc, Hp, list_elem_of_fmap, <-HI. setoid_rewrite elem_of_union. setoid_rewrite elem_of_list_to_set.
      setoid_rewrite list_elem_of_fmap. split; [|naive_solver].
      intros [(c & ? & ?)|(u & -> & ?)]; [by exists c; auto|]. exists (cached_of u). split; [right; by exists u|done].
  - apply send_failed in Hs as ->. exact IH.
Qed.

End sends.

(** C5: over any run of sends, whatever its server lists of the sends so far, a wallet
    never spends an output twice, in two transactions or in one, and spends only what
    it has had.  Between the sends, its record turns every such listing into what it
    has. *)
Theorem sends_never_double_spend `{Hashes} `{EcdsaLaws} iter order sort coin key_pair script E r past txs :
  (∀ X, iter X ≡ₚ elements X) → (∀ X, order X ≡ₚ elements X) → (∀ cmp l l', sort cmp l = Some l' → l' ≡ₚ l) →
  kp_public key_pair = ec_public (kp_private key_pair) → functional E →
  wallet_run iter order sort coin key_pair script E r past txs →
  NoDup (outpoints_of txs)
  ∧ (∀ p, p ∈ outpoints_of txs → ∃ c, c ∈ known script E past ∧ cu_outpoint c = p)
  ∧ ∀ n listing, (n ≤ length past)%nat → set_map cached_of listing = owned script E (take n past) →
      ∃ current, replace_spent_outputs_with_cache 2 r listing = Some current ∧ set_map cached_of current = owned script E past.
Proof.
  intros Hi Ho Hs Hk HE Hrun. destruct (run_invariant iter Hi order Ho sort Hs coin key_pair Hk script E r past txs HE Hrun)
    as (HH & Ht & _ & Hnd & Hsp). destruct (owned_known _ _ _ HH) as (_ & Hsk & _). split_and!; [done| |].
  - intros p (c & Hc & <-)%Hsp. exists c. split; [by apply Hsk|done].
  - intros n listing Hn HL. by apply (replaced_current script E r past listing n 2).
Qed.

(** ** Payments of swaps *)

(** A script hash is not the script of an address. *)
Lemma p2sh_not_own `{HashLengths} segwit h script redeem htlc :
  length h = 20%nat → output_script segwit P2PKH (AddressHash h) = Some script → p2sh_of redeem = Some htlc → htlc ≠ script.
Proof.
  intros Hl Es Eh ->. assert (Hh : length (dhash160 redeem) = 20%nat) by apply length_dhash160.
  unfold p2sh_of, build_p2sh, push_bytes in Eh. cbn [hash_to_vec] in Eh. rewrite Hh in Eh. injection Eh as <-.
  unfold output_script, build_witness_script, build_p2pkh, push_bytes in Es. cbn [hash_to_vec] in Es. rewrite Hl in Es.
  by destruct segwit.
Qed.

(** C6: a payment that the wallet sends is the payment the other side expects.  The
    outputs made for the swap, put into a transaction with inputs and change, signed
    and broadcast, give a transaction whose first output passes the receiver's
    validation, made from the receiver's own view of the swap. *)
Theorem payment_sent_validates `{HashLengths} `{EcdsaLaws} iter order sort coin key_pair rounds env iguana sender p2pk listing
    broadcast r time_lock my_pub other_pub secret_hash amount outs signed r' payment_tx answers answer confirmations spv :
  kp_public key_pair = ec_public (kp_private key_pair) → length (ad_hash sender) = 20%nat →
  generate_swap_payment_outputs coin time_lock my_pub other_pub secret_hash amount = Some (Ok outs) →
  send_outputs_from_my_address_impl iter coin order sort rounds env (SoftwareKey (Some key_pair) p2pk) iguana sender listing
    broadcast r outs = Some (Ok signed, r') →
  read_tx coin payment_tx = Ok signed → fetch 3 answers = Some (Ok answer) →
  answer = serialize signed ∨ answer = serialize_with_flags signed SERIALIZE_TRANSACTION_WITNESS →
  cf_enable_spv_proof coin = false ∨ confirmations = 0 ∨ spv = true →
  validate_swap_payment coin payment_tx my_pub other_pub secret_hash amount time_lock confirmations spv answers
  = Some (Ok ()).
Proof.
  intros Hk Hl Hg Hs Ht Hf Ha Hc. apply (swap_payment_validates _ _ _ _ _ _ _ _ _ _ _ _ _ Hg Ht Hf). split; [|done].
  apply bind_Some in Hs as (us & _ & Hs). destruct us as [us|]; [|done].
  apply bind_Some in Hs as ([[unsigned data]|] & Hb & Hs); [|done]. apply bind_Some in Hs as (res & Hsig & [= Hs]).
  unfold broadcast_and_record in Hs. destruct res as [tx|]; [|done]. destruct (broadcast tx); [|done]. injection Hs as -> _.
  destruct p2pk as [p2pk|]; [|done]. apply bind_Some in Hsig as (ps & _ & (sres & Hsig & [= Es])%bind_Some).
  destruct sres as [tx'|]; [|done]. injection Es as ->. apply sign_inputs_previous in Hsig as [_ ->]; [|done].
  apply build_keeps in Hb as [_ (from & script & [= <-] & Eo & Hkeep)].
  apply generate_inv in Hg as (my & other & redeem & htlc & sat & op & _ & _ & _ & Eh & _ & ->).
  apply (Hkeep eq_refl); [done|]. cbn. exact (p2sh_not_own _ _ _ _ _ Hl Eo Eh).
Qed.
