(* ===== verification/FeeTx.v ===== *)
(** * FeeTx: the dex fee transaction of UTXO coins
      (mm2src/coins/utxo/utxo_common/utxo_common_swap.rs)

    The outputs a taker pays the dex fee with, and how the maker validates the
    transaction: who signed it, when it was confirmed, and what it pays. *)

From stdpp Require Import base tactics list numbers strings option sets.
From coqutil Require Import Byte Word.LittleEndianList.
From S2P Require Import Prelude MmNumber DexFee Codec Tx Crypto Script Sign ScriptRules UtxoSigner Htlc.

Local Open Scope Z_scope.

(** [secp256k1]: whether bytes are a signature in DER, and the compressed form of
    a key. *)
Class Secp := {
  der_ok : bytes → bool;
  point : bytes → option bytes
}.

(** ** Who signed *)

Section signers.
Context `{Secp}.

(** The bytes without the last one. *)
Definition but_last (b : bytes) : bytes := take (length b - 1) b.

Definition pubkey_from_script_sig (script : bytes) : result bytes HtlcError :=
  match get_instruction script 0 with
  | Some (Ok i) =>
      if bool_decide (i_opcode i ∈ [OP_PUSHBYTES_70; OP_PUSHBYTES_71; OP_PUSHBYTES_72])
         && match i_data i with Some b => der_ok (but_last b) | None => false end
      then
        match get_instruction script 1 with
        | Some (Ok i) =>
            if bool_decide (i_opcode i = OP_PUSHBYTES_33) then
              match i_data i with
              | Some b =>
                  match point b, get_instruction script 2 with
                  | Some pubkey, None => Ok pubkey
                  | _, _ => Err BadScriptSig
                  end
              | None => Err BadScriptSig
              end
            else Err BadScriptSig
        | _ => Err BadScriptSig
        end
      else Err BadScriptSig
  | _ => Err BadScriptSig
  end.

Definition pubkey_from_witness_script (witness : list bytes) : result bytes HtlcError :=
  match witness with
  | [signature; key] =>
      if bool_decide (signature = []) then Err BadScriptSig
      else if der_ok (but_last signature)
      then match point key with Some pubkey => Ok pubkey | None => Err BadScriptSig end
      else Err BadScriptSig
  | _ => Err BadScriptSig
  end.

Definition pubkey_of_input (i : TransactionInput) : result bytes HtlcError :=
  if input_has_witness i then pubkey_from_witness_script (script_witness i)
  else pubkey_from_script_sig (script_sig i).

Fixpoint all_signed_by (ins : list TransactionInput) (expected_pub : bytes) : result bool HtlcError :=
  match ins with
  | [] => Ok true
  | i :: ins =>
      let? pubkey := pubkey_of_input i in
      if bool_decide (pubkey = expected_pub) then all_signed_by ins expected_pub else Ok false
  end.

Definition check_all_inputs_signed_by_pub (tx : Transaction) (expected_pub : bytes) : result bool HtlcError :=
  all_signed_by (inputs tx) expected_pub.

End signers.

(** ** When it was confirmed *)

(** What the server says of the transaction. *)
Record RpcTransaction : Type := mkRpcTransaction {
  rt_hex : bytes;
  rt_height : option Z;
  rt_confirmations : Z
}.

Definition is_tx_confirmed_before_block (tx : RpcTransaction) (block_number : Z) (block_count : option Z) :
    result bool HtlcError :=
  match rt_height tx with
  | Some confirmed_at => Ok (confirmed_at <=? block_number)
  | None =>
      if 0 <? rt_confirmations tx then
        match block_count with
        | Some current_block => Ok (u64 (current_block + 1 - rt_confirmations tx) <=? block_number)
        | None => Err RpcError
        end
      else Ok false
  end.

(** ** What it pays *)

Section fee.
Context `{Hashes} (to_decimal : MmNumber → BigDecimal) (coin : UtxoConf).

Definition sat_of (amount : MmNumber) : result Z HtlcError :=
  match sat_from_big_decimal (to_decimal amount) (cf_decimals coin) with Some sat => Ok sat | None => Err BadAmount end.

(** The script of an address that is made of a public key. *)
Definition p2pkh_of_raw (raw_pubkey : bytes) : result Builder HtlcError :=
  let? pub := map_err BadPublic (public_from_slice raw_pubkey) in
  Ok (build_p2pkh (AddressHash (address_hash pub))).

Definition burn_script (d : DexFeeBurnDestination) : result Builder HtlcError :=
  match d with
  | KmdOpReturn => Ok (builder_default ▷ push_opcode OP_RETURN)
  | PreBurnAccount burn_pubkey => p2pkh_of_raw burn_pubkey
  end.

(** An output with a script that may panic. *)
Definition pays (sat : Z) (script : Builder) : option TransactionOutput :=
  script ← script; Some (mkTransactionOutput sat script).

Definition generate_taker_fee_tx_outputs (fee_hash : bytes) (dex_fee : DexFee) : outcome (list TransactionOutput) :=
  match dex_fee with
  | NoFee => Some (Ok [])
  | Standard amount =>
      match sat_of amount with
      | Err e => Some (Err e)
      | Ok sat => o ← pays sat (build_p2pkh (AddressHash fee_hash)); Some (Ok [o])
      end
  | WithBurn fee_amount burn_amount burn_destination =>
      match (let? fee_sat := sat_of fee_amount in let? burn_sat := sat_of burn_amount in Ok (fee_sat, burn_sat)) with
      | Err e => Some (Err e)
      | Ok (fee_sat, burn_sat) =>
          fee_output ← pays fee_sat (build_p2pkh (AddressHash fee_hash));
          match burn_script burn_destination with
          | Err e => Some (Err e)
          | Ok script => burn_output ← pays burn_sat script; Some (Ok [fee_output; burn_output])
          end
      end
  end.

(** [validate_dex_output] and [validate_burn_output]. *)
Definition validate_output (tx : Transaction) (index : nat) (expected_script : bytes) (expected_sat : Z) :
    result () HtlcError :=
  match outputs tx !! index with
  | Some out =>
      if negb (bool_decide (script_pubkey out = expected_script)) then Err OutputMismatch
      else if value out <? expected_sat then Err OutputMismatch
      else Ok ()
  | None => Err OutputMismatch
  end.

(** The last part of [validate_fee]. *)
Definition validate_fee_outputs (tx : Transaction) (output_index : nat) (fee_hash : bytes) (dex_fee : DexFee) :
    outcome () :=
  match dex_fee with
  | NoFee => Some (Ok ())
  | Standard amount =>
      match sat_of amount with
      | Err e => Some (Err e)
      | Ok sat =>
          script ← build_p2pkh (AddressHash fee_hash);
          Some (validate_output tx output_index script sat)
      end
  | WithBurn fee_amount burn_amount burn_destination =>
      match sat_of fee_amount with
      | Err e => Some (Err e)
      | Ok fee_sat =>
          script ← build_p2pkh (AddressHash fee_hash);
          match validate_output tx output_index script fee_sat with
          | Err e => Some (Err e)
          | Ok _ =>
              match (let? burn_sat := sat_of burn_amount in let? s := burn_script burn_destination in Ok (burn_sat, s)) with
              | Err e => Some (Err e)
              | Ok (burn_sat, burn) =>
                  burn ← burn;
                  Some (validate_output tx (output_index + 1) burn burn_sat)
              end
          end
      end
  end.

(** [validate_fee], given what the server says of the transaction and of the height
    of the chain. *)
Definition validate_fee `{Secp} (tx : Transaction) (output_index : nat) (sender_pubkey : bytes) (dex_fee : DexFee)
    (min_block_number : Z) (fee_addr : bytes) (from_rpc : option RpcTransaction) (block_count : option Z) : outcome () :=
  match public_from_slice fee_addr with
  | Err e => Some (Err (BadPublic e))
  | Ok fee_pub =>
      match check_all_inputs_signed_by_pub tx sender_pubkey with
      | Err e => Some (Err e)
      | Ok false => Some (Err WrongSender)
      | Ok true =>
          match from_rpc with
          | None => Some (Err RpcError)
          | Some rpc =>
              match is_tx_confirmed_before_block rpc min_block_number block_count with
              | Err e => Some (Err e)
              | Ok true => Some (Err ConfirmedEarly)
              | Ok false =>
                  if negb (bool_decide (rt_hex rpc = serialize tx))
                     && negb (bool_decide (rt_hex rpc = serialize_with_flags tx SERIALIZE_TRANSACTION_WITNESS))
                  then Some (Err RpcMismatch)
                  else validate_fee_outputs tx output_index (address_hash fee_pub) dex_fee
              end
          end
      end
  end.

(** ** What is paid is what is validated *)

(** Output [k] of the transaction pays at least what [o] does, to the same script. *)
Definition covers (tx : Transaction) (k : nat) (o : TransactionOutput) : Prop :=
  ∃ o', outputs tx !! k = Some o' ∧ script_pubkey o' = script_pubkey o ∧ value o ≤ value o'.

Lemma validate_output_iff tx k script sat :
  validate_output tx k script sat = Ok () ↔ covers tx k (mkTransactionOutput sat script).
Proof.
  unfold validate_output, covers. destruct (outputs tx !! k) as [o|]; [|naive_solver].
  case_bool_decide; cbn; [|naive_solver]. destruct (Z.ltb_spec (value o) sat); split; naive_solver lia.
Qed.

Lemma validate_fee_outputs_iff tx n fee_hash dex_fee outs :
  generate_taker_fee_tx_outputs fee_hash dex_fee = Some (Ok outs) →
  validate_fee_outputs tx n fee_hash dex_fee = Some (Ok ())
  ↔ ∀ k o, outs !! k = Some o → covers tx (n + k) o.
Proof.
  unfold generate_taker_fee_tx_outputs, validate_fee_outputs. destruct dex_fee as [|amount|fee burn dest].
  - intros [= <-]. split; [done|done].
  - destruct (sat_of amount) as [sat|]; [|done]. unfold pays. destruct (build_p2pkh (AddressHash fee_hash)) as [script|]; [|done].
    cbn. intros [= <-]. pose proof (validate_output_iff tx n script sat) as Hv. split.
    + intros [= E%Hv] [|k] o Ho; [|done]. injection Ho as <-. by rewrite Nat.add_0_r.
    + intros Hall. f_equal. apply Hv. by rewrite <-(Nat.add_0_r n); apply Hall.
  - destruct (sat_of fee) as [fs|]; [|done]. destruct (sat_of burn) as [bs|]; [|done]. unfold pays.
    destruct (build_p2pkh (AddressHash fee_hash)) as [script|]; [|done]. cbn. destruct (burn_script dest) as [b|]; [|done].
    destruct b as [b|]; [|done]. cbn. intros [= <-].
    pose proof (validate_output_iff tx n script fs) as Hv. pose proof (validate_output_iff tx (n + 1) b bs) as Hb. split.
    + destruct (validate_output tx n script fs) as [[]|] eqn:Ev; [|done]. intros [= E%Hb] [|[|k]] o Ho; try done;
        injection Ho as <-; [|done]. rewrite Nat.add_0_r. by apply Hv.
    + intros Hall. assert (validate_output tx n script fs = Ok ()) as ->
        by (apply Hv; rewrite <-(Nat.add_0_r n); by apply Hall).
      cbn. f_equal. apply Hb. by apply (Hall 1%nat).
Qed.

End fee.

Lemma all_signed_by_spec `{Secp} ins pub :
  all_signed_by ins pub = Ok true ↔ Forall (λ i, pubkey_of_input i = Ok pub) ins.
Proof.
  induction ins as [|i ins IH]; cbn [all_signed_by]; [done|]. rewrite Forall_cons, <-IH.
  destruct (pubkey_of_input i) as [k|]; [|naive_solver]. case_bool_decide; naive_solver.
Qed.

(** The transaction is not confirmed, or in a block after [min_block], as far as the
    server's answers tell: its height, or its confirmations and the height of the
    chain. *)
Definition confirmed_after (rpc : RpcTransaction) (min_block : Z) (count : option Z) : Prop :=
  match rt_height rpc with
  | Some height => min_block < height
  | None => rt_confirmations rpc ≤ 0
      ∨ ∃ current, count = Some current ∧ min_block < u64 (current + 1 - rt_confirmations rpc)
  end.

Lemma confirmed_after_iff rpc min_block count :
  is_tx_confirmed_before_block rpc min_block count = Ok false ↔ confirmed_after rpc min_block count.
Proof.
  unfold is_tx_confirmed_before_block, confirmed_after. destruct (rt_height rpc) as [h|].
  - destruct (Z.leb_spec h min_block); split; try done; lia.
  - destruct (Z.ltb_spec 0 (rt_confirmations rpc)); [|split; [by left|done]].
    destruct count as [c|]; [|split; [done|intros [?|(? & ? & ?)]; [lia|done]]].
    destruct (Z.leb_spec (u64 (c + 1 - rt_confirmations rpc)) min_block); split; try done.
    + intros [?|(? & [= <-] & ?)]; lia.
    + intros _. right. by exists c.
Qed.

(** C20: the dex fee a taker pays is the one the maker accepts: for the same fee, the
    maker's validation of a transaction succeeds exactly when every input of it shows
    the taker's key, the server knows it, with the very bytes, as one that was not
    confirmed before the swap, and it pays, from the given output on, at least what
    the taker's outputs pay to the same scripts, in the same order. *)
Theorem fee_validates_iff `{Hashes} `{Secp} to_decimal coin tx n sender dex_fee min_block fee_addr fee_pub from_rpc count outs :
  public_from_slice fee_addr = Ok fee_pub →
  generate_taker_fee_tx_outputs to_decimal coin (address_hash fee_pub) dex_fee = Some (Ok outs) →
  validate_fee to_decimal coin tx n sender dex_fee min_block fee_addr from_rpc count = Some (Ok ())
  ↔ Forall (λ i, pubkey_of_input i = Ok sender) (inputs tx)
    ∧ (∃ rpc, from_rpc = Some rpc ∧ confirmed_after rpc min_block count
       ∧ (rt_hex rpc = serialize tx ∨ rt_hex rpc = serialize_with_flags tx SERIALIZE_TRANSACTION_WITNESS))
    ∧ ∀ k o, outs !! k = Some o → covers tx (n + k) o.
Proof.
  intros Ep Eo. rewrite <-all_signed_by_spec, <-(validate_fee_outputs_iff _ _ _ _ _ _ _ Eo).
  unfold validate_fee, check_all_inputs_signed_by_pub. rewrite Ep.
  destruct (all_signed_by (inputs tx) sender) as [[]|]; [|naive_solver..].
  destruct from_rpc as [rpc|]; [|naive_solver]. pose proof (confirmed_after_iff rpc min_block count) as Hc.
  destruct (is_tx_confirmed_before_block rpc min_block count) as [[]|]; [naive_solver| |naive_solver].
  do 2 case_bool_decide; naive_solver.
Qed.

(** a fee that passes was paid by the taker: every input of the transaction shows
    the taker's key, the transaction is the one the server knows, it was not
    confirmed before the swap began, and a standard fee is paid in full to the fee
    address. *)
Theorem fee_validation_sound `{Hashes} `{Secp} to_decimal coin tx n sender dex_fee min_block fee_addr rpc count :
  validate_fee to_decimal coin tx n sender dex_fee min_block fee_addr rpc count = Some (Ok ()) →
  Forall (λ i, pubkey_of_input i = Ok sender) (inputs tx)
  ∧ ∃ r, rpc = Some r
    ∧ (rt_hex r = serialize tx ∨ rt_hex r = serialize_with_flags tx SERIALIZE_TRANSACTION_WITNESS)
    ∧ is_tx_confirmed_before_block r min_block count = Ok false
    ∧ ∀ amount, dex_fee = Standard amount →
        ∃ pub script sat o, public_from_slice fee_addr = Ok pub
          ∧ build_p2pkh (AddressHash (address_hash pub)) = Some script
          ∧ sat_from_big_decimal (to_decimal amount) (cf_decimals coin) = Some sat
          ∧ outputs tx !! n = Some o ∧ script_pubkey o = script ∧ sat ≤ value o.
Proof.
  unfold validate_fee. destruct (public_from_slice fee_addr) as [pub|]; [|done].
  destruct (check_all_inputs_signed_by_pub tx sender) as [[]|] eqn:Es; try done. apply all_signed_by_spec in Es.
  destruct rpc as [r|]; [|done]. destruct (is_tx_confirmed_before_block r min_block count) as [[]|] eqn:Ec; try done.
  destruct (negb _ && negb _) eqn:Eh; [done|]. intros Hv. split; [done|]. exists r. split_and!; try done.
  - apply andb_false_iff in Eh as [E|E]; apply negb_false_iff, bool_decide_eq_true in E; auto.
  - intros amount ->. cbn in Hv. unfold sat_of in Hv.
    destruct (sat_from_big_decimal _ _) as [sat|] eqn:Ea; [|done].
    apply bind_Some in Hv as (script & Hs & [= Hv]). apply validate_output_iff in Hv as (o & Ho & Hsc & Hle).
    exists pub, script, sat, o. done.
Qed.
