(* ===== verification/HtlcV2.v ===== *)
(** * HtlcV2: payments of the second swap protocol on UTXO coins
      (mm2src/coins/utxo/swap_proto_v2_scripts.rs and the version-two part of
      mm2src/coins/utxo/utxo_common/utxo_common_swap.rs)

    The taker funds the swap first; the funding is turned into the taker's
    payment by a transaction both sides sign, and the payment is spent by one
    both sides sign that reveals the maker's secret ([Preimage]).  The maker's
    payment can be claimed with the maker's secret and taken back at once with
    the taker's.  The key pair of the swap is an argument (the software
    wallet's), as is what the servers answer. *)

From stdpp Require Import base tactics list numbers strings option sets.
From coqutil Require Import Byte Word.LittleEndianList.
From S2P Require Import Prelude MmNumber DexFee Codec Tx Crypto Script Sign ScriptRules UtxoSigner Htlc FeeTx.

Local Open Scope Z_scope.

(** ** Redeem scripts *)

Section scripts.
Context `{Hashes}.

Definition h160_of (secret_hash_32 : bytes) : bytes := ripemd160 secret_hash_32.

Definition taker_funding_script (locktime : Z) (taker_secret_hash : bytes) (taker_pub maker_pub : Public) : Builder :=
  let secret_h160 := h160_of taker_secret_hash in
  builder_default
    ▷ push_opcode OP_IF
    ▷ push_bytes (le_split 4 locktime)
    ▷ push_opcode OP_CHECKLOCKTIMEVERIFY
    ▷ push_opcode OP_DROP
    ▷ push_bytes (public_bytes taker_pub)
    ▷ push_opcode OP_CHECKSIG
    ▷ push_opcode OP_ELSE
    ▷ push_opcode OP_IF
    ▷ push_bytes (public_bytes taker_pub)
    ▷ push_opcode OP_CHECKSIGVERIFY
    ▷ push_bytes (public_bytes maker_pub)
    ▷ push_opcode OP_CHECKSIG
    ▷ push_opcode OP_ELSE
    ▷ push_opcode OP_SIZE
    ▷ push_bytes [z2b 32]
    ▷ push_opcode OP_EQUALVERIFY
    ▷ push_opcode OP_HASH160
    ▷ push_bytes secret_h160
    ▷ push_opcode OP_EQUALVERIFY
    ▷ push_bytes (public_bytes taker_pub)
    ▷ push_opcode OP_CHECKSIG
    ▷ push_opcode OP_ENDIF
    ▷ push_opcode OP_ENDIF.

Definition taker_payment_script (locktime : Z) (maker_secret_hash : bytes) (taker_pub maker_pub : Public) : Builder :=
  let secret_h160 := h160_of maker_secret_hash in
  builder_default
    ▷ push_opcode OP_IF
    ▷ push_bytes (le_split 4 locktime)
    ▷ push_opcode OP_CHECKLOCKTIMEVERIFY
    ▷ push_opcode OP_DROP
    ▷ push_bytes (public_bytes taker_pub)
    ▷ push_opcode OP_CHECKSIG
    ▷ push_opcode OP_ELSE
    ▷ push_opcode OP_SIZE
    ▷ push_bytes [z2b 32]
    ▷ push_opcode OP_EQUALVERIFY
    ▷ push_opcode OP_HASH160
    ▷ push_bytes secret_h160
    ▷ push_opcode OP_EQUALVERIFY
    ▷ push_bytes (public_bytes taker_pub)
    ▷ push_opcode OP_CHECKSIGVERIFY
    ▷ push_bytes (public_bytes maker_pub)
    ▷ push_opcode OP_CHECKSIG
    ▷ push_opcode OP_ENDIF.

Definition maker_payment_script (locktime : Z) (maker_secret_hash taker_secret_hash : bytes)
    (maker_pub taker_pub : Public) : Builder :=
  let maker_h160 := h160_of maker_secret_hash in
  let taker_h160 := h160_of taker_secret_hash in
  builder_default
    ▷ push_opcode OP_IF
    ▷ push_bytes (le_split 4 locktime)
    ▷ push_opcode OP_CHECKLOCKTIMEVERIFY
    ▷ push_opcode OP_DROP
    ▷ push_bytes (public_bytes maker_pub)
    ▷ push_opcode OP_CHECKSIG
    ▷ push_opcode OP_ELSE
    ▷ push_opcode OP_IF
    ▷ push_opcode OP_SIZE
    ▷ push_bytes [z2b 32]
    ▷ push_opcode OP_EQUALVERIFY
    ▷ push_opcode OP_HASH160
    ▷ push_bytes maker_h160
    ▷ push_opcode OP_EQUALVERIFY
    ▷ push_bytes (public_bytes taker_pub)
    ▷ push_opcode OP_CHECKSIG
    ▷ push_opcode OP_ELSE
    ▷ push_opcode OP_SIZE
    ▷ push_bytes [z2b 32]
    ▷ push_opcode OP_EQUALVERIFY
    ▷ push_opcode OP_HASH160
    ▷ push_bytes taker_h160
    ▷ push_opcode OP_EQUALVERIFY
    ▷ push_bytes (public_bytes maker_pub)
    ▷ push_opcode OP_CHECKSIG
    ▷ push_opcode OP_ENDIF
    ▷ push_opcode OP_ENDIF.

(** The payments of both protocols, and the script of each. *)
Inductive SwapTxTypeWithSecretHash : Type :=
| TakerOrMakerPayment (maker_secret_hash : bytes)
| TakerFunding (taker_secret_hash : bytes)
| TakerPaymentV2 (maker_secret_hash taker_secret_hash : bytes)
| MakerPaymentV2 (maker_secret_hash taker_secret_hash : bytes).

Definition redeem_script (t : SwapTxTypeWithSecretHash) (time_lock : Z) (first_pub second_pub : Public) : Builder :=
  match t with
  | TakerOrMakerPayment maker_secret_hash => payment_script time_lock maker_secret_hash first_pub second_pub
  | TakerFunding taker_secret_hash => taker_funding_script time_lock taker_secret_hash first_pub second_pub
  | TakerPaymentV2 maker_secret_hash _ => taker_payment_script time_lock maker_secret_hash first_pub second_pub
  | MakerPaymentV2 maker_secret_hash taker_secret_hash =>
      maker_payment_script time_lock maker_secret_hash taker_secret_hash first_pub second_pub
  end.

End scripts.

(** ** What the scripts let pass *)

(** The top of the stack is a flag of value [b], and what is below passes. *)
Definition flagged (b : bool) (P : list bytes → Prop) (st : list bytes) : Prop :=
  ∃ flag st', st = flag :: st' ∧ truthy flag = b ∧ P st'.

(** A signature of [pub], once the lock time has passed. *)
Definition timelocked (time_lock : Z) (pub : Public) (s : spend) (st : list bytes) : Prop :=
  ∃ sig rest, st = sig :: rest ∧ cltv_ok s (le_split 4 time_lock) = true
    ∧ sp_checks s (public_bytes pub) sig = true.

(** A secret with the hash [h]. *)
Definition with_secret `{Hashes} (h : bytes) (P : list bytes → Prop) (st : list bytes) : Prop :=
  ∃ secret st', st = secret :: st' ∧ length secret = 32%nat ∧ dhash160 secret = h ∧ P st'.

Definition signed_by (pub : Public) (s : spend) (st : list bytes) : Prop :=
  ∃ sig rest, st = sig :: rest ∧ sp_checks s (public_bytes pub) sig = true.

(** Signatures of both, the one of [pub_0] on top. *)
Definition cosigned (pub_0 pub_1 : Public) (s : spend) (st : list bytes) : Prop :=
  ∃ sig_0 sig_1 rest, st = sig_0 :: sig_1 :: rest ∧ sp_checks s (public_bytes pub_0) sig_0 = true
    ∧ sp_checks s (public_bytes pub_1) sig_1 = true.

Definition cosign_items (pub_0 pub_1 : Public) : list item :=
  [Push (public_bytes pub_0); Op OP_CHECKSIGVERIFY; Push (public_bytes pub_1); Op OP_CHECKSIG].

(** The builder makes a script that fits a stack element and lets [P] pass. *)
Definition locks `{Hashes} `{Interpreter} (b : Builder) (P : spend → list bytes → Prop) : Prop :=
  ∃ script items, b = Some script ∧ (length script ≤ MAX_SCRIPT_ELEMENT_SIZE)%nat ∧ disassemble script = Some items
    ∧ ∀ s st, script_true s items st ↔ P s st.

Lemma mapM_snoc {A B} (f : A → option B) l x l' y :
  mapM f l = Some l' → f x = Some y → mapM f (l ++ [x]) = Some (l' ++ [y]).
Proof.
  revert l'. induction l as [|a l IH]; intros l'; cbn.
  - intros [= <-] ->. done.
  - intros (b & -> & (k & Hk & [= <-])%bind_Some)%bind_Some Hx. cbn. by rewrite (IH _ Hk Hx).
Qed.

Section laws.
Context `{ScriptLaws} `{!HashLengths}.

Lemma cosign_runs pub_0 pub_1 s st :
  public_ok pub_0 = true → public_ok pub_1 = true →
  script_true s (cosign_items pub_0 pub_1) st ↔ cosigned pub_0 pub_1 s st.
Proof.
  intros P0%public_length P1%public_length. unfold script_true, cosign_items, cosigned.
  rewrite small_push, exec_checksigverify by lia. destruct st as [|sig_0 st]; [naive_solver|].
  destruct (sp_checks s (public_bytes pub_0) sig_0) eqn:E0; last first.
  { split; [by intros (? & ? & ? & _)|]. intros (? & ? & ? & [= <- ->] & ? & _). congruence. }
  rewrite small_push, exec_checksig by lia.
  destruct st as [|sig_1 st]; [naive_solver|]. rewrite exec_nil. split.
  - intros (top & r & [= <- <-] & Ht). rewrite verdict_true in Ht. naive_solver.
  - intros (? & ? & ? & [= -> -> ->] & _ & Hs). eexists _, _. split; [done|]. by rewrite verdict_true.
Qed.

Lemma with_secret_runs h k (P : list bytes → Prop) s st :
  length h = 20%nat → (∀ st, script_true s k st ↔ P st) →
  script_true s (secret_items h ++ k) st ↔ with_secret h P st.
Proof.
  intros Hh Hk. unfold script_true at 1, with_secret. rewrite secret_runs by done.
  destruct st as [|secret st]; [naive_solver|]. repeat case_bool_decide; cbn [andb]; [|naive_solver..].
  fold (script_true s k st). rewrite Hk. naive_solver.
Qed.

Lemma signed_runs pub s st :
  public_ok pub = true → script_true s [Push (public_bytes pub); Op OP_CHECKSIG] st ↔ signed_by pub s st.
Proof.
  intros P0%public_length. unfold script_true, signed_by. rewrite small_push, exec_checksig by lia.
  destruct st as [|sig st]; [naive_solver|]. rewrite exec_nil. split.
  - intros (top & r & [= <- <-] & Ht). rewrite verdict_true in Ht. naive_solver.
  - intros (? & ? & [= -> ->] & Hs). eexists _, _. split; [done|]. by rewrite verdict_true.
Qed.

Lemma branches_paths a b (P Q : list bytes → Prop) s st :
  balanced 0 a = true → balanced 0 b = true →
  (∀ st, script_true s a st ↔ P st) → (∀ st, script_true s b st ↔ Q st) →
  script_true s (branches a b) st ↔ flagged true P st ∨ flagged false Q st.
Proof.
  intros Ha Hb HP HQ. rewrite branches_run by done. unfold flagged. split.
  - intros (flag & st' & -> & Hs). destruct (truthy flag) eqn:E; [left|right]; exists flag, st'; naive_solver.
  - intros [(flag & st' & -> & E & Hs)|(flag & st' & -> & E & Hs)]; exists flag, st'; rewrite E; naive_solver.
Qed.

(** A script given by its items. *)
Lemma locks_items b items P :
  b = assemble items → Forall item_ok items → (sum_list_with item_size items ≤ MAX_SCRIPT_ELEMENT_SIZE)%nat →
  (∀ s st, script_true s items st ↔ P s st) → locks b P.
Proof.
  intros -> Hok Hl HP. destruct (assemble_Some _ Hok) as [script Es]. exists script, items. split_and!; try done.
  - apply assemble_length in Es. lia.
  - by apply assemble_back.
Qed.

(** An input script that pushes [st] and the redeem script spends exactly when the
    redeem script lets the stack pass. *)
Lemma locks_spend b P redeem data st script_sig s :
  locks b P → b = Some redeem → Forall item_ok data → mapM pushed data = Some st →
  assemble (data ++ [Push redeem]) = Some script_sig →
  p2sh_spends s script_sig redeem (dhash160 redeem) ↔ P s (reverse st).
Proof.
  intros (r & items & -> & Hl & Hd & HP) [= ->] Hok Hst Ha. rewrite <-HP.
  assert (input_stack script_sig = Some (redeem :: reverse st)) as Hi.
  { rewrite (input_stack_items script_sig (data ++ [Push redeem]) (st ++ [redeem])).
    - by rewrite reverse_app.
    - apply assemble_back; [|done]. apply Forall_app. split; [done|]. repeat constructor.
      unfold MAX_SCRIPT_ELEMENT_SIZE in Hl. cbn [item_ok]. lia.
    - apply mapM_snoc; [done|]. by apply pushed_small. }
  unfold p2sh_spends. split.
  - intros (st' & items' & E & _ & Hd' & Hs). rewrite Hi in E. rewrite Hd in Hd'. by simplify_eq.
  - intros Hs. by exists (reverse st), items.
Qed.

(** ** The three scripts *)

Context (locktime : Z) (maker_secret_hash taker_secret_hash : bytes) (maker_pub taker_pub : Public).
Hypothesis (maker_ok : public_ok maker_pub = true) (taker_ok : public_ok taker_pub = true).

Definition funding_path (s : spend) (st : list bytes) : Prop :=
  flagged true (timelocked locktime taker_pub s) st
  ∨ flagged false (λ st, flagged true (cosigned taker_pub maker_pub s) st
                         ∨ flagged false (with_secret (ripemd160 taker_secret_hash) (signed_by taker_pub s)) st) st.

Definition taker_payment_path (s : spend) (st : list bytes) : Prop :=
  flagged true (timelocked locktime taker_pub s) st
  ∨ flagged false (with_secret (ripemd160 maker_secret_hash) (cosigned taker_pub maker_pub s)) st.

Definition maker_payment_path (s : spend) (st : list bytes) : Prop :=
  flagged true (timelocked locktime maker_pub s) st
  ∨ flagged false (λ st, flagged true (with_secret (ripemd160 maker_secret_hash) (signed_by taker_pub s)) st
                         ∨ flagged false (with_secret (ripemd160 taker_secret_hash) (signed_by maker_pub s)) st) st.

(** The payloads of the builders fit [push_bytes]. *)
Ltac sizes := rewrite ?length_le_split, ?length_ripemd160; cbn [length];
  pose proof (public_length _ maker_ok); pose proof (public_length _ taker_ok); lia.

(** A builder that makes the given items. *)
Ltac v2_locks items :=
  apply (locks_items _ items);
  [ unfold taker_funding_script, taker_payment_script, maker_payment_script, h160_of;
    rewrite !push_bytes_data by sizes; reflexivity
  | repeat constructor; cbn [item_ok]; sizes
  | unfold MAX_SCRIPT_ELEMENT_SIZE; cbn [sum_list_with item_size app branches refund_items cosign_items claim_items
      secret_items]; sizes
  | intros s st ].

Lemma funding_locks : locks (taker_funding_script locktime taker_secret_hash taker_pub maker_pub) funding_path.
Proof.
  v2_locks (branches (refund_items locktime taker_pub)
              (branches (cosign_items taker_pub maker_pub) (claim_items (ripemd160 taker_secret_hash) taker_pub))).
  apply branches_paths; [done..|intros; by apply refund_runs|]. intros st'.
  apply branches_paths; [done..|intros; by apply cosign_runs|]. intros st''.
  apply with_secret_runs; [apply length_ripemd160|]. intros. by apply signed_runs.
Qed.

Lemma taker_payment_locks :
  locks (taker_payment_script locktime maker_secret_hash taker_pub maker_pub) taker_payment_path.
Proof.
  v2_locks (branches (refund_items locktime taker_pub)
              (secret_items (ripemd160 maker_secret_hash) ++ cosign_items taker_pub maker_pub)).
  apply branches_paths; [done..|intros; by apply refund_runs|]. intros st'.
  apply with_secret_runs; [apply length_ripemd160|]. intros. by apply cosign_runs.
Qed.

Lemma maker_payment_locks :
  locks (maker_payment_script locktime maker_secret_hash taker_secret_hash maker_pub taker_pub) maker_payment_path.
Proof.
  v2_locks (branches (refund_items locktime maker_pub)
              (branches (claim_items (ripemd160 maker_secret_hash) taker_pub)
                 (claim_items (ripemd160 taker_secret_hash) maker_pub))).
  apply branches_paths; [done..|intros; by apply refund_runs|]. intros st'.
  apply branches_paths; [done..| |]; intros st''; (apply with_secret_runs; [apply length_ripemd160|]);
    intros; by apply signed_runs.
Qed.

End laws.

(** C18: the scripts of the second protocol let exactly these spends pass, whatever
    else is put on the stack failing.  Funding: the taker's after the lock time; both
    together; the taker's with the taker's secret.  Taker's payment: the taker's
    after the lock time; both together with the maker's secret.  Maker's payment:
    the maker's after the lock time; the taker's with the maker's secret; the
    maker's with the taker's secret. *)
Theorem v2_script_paths `{ScriptLaws} `{!HashLengths} locktime maker_secret_hash taker_secret_hash maker_pub taker_pub :
  public_ok maker_pub = true → public_ok taker_pub = true →
  locks (taker_funding_script locktime taker_secret_hash taker_pub maker_pub)
    (λ s st, flagged true (timelocked locktime taker_pub s) st
       ∨ flagged false (λ st, flagged true (cosigned taker_pub maker_pub s) st
           ∨ flagged false (with_secret (ripemd160 taker_secret_hash) (signed_by taker_pub s)) st) st)
  ∧ locks (taker_payment_script locktime maker_secret_hash taker_pub maker_pub)
    (λ s st, flagged true (timelocked locktime taker_pub s) st
       ∨ flagged false (with_secret (ripemd160 maker_secret_hash) (cosigned taker_pub maker_pub s)) st)
  ∧ locks (maker_payment_script locktime maker_secret_hash taker_secret_hash maker_pub taker_pub)
    (λ s st, flagged true (timelocked locktime maker_pub s) st
       ∨ flagged false (λ st, flagged true (with_secret (ripemd160 maker_secret_hash) (signed_by taker_pub s)) st
           ∨ flagged false (with_secret (ripemd160 taker_secret_hash) (signed_by maker_pub s)) st) st).
Proof.
  intros Hm Ht.
  split_and!; [by apply funding_locks|by apply taker_payment_locks|by apply maker_payment_locks].
Qed.

(** ** Making and validating the payments *)

(** The sum of two decimals: the scales are brought in line. *)
Definition dec_add (a b : BigDecimal) : BigDecimal :=
  let s := Z.max (scale a) (scale b) in
  {| int_val := int_val a * 10 ^ (s - scale a) + int_val b * 10 ^ (s - scale b); scale := s |}.

Section payments.
Context `{Hashes} (to_decimal : MmNumber → BigDecimal) (coin : UtxoConf).

(** The output to the script, and the one that records the hash. *)
Definition htlc_outputs (redeem : Builder) (amount : BigDecimal) (secret_hash : bytes) :
    outcome (list TransactionOutput) :=
  redeem ← redeem;
  match sat_from_big_decimal amount (cf_decimals coin) with
  | None => Some (Err BadAmount)
  | Some sat =>
      script ← p2sh_of redeem;
      op_return ← builder_default ▷ push_opcode OP_RETURN ▷ push_bytes secret_hash;
      Some (Ok [mkTransactionOutput sat script; mkTransactionOutput 0 op_return])
  end.

(** The outputs [send_maker_payment_v2] pays from the own address. *)
Definition send_maker_payment_v2 (time_lock : Z) (maker_secret_hash taker_secret_hash : bytes)
    (htlc_pub taker_pub : Public) (amount : BigDecimal) : outcome (list TransactionOutput) :=
  htlc_outputs (maker_payment_script (u32 time_lock) maker_secret_hash taker_secret_hash htlc_pub taker_pub) amount
    maker_secret_hash.

(** The comparison of output 0 both validations end with. *)
Definition check_htlc_output (tx : Transaction) (script : bytes) (sat : Z) : result () HtlcError :=
  match outputs tx !! DEFAULT_SWAP_VOUT with
  | None => Err OutputMismatch
  | Some actual =>
      if negb (bool_decide (script_pubkey actual = script)) then Err OutputMismatch
      else if negb (value actual =? sat) then Err OutputMismatch
      else Ok ()
  end.

Definition validate_maker_payment_v2 (tx : Transaction) (time_lock : Z) (maker_secret_hash taker_secret_hash : bytes)
    (maker_pub taker_htlc_pub : Public) (amount : BigDecimal) : outcome () :=
  match sat_from_big_decimal amount (cf_decimals coin) with
  | None => Some (Err BadAmount)
  | Some sat =>
      redeem ← redeem_script (MakerPaymentV2 maker_secret_hash taker_secret_hash) (u32 time_lock) maker_pub
                 taker_htlc_pub;
      script ← p2sh_of redeem;
      Some (check_htlc_output tx script sat)
  end.

(** What the taker funds: the trade, the premium and the whole dex fee. *)
Definition funding_total (trading_amount premium_amount : BigDecimal) (dex_fee : DexFee) : BigDecimal :=
  dec_add (dec_add trading_amount premium_amount) (to_decimal (total_spend_amount dex_fee)).

Definition send_taker_funding (funding_time_lock : Z) (taker_secret_hash : bytes) (htlc_pub : Public) (maker_pub : bytes)
    (trading_amount premium_amount : BigDecimal) (dex_fee : DexFee) : outcome (list TransactionOutput) :=
  match public_from_slice maker_pub with
  | Err e => Some (Err (BadPublic e))
  | Ok maker_pub =>
      htlc_outputs (taker_funding_script (u32 funding_time_lock) taker_secret_hash htlc_pub maker_pub)
        (funding_total trading_amount premium_amount dex_fee) taker_secret_hash
  end.

(** The import of the address into a native wallet is best effort and left out. *)
Definition validate_taker_funding (tx : Transaction) (funding_time_lock : Z) (taker_secret_hash : bytes)
    (taker_pub maker_htlc_pub : Public) (trading_amount premium_amount : BigDecimal) (dex_fee : DexFee) : outcome () :=
  redeem ← taker_funding_script (u32 funding_time_lock) taker_secret_hash taker_pub maker_htlc_pub;
  script ← p2sh_of redeem;
  match sat_from_big_decimal (funding_total trading_amount premium_amount dex_fee) (cf_decimals coin) with
  | None => Some (Err BadAmount)
  | Some sat => Some (check_htlc_output tx script sat)
  end.

End payments.

(** ** Spending with one signature *)

Section spends.
Context `{Hashes} `{Ecdsa} (coin : UtxoConf) (htlc_kp : KeyPair) (env : SpendEnv).

Definition build_and_broadcast_maker_v2_spend (prev_tx_bytes redeem script_data : bytes) (sequence lock_time : Z) :
    outcome Transaction :=
  match read_tx coin prev_tx_bytes with
  | Err e => Some (Err e)
  | Ok prev => spend_output coin prev redeem script_data sequence lock_time htlc_kp env
  end.

(** The refunds after the lock time, which differ in the data before the script. *)
Definition timelock_refund (payment_tx : bytes) (tx_type : SwapTxTypeWithSecretHash) (time_lock : Z) (other_pub : bytes)
    (data : Builder) : outcome Transaction :=
  match public_from_slice other_pub with
  | Err e => Some (Err (BadPublic e))
  | Ok other =>
      redeem ← redeem_script tx_type (u32 time_lock) (kp_public htlc_kp) other;
      script_data ← data;
      build_and_broadcast_maker_v2_spend payment_tx redeem script_data (SEQUENCE_FINAL - 1) (u32 time_lock)
  end.

Definition refund_maker_payment_v2_timelock (payment_tx : bytes) (tx_type : SwapTxTypeWithSecretHash) (time_lock : Z)
    (taker_pub : bytes) : outcome Transaction :=
  timelock_refund payment_tx tx_type time_lock taker_pub (builder_default ▷ push_opcode OP_1).

Definition refund_taker_funding_timelock (payment_tx : bytes) (tx_type : SwapTxTypeWithSecretHash) (time_lock : Z)
    (maker_pub : bytes) : outcome Transaction :=
  timelock_refund payment_tx tx_type time_lock maker_pub (builder_default ▷ push_opcode OP_1 ▷ push_opcode OP_0).

Definition refund_combined_taker_payment (payment_tx : bytes) (tx_type : SwapTxTypeWithSecretHash) (time_lock : Z)
    (maker_pub : bytes) : outcome Transaction :=
  timelock_refund payment_tx tx_type time_lock maker_pub (builder_default ▷ push_opcode OP_1).

(** The spends at once, by a secret and two flags. *)
Definition secret_spend (payment_tx : Transaction) (redeem : Builder) (secret : bytes) (inner : Opcode) :
    outcome Transaction :=
  redeem ← redeem;
  script_data ← builder_default ▷ push_data secret ▷ push_opcode inner ▷ push_opcode OP_0;
  build_and_broadcast_maker_v2_spend (serialize payment_tx) redeem script_data SEQUENCE_FINAL 0.

Definition refund_maker_payment_v2_secret (maker_payment_tx : Transaction) (time_lock : Z)
    (maker_secret_hash taker_secret_hash taker_secret : bytes) (taker_pub : Public) : outcome Transaction :=
  secret_spend maker_payment_tx
    (redeem_script (MakerPaymentV2 maker_secret_hash taker_secret_hash) (u32 time_lock) (kp_public htlc_kp) taker_pub)
    taker_secret OP_0.

Definition spend_maker_payment_v2 (maker_payment_tx : Transaction) (time_lock : Z)
    (maker_secret_hash taker_secret_hash maker_secret : bytes) (maker_pub : Public) : outcome Transaction :=
  secret_spend maker_payment_tx
    (maker_payment_script (u32 time_lock) maker_secret_hash taker_secret_hash maker_pub (kp_public htlc_kp))
    maker_secret OP_1.

Definition refund_taker_funding_secret (funding_tx : Transaction) (funding_time_lock : Z)
    (taker_secret_hash taker_secret : bytes) (maker_pubkey : Public) : outcome Transaction :=
  secret_spend funding_tx
    (taker_funding_script (u32 funding_time_lock) taker_secret_hash (kp_public htlc_kp) maker_pubkey)
    taker_secret OP_0.

End spends.

(** ** The spends pass *)

Section one_signature.
Context `{HashLengths} `{!Interpreter} `{!ScriptLaws} `{EcdsaLaws} (coin : UtxoConf) (key_pair : KeyPair) (env : SpendEnv).
Hypothesis key_pair_ok : kp_public key_pair = ec_public (kp_private key_pair).
Hypothesis fee_ok : ∀ fee, se_fee env = Some fee → 0 ≤ fee.

(** [tx] spends output 0 of the payment, locked by the script [redeem], with one
    input signed by the key pair, and passes the script in every view of it in which
    that signature is valid. *)
Definition spend_accepted (payment_tx : bytes) (redeem : Builder) (data : list item) (seq time_lock : Z)
    (tx : Transaction) : Prop :=
  ∃ prev script sig t, read_tx coin payment_tx = Ok prev ∧ redeem = Some script ∧ inputs tx = [t]
    ∧ spends_output coin env prev script data seq time_lock key_pair tx sig
    ∧ ∀ checks, checks (public_bytes (kp_public key_pair)) (script_sig_of sig (cf_fork_id coin)) = true →
        p2sh_spends (mkSpend (lock_time tx) (sequence t) checks) (script_sig t) script (dhash160 script).

Lemma v2_spend_inv payment_tx b P redeem data st script_data seq time_lock tx :
  locks b P → b = Some redeem → Forall item_ok data → mapM pushed data = Some st →
  assemble data = Some script_data →
  build_and_broadcast_maker_v2_spend coin key_pair env payment_tx redeem script_data seq time_lock = Some (Ok tx) →
  ∃ prev sig t, read_tx coin payment_tx = Ok prev ∧ inputs tx = [t]
    ∧ spends_output coin env prev redeem data seq time_lock key_pair tx sig
    ∧ sequence t = seq ∧ time_lock ≤ lock_time tx
    ∧ ∀ s, p2sh_spends s (script_sig t) redeem (dhash160 redeem)
           ↔ P s (reverse st ++ [script_sig_of sig (cf_fork_id coin)]).
Proof.
  intros Hlk Hb Hok Hst Hdata. unfold build_and_broadcast_maker_v2_spend.
  destruct (read_tx coin payment_tx) as [prev|]; [|done]. intros Htx.
  destruct Hlk as (r & items & Er & Hl & Hd & HP). rewrite Hb in Er. injection Er as <-.
  unfold MAX_SCRIPT_ELEMENT_SIZE in Hl.
  apply (spend_output_inv coin _ key_pair_ok _ _ data) in Htx as (sig & Hs); [|done|done|lia|done].
  pose proof Hs as (t & ? & ? & ? & ? & ? & Hi & _ & Hq & Ht & _ & Ha & _ & _ & _ & Hsl & _).
  pose proof (script_sig_length (cf_fork_id coin) sig) as Hsig.
  exists prev, sig, t. split_and!; try done. intros s.
  rewrite <-reverse_cons. apply (locks_spend b P redeem (Push (script_sig_of sig (cf_fork_id coin)) :: data)); try done.
  - exists redeem, items. unfold MAX_SCRIPT_ELEMENT_SIZE. done.
  - constructor; [|done]. cbn. lia.
  - cbn [mapM]. rewrite pushed_small by (unfold MAX_SCRIPT_ELEMENT_SIZE; lia). cbn. by rewrite Hst.
Qed.

(** A refund after the lock time: whatever the script, the flag that is pushed last
    is on top of the stack. *)
Lemma timelock_refund_inv payment_tx tx_type time_lock other_pub P data st tx :
  (∀ other, public_ok other = true → locks (redeem_script tx_type (u32 time_lock) (kp_public key_pair) other) (P other)) →
  Forall item_ok data → mapM pushed data = Some st →
  timelock_refund coin key_pair env payment_tx tx_type time_lock other_pub (assemble data) = Some (Ok tx) →
  ∃ other redeem prev sig t, public_from_slice other_pub = Ok other ∧ public_ok other = true
    ∧ redeem_script tx_type (u32 time_lock) (kp_public key_pair) other = Some redeem
    ∧ read_tx coin payment_tx = Ok prev ∧ inputs tx = [t]
    ∧ spends_output coin env prev redeem data (SEQUENCE_FINAL - 1) (u32 time_lock) key_pair tx sig
    ∧ sequence t = SEQUENCE_FINAL - 1 ∧ u32 time_lock ≤ lock_time tx
    ∧ ∀ s, p2sh_spends s (script_sig t) redeem (dhash160 redeem)
           ↔ P other s (reverse st ++ [script_sig_of sig (cf_fork_id coin)]).
Proof.
  intros HP Hok Hst. unfold timelock_refund. destruct (public_from_slice other_pub) as [other|] eqn:Eo; [|done].
  apply public_from_slice_Ok in Eo as [_ Ho]. intros (redeem & Er & (d & Hd & Htx)%bind_Some)%bind_Some.
  destruct (v2_spend_inv _ _ _ _ _ _ _ _ _ _ (HP _ Ho) Er Hok Hst Hd Htx) as (prev & sig & t & ?).
  destruct_and!. by exists other, redeem, prev, sig, t.
Qed.

Lemma secret_spend_inv payment_tx b P secret inner flag tx :
  locks b P → length secret = 32%nat →
  (inner, flag) ∈ [(OP_0, []); (OP_1, [z2b 1])] →
  secret_spend coin key_pair env payment_tx b secret inner = Some (Ok tx) →
  ∃ redeem prev sig t data, b = Some redeem ∧ read_tx coin (serialize payment_tx) = Ok prev ∧ inputs tx = [t]
    ∧ data = [Push secret; (if bool_decide (inner = OP_0) then Push [] else Op inner); Push []]
    ∧ spends_output coin env prev redeem data SEQUENCE_FINAL 0 key_pair tx sig
    ∧ ∀ s, p2sh_spends s (script_sig t) redeem (dhash160 redeem)
           ↔ P s [[]; flag; secret; script_sig_of sig (cf_fork_id coin)].
Proof.
  intros Hlk Hlen Hin. unfold secret_spend. intros (redeem & Er & (d & Hd & Htx)%bind_Some)%bind_Some.
  set (data := [Push secret; (if bool_decide (inner = OP_0) then Push [] else Op inner); Push []]).
  assert (Forall item_ok data ∧ mapM pushed data = Some [secret; flag; []] ∧ assemble data = Some d) as (Hok & Hst & Hda).
  { unfold data. clear data. rewrite !elem_of_cons in Hin. cbn [mapM].
    rewrite (pushed_small secret) by (unfold MAX_SCRIPT_ELEMENT_SIZE; lia).
    destruct Hin as [[= -> ->]|[[= -> ->]|[]%not_elem_of_nil]]; (split_and!; [|done|done]);
      repeat constructor; cbn [item_ok length]; lia. }
  destruct (v2_spend_inv _ _ _ _ _ _ _ _ _ _ Hlk Er Hok Hst Hda Htx) as (prev & sig & t & ?). destruct_and!.
  by exists redeem, prev, sig, t, data.
Qed.

End one_signature.

Section accepted.
Context `{HashLengths} `{!Interpreter} `{!ScriptLaws} `{EcdsaLaws} (coin : UtxoConf) (key_pair : KeyPair) (env : SpendEnv).
Hypothesis key_pair_ok : kp_public key_pair = ec_public (kp_private key_pair).
Hypothesis fee_ok : ∀ fee, se_fee env = Some fee → 0 ≤ fee.

(** A refund of a script whose first branch is the timelocked one of the key. *)
Lemma timelock_accepted payment_tx tx_type time_lock other_pub Q tx :
  (∀ other, public_ok other = true → locks (redeem_script tx_type (u32 time_lock) (kp_public key_pair) other)
     (λ s st, flagged true (timelocked (u32 time_lock) (kp_public key_pair) s) st ∨ Q other s st)) →
  LOCKTIME_THRESHOLD ≤ u32 time_lock < 2 ^ 31 →
  timelock_refund coin key_pair env payment_tx tx_type time_lock other_pub (builder_default ▷ push_opcode OP_1)
    = Some (Ok tx) →
  ∃ other, public_from_slice other_pub = Ok other
    ∧ spend_accepted coin key_pair env payment_tx (redeem_script tx_type (u32 time_lock) (kp_public key_pair) other)
        [Op OP_1] (SEQUENCE_FINAL - 1) (u32 time_lock) tx.
Proof.
  intros HP Ht Htx.
  destruct (timelock_refund_inv coin key_pair env key_pair_ok fee_ok payment_tx tx_type time_lock other_pub _ [Op OP_1]
    [[z2b 1]] tx HP) as (other & redeem & prev & sig & t & Eo & Ho & Er & Ep & Hi & Hs & Hq & Hl & Hiff);
    [by repeat constructor|done|done|].
  exists other. split; [done|]. exists prev, redeem, sig, t. split_and!; try done. intros checks Hc. apply Hiff. left.
  exists [z2b 1], [script_sig_of sig (cf_fork_id coin)]. split_and!; [done|done|].
  eexists _, []. split_and!; [done| |done]. apply cltv_reached; [done|done|]. cbn. by rewrite Hq.
Qed.

(** A spend by a secret, of a script that lets it pass below the two flags. *)
Lemma secret_accepted payment_tx b P secret inner flag tx :
  locks b P → length secret = 32%nat → (inner, flag) ∈ [(OP_0, []); (OP_1, [z2b 1])] →
  (∀ s sig, sp_checks s (public_bytes (kp_public key_pair)) sig = true → P s [[]; flag; secret; sig]) →
  secret_spend coin key_pair env payment_tx b secret inner = Some (Ok tx) →
  spend_accepted coin key_pair env (serialize payment_tx) b
    [Push secret; (if bool_decide (inner = OP_0) then Push [] else Op inner); Push []] SEQUENCE_FINAL 0 tx.
Proof.
  intros Hlk Hl Hin HP Htx.
  destruct (secret_spend_inv coin key_pair env key_pair_ok fee_ok payment_tx b P secret inner flag tx Hlk Hl Hin Htx)
    as (redeem & prev & sig & t & data & Er & Ep & Hi & -> & Hs & Hiff).
  exists prev, redeem, sig, t. split_and!; try done. intros checks Hc. by apply Hiff, HP.
Qed.

End accepted.

(** C17: the refunds and the claim of the second protocol pass: the maker's refund of
    the maker's payment and the taker's of the taker's payment, after the lock time,
    by the timelocked branch; the maker's refund of the maker's payment with the
    taker's secret, the taker's claim of it with the maker's secret, and the taker's
    refund of the funding with the taker's secret, at once, the hash of the secret
    being its SHA-256.  Each transaction has one input, signed by the key pair, that
    spends output 0 of the payment, and its script passes in every view of the
    transaction in which that signature is valid. *)
Theorem v2_spends_accepted `{HashLengths} `{!Interpreter} `{!ScriptLaws} `{EcdsaLaws} coin key_pair env :
  kp_public key_pair = ec_public (kp_private key_pair) → (∀ fee, se_fee env = Some fee → 0 ≤ fee) →
  (∀ payment_tx time_lock mh th other_pub tx, LOCKTIME_THRESHOLD ≤ u32 time_lock < 2 ^ 31 →
     refund_maker_payment_v2_timelock coin key_pair env payment_tx (MakerPaymentV2 mh th) time_lock other_pub
       = Some (Ok tx) →
     ∃ other, public_from_slice other_pub = Ok other
       ∧ spend_accepted coin key_pair env payment_tx
           (maker_payment_script (u32 time_lock) mh th (kp_public key_pair) other)
           [Op OP_1] (SEQUENCE_FINAL - 1) (u32 time_lock) tx)
  ∧ (∀ payment_tx time_lock mh th other_pub tx, LOCKTIME_THRESHOLD ≤ u32 time_lock < 2 ^ 31 →
     refund_combined_taker_payment coin key_pair env payment_tx (TakerPaymentV2 mh th) time_lock other_pub
       = Some (Ok tx) →
     ∃ other, public_from_slice other_pub = Ok other
       ∧ spend_accepted coin key_pair env payment_tx (taker_payment_script (u32 time_lock) mh (kp_public key_pair) other)
           [Op OP_1] (SEQUENCE_FINAL - 1) (u32 time_lock) tx)
  ∧ ∀ payment_tx time_lock h secret other tx, length secret = 32%nat → public_ok other = true →
     (refund_maker_payment_v2_secret coin key_pair env payment_tx time_lock h (sha256 secret) secret other = Some (Ok tx) →
      spend_accepted coin key_pair env (serialize payment_tx)
        (maker_payment_script (u32 time_lock) h (sha256 secret) (kp_public key_pair) other)
        [Push secret; Push []; Push []] SEQUENCE_FINAL 0 tx)
     ∧ (spend_maker_payment_v2 coin key_pair env payment_tx time_lock (sha256 secret) h secret other = Some (Ok tx) →
        spend_accepted coin key_pair env (serialize payment_tx)
          (maker_payment_script (u32 time_lock) (sha256 secret) h other (kp_public key_pair))
          [Push secret; Op OP_1; Push []] SEQUENCE_FINAL 0 tx)
     ∧ (refund_taker_funding_secret coin key_pair env payment_tx time_lock (sha256 secret) secret other = Some (Ok tx) →
        spend_accepted coin key_pair env (serialize payment_tx)
          (taker_funding_script (u32 time_lock) (sha256 secret) (kp_public key_pair) other)
          [Push secret; Push []; Push []] SEQUENCE_FINAL 0 tx).
Proof.
  intros Hk Hfee. pose proof (own_key_ok _ Hk) as Hown. split_and!.
  - intros payment_tx time_lock mh th other_pub tx Ht.
    eapply (timelock_accepted coin key_pair env Hk Hfee payment_tx (MakerPaymentV2 mh th)); [|done].
    intros other Ho. by apply maker_payment_locks.
  - intros payment_tx time_lock mh th other_pub tx Ht.
    eapply (timelock_accepted coin key_pair env Hk Hfee payment_tx (TakerPaymentV2 mh th)); [|done].
    intros other Ho. by apply taker_payment_locks.
  - intros payment_tx time_lock h secret other tx Hl Ho. split_and!; intros Htx.
    + eapply (secret_accepted coin key_pair env Hk Hfee _ _ _ secret OP_0 []) in Htx; [done|..]; [|done|set_solver|].
      { by apply maker_payment_locks. }
      intros s sig Hc. right. exists [], [[]; secret; sig]. split_and!; try done. right. exists [], [secret; sig].
      split_and!; try done. exists secret, [sig]. split_and!; try done. by exists sig, [].
    + eapply (secret_accepted coin key_pair env Hk Hfee _ _ _ secret OP_1 [z2b 1]) in Htx; [done|..]; [|done|set_solver|].
      { by apply maker_payment_locks. }
      intros s sig Hc. right. exists [], [[z2b 1]; secret; sig]. split_and!; try done. left. exists [z2b 1], [secret; sig].
      split_and!; try done. exists secret, [sig]. split_and!; try done. by exists sig, [].
    + eapply (secret_accepted coin key_pair env Hk Hfee _ _ _ secret OP_0 []) in Htx; [done|..]; [|done|set_solver|].
      { by apply funding_locks. }
      intros s sig Hc. right. exists [], [[]; secret; sig]. split_and!; try done. right. exists [], [secret; sig].
      split_and!; try done. exists secret, [sig]. split_and!; try done. by exists sig, [].
Qed.

(** C38: the taker's refund of the funding after the lock time never passes: the flags
    are pushed in the wrong order, so that the script takes the branch of the common
    spend and finds one signature where it wants two, in whatever view of the
    transaction. *)
Theorem funding_timelock_refund_rejected `{HashLengths} `{!Interpreter} `{!ScriptLaws} `{EcdsaLaws}
    coin key_pair env payment_tx taker_secret_hash time_lock maker_pub tx :
  kp_public key_pair = ec_public (kp_private key_pair) → (∀ fee, se_fee env = Some fee → 0 ≤ fee) →
  refund_taker_funding_timelock coin key_pair env payment_tx (TakerFunding taker_secret_hash) time_lock maker_pub
    = Some (Ok tx) →
  ∃ maker redeem prev t, public_from_slice maker_pub = Ok maker
    ∧ taker_funding_script (u32 time_lock) taker_secret_hash (kp_public key_pair) maker = Some redeem
    ∧ read_tx coin payment_tx = Ok prev ∧ inputs tx = [t] ∧ previous_output t = mkOutPoint (tx_hash prev) 0
    ∧ ∀ s, ¬ p2sh_spends s (script_sig t) redeem (dhash160 redeem).
Proof.
  intros Hk Hfee Htx. pose proof (own_key_ok _ Hk) as Hown.
  apply (timelock_refund_inv coin key_pair env Hk Hfee payment_tx (TakerFunding taker_secret_hash) time_lock maker_pub
    (λ other, funding_path (u32 time_lock) taker_secret_hash other (kp_public key_pair))
    [Op OP_1; Push []] [[z2b 1]; []]) in Htx; [|intros; by apply funding_locks|by repeat constructor|done].
  destruct Htx as (maker & redeem & prev & sig & t & Em & _ & Er & Ep & Hi & Hs & _ & _ & Hiff).
  exists maker, redeem, prev, t. split_and!; try done.
  { destruct Hs as (t' & ? & ? & ? & ? & ? & Hi' & Hp & _). rewrite Hi in Hi'. by injection Hi' as ->. }
  intros s Hsp. apply Hiff in Hsp. destruct Hsp as [(c & st' & [= <- <-] & Hc & _)|(c & st' & [= <- <-] & _ & Hsp)]; [done|].
  destruct Hsp as [(c & st' & [= <- <-] & _ & Hsp)|(c & st' & [= <- <-] & Hc & _)]; [|done].
  by destruct Hsp as (? & ? & ? & ? & _).
Qed.

(** ** Reading a spend *)

Inductive FundingSpendBranchTag : Type :=
| Timelock
| Secret (secret : bytes)
| Cooperative.

Definition classify_funding_spend_script_sig (script_sig : bytes) : FundingSpendBranchTag :=
  match get_instruction script_sig 1 with
  | Some (Ok instr) =>
      if bool_decide (i_opcode instr = OP_1) then Timelock
      else if bool_decide (i_opcode instr = OP_PUSHBYTES_32) then
        match i_data instr with
        | Some d => if (length d =? 32)%nat then Secret d else Cooperative
        | None => Cooperative
        end
      else Cooperative
  | _ => Cooperative
  end.

Inductive FundingTxSpend : Type :=
| RefundedTimelock (tx : Transaction)
| RefundedSecret (tx : Transaction) (secret : bytes)
| TransferredToTakerPayment (tx : Transaction).

(** [search_for_taker_funding_spend], given what [find_output_spend] answers. *)
Definition search_for_taker_funding_spend (coin : UtxoConf) (tx : Transaction)
    (find_output_spend : option (option Transaction)) : result (option FundingTxSpend) HtlcError :=
  match outputs tx !! DEFAULT_SWAP_VOUT, find_output_spend with
  | None, _ => Err OutputMismatch
  | Some _, None => Err RpcError
  | Some _, Some None => Ok None
  | Some _, Some (Some spending_tx) =>
      let spend_tx := with_algo (cf_tx_hash_algo coin) spending_tx in
      match inputs spend_tx !! DEFAULT_SWAP_VOUT with
      | None => Err UnknownSpend
      | Some input =>
          Ok (Some (match classify_funding_spend_script_sig (script_sig input) with
                    | Timelock => RefundedTimelock spend_tx
                    | Secret secret => RefundedSecret spend_tx secret
                    | Cooperative => TransferredToTakerPayment spend_tx
                    end))
      end
  end.

(** The push of an instruction, when it is the secret. *)
Definition secret_push `{Hashes} (secret_hash : bytes) (i : result Instruction ScriptError) : option bytes :=
  match i with
  | Ok instr =>
      if bool_decide (i_opcode instr = OP_PUSHBYTES_32) then
        push ← i_data instr;
        if (length push =? 32)%nat && bool_decide (dhash160 push = secret_hash) then Some push else None
      else None
  | Err _ => None
  end.

Fixpoint first_some {A B} (f : A → option B) (l : list A) : option B :=
  match l with
  | [] => None
  | a :: l => match f a with Some b => Some b | None => first_some f l end
  end.

Definition extract_secret_v2 `{Hashes} (secret_hash : bytes) (spend_tx : Transaction) : result bytes HtlcError :=
  match inputs spend_tx with
  | [] => Err NoSecret
  | input :: _ =>
      match first_some (secret_push secret_hash) (iter (script_sig input)) with
      | Some secret => Ok secret
      | None => Err NoSecret
      end
  end.

Lemma first_some_Some {A B} (f : A → option B) l b : first_some f l = Some b → ∃ a, a ∈ l ∧ f a = Some b.
Proof.
  induction l as [|a l IH]; cbn; [done|]. destruct (f a) eqn:E.
  - intros [= <-]. exists a. by split; [left|].
  - intros (a' & Ha & Hf)%IH. exists a'. by split; [right|].
Qed.

(** What is found has the hash. *)
Lemma extract_secret_v2_hash `{Hashes} secret_hash tx secret :
  extract_secret_v2 secret_hash tx = Ok secret → dhash160 secret = secret_hash ∧ length secret = 32%nat.
Proof.
  unfold extract_secret_v2. destruct (inputs tx) as [|i ins]; [done|].
  destruct (first_some _ _) as [x|] eqn:E; [|done]. intros [= <-].
  apply first_some_Some in E as ([ins'|] & _ & E); [|done]. unfold secret_push in E.
  case_bool_decide; [|done]. apply bind_Some in E as (p & _ & E).
  destruct (Nat.eqb_spec (length p) 32); [|done]. cbn [andb] in E. case_bool_decide; [|done]. by injection E as <-.
Qed.

(** C39: no form of the maker's secret hash serves both the script of the taker's
    payment and the reading of the secret from its spend.  With SHA-256 of the
    secret, the form the scripts are made for, [extract_secret_v2] finds nothing in
    any transaction, since it compares digests of 20 bytes with 32; a hash it does
    find the secret of is one for which the script lets that secret, or another of
    the same digest, pass only if the hash is its own RIPEMD-160. *)
Theorem secret_never_read `{HashLengths} `{!Interpreter} `{!ScriptLaws} :
  (∀ secret tx, extract_secret_v2 (sha256 secret) tx = Err NoSecret)
  ∧ ∀ secret_hash tx secret locktime taker_pub maker_pub,
      public_ok taker_pub = true → public_ok maker_pub = true →
      extract_secret_v2 secret_hash tx = Ok secret →
      ∃ script items, taker_payment_script locktime secret_hash taker_pub maker_pub = Some script
        ∧ disassemble script = Some items
        ∧ ∀ s flag st secret', dhash160 secret' = dhash160 secret → truthy flag = false →
            script_true s items (flag :: secret' :: st) → ripemd160 secret_hash = secret_hash.
Proof.
  split.
  - intros secret tx. destruct (extract_secret_v2 (sha256 secret) tx) as [x|e] eqn:E.
    + apply extract_secret_v2_hash in E as [E _]. apply (f_equal length) in E.
      rewrite length_dhash160, length_sha256 in E. done.
    + revert E. unfold extract_secret_v2. repeat case_match; congruence.
  - intros secret_hash tx secret locktime taker maker Pt Pm [Hh Hl]%extract_secret_v2_hash.
    destruct (taker_payment_locks locktime secret_hash maker taker Pm Pt) as (script & items & Es & _ & Ed & HP).
    exists script, items. split_and!; [done..|]. intros s flag st secret' Hs' Hf Hs. apply HP in Hs.
    destruct Hs as [(c & st' & [= <- <-] & Hc & _)|(c & st' & [= <- <-] & _ & Hs)]; [congruence|].
    destruct Hs as (x & st' & [= <- <-] & _ & Hx & _). congruence.
Qed.
