(* ===== verification/Preimage.v ===== *)
(** * Preimage: transactions both sides sign
      (mm2src/coins/utxo/utxo_common/utxo_common_swap.rs and
      mm2src/coins/utxo/utxo_standard_swap_v2.rs)

    In the second swap protocol the funding is turned into the taker's payment,
    and that payment is spent, by transactions with signatures of both sides.
    One side builds and signs the transaction (the preimage), sends its bytes and
    its signature, the other validates them, adds its own signature and
    broadcasts. *)

From stdpp Require Import base tactics list numbers strings option sets.
From coqutil Require Import Byte Word.LittleEndianList.
From S2P Require Import Prelude MmNumber DexFee Codec Tx Crypto Script Sign ScriptRules UtxoSigner Htlc FeeTx HtlcV2.

Local Open Scope Z_scope.

(** ** Preimages *)

Inductive TxGenError : Type :=
| PrevTxIsNotValid
| PrevOutputTooLow
| NumConversion
| Signing (e : KeysError)
| Rpc
| OtherGen (e : HtlcError).

(** Of the two validations, the one for the funding spend and the one for the spend
    of the taker's payment. *)
Inductive PreimageError : Type := InvalidPreimage | InternalError.

Record TxPreimageWithSig : Type := mkPreimage { tp_preimage : TransactionInputSigner; tp_signature : bytes }.

(** [UtxoTxPreimage::to_bytes] and [parse_preimage]. *)
Definition preimage_to_bytes (p : TransactionInputSigner) : bytes := serialize (transaction_of p).

Definition parse_preimage (coin : UtxoConf) (preimage : bytes) : result TransactionInputSigner fault :=
  let? tx := deserialize_transaction preimage in Ok (from_transaction tx (cf_sighash_suffix coin)).

Section preimages.
Context `{Hashes} `{Ecdsa} (to_decimal : MmNumber → BigDecimal) (coin : UtxoConf).

(** The unsigned transaction with one final input, of both kinds. *)
Definition preimage_signer (prev : Transaction) (amount : Z) (outs : list TransactionOutput) (now : Z) :
    TransactionInputSigner :=
  mkSigner (cf_tx_version coin) (if cf_is_pos coin then Some (u32 now) else None) (cf_overwintered coin)
    (cf_version_group_id coin) (cf_consensus_branch_id coin) 0 0
    [mkUnsignedTransactionInput (mkOutPoint (tx_hash prev) (Z.of_nat DEFAULT_SWAP_VOUT)) SEQUENCE_FINAL amount []]
    outs 0 [] [] [] (cf_zcash coin) None (signer_algo (cf_tx_hash_algo coin)) (cf_sighash_suffix coin).

(** [signature_hash] of input 0; [None] is the panic of the missing input. *)
Definition preimage_digest (signer : TransactionInputSigner) (redeem : bytes) (sighash_type : Z) : option bytes :=
  i ← s_inputs signer !! DEFAULT_SWAP_VOUT;
  signature_hash signer DEFAULT_SWAP_VOUT (u_amount i) redeem (cf_signature_version coin) sighash_type.

(** [sign_funding_spend_input] and [sign_taker_payment_spend_input]. *)
Definition sign_spend_input (signer : TransactionInputSigner) (redeem : bytes) (keypair : KeyPair) (sighash_type : Z) :
    option (result bytes KeysError) :=
  digest ← preimage_digest signer redeem sighash_type;
  Some (ec_sign (kp_private keypair) digest).

(** The transaction of a preimage with its input signed. *)
Definition finish_preimage (signer : TransactionInputSigner) (script_sig : bytes) : option Transaction :=
  i ← s_inputs signer !! DEFAULT_SWAP_VOUT;
  let tx := transaction_of signer in
  Some (with_algo (cf_tx_hash_algo coin)
    (mkTransaction (version tx) (n_time tx) (overwintered tx) (version_group_id tx)
       [mkTransactionInput (u_previous_output i) script_sig (u_sequence i) []] (outputs tx) (lock_time tx)
       (expiry_height tx) (shielded_spends tx) (shielded_outputs tx) (join_splits tx) (value_balance tx)
       (join_split_pubkey tx) (join_split_sig tx) (binding_sig tx) (zcash tx) (str_d_zeel tx) (tx_hash_algo tx))).

Definition verifies (pub : Public) (signer : TransactionInputSigner) (redeem : bytes) (sighash_type : Z) (sig : bytes) :
    option (result () PreimageError) :=
  digest ← preimage_digest signer redeem sighash_type;
  Some (match ec_verify pub digest sig with
        | Ok true => Ok ()
        | Ok false => Err InvalidPreimage
        | Err _ => Err InternalError
        end).

Definition spends_outpoint (signer : TransactionInputSigner) (prev : Transaction) : bool :=
  match s_inputs signer with
  | [i] => bool_decide (u_previous_output i = mkOutPoint (tx_hash prev) (Z.of_nat DEFAULT_SWAP_VOUT))
  | _ => false
  end.

(** ** The funding spend *)

Record GenTakerFundingSpendArgs : Type := mkFundingArgs {
  fs_funding_tx : Transaction;
  fs_maker_pub : Public;
  fs_taker_pub : Public;
  fs_funding_time_lock : Z;
  fs_taker_secret_hash : bytes;
  fs_taker_payment_time_lock : Z;
  fs_maker_secret_hash : bytes
}.

Definition fs_funding_redeem (args : GenTakerFundingSpendArgs) : Builder :=
  taker_funding_script (u32 (fs_funding_time_lock args)) (fs_taker_secret_hash args) (fs_taker_pub args)
    (fs_maker_pub args).
Definition fs_payment_redeem (args : GenTakerFundingSpendArgs) : Builder :=
  taker_payment_script (u32 (fs_taker_payment_time_lock args)) (fs_maker_secret_hash args) (fs_taker_pub args)
    (fs_maker_pub args).

Definition build_funding_spend_preimage_tx (funding_tx : Transaction) (taker_payment_redeem : bytes) (fee now : Z) :
    option (result TransactionInputSigner TxGenError) :=
  match outputs funding_tx !! DEFAULT_SWAP_VOUT with
  | None => Some (Err PrevTxIsNotValid)
  | Some funding_output =>
      if 2 ^ 64 <=? fee + cf_dust_amount coin then Some (Err PrevOutputTooLow)
      else if value funding_output <? fee + cf_dust_amount coin then Some (Err PrevOutputTooLow)
      else
        script ← p2sh_of taker_payment_redeem;
        Some (Ok (preimage_signer funding_tx (value funding_output)
                    [mkTransactionOutput (value funding_output - fee) script] now))
  end.

Definition build_funding_spend_cooperative_script_sig (maker_sig_der taker_sig_der : bytes) (fork_id : Z)
    (funding_redeem : bytes) : Builder :=
  let sighash_byte := z2b (u8 (Z.lor 1 fork_id)) in
  builder_default
    ▷ push_data (maker_sig_der ++ [sighash_byte])
    ▷ push_data (taker_sig_der ++ [sighash_byte])
    ▷ push_opcode OP_1
    ▷ push_opcode OP_0
    ▷ push_data funding_redeem.

(** [fee] is what [get_v2_swap_spend_fee] answers. *)
Definition gen_taker_funding_spend_preimage (htlc_kp : KeyPair) (args : GenTakerFundingSpendArgs) (fee : option Z)
    (now : Z) : option (result TxPreimageWithSig TxGenError) :=
  taker_payment_redeem ← fs_payment_redeem args;
  funding_redeem ← fs_funding_redeem args;
  match fee with
  | None => Some (Err Rpc)
  | Some fee =>
      signer ← build_funding_spend_preimage_tx (fs_funding_tx args) taker_payment_redeem fee now;
      match signer with
      | Err e => Some (Err e)
      | Ok signer =>
          sig ← sign_spend_input signer funding_redeem htlc_kp (Z.lor 1 (cf_fork_id coin));
          Some (match sig with Ok sig => Ok (mkPreimage signer sig) | Err e => Err (Signing e) end)
      end
  end.

(** The key of the other side, given the own one. *)
Definition counterparty_pub (htlc_pub : Public) (args : GenTakerFundingSpendArgs) : Public :=
  if public_eqb htlc_pub (fs_taker_pub args) then fs_maker_pub args else fs_taker_pub args.

Definition validate_taker_funding_spend_preimage (htlc_pub : Public) (args : GenTakerFundingSpendArgs)
    (preimage : TxPreimageWithSig) (fee : option Z) : option (result () PreimageError) :=
  match outputs (fs_funding_tx args) !! DEFAULT_SWAP_VOUT, fee with
  | None, _ => Some (Err InvalidPreimage)
  | Some _, None => Some (Err InternalError)
  | Some funding_output, Some expected_fee =>
      if value funding_output <? expected_fee then Some (Err InvalidPreimage)
      else
        let expected_value := value funding_output - expected_fee in
        let signer := tp_preimage preimage in
        if negb (spends_outpoint signer (fs_funding_tx args)) then Some (Err InvalidPreimage)
        else match s_outputs signer with
        | [output] =>
            taker_payment_redeem ← fs_payment_redeem args;
            expected_script_pubkey ← p2sh_of taker_payment_redeem;
            if negb (bool_decide (script_pubkey output = expected_script_pubkey)) then Some (Err InvalidPreimage)
            else if expected_value / 10 <? Z.abs (value output - expected_value) then Some (Err InvalidPreimage)
            else
              funding_redeem ← fs_funding_redeem args;
              verifies (counterparty_pub htlc_pub args) signer funding_redeem (Z.lor 1 (cf_fork_id coin))
                (tp_signature preimage)
        | _ => Some (Err InvalidPreimage)
        end
  end.

Definition sign_and_send_taker_funding_spend (htlc_kp : KeyPair) (preimage : TxPreimageWithSig)
    (args : GenTakerFundingSpendArgs) (broadcast : bool) : outcome Transaction :=
  funding_redeem ← fs_funding_redeem args;
  let signer := tp_preimage preimage in
  my_sig ← sign_spend_input signer funding_redeem htlc_kp (Z.lor 1 (cf_fork_id coin));
  match my_sig with
  | Err e => Some (Err (SigningError (ErrorSigning e)))
  | Ok my_sig =>
      let '(maker_sig_der, taker_sig_der) :=
        if public_eqb (kp_public htlc_kp) (fs_maker_pub args) then (my_sig, tp_signature preimage)
        else (tp_signature preimage, my_sig) in
      script_sig ← build_funding_spend_cooperative_script_sig maker_sig_der taker_sig_der (cf_fork_id coin)
                     funding_redeem;
      tx ← finish_preimage signer script_sig;
      Some (if broadcast then Ok tx else Err NotBroadcast)
  end.

(** ** The spend of the taker's payment *)

Definition SIGHASH_ALL_BASE : Z := 1.
Definition SIGHASH_SINGLE_BASE : Z := 3.

(** The address of the maker is its format and its hash. *)
Record GenTakerPaymentSpendArgs : Type := mkPaymentArgs {
  ps_taker_tx : Transaction;
  ps_time_lock : Z;
  ps_maker_secret_hash : bytes;
  ps_maker_pub : Public;
  ps_maker_address : bool * bytes;
  ps_taker_pub : Public;
  ps_dex_fee : DexFee;
  ps_dex_fee_addr_raw_pubkey : bytes
}.

Definition ps_redeem (args : GenTakerPaymentSpendArgs) : Builder :=
  taker_payment_script (u32 (ps_time_lock args)) (ps_maker_secret_hash args) (ps_taker_pub args) (ps_maker_pub args).

Definition ps_maker_script (args : GenTakerPaymentSpendArgs) : Builder :=
  output_script (fst (ps_maker_address args)) P2PKH (AddressHash (snd (ps_maker_address args))).

Definition build_taker_payment_spend_preimage_tx (taker_payment_tx : Transaction) (outs : list TransactionOutput)
    (now : Z) : result TransactionInputSigner TxGenError :=
  match outputs taker_payment_tx !! DEFAULT_SWAP_VOUT with
  | None => Err PrevTxIsNotValid
  | Some taker_output => Ok (preimage_signer taker_payment_tx (value taker_output) outs now)
  end.

Definition build_taker_payment_spend_cooperative_script_sig (maker_sig_der taker_sig_der maker_secret : bytes)
    (maker_sighash_byte taker_sighash_byte : Z) (taker_payment_redeem : bytes) : Builder :=
  builder_default
    ▷ push_data (maker_sig_der ++ [z2b maker_sighash_byte])
    ▷ push_data (taker_sig_der ++ [z2b taker_sighash_byte])
    ▷ push_data maker_secret
    ▷ push_opcode OP_0
    ▷ push_data taker_payment_redeem.

Definition gen_sat (amount : MmNumber) : result Z TxGenError := map_err (λ _, NumConversion) (sat_of to_decimal coin amount).

(** An output to a script that may be refused or may panic. *)
Definition gen_output (sat : Z) (script : result Builder HtlcError) : option (result TransactionOutput TxGenError) :=
  match script with
  | Err e => Some (Err (OtherGen e))
  | Ok script => o ← pays sat script; Some (Ok o)
  end.

Definition dex_fee_standard_output (fee_sat : Z) (dex_fee_addr_raw_pubkey : bytes) :
    option (result TransactionOutput TxGenError) :=
  gen_output fee_sat (p2pkh_of_raw dex_fee_addr_raw_pubkey).

Definition build_burn_output (burn_amount_sat : Z) (destination : DexFeeBurnDestination) :
    option (result TransactionOutput TxGenError) :=
  gen_output burn_amount_sat (burn_script destination).

(** [checked_sub] of unsigned numbers. *)
Definition checked_sub (a b : Z) : result Z TxGenError := if a <? b then Err PrevOutputTooLow else Ok (a - b).

Definition taker_payment_spend_outputs (dex_fee : DexFee) (taker_output_value spend_fee : Z) (maker_script_pubkey : bytes)
    (dex_fee_addr_raw_pubkey : bytes) : option (result (list TransactionOutput * Z) TxGenError) :=
  match dex_fee with
  | Standard amount =>
      match gen_sat amount with
      | Err e => Some (Err e)
      | Ok dex_fee_sat =>
          fee_out ← dex_fee_standard_output dex_fee_sat dex_fee_addr_raw_pubkey;
          Some (let? fee_out := fee_out in Ok ([fee_out], Z.lor SIGHASH_SINGLE_BASE (cf_fork_id coin)))
      end
  | WithBurn fee_amount burn_amount burn_destination =>
      match (let? dex_fee_sat := gen_sat fee_amount in
             let? burn_sat := gen_sat burn_amount in
             let? v := checked_sub taker_output_value dex_fee_sat in
             let? v := checked_sub v burn_sat in
             let? v := checked_sub v spend_fee in
             Ok (dex_fee_sat, burn_sat, v)) with
      | Err e => Some (Err e)
      | Ok (dex_fee_sat, burn_sat, maker_value) =>
          fee_out ← dex_fee_standard_output dex_fee_sat dex_fee_addr_raw_pubkey;
          match fee_out with
          | Err e => Some (Err e)
          | Ok fee_out =>
              burn_out ← build_burn_output burn_sat burn_destination;
              Some (let? burn_out := burn_out in
                    Ok ([fee_out; burn_out; mkTransactionOutput maker_value maker_script_pubkey],
                        Z.lor SIGHASH_ALL_BASE (cf_fork_id coin)))
          end
      end
  | NoFee =>
      Some (let? maker_value := checked_sub taker_output_value spend_fee in
            Ok ([mkTransactionOutput maker_value maker_script_pubkey], Z.lor SIGHASH_ALL_BASE (cf_fork_id coin)))
  end.

Definition gen_taker_payment_spend_preimage (htlc_kp : KeyPair) (args : GenTakerPaymentSpendArgs) (fee : option Z)
    (now : Z) : option (result TxPreimageWithSig TxGenError) :=
  taker_payment_redeem ← ps_redeem args;
  match outputs (ps_taker_tx args) !! DEFAULT_SWAP_VOUT, fee with
  | None, _ => Some (Err PrevTxIsNotValid)
  | Some _, None => Some (Err Rpc)
  | Some taker_output, Some spend_fee =>
      maker_script_pubkey ← ps_maker_script args;
      planned ← taker_payment_spend_outputs (ps_dex_fee args) (value taker_output) spend_fee maker_script_pubkey
                  (ps_dex_fee_addr_raw_pubkey args);
      match (let? planned := planned in
             let? signer := build_taker_payment_spend_preimage_tx (ps_taker_tx args) (fst planned) now in
             Ok (signer, snd planned)) with
      | Err e => Some (Err e)
      | Ok (signer, sighash_type) =>
          sig ← sign_spend_input signer taker_payment_redeem htlc_kp sighash_type;
          Some (match sig with Ok sig => Ok (mkPreimage signer sig) | Err e => Err (Signing e) end)
      end
  end.

(** The shape the maker asks of the preimage, its outputs aside. *)
Definition payment_shape (signer : TransactionInputSigner) (taker_tx : Transaction) : bool :=
  spends_outpoint signer taker_tx && forallb (λ i, u_sequence i =? SEQUENCE_FINAL) (s_inputs signer)
  && (s_version signer =? cf_tx_version coin) && Bool.eqb (s_overwintered signer) (cf_overwintered coin)
  && (s_lock_time signer =? 0).

Definition validate_taker_payment_spend_preimage (args : GenTakerPaymentSpendArgs) (preimage : TxPreimageWithSig)
    (fee : option Z) : option (result () PreimageError) :=
  match outputs (ps_taker_tx args) !! DEFAULT_SWAP_VOUT, fee with
  | None, _ => Some (Err InvalidPreimage)
  | Some _, None => Some (Err InternalError)
  | Some taker_output, Some spend_fee =>
      maker_script_pubkey ← ps_maker_script args;
      planned ← taker_payment_spend_outputs (ps_dex_fee args) (value taker_output) spend_fee maker_script_pubkey
                  (ps_dex_fee_addr_raw_pubkey args);
      match planned with
      | Err _ => Some (Err InternalError)
      | Ok (expected_outputs, sighash_type) =>
          let signer := tp_preimage preimage in
          if negb (payment_shape signer (ps_taker_tx args)) then Some (Err InvalidPreimage)
          else if negb (bool_decide (s_outputs signer = expected_outputs)) then Some (Err InvalidPreimage)
          else
            taker_payment_redeem ← ps_redeem args;
            verifies (ps_taker_pub args) signer taker_payment_redeem sighash_type (tp_signature preimage)
      end
  end.

(** The final outputs and the type of the taker's signature. *)
Definition final_outputs (args : GenTakerPaymentSpendArgs) (outs : list TransactionOutput) (fee : option Z) :
    outcome (list TransactionOutput * Z) :=
  match ps_dex_fee args with
  | Standard amount =>
      match outputs (ps_taker_tx args) !! DEFAULT_SWAP_VOUT with
      | None => Some (Err OutputMismatch)
      | Some taker_output =>
          match sat_of to_decimal coin amount, fee with
          | Err e, _ => Some (Err e)
          | Ok _, None => Some (Err RpcError)
          | Ok dex_fee_sat, Some spend_fee =>
              let min_required := spend_fee + cf_dust_amount coin + dex_fee_sat in
              if (min_required <? 2 ^ 64) && (min_required <=? value taker_output) then
                maker_script_pubkey ← ps_maker_script args;
                Some (Ok (outs ++ [mkTransactionOutput (value taker_output - spend_fee - dex_fee_sat) maker_script_pubkey],
                          Z.lor SIGHASH_SINGLE_BASE (cf_fork_id coin)))
              else Some (Err FeeNotBelowValue)
          end
      end
  | WithBurn _ _ _ | NoFee => Some (Ok (outs, Z.lor SIGHASH_ALL_BASE (cf_fork_id coin)))
  end.

Definition sign_and_broadcast_taker_payment_spend (htlc_kp : KeyPair) (preimage : TxPreimageWithSig)
    (args : GenTakerPaymentSpendArgs) (secret : bytes) (fee : option Z) (broadcast : bool) : outcome Transaction :=
  taker_payment_redeem ← ps_redeem args;
  planned ← final_outputs args (s_outputs (tp_preimage preimage)) fee;
  match planned with
  | Err e => Some (Err e)
  | Ok (outs, taker_sighash_type) =>
      let signer := with_outputs outs (tp_preimage preimage) in
      let maker_sighash_type := Z.lor SIGHASH_ALL_BASE (cf_fork_id coin) in
      maker_sig ← sign_spend_input signer taker_payment_redeem htlc_kp maker_sighash_type;
      match maker_sig with
      | Err e => Some (Err (SigningError (ErrorSigning e)))
      | Ok maker_sig =>
          script_sig ← build_taker_payment_spend_cooperative_script_sig maker_sig (tp_signature preimage) secret
                         (u8 maker_sighash_type) (u8 taker_sighash_type) taker_payment_redeem;
          tx ← finish_preimage signer script_sig;
          Some (if broadcast then Ok tx else Err NotBroadcast)
      end
  end.

End preimages.

(** ** What arrives of a preimage *)

(** Signatures of the coin are of the legacy kind, which does not cover the amount. *)
Definition legacy_coin (coin : UtxoConf) : bool :=
  bool_decide (cf_signature_version coin = Base) && negb ((3 <=? cf_tx_version coin) && cf_overwintered coin).

(** Signatures of the coin cover the amount: overwintered, or fork id with its bit
    set in the type. *)
Definition amount_coin (coin : UtxoConf) (sighash_type : Z) : bool :=
  match cf_signature_version coin with
  | Base => (3 <=? cf_tx_version coin) && cf_overwintered coin
  | ForkId => fork_id (from_u32 ForkId sighash_type)
  | WitnessV0 | ForkIdRxd => false
  end.

Section received.
Context `{HashLengths} (coin : UtxoConf).
Hypothesis coin_ok : standard_coin coin = true.

(** The preimage as it is read back: without the amount, and without the branch of
    the network. *)
Definition received (prev : Transaction) (outs : list TransactionOutput) : TransactionInputSigner :=
  mkSigner (cf_tx_version coin) None (cf_overwintered coin) (cf_version_group_id coin) 0 0 0
    [mkUnsignedTransactionInput (mkOutPoint (tx_hash prev) 0) SEQUENCE_FINAL 0 []]
    outs 0 [] [] [] (cf_zcash coin) None Signer_DSHA256 (cf_sighash_suffix coin).

Lemma preimage_fits prev amount outs now :
  fits c_outputs outs = true → outs ≠ [] →
  tx_fits StandardWithWitness (transaction_of (preimage_signer coin prev amount outs now)) = true.
Proof.
  intros Ho Hne. destruct (standard_coin_inv coin coin_ok) as (Hpos & _ & Halgo).
  eapply (standard_fits coin coin_ok).
  - unfold preimage_signer, transaction_of. cbn -[zeros]. by rewrite Hpos, Halgo.
  - cbn. by rewrite tx_hash_length.
  - by repeat constructor.
  - done.
  - done.
  - done.
  - done.
Qed.

Lemma preimage_back prev amount outs now :
  fits c_outputs outs = true → outs ≠ [] →
  parse_preimage coin (preimage_to_bytes (preimage_signer coin prev amount outs now)) = Ok (received prev outs).
Proof.
  intros Ho Hne. pose proof (preimage_fits prev amount outs now Ho Hne) as Hf.
  destruct (standard_coin_inv coin coin_ok) as (Hpos & _ & Halgo).
  unfold parse_preimage, preimage_to_bytes. rewrite (standard_read_back _ Hf eq_refl). unfold received, from_transaction, transaction_of, preimage_signer.
  cbn. by rewrite Hpos, Halgo.
Qed.

End received.

(** What the digest of a preimage asks for. *)
Definition preimage_request (coin : UtxoConf) (s : TransactionInputSigner) (redeem : bytes) (ty : Z) : request :=
  mkRequest s 0 (from_option u_amount 0 (head (s_inputs s))) redeem (cf_signature_version coin) ty.

Lemma preimage_requested `{Hashes} coin s redeem ty i :
  s_inputs s = [i] → preimage_digest coin s redeem ty = r_digest (preimage_request coin s redeem ty).
Proof. intros E. unfold preimage_digest, preimage_request. by rewrite E. Qed.

(** The strings hashed for the digests of two preimages are a collision. *)
Definition preimage_clash `{Hashes} (coin : UtxoConf) (s1 s2 : TransactionInputSigner) (redeem : bytes) (ty : Z) : Prop :=
  let r1 := preimage_request coin s1 redeem ty in
  let r2 := preimage_request coin s2 redeem ty in
  match cf_signature_version coin with
  | Base => overwintered_clash r1 r2
  | _ => bip143_clash r1 r2
  end.

Lemma preimage_signer_digest `{Hashes} coin prev amount outs now redeem ty :
  preimage_digest coin (preimage_signer coin prev amount outs now) redeem ty
  = r_digest (mkRequest (preimage_signer coin prev amount outs now) 0 amount redeem (cf_signature_version coin) ty).
Proof. unfold preimage_digest. cbn [s_inputs preimage_signer lookup list_lookup mbind option_bind u_amount]. reflexivity. Qed.

Lemma preimage_digest_Some `{Hashes} coin s redeem ty i :
  s_inputs s = [i] → is_Some (preimage_digest coin s redeem ty).
Proof.
  intros E. unfold preimage_digest. rewrite E. cbn [lookup list_lookup mbind option_bind].
  unfold signature_hash, sighash_fork_id, sighash_fork_id_rxd, sighash_legacy, sighash_witness_v0, sighash_overwintered.
  rewrite E. cbn [lookup list_lookup mbind option_bind]. repeat case_match; by eexists.
Qed.

Section digests.
Context `{HashLengths} (coin : UtxoConf) (prev : Transaction) (amount : Z) (outs : list TransactionOutput) (now : Z).
Context (redeem : bytes) (ty : Z).
Hypothesis coin_ok : standard_coin coin = true.

Let sent := preimage_signer coin prev amount outs now.

Lemma legacy_received :
  legacy_coin coin = true → preimage_digest coin (received coin prev outs) redeem ty = preimage_digest coin sent redeem ty.
Proof.
  intros Hl. unfold legacy_coin in Hl. apply andb_true_iff in Hl as [Hv%bool_decide_eq_true How%negb_true_iff].
  destruct (standard_coin_inv coin coin_ok) as (Hpos & _ & Halgo).
  unfold preimage_digest, sent. cbn [s_inputs received preimage_signer lookup list_lookup mbind option_bind].
  rewrite Hv. unfold signature_hash. cbn [takes_fork_id fork_id from_u32 andb].
  unfold sighash_legacy, legacy_transaction, legacy_inputs, signer_digest. cbn -[ser serialize legacy_outputs].
  by rewrite How, Hpos, Halgo.
Qed.

Hypothesis amount_ok : 0 < amount < 2 ^ 64.
Hypothesis outs_fit : fits c_outputs outs = true.
Hypothesis outs_some : outs ≠ [].
Hypothesis redeem_ok : fits c_Bytes redeem = true.
Hypothesis ty_ok : fits c_u32 ty = true.

Let ask (s : TransactionInputSigner) (a : Z) : request := mkRequest s 0 a redeem (cf_signature_version coin) ty.

Lemma asked_fits : request_fits (ask sent amount) = true ∧ request_fits (ask (received coin prev outs) 0) = true.
Proof.
  unfold standard_coin in coin_ok. fits_inv. pose proof (tx_hash_length prev) as Hl.
  assert (forallb (fits c_TransactionOutput) outs = true) as Ho.
  { revert outs_fit. cbn [fits c_outputs c_list]. by intros [_ ?]%andb_true_iff. }
  assert (fits c_i32 (cf_tx_version coin) = true) as Hv by (cbn; zcases; done).
  assert (fits c_u64 amount = true) as Ha by (cbn; zcases; done).
  assert (fits c_OutPoint (mkOutPoint (tx_hash prev) 0) = true) as Hp by (cbn; by rewrite Hl).
  unfold request_fits, signer_fits, ask, sent.
  cbn [r_signer r_amount r_code r_type preimage_signer received s_version s_inputs s_outputs s_lock_time
    s_sighash_suffix map u_previous_output u_sequence forallb].
  change (Z.of_nat DEFAULT_SWAP_VOUT) with 0. rewrite Hv, Hp, Ho, Ha, redeem_ok, ty_ok.
  by match goal with E : fits c_u32 (cf_sighash_suffix coin) = true |- _ => rewrite E end.
Qed.

Lemma asked_overwintered :
  cf_signature_version coin = Base → (3 <=? cf_tx_version coin) && cf_overwintered coin = true →
  let r1 := ask sent amount in
  let r2 := ask (received coin prev outs) 0 in
  is_overwintered r1 = true ∧ is_overwintered r2 = true ∧ overwintered_fits r1 = true ∧ overwintered_fits r2 = true.
Proof.
  intros Esv Ha r1 r2. destruct asked_fits as [F1 F2]. fold r1 in F1. fold r2 in F2.
  assert (fits c_u64 amount = true) as Fa by (cbn; zcases; done).
  unfold standard_coin in coin_ok. fits_inv.
  match goal with E : cf_overwintered coin = true |- _ => rewrite E in *; rename E into Eow end.
  assert (∀ s, s_outputs s = outs → no_output s 0 (from_u32 Base ty) = false) as Hno.
  { intros s E. unfold no_output. rewrite E. destruct outs; [done|]. apply andb_false_r. }
  unfold is_overwintered, overwintered_fits, r_sighash. cbv zeta. rewrite F1, F2. unfold r1, r2, ask, sent. rewrite Esv.
  cbn [r_signer r_index r_sigversion r_type]. rewrite !Hno by done.
  unfold preimage_signer, received. cbn [s_version s_overwintered s_inputs s_consensus_branch_id s_version_group_id
    s_expiry_height s_value_balance map u_amount forallb]. rewrite Fa, Eow.
  repeat match goal with E : fits c_u32 _ = true |- _ => rewrite E; clear E end.
  by repeat match goal with E : (_ <=? cf_tx_version coin) = true |- _ => rewrite E; clear E
    | E : (cf_tx_version coin <? _) = true |- _ => rewrite E; clear E end.
Qed.

(** Where the amount is covered, the digest checked is not the digest signed. *)
Lemma amount_received d :
  amount_coin coin ty = true →
  preimage_digest coin (received coin prev outs) redeem ty = Some d → preimage_digest coin sent redeem ty = Some d →
  preimage_clash coin sent (received coin prev outs) redeem ty.
Proof.
  intros Ha. rewrite (preimage_requested coin (received coin prev outs) redeem ty _ eq_refl),
    (preimage_requested coin sent redeem ty _ eq_refl). unfold preimage_clash.
  change (preimage_request coin sent redeem ty) with (ask sent amount).
  change (preimage_request coin (received coin prev outs) redeem ty) with (ask (received coin prev outs) 0).
  intros E2 E1. destruct asked_fits as [F1 F2]. cbv zeta.
  revert Ha. unfold amount_coin. case_eq (cf_signature_version coin); intros Esv Ha; try done.
  - destruct (asked_overwintered Esv Ha) as (O1 & O2 & G1 & G2). cbv zeta in *.
    destruct (overwintered_digest_inj _ _ d O1 O2 G1 G2 E1 E2) as [E|?]; [|done].
    apply (f_equal o_input) in E. cbn in E. injection E as E. lia.
  - assert (∀ s a, s_inputs s ≠ [] → s_outputs s = outs → is_bip143 (ask s a) = true) as B.
    { intros s a Hi E. unfold is_bip143, ask, r_sighash, no_input, no_output. cbn [r_sigversion r_signer r_index r_type].
      rewrite Esv, Ha, E. destruct (s_inputs s), outs; try done. by rewrite andb_false_r. }
    destruct (bip143_digest_inj (ask sent amount) (ask (received coin prev outs) 0) d) as [E|?]; try done; [by apply B..|].
    apply (f_equal (fmap v_amount)) in E. cbn in E. injection E as E. lia.
Qed.

End digests.

(** C37: the bytes of a preimage do not carry the amount of the input, and the receiver
    puts zero for it.  On a coin with legacy signatures that does no harm: the
    digest the receiver computes is the one that was signed.  On a coin whose
    signatures cover the amount (overwintered ones, and those with a fork id) the two
    digests differ, or the strings hashed for the two are a collision of the hash
    function: the signature of an honest sender is checked against another digest. *)
Theorem received_preimage `{HashLengths} coin prev amount outs now redeem ty :
  standard_coin coin = true → 0 < amount < 2 ^ 64 → fits c_outputs outs = true → outs ≠ [] →
  fits c_Bytes redeem = true → fits c_u32 ty = true →
  let sent := preimage_signer coin prev amount outs now in
  ∃ s, parse_preimage coin (preimage_to_bytes sent) = Ok s ∧ transaction_of s = transaction_of sent
    ∧ (legacy_coin coin = true → preimage_digest coin s redeem ty = preimage_digest coin sent redeem ty)
    ∧ (amount_coin coin ty = true →
       preimage_digest coin s redeem ty ≠ preimage_digest coin sent redeem ty
       ∨ preimage_clash coin sent s redeem ty).
Proof.
  intros Hc Ha Ho Hne Hr Ht sent. exists (received coin prev outs). split_and!.
  - by apply preimage_back.
  - destruct (standard_coin_inv coin Hc) as (Hpos & _ & Halgo). unfold sent, preimage_signer, received, transaction_of.
    cbn. by rewrite Hpos, Halgo.
  - by apply legacy_received.
  - intros Hac. destruct (decide (preimage_digest coin (received coin prev outs) redeem ty = preimage_digest coin sent redeem ty))
      as [E|]; [right|by left].
    destruct (preimage_digest coin sent redeem ty) as [d|] eqn:Ed.
    + by apply (amount_received coin prev amount outs now redeem ty Hc Ha Ho Hne Hr Ht d).
    + by destruct (preimage_digest_Some coin sent redeem ty _ eq_refl) as [? ?]; simplify_eq.
Qed.

(** ** The funding spend between honest sides *)

(** The network's view of a transaction with legacy signatures that spends [redeem]:
    CHECKSIG takes the last byte of what is pushed for the type, computes the digest
    of the transaction for that type, and verifies the rest against it. *)
Definition network_view `{Hashes} `{Ecdsa} (coin : UtxoConf) (tx : Transaction) (redeem : bytes) : spend :=
  mkSpend (lock_time tx) (from_option sequence 0 (head (inputs tx)))
    (λ pub sig,
       match public_from_slice pub, last sig with
       | Ok key, Some ty =>
           match preimage_digest coin (from_transaction tx (cf_sighash_suffix coin)) redeem (b2z ty) with
           | Some digest =>
               match ec_verify key digest (take (pred (length sig)) sig) with Ok valid => valid | Err _ => false end
           | None => false
           end
       | _, _ => false
       end).

(** A signature over the digest of its type byte is taken. *)
Lemma network_checks `{Hashes} `{Ecdsa} coin tx redeem pub ty d sig :
  public_ok pub = true → 0 ≤ ty < 256 →
  preimage_digest coin (from_transaction tx (cf_sighash_suffix coin)) redeem ty = Some d →
  ec_verify pub d sig = Ok true →
  sp_checks (network_view coin tx redeem) (public_bytes pub) (sig ++ [z2b (u8 ty)]) = true.
Proof.
  intros Hp Ht Hd Hv. cbn [sp_checks network_view].
  rewrite (proj2 (public_from_slice_Ok _ pub)) by done. rewrite last_snoc, (uwrap_id 8) by done.
  rewrite b2z_z2b, Hd, length_app by done. cbn [length]. rewrite Nat.add_1_r. cbn [pred].
  by rewrite take_app_length, Hv.
Qed.

(** The type byte of a coin whose fork id is a byte. *)
Lemma type_byte base f : 0 ≤ base < 256 → 0 ≤ f < 256 → 0 ≤ Z.lor base f < 256.
Proof.
  intros Hb Hf. assert (0 ≤ Z.lor base f) as Hn by (apply Z.lor_nonneg; lia). split; [done|].
  assert (Z.lor base f = Z.land (Z.lor base f) (Z.ones 8)) as ->; [|rewrite Z.land_ones by lia; by apply Z.mod_pos_bound].
  by rewrite Z.land_lor_distr_l, !Z.land_ones, !Z.mod_small by (cbn; lia).
Qed.

(** A finished preimage, and what the network recomputes of it. *)
Lemma finish_received `{Hashes} coin prev outs script_sig :
  standard_coin coin = true →
  ∃ tx, finish_preimage coin (received coin prev outs) script_sig = Some tx
    ∧ from_transaction tx (cf_sighash_suffix coin) = received coin prev outs
    ∧ inputs tx = [mkTransactionInput (mkOutPoint (tx_hash prev) 0) script_sig SEQUENCE_FINAL []] ∧ outputs tx = outs.
Proof.
  intros Hc. destruct (standard_coin_inv coin Hc) as (_ & _ & Halgo). eexists. split; [done|].
  split; [|done]. unfold from_transaction, received. cbn. by rewrite Halgo.
Qed.

Section funding.
Context `{HashLengths} `{!Interpreter} `{!ScriptLaws} `{EcdsaLaws} (coin : UtxoConf) (args : GenTakerFundingSpendArgs).

Lemma p2sh_of_Some redeem : ∃ script, p2sh_of redeem = Some script ∧ length script = 23%nat.
Proof.
  unfold p2sh_of, build_p2sh. cbn. rewrite length_dhash160. cbn. eexists. split; [done|].
  rewrite ?length_app. cbn. rewrite ?length_app, length_dhash160. done.
Qed.

(** The input script of data before the redeem script. *)
Lemma input_script b P redeem data st :
  locks b P → b = Some redeem → Forall item_ok data → mapM pushed data = Some st →
  ∃ script_sig, assemble (data ++ [Push redeem]) = Some script_sig
    ∧ ∀ s, p2sh_spends s script_sig redeem (dhash160 redeem) ↔ P s (reverse st).
Proof.
  intros Hl Hb Hok Hst. pose proof Hl as (r & items & Er & Hr & _ & _). rewrite Hb in Er. injection Er as <-.
  destruct (assemble_Some (data ++ [Push redeem])) as [script_sig Ha].
  { apply Forall_app. split; [done|]. repeat constructor. unfold MAX_SCRIPT_ELEMENT_SIZE in Hr. cbn. lia. }
  exists script_sig. split; [done|]. intros s. by eapply locks_spend.
Qed.

Lemma gen_funding_inv kp fee now p :
  gen_taker_funding_spend_preimage coin kp args (Some fee) now = Some (Ok p) →
  ∃ payment_redeem funding_redeem o script d,
    fs_payment_redeem args = Some payment_redeem ∧ fs_funding_redeem args = Some funding_redeem
    ∧ outputs (fs_funding_tx args) !! 0%nat = Some o ∧ fee + cf_dust_amount coin ≤ value o
    ∧ p2sh_of payment_redeem = Some script
    ∧ tp_preimage p = preimage_signer coin (fs_funding_tx args) (value o) [mkTransactionOutput (value o - fee) script] now
    ∧ preimage_digest coin (tp_preimage p) funding_redeem (Z.lor 1 (cf_fork_id coin)) = Some d
    ∧ ec_sign (kp_private kp) d = Ok (tp_signature p).
Proof.
  unfold gen_taker_funding_spend_preimage, build_funding_spend_preimage_tx.
  intros (pr & Epr & (fr & Efr & (r & Er & E)%bind_Some)%bind_Some)%bind_Some.
  change DEFAULT_SWAP_VOUT with 0%nat in Er. destruct (outputs (fs_funding_tx args) !! 0%nat) as [o|] eqn:Eo; [|by injection Er as <-].
  destruct (Z.leb_spec (2 ^ 64) (fee + cf_dust_amount coin)); [by injection Er as <-|].
  destruct (Z.ltb_spec (value o) (fee + cf_dust_amount coin)); [by injection Er as <-|].
  apply bind_Some in Er as (script & Es & [= <-]). apply bind_Some in E as (sig & Hs & E).
  unfold sign_spend_input in Hs. apply bind_Some in Hs as (d & Hd & [= Hs]). destruct sig as [sig|]; [|done].
  injection E as <-. exists pr, fr, o, script, d. done.
Qed.

Hypothesis coin_ok : standard_coin coin = true.
Hypothesis coin_legacy : legacy_coin coin = true.
Hypothesis fork_ok : 0 ≤ cf_fork_id coin < 256.
Context (maker_kp taker_kp : KeyPair) (fee now : Z) (p : TxPreimageWithSig).
Hypothesis maker_kp_ok : kp_public maker_kp = ec_public (kp_private maker_kp).
Hypothesis taker_kp_ok : kp_public taker_kp = ec_public (kp_private taker_kp).
Hypothesis maker_is : fs_maker_pub args = kp_public maker_kp.
Hypothesis taker_is : fs_taker_pub args = kp_public taker_kp.
Hypothesis keys_differ : public_eqb (kp_public taker_kp) (kp_public maker_kp) = false.
Hypothesis fee_ok : 0 ≤ fee.
Hypothesis dust_ok : 0 ≤ cf_dust_amount coin.
Hypothesis value_ok : ∀ o, outputs (fs_funding_tx args) !! 0%nat = Some o → value o < 2 ^ 64.
Hypothesis generated : gen_taker_funding_spend_preimage coin maker_kp args (Some fee) now = Some (Ok p).

Lemma one_output_fits v (script : bytes) :
  0 ≤ v < 2 ^ 64 → length script = 23%nat → fits c_outputs [mkTransactionOutput v script] = true.
Proof. intros Hv Hl. cbn. rewrite Hl. cbn. by zcases. Qed.

(** The maker's preimage as the taker has it. *)
Definition delivered (outs : list TransactionOutput) : TxPreimageWithSig :=
  mkPreimage (received coin (fs_funding_tx args) outs) (tp_signature p).

Lemma funding_preimage_validates o script outs :
  outputs (fs_funding_tx args) !! 0%nat = Some o → outs = [mkTransactionOutput (value o - fee) script] →
  s_outputs (tp_preimage p) = outs →
  validate_taker_funding_spend_preimage coin (kp_public taker_kp) args (delivered outs) (Some fee) = Some (Ok ()).
Proof.
  intros Eo -> Eouts.
  destruct (gen_funding_inv _ _ _ _ generated) as (pr & fr & o' & script' & d & Epr & Efr & Eo' & Hv & Es & Ep & Hd & Hs).
  rewrite Eo in Eo'. injection Eo' as <-. rewrite Ep in Eouts. cbn in Eouts. injection Eouts as <-.
  unfold validate_taker_funding_spend_preimage. change DEFAULT_SWAP_VOUT with 0%nat. rewrite Eo.
  rewrite (proj2 (Z.ltb_ge _ _)) by lia. unfold spends_outpoint. cbn [delivered tp_preimage received s_inputs s_outputs].
  rewrite bool_decide_eq_true_2 by done. cbn [negb]. rewrite Epr. cbn [mbind option_bind]. rewrite Es.
  cbn [mbind option_bind script_pubkey value]. rewrite bool_decide_eq_true_2 by done. cbn [negb].
  rewrite Z.sub_diag, (proj2 (Z.ltb_ge _ _)) by (apply Z.div_pos; lia). rewrite Efr. cbn [mbind option_bind].
  unfold verifies, counterparty_pub. rewrite taker_is. unfold public_eqb at 1. rewrite bool_decide_eq_true_2 by done.
  rewrite maker_is, maker_kp_ok.
  rewrite (legacy_received coin (fs_funding_tx args) (value o) _ now) by done. rewrite <-Ep, Hd. cbn [mbind option_bind].
  cbn [delivered tp_signature]. by rewrite (ec_sign_verifies _ _ _ Hs).
Qed.

(** The transaction the taker makes of it. *)
Lemma funding_spend_sent o script outs :
  outputs (fs_funding_tx args) !! 0%nat = Some o → outs = [mkTransactionOutput (value o - fee) script] →
  s_outputs (tp_preimage p) = outs →
  (∃ e, sign_and_send_taker_funding_spend coin taker_kp (delivered outs) args true = Some (Err (SigningError e)))
  ∨ ∃ tx t redeem, sign_and_send_taker_funding_spend coin taker_kp (delivered outs) args true = Some (Ok tx)
      ∧ fs_funding_redeem args = Some redeem ∧ inputs tx = [t] ∧ outputs tx = outs
      ∧ previous_output t = mkOutPoint (tx_hash (fs_funding_tx args)) 0
      ∧ p2sh_spends (network_view coin tx redeem) (script_sig t) redeem (dhash160 redeem).
Proof.
  intros Eo -> Eouts.
  destruct (gen_funding_inv _ _ _ _ generated) as (pr & fr & o' & script' & d & Epr & Efr & Eo' & Hv & Es & Ep & Hd & Hs).
  rewrite Eo in Eo'. injection Eo' as <-. rewrite Ep in Eouts. cbn in Eouts. injection Eouts as <-.
  unfold sign_and_send_taker_funding_spend. rewrite Efr. cbn [mbind option_bind]. unfold sign_spend_input.
  cbn [delivered tp_preimage tp_signature].
  rewrite (legacy_received coin (fs_funding_tx args) (value o) _ now) by done. rewrite <-Ep, Hd. cbn [mbind option_bind].
  destruct (ec_sign (kp_private taker_kp) d) as [sig|e] eqn:Et; [right|left; by eexists].
  rewrite maker_is, keys_differ.
  pose proof (own_key_ok _ maker_kp_ok) as Pm. pose proof (own_key_ok _ taker_kp_ok) as Pt.
  pose proof (ec_sign_length _ _ _ Hs) as Lm. pose proof (ec_sign_length _ _ _ Et) as Lt.
  pose proof (funding_locks (u32 (fs_funding_time_lock args)) (fs_taker_secret_hash args) _ _ Pm Pt) as Hl.
  rewrite <-maker_is, <-taker_is in Hl. fold (fs_funding_redeem args) in Hl.
  set (b := z2b (u8 (Z.lor 1 (cf_fork_id coin)))).
  set (data := [Push (tp_signature p ++ [b]); Push (sig ++ [b]); Op OP_1; Push []]).
  change (build_funding_spend_cooperative_script_sig (tp_signature p) sig (cf_fork_id coin) fr)
    with (assemble (data ++ [Push fr])).
  destruct (input_script _ _ fr data [tp_signature p ++ [b]; sig ++ [b]; [z2b 1]; []] Hl Efr) as (script_sig & Ha & Hsp).
  { repeat constructor; cbn [item_ok]; rewrite ?length_app; cbn [length]; lia. }
  { cbn [mapM data]. by rewrite !pushed_small by (rewrite ?length_app; unfold MAX_SCRIPT_ELEMENT_SIZE; cbn [length]; lia). }
  rewrite Ha. cbn [mbind option_bind].
  destruct (finish_received coin (fs_funding_tx args) [mkTransactionOutput (value o - fee) script'] script_sig coin_ok)
    as (tx & -> & Hnet & Hin & Hout).
  assert (preimage_digest coin (from_transaction tx (cf_sighash_suffix coin)) fr (Z.lor 1 (cf_fork_id coin)) = Some d)
    as Hd' by (by rewrite Hnet, (legacy_received coin (fs_funding_tx args) (value o) _ now), <-Ep by done).
  eexists tx, _, fr. split_and!; [done..|]. apply Hsp.
  right. exists [], [[z2b 1]; sig ++ [b]; tp_signature p ++ [b]]. split_and!; try done. left.
  exists [z2b 1], [sig ++ [b]; tp_signature p ++ [b]]. split_and!; try done.
  exists (sig ++ [b]), (tp_signature p ++ [b]), []. rewrite taker_is, maker_is. split_and!; [done|..].
  - apply (network_checks _ _ _ _ _ d); [done|by apply type_byte|done|].
    rewrite taker_kp_ok. by apply ec_sign_verifies.
  - apply (network_checks _ _ _ _ _ d); [done|by apply type_byte|done|].
    rewrite maker_kp_ok. by apply ec_sign_verifies.
Qed.

End funding.

(** C16: on a coin with legacy signatures the funding spend of honest sides succeeds:
    the preimage the maker generates, sent as bytes with the maker's signature, is
    read back and validated by the taker, and the transaction the taker completes
    (unless signing fails) spends the funding to the script of the taker's payment,
    with the fee taken off, and passes the funding script in the network's view of
    that very transaction, each signature being checked against its digest for the
    type byte that follows it.  The fork id of the coin is a byte, as a type is. *)
Theorem funding_spend_agreed `{HashLengths} `{!Interpreter} `{!ScriptLaws} `{EcdsaLaws}
    coin args maker_kp taker_kp fee now p :
  standard_coin coin = true → legacy_coin coin = true → 0 ≤ cf_fork_id coin < 256 →
  kp_public maker_kp = ec_public (kp_private maker_kp) → kp_public taker_kp = ec_public (kp_private taker_kp) →
  fs_maker_pub args = kp_public maker_kp → fs_taker_pub args = kp_public taker_kp →
  public_eqb (kp_public taker_kp) (kp_public maker_kp) = false →
  0 ≤ fee → 0 ≤ cf_dust_amount coin →
  (∀ o, outputs (fs_funding_tx args) !! 0%nat = Some o → value o < 2 ^ 64) →
  gen_taker_funding_spend_preimage coin maker_kp args (Some fee) now = Some (Ok p) →
  ∃ s, parse_preimage coin (preimage_to_bytes (tp_preimage p)) = Ok s
    ∧ validate_taker_funding_spend_preimage coin (kp_public taker_kp) args (mkPreimage s (tp_signature p)) (Some fee)
      = Some (Ok ())
    ∧ ((∃ e, sign_and_send_taker_funding_spend coin taker_kp (mkPreimage s (tp_signature p)) args true
             = Some (Err (SigningError e)))
       ∨ ∃ tx t redeem payment_redeem script o,
           sign_and_send_taker_funding_spend coin taker_kp (mkPreimage s (tp_signature p)) args true = Some (Ok tx)
           ∧ fs_funding_redeem args = Some redeem ∧ fs_payment_redeem args = Some payment_redeem
           ∧ p2sh_of payment_redeem = Some script ∧ outputs (fs_funding_tx args) !! 0%nat = Some o
           ∧ inputs tx = [t] ∧ previous_output t = mkOutPoint (tx_hash (fs_funding_tx args)) 0
           ∧ outputs tx = [mkTransactionOutput (value o - fee) script]
           ∧ p2sh_spends (network_view coin tx redeem) (script_sig t) redeem (dhash160 redeem)).
Proof.
  intros Hc Hl Hk Hm Ht Em Et Hne Hfee Hd Hv Hg.
  destruct (gen_funding_inv _ _ _ _ _ _ Hg) as (pr & fr & o & script & d & Epr & Efr & Eo & Hle & Es & Ep & _ & _).
  specialize (Hv _ Eo). set (outs := [mkTransactionOutput (value o - fee) script]).
  assert (s_outputs (tp_preimage p) = outs) as Eouts by (by rewrite Ep).
  exists (received coin (fs_funding_tx args) outs). split_and!.
  - rewrite Ep. apply preimage_back; [done| |done]. apply one_output_fits; [lia|].
    destruct (p2sh_of_Some pr) as (? & ? & ?). by simplify_eq.
  - by eapply (funding_preimage_validates coin args Hc Hl maker_kp taker_kp fee now p).
  - destruct (funding_spend_sent coin args Hc Hl Hk maker_kp taker_kp fee now p Hm Ht Em Et Hne Hg o script outs)
      as [?|(tx & t & redeem & ? & ? & ? & ? & ? & ?)]; [done..|by left|right].
    by exists tx, t, redeem, pr, script, o.
Qed.

(** ** The spend of the taker's payment between honest sides *)

Lemma sat_range amount decimals sat : sat_from_big_decimal amount decimals = Some sat → 0 ≤ sat < 2 ^ 64.
Proof.
  unfold sat_from_big_decimal. set (v := int_val amount * _).
  destruct (Z.leb_spec 0 v) as [Hv|]; [|done]. cbn [andb].
  destruct (Z.leb_spec 0 (scale amount)) as [Hs|Hs].
  - destruct (Z.ltb_spec (v / 10 ^ scale amount) (2 ^ 64)); [|done]. intros [= <-]. split; [|done].
    apply Z.div_pos; [done|]. apply Z.pow_pos_nonneg; lia.
  - destruct (Z.ltb_spec (v * 10 ^ (- scale amount)) (2 ^ 64)); [|done]. intros [= <-]. split; [|done].
    apply Z.mul_nonneg_nonneg; [done|]. apply Z.pow_nonneg. lia.
Qed.

(** An output that any reader takes. *)
Definition plain_output (o : TransactionOutput) : Prop := 0 ≤ value o < 2 ^ 64 ∧ (length (script_pubkey o) ≤ 80)%nat.

Lemma plain_outputs_fit outs : (length outs ≤ 4)%nat → Forall plain_output outs → fits c_outputs outs = true.
Proof.
  intros Hl Ho. cbn [fits c_list]. apply andb_true_iff. split; [apply Z.leb_le; unfold MAX_LIST_SIZE; lia|].
  apply forallb_forall. intros o Hin. eapply Forall_forall in Ho as [Hv Hs]; [|by apply list_elem_of_In].
  cbn. rewrite !andb_true_iff, !Z.leb_le, Z.ltb_lt. unfold BYTES_DECODE_LIMIT. lia.
Qed.

Section payment.
Context `{HashLengths} (to_decimal : MmNumber → BigDecimal) (coin : UtxoConf).

Lemma gen_output_plain sat script o :
  0 ≤ sat < 2 ^ 64 → (∀ b, script = Ok b → short b) → gen_output sat script = Some (Ok o) →
  plain_output o ∧ value o = sat.
Proof.
  intros Hs Hb. unfold gen_output, pays. destruct script as [b|]; [|done].
  intros (o' & (s & Es & [= <-])%bind_Some & [= <-])%bind_Some. by split; [split; [|apply (Hb _ eq_refl)]|].
Qed.

Lemma p2pkh_of_raw_short raw b : p2pkh_of_raw raw = Ok b → short b.
Proof. unfold p2pkh_of_raw. destruct (public_from_slice raw); [|done]. intros [= <-]. apply p2pkh_short. Qed.

Lemma burn_script_short d b : burn_script d = Ok b → short b.
Proof.
  destruct d; cbn; [|apply p2pkh_of_raw_short]. intros [= <-] s [= <-]. cbn. lia.
Qed.

Lemma gen_sat_range amount sat : gen_sat to_decimal coin amount = Ok sat → 0 ≤ sat < 2 ^ 64.
Proof.
  unfold gen_sat, sat_of. destruct (sat_from_big_decimal _ _) as [x|] eqn:E; [|done]. intros [= <-].
  by eapply sat_range.
Qed.

(** What the outputs pay in all. *)
Definition paid (outs : list TransactionOutput) : Z := foldr (λ o n, value o + n) 0 outs.

Lemma checked_sub_Ok a b v : checked_sub a b = Ok v → b ≤ a ∧ v = a - b.
Proof. unfold checked_sub. destruct (Z.ltb_spec a b); [done|]. intros [= <-]. done. Qed.

(** The outputs of the preimage: any reader takes them, and all of them but the one a
    standard fee leaves to the maker are there. *)
Lemma planned_outputs dex_fee v fee script raw outs ty :
  0 ≤ fee → v < 2 ^ 64 → (length script ≤ 80)%nat →
  taker_payment_spend_outputs to_decimal coin dex_fee v fee script raw = Some (Ok (outs, ty)) →
  Forall plain_output outs ∧ (1 ≤ length outs ≤ 3)%nat
  ∧ match dex_fee with
    | Standard amount => ty = Z.lor 3 (cf_fork_id coin) ∧ sat_of to_decimal coin amount = Ok (paid outs) ∧ length outs = 1%nat
    | _ => ty = Z.lor 1 (cf_fork_id coin) ∧ paid outs = v - fee
    end.
Proof.
  intros Hfee Hv Hs. unfold taker_payment_spend_outputs. destruct dex_fee as [|amount|fee_amount burn_amount dest].
  - destruct (checked_sub v fee) as [m|] eqn:Em; [|done]. apply checked_sub_Ok in Em as [? ->].
    intros [= <- <-]. split; [apply Forall_singleton; by split; cbn; [lia|]|]. split; [cbn; lia|]. split; [done|cbn; lia].
  - destruct (gen_sat to_decimal coin amount) as [sat|] eqn:Ea; [|done]. pose proof (gen_sat_range _ _ Ea).
    intros (r & Er & E)%bind_Some. destruct r as [o|]; [|done]. injection E as <- <-.
    apply gen_output_plain in Er as [Ho Ev]; [|done|apply p2pkh_of_raw_short].
    split; [by apply Forall_singleton|]. split; [cbn; lia|]. split_and!; [done| |done]. cbn. rewrite Ev, Z.add_0_r. unfold gen_sat in Ea.
    destruct (sat_of _ _ _); [|done]. by injection Ea as ->.
  - destruct (gen_sat to_decimal coin fee_amount) as [fs|] eqn:Ef; [|done]. pose proof (gen_sat_range _ _ Ef).
    destruct (gen_sat to_decimal coin burn_amount) as [bs|] eqn:Eb; [|done]. pose proof (gen_sat_range _ _ Eb).
    destruct (checked_sub v fs) as [v1|] eqn:E1; [|done]. destruct (checked_sub v1 bs) as [v2|] eqn:E2; [|done].
    destruct (checked_sub v2 fee) as [v3|] eqn:E3; [|done]. apply checked_sub_Ok in E1, E2, E3.
    intros (r & Er & E)%bind_Some. destruct r as [o|]; [|done]. apply bind_Some in E as (r & Er' & E).
    destruct r as [o'|]; [|done]. injection E as <- <-.
    apply gen_output_plain in Er as [Ho Ev]; [|done|apply p2pkh_of_raw_short].
    apply gen_output_plain in Er' as [Ho' Ev']; [|done|apply burn_script_short].
    split; [do 2 (constructor; [done|]); apply Forall_singleton; by split; cbn; [lia|]|]. split; [cbn; lia|]. split; [done|cbn; lia].
Qed.

(** The final outputs: those of the preimage, and for a standard fee the maker's. *)
Lemma final_outputs_inv args outs fee outs' ty o :
  outputs (ps_taker_tx args) !! 0%nat = Some o →
  final_outputs to_decimal coin args outs (Some fee) = Some (Ok (outs', ty)) →
  match ps_dex_fee args with
  | Standard amount => ty = Z.lor 3 (cf_fork_id coin)
      ∧ ∃ sat script, sat_of to_decimal coin amount = Ok sat ∧ fee + cf_dust_amount coin + sat ≤ value o
        ∧ ps_maker_script args = Some script ∧ outs' = outs ++ [mkTransactionOutput (value o - fee - sat) script]
  | _ => ty = Z.lor 1 (cf_fork_id coin) ∧ outs' = outs
  end.
Proof.
  intros Eo. unfold final_outputs. change DEFAULT_SWAP_VOUT with 0%nat. rewrite Eo.
  destruct (ps_dex_fee args) as [|amount|? ? ?]; [by intros [= <- <-]| |by intros [= <- <-]].
  destruct (sat_of to_decimal coin amount) as [sat|]; [|done]. cbv zeta.
  case_match eqn:Ec; [|done]. apply andb_true_iff in Ec as [_ Ec%Z.leb_le].
  intros (script & Es & [= <- <-])%bind_Some. split; [done|]. by exists sat, script.
Qed.

Lemma paid_app a b : paid (a ++ b) = paid a + paid b.
Proof. unfold paid. induction a as [|o a IH]; cbn; lia. Qed.

(** All of the payment but the fee of the transaction is paid out. *)
Lemma final_paid args outs fee outs' ty ty' o :
  outputs (ps_taker_tx args) !! 0%nat = Some o →
  match ps_dex_fee args with
  | Standard amount => ty = Z.lor 3 (cf_fork_id coin) ∧ sat_of to_decimal coin amount = Ok (paid outs) ∧ length outs = 1%nat
  | _ => ty = Z.lor 1 (cf_fork_id coin) ∧ paid outs = value o - fee
  end →
  final_outputs to_decimal coin args outs (Some fee) = Some (Ok (outs', ty')) → paid outs' = value o - fee.
Proof.
  intros Eo Hty Hf. apply (final_outputs_inv _ _ _ _ _ _ Eo) in Hf.
  destruct (ps_dex_fee args) as [|amount|? ? ?]; [by destruct Hf as [_ ->], Hty| |by destruct Hf as [_ ->], Hty].
  destruct Hf as (_ & sat & sc & Hsat & _ & _ & ->). destruct Hty as (_ & Hp & _). rewrite Hsat in Hp. injection Hp as ->.
  rewrite paid_app. cbn. lia.
Qed.

End payment.

Section spend_of_payment.
Context `{HashLengths} `{!Interpreter} `{!ScriptLaws} `{EcdsaLaws} (to_decimal : MmNumber → BigDecimal) (coin : UtxoConf).
Context (args : GenTakerPaymentSpendArgs).

Lemma gen_payment_inv kp fee now p :
  gen_taker_payment_spend_preimage to_decimal coin kp args (Some fee) now = Some (Ok p) →
  ∃ redeem o script outs ty d,
    ps_redeem args = Some redeem ∧ outputs (ps_taker_tx args) !! 0%nat = Some o ∧ ps_maker_script args = Some script
    ∧ taker_payment_spend_outputs to_decimal coin (ps_dex_fee args) (value o) fee script (ps_dex_fee_addr_raw_pubkey args)
      = Some (Ok (outs, ty))
    ∧ tp_preimage p = preimage_signer coin (ps_taker_tx args) (value o) outs now
    ∧ preimage_digest coin (tp_preimage p) redeem ty = Some d ∧ ec_sign (kp_private kp) d = Ok (tp_signature p).
Proof.
  unfold gen_taker_payment_spend_preimage, build_taker_payment_spend_preimage_tx. change DEFAULT_SWAP_VOUT with 0%nat.
  intros (redeem & Er & E)%bind_Some. destruct (outputs (ps_taker_tx args) !! 0%nat) as [o|] eqn:Eo; [|done].
  apply bind_Some in E as (script & Es & (planned & Ep & E)%bind_Some). destruct planned as [[outs ty]|]; [|done].
  cbn [fst snd] in E. apply bind_Some in E as (sig & Hs & E).
  unfold sign_spend_input in Hs. apply bind_Some in Hs as (d & Hd & [= Hs]). destruct sig as [sig|]; [|done].
  injection E as <-. by exists redeem, o, script, outs, ty, d.
Qed.

Hypothesis coin_ok : standard_coin coin = true.
Hypothesis coin_legacy : legacy_coin coin = true.
Hypothesis no_fork : cf_fork_id coin = 0.
Context (maker_kp taker_kp : KeyPair) (fee now : Z) (p : TxPreimageWithSig).
Hypothesis maker_kp_ok : kp_public maker_kp = ec_public (kp_private maker_kp).
Hypothesis taker_kp_ok : kp_public taker_kp = ec_public (kp_private taker_kp).
Hypothesis maker_is : ps_maker_pub args = kp_public maker_kp.
Hypothesis taker_is : ps_taker_pub args = kp_public taker_kp.

(** The taker's signature is one of the final transaction. *)
Lemma final_digest o outs outs' ty ty' redeem :
  outputs (ps_taker_tx args) !! 0%nat = Some o → (1 ≤ length outs)%nat →
  match ps_dex_fee args with Standard _ => ty = Z.lor 3 (cf_fork_id coin) | _ => ty = Z.lor 1 (cf_fork_id coin) end →
  final_outputs to_decimal coin args outs (Some fee) = Some (Ok (outs', ty')) →
  ty' = ty
  ∧ preimage_digest coin (preimage_signer coin (ps_taker_tx args) (value o) outs' now) redeem ty
    = preimage_digest coin (preimage_signer coin (ps_taker_tx args) (value o) outs now) redeem ty.
Proof.
  intros Eo Hlen Hty Hf. apply (final_outputs_inv _ _ _ _ _ _ _ _ Eo) in Hf.
  destruct (ps_dex_fee args) as [|amount|? ? ?]; [by destruct Hf as [-> ->]| |by destruct Hf as [-> ->]].
  destruct Hf as (-> & sat & script & _ & _ & _ & ->). split; [done|].
  rewrite !preimage_signer_digest.
  unfold legacy_coin in coin_legacy. fits_inv.
  repeat match goal with E : bool_decide _ = true |- _ => apply bool_decide_eq_true in E end.
  refine (single_append_digest (mkRequest (preimage_signer coin (ps_taker_tx args) (value o) outs now) 0 _ redeem _ ty)
    [mkTransactionOutput (value o - fee - sat) script] _ _ _).
  - unfold r_sighash. cbn [r_sigversion r_type]. rewrite Hty, no_fork.
    by match goal with E : cf_signature_version coin = Base |- _ => rewrite E end.
  - cbn. lia.
  - by apply negb_true_iff.
Qed.

Definition delivered_payment (outs : list TransactionOutput) : TxPreimageWithSig :=
  mkPreimage (received coin (ps_taker_tx args) outs) (tp_signature p).

Hypothesis generated : gen_taker_payment_spend_preimage to_decimal coin taker_kp args (Some fee) now = Some (Ok p).

Lemma payment_preimage_validates :
  validate_taker_payment_spend_preimage to_decimal coin args (delivered_payment (s_outputs (tp_preimage p))) (Some fee)
  = Some (Ok ()).
Proof.
  destruct (gen_payment_inv _ _ _ _ generated) as (redeem & o & script & outs & ty & d & Er & Eo & Es & Ep & Epr & Hd & Hs).
  rewrite Epr. cbn [s_outputs preimage_signer].
  unfold validate_taker_payment_spend_preimage. change DEFAULT_SWAP_VOUT with 0%nat. rewrite Eo, Es. cbn [mbind option_bind].
  rewrite Ep. cbn [mbind option_bind].
  assert (payment_shape coin (received coin (ps_taker_tx args) outs) (ps_taker_tx args) = true) as Hsh.
  { unfold payment_shape, spends_outpoint. cbn. rewrite bool_decide_eq_true_2 by done. by rewrite Z.eqb_refl, Bool.eqb_reflx. }
  cbn [delivered_payment tp_preimage tp_signature]. rewrite Hsh. cbn [negb received s_outputs].
  rewrite bool_decide_eq_true_2 by done. cbn [negb]. rewrite Er. cbn [mbind option_bind]. unfold verifies.
  rewrite (legacy_received coin (ps_taker_tx args) (value o) _ now) by done. rewrite <-Epr, Hd. cbn [mbind option_bind].
  by rewrite taker_is, taker_kp_ok, (ec_sign_verifies _ _ _ Hs).
Qed.

(** The input script of the spend passes with the secret and both signatures. *)
Lemma payment_script_sig taker_sig maker_sig taker_byte maker_byte secret redeem :
  (length taker_sig ≤ 72)%nat → (length maker_sig ≤ 72)%nat → length secret = 32%nat →
  ps_maker_secret_hash args = sha256 secret → ps_redeem args = Some redeem →
  ∃ script_sig,
    build_taker_payment_spend_cooperative_script_sig maker_sig taker_sig secret maker_byte taker_byte redeem = Some script_sig
    ∧ ∀ s, sp_checks s (public_bytes (kp_public taker_kp)) (taker_sig ++ [z2b taker_byte]) = true →
        sp_checks s (public_bytes (kp_public maker_kp)) (maker_sig ++ [z2b maker_byte]) = true →
        p2sh_spends s script_sig redeem (dhash160 redeem).
Proof.
  intros Lt Lm Hsec Hsh Er.
  pose proof (own_key_ok _ maker_kp_ok) as Pm. pose proof (own_key_ok _ taker_kp_ok) as Pt.
  pose proof (taker_payment_locks (u32 (ps_time_lock args)) (ps_maker_secret_hash args) _ _ Pm Pt) as Hl.
  rewrite <-maker_is, <-taker_is in Hl. fold (ps_redeem args) in Hl.
  set (st := [maker_sig ++ [z2b maker_byte]; taker_sig ++ [z2b taker_byte]; secret; []]).
  destruct (input_script _ _ redeem (Push <$> st) st Hl Er) as (script_sig & Ha & Hsp).
  { repeat constructor; cbn [item_ok]; rewrite ?length_app; cbn [length]; lia. }
  { cbn [mapM st fmap list_fmap].
    by rewrite !pushed_small by (rewrite ?length_app; unfold MAX_SCRIPT_ELEMENT_SIZE; cbn [length]; lia). }
  exists script_sig. split; [exact Ha|]. intros s Hc1 Hc2. apply Hsp.
  right. exists [], [secret; taker_sig ++ [z2b taker_byte]; maker_sig ++ [z2b maker_byte]]. split_and!; try done.
  exists secret, [taker_sig ++ [z2b taker_byte]; maker_sig ++ [z2b maker_byte]]. split_and!; [done|done|by rewrite Hsh|].
  exists (taker_sig ++ [z2b taker_byte]), (maker_sig ++ [z2b maker_byte]), []. by rewrite taker_is, maker_is.
Qed.

(** The transaction the maker makes of it. *)
Lemma payment_spend_sent secret outs' ty' o :
  outputs (ps_taker_tx args) !! 0%nat = Some o → 0 ≤ fee → value o < 2 ^ 64 →
  length secret = 32%nat → ps_maker_secret_hash args = sha256 secret →
  final_outputs to_decimal coin args (s_outputs (tp_preimage p)) (Some fee) = Some (Ok (outs', ty')) →
  let sent := sign_and_broadcast_taker_payment_spend to_decimal coin maker_kp
    (delivered_payment (s_outputs (tp_preimage p))) args secret (Some fee) true in
  (∃ e, sent = Some (Err (SigningError e)))
  ∨ ∃ tx t redeem, sent = Some (Ok tx) ∧ ps_redeem args = Some redeem ∧ inputs tx = [t] ∧ outputs tx = outs'
      ∧ previous_output t = mkOutPoint (tx_hash (ps_taker_tx args)) 0 ∧ paid outs' = value o - fee
      ∧ p2sh_spends (network_view coin tx redeem) (script_sig t) redeem (dhash160 redeem).
Proof.
  intros Eo Hfee Hv Hsec Hsh Hf sent.
  destruct (gen_payment_inv _ _ _ _ generated) as (redeem & o' & script & outs & ty & d & Er & Eo' & Es & Ep & Epr & Hd & Hs).
  rewrite Eo in Eo'. injection Eo' as <-. unfold sent. rewrite Epr in Hf, Hd |- *. cbn [s_outputs preimage_signer] in Hf |- *.
  apply planned_outputs in Ep as (_ & Hlen & Hty); [|done|done|by eapply output_script_short].
  assert (match ps_dex_fee args with Standard _ => ty = Z.lor 3 (cf_fork_id coin) | _ => ty = Z.lor 1 (cf_fork_id coin) end)
    as Hty' by (destruct (ps_dex_fee args); tauto).
  destruct (final_digest o outs outs' ty ty' redeem Eo ltac:(lia) Hty' Hf) as [-> Hfin]. rewrite Hd in Hfin.
  pose proof (final_paid to_decimal coin args outs fee outs' ty ty o Eo Hty Hf) as Hpaid.
  unfold sign_and_broadcast_taker_payment_spend. cbn [delivered_payment tp_preimage tp_signature].
  rewrite Er. cbn [mbind option_bind]. change (s_outputs (received coin (ps_taker_tx args) outs)) with outs. rewrite Hf.
  cbn [mbind option_bind]. change (with_outputs outs' (received coin (ps_taker_tx args) outs)) with (received coin (ps_taker_tx args) outs').
  unfold sign_spend_input. rewrite (legacy_received coin (ps_taker_tx args) (value o) _ now) by done.
  destruct (preimage_digest_Some coin (preimage_signer coin (ps_taker_tx args) (value o) outs' now) redeem
    (Z.lor SIGHASH_ALL_BASE (cf_fork_id coin)) _ eq_refl) as [dm Hdm]. rewrite Hdm. cbn [mbind option_bind].
  destruct (ec_sign (kp_private maker_kp) dm) as [sig|e] eqn:Em; [right|left; by eexists].
  pose proof (ec_sign_length _ _ _ Hs) as Lt. pose proof (ec_sign_length _ _ _ Em) as Lm.
  destruct (payment_script_sig (tp_signature p) sig (u8 ty) (u8 (Z.lor SIGHASH_ALL_BASE (cf_fork_id coin))) secret redeem)
    as (script_sig & Ha & Hsp); [lia|lia|done|done|done|].
  rewrite Ha. cbn [mbind option_bind].
  destruct (finish_received coin (ps_taker_tx args) outs' script_sig coin_ok) as (tx & -> & Hnet & Hin & Hout).
  rewrite <-(legacy_received coin (ps_taker_tx args) (value o) outs' now redeem), <-Hnet in Hfin, Hdm by done.
  assert (0 ≤ ty < 256) as Hbyte by (destruct (ps_dex_fee args); rewrite Hty', no_fork; done).
  eexists tx, _, redeem. split_and!; [done..|]. apply Hsp.
  - apply (network_checks _ _ _ _ _ d); [by apply own_key_ok|done|done|]. rewrite taker_kp_ok. by apply ec_sign_verifies.
  - apply (network_checks _ _ _ _ _ dm); [by apply own_key_ok|by rewrite no_fork|done|].
    rewrite maker_kp_ok. by apply ec_sign_verifies.
Qed.

End spend_of_payment.

(** C15: on a coin with legacy signatures the spend of the taker's payment between
    honest sides succeeds: the preimage the taker generates is read back and
    validated by the maker, and the transaction the maker completes (unless signing
    fails) pays out all of the payment but the fee of the transaction, spends output
    0 of the payment, and passes its script with the maker's secret in the network's
    view of that very transaction, each signature being checked against its digest
    for the type byte that follows it: the taker's, made before the maker's output
    was added to a standard fee, included.  The coin has no fork id. *)
Theorem payment_spend_agreed `{HashLengths} `{!Interpreter} `{!ScriptLaws} `{EcdsaLaws}
    to_decimal coin args maker_kp taker_kp fee now p secret o outs ty :
  standard_coin coin = true → legacy_coin coin = true → cf_fork_id coin = 0 →
  kp_public maker_kp = ec_public (kp_private maker_kp) → kp_public taker_kp = ec_public (kp_private taker_kp) →
  ps_maker_pub args = kp_public maker_kp → ps_taker_pub args = kp_public taker_kp →
  outputs (ps_taker_tx args) !! 0%nat = Some o → 0 ≤ fee → value o < 2 ^ 64 →
  length secret = 32%nat → ps_maker_secret_hash args = sha256 secret →
  gen_taker_payment_spend_preimage to_decimal coin taker_kp args (Some fee) now = Some (Ok p) →
  final_outputs to_decimal coin args (s_outputs (tp_preimage p)) (Some fee) = Some (Ok (outs, ty)) →
  ∃ s, parse_preimage coin (preimage_to_bytes (tp_preimage p)) = Ok s
    ∧ validate_taker_payment_spend_preimage to_decimal coin args (mkPreimage s (tp_signature p)) (Some fee) = Some (Ok ())
    ∧ let sent := sign_and_broadcast_taker_payment_spend to_decimal coin maker_kp (mkPreimage s (tp_signature p)) args
                    secret (Some fee) true in
      (∃ e, sent = Some (Err (SigningError e)))
      ∨ ∃ tx t redeem, sent = Some (Ok tx) ∧ ps_redeem args = Some redeem ∧ inputs tx = [t] ∧ outputs tx = outs
          ∧ previous_output t = mkOutPoint (tx_hash (ps_taker_tx args)) 0 ∧ paid outs = value o - fee
          ∧ p2sh_spends (network_view coin tx redeem) (script_sig t) redeem (dhash160 redeem).
Proof.
  intros Hc Hl Hk Hm Ht Em Et Eo Hfee Hv Hsec Hsh Hg Hf.
  destruct (gen_payment_inv _ _ _ _ _ _ _ Hg) as (redeem & o' & script & outs0 & ty0 & d & Er & Eo' & Es & Ep & Epr & _).
  rewrite Eo in Eo'. injection Eo' as <-.
  exists (received coin (ps_taker_tx args) (s_outputs (tp_preimage p))). split_and!.
  - apply planned_outputs in Ep as (Hpl & Hlen & _); [|done|done|by eapply output_script_short].
    rewrite Epr. apply preimage_back; [done| |by destruct outs0; cbn in Hlen; [lia|]].
    cbn [s_outputs preimage_signer]. apply plain_outputs_fit; [lia|done].
  - by eapply (payment_preimage_validates to_decimal coin args Hc Hl taker_kp fee now p).
  - by eapply (payment_spend_sent to_decimal coin args Hc Hl Hk maker_kp taker_kp fee now p).
Qed.
