(* ===== verification/UtxoSample.v ===== *)
(** * UtxoSample: a swap on a UTXO coin, run

    Concrete keys, a concrete coin and a concrete payment, on which the theorems
    about payments, fees and preimages are applied, with digests and signatures
    that can be computed ([sample_hashes], [SignerSample.toy_ecdsa]). *)

From Stdlib Require Import QArith Qcanon.
From stdpp Require Import base tactics list numbers strings option sets.
From coqutil Require Import Byte Word.LittleEndianList.
From S2P Require Import Prelude MmNumber DexFee Codec Tx Crypto Script Sign ScriptRules UtxoSigner Htlc UtxoSwap FeeTx HtlcV2 Preimage.

Local Open Scope Z_scope.

#[local] Existing Instance sample_hashes.
#[local] Existing Instance sample_lengths.
#[local] Existing Instance SignerSample.toy_ecdsa.
#[local] Existing Instance SignerSample.toy_laws.
#[local] Existing Instance run_interpreter.

Module UtxoSample.

(** A coin with legacy signatures, or with overwintered ones. *)
Definition coin_of (overwintered : bool) : UtxoConf := {|
  cf_ticker := "COIN"; cf_decimals := 8; cf_is_pos := false; cf_tx_version := (if overwintered then 4 else 2);
  cf_overwintered := overwintered; cf_version_group_id := (if overwintered then 0x892f2085 else 0);
  cf_consensus_branch_id := (if overwintered then 0x76b809bb else 0); cf_zcash := overwintered;
  cf_signature_version := Base; cf_fork_id := 0; cf_sighash_suffix := 0; cf_tx_hash_algo := DSHA256;
  cf_segwit := false; cf_enable_spv_proof := false; cf_dust_amount := 500
|}.

Definition coin : UtxoConf := coin_of false.

Definition key_of (n : Z) : KeyPair := mkKeyPair (replicate 32 (z2b n)) (ec_public (replicate 32 (z2b n))).
Definition maker : KeyPair := key_of 9.
Definition taker : KeyPair := key_of 5.
Definition maker_pub : bytes := public_bytes (kp_public maker).
Definition taker_pub : bytes := public_bytes (kp_public taker).

Definition secret : bytes := replicate 32 (z2b 7).
Definition taker_secret : bytes := replicate 32 (z2b 8).
Definition time_lock : Z := 1690000000.
Definition amount : BigDecimal := {| int_val := 100000; scale := 8 |}.
Definition env : SpendEnv := mkSpendEnv 1700000000 (Some 1700000000) (Some 1000) true.

Definition result_of {A E} (d : A) (r : option (result A E)) : A := match r with Some (Ok a) => a | _ => d end.

(** A transaction with the given outputs. *)
Definition pay (outs : list TransactionOutput) : Transaction :=
  mkTransaction 2 None false 0 [mkTransactionInput (mkOutPoint (zeros 32) 1) (hex "0101") SEQUENCE_FINAL []] outs 0 0
    [] [] [] 0 (zeros 32) (zeros 64) (zeros 64) false None DSHA256.

(** The maker's payment to the taker. *)
Definition outs : list TransactionOutput :=
  result_of [] (generate_swap_payment_outputs coin time_lock maker_pub taker_pub (dhash160 secret) amount).
Definition payment : Transaction := pay outs.

Definition claim : Transaction :=
  result_of payment (spends_payment coin (serialize payment) time_lock maker_pub secret taker env).
Definition refund : Transaction :=
  result_of payment (refunds_payment coin (serialize payment) time_lock taker_pub (dhash160 secret) maker env).

(** The taker's payment to the maker, and the maker's claim of it. *)
Definition taker_pays : Transaction :=
  pay (result_of [] (generate_swap_payment_outputs coin 1680000000 taker_pub maker_pub (sha256 secret) amount)).
Definition maker_claim : Transaction :=
  result_of taker_pays (spends_payment coin (serialize taker_pays) 1680000000 taker_pub secret maker env).

Definition redeem : bytes :=
  default [] (payment_script time_lock (dhash160 secret) (kp_public maker) (kp_public taker)).

End UtxoSample.

Import UtxoSample.

Lemma env_fee fee : se_fee env = Some fee → 0 ≤ fee.
Proof. cbn. intros [= <-]. lia. Qed.

Lemma payment_spendable : spendable env payment.
Proof.
  eexists _, 1000. split; [vm_compute; reflexivity|]. split; [reflexivity|]. split; [cbn; lia|].
  split; [exact (ex_intro _ _ eq_refl)|reflexivity].
Qed.

Lemma keys_sign n : signs (key_of n).
Proof. intros digest. exact (ex_intro _ _ eq_refl). Qed.

Lemma payment_settles_witness :
  ∃ tx, spends_payment coin (serialize payment) time_lock maker_pub secret taker env = Some (Ok tx).
Proof.
  refine (proj2 (payment_settles coin (serialize payment) payment time_lock maker_pub (kp_public maker) (dhash160 secret)
    taker env _ (keys_sign 5) _ _ payment_spendable) secret _); vm_compute; reflexivity.
Defined.

Lemma revealed_secret_claims_witness : extract_secret (sha256 secret) (serialize maker_claim) = Ok secret.
Proof.
  refine (proj1 (revealed_secret_claims coin coin (serialize taker_pays) (serialize payment) 1680000000 time_lock
    (sha256 secret) secret maker taker amount 1 false [Some (serialize payment)] env env maker_claim payment
    _ _ (keys_sign 5) _ _ _ _ env_fee _ _ _ _ payment_spendable)).
  1-3, 5-6, 8-10: vm_compute; reflexivity.
  - lia.
  - intros prev o Hp Ho. vm_compute in Hp. injection Hp as <-. vm_compute in Ho. injection Ho as <-. cbn. lia.
Defined.

Lemma payment_taken_two_ways_witness :
  ∃ o, outs !! 0%nat = Some o ∧ p2sh_of redeem = Some (script_pubkey o).
Proof.
  destruct (payment_taken_two_ways coin time_lock maker_pub taker_pub (dhash160 secret) (dhash160 secret) amount outs
    (mkSpend 0 0 (λ _ _, true)) [] redeem) as (my & other & r & o & Em & Eo & Er & Hout & Hr & _); [vm_compute; reflexivity..|].
  assert (r = redeem) as ->; [|exact (ex_intro _ o (conj Hout Hr))].
  vm_compute in Em. injection Em as <-. vm_compute in Eo. injection Eo as <-. vm_compute in Er. injection Er as <-.
  vm_compute. reflexivity.
Defined.

Lemma refund_lock_time_witness :
  ∃ script items, payment_script 2200000000 (sha256 secret) (kp_public maker) (kp_public taker) = Some script
    ∧ disassemble script = Some items
    ∧ ¬ script_true (mkSpend 4000000000 0 (λ _ _, true)) items [[z2b 1]; [z2b 7]].
Proof.
  destruct (refund_lock_time 2200000000 (sha256 secret) (kp_public maker) (kp_public taker)
    (mkSpend 4000000000 0 (λ _ _, true)) [z2b 1] [[z2b 7]]) as (script & items & Es & Ed & Hs);
    [vm_compute; reflexivity|vm_compute; reflexivity|unfold LOCKTIME_THRESHOLD; lia|lia|reflexivity|].
  refine (ex_intro _ script (ex_intro _ items (conj Es (conj Ed _)))). intros Ht. apply Hs in Ht. lia.
Defined.

Lemma payment_script_paths_witness :
  ∃ script items, payment_script time_lock (sha256 secret) (kp_public maker) (kp_public taker) = Some script
    ∧ disassemble script = Some items
    ∧ ∀ s st, script_true s items st
        ↔ refund_path time_lock (kp_public maker) s st ∨ claim_path (dhash160 secret) (kp_public taker) s st.
Proof. apply (payment_script_paths time_lock (sha256 secret) (dhash160 secret)); vm_compute; reflexivity. Defined.

Lemma claim_accepted_witness :
  ∃ t, inputs claim = [t] ∧ classify_swap_spend (script_sig t) = Some Spent
    ∧ secret_of (sha256 secret) (script_sig t) = Some secret.
Proof.
  destruct (claim_accepted coin (serialize payment) time_lock maker_pub secret taker env claim)
    as (_ & _ & _ & _ & t & _ & _ & _ & _ & _ & Hi & _ & Hc & _ & Hs);
    [vm_compute; reflexivity|exact env_fee|vm_compute; reflexivity|vm_compute; reflexivity|].
  exact (ex_intro _ t (conj Hi (conj Hc Hs))).
Defined.

Lemma refund_accepted_witness :
  ∃ t, inputs refund = [t] ∧ classify_swap_spend (script_sig t) = Some Refunded.
Proof.
  destruct (refund_accepted coin (serialize payment) time_lock taker_pub (dhash160 secret) maker env refund)
    as (_ & _ & _ & _ & t & _ & _ & _ & _ & Hi & _ & Hc & _);
    [vm_compute; reflexivity|exact env_fee|unfold LOCKTIME_THRESHOLD, time_lock; lia|vm_compute; reflexivity|].
  exact (ex_intro _ t (conj Hi Hc)).
Defined.

Lemma spend_well_formed_witness : deserialize_transaction (serialize claim) = Ok claim.
Proof.
  apply (spend_well_formed coin (serialize payment) time_lock maker_pub taker env claim);
    [vm_compute; reflexivity|vm_compute; reflexivity|exact env_fee|unfold time_lock; lia| |].
  - intros prev o Hp Ho. vm_compute in Hp. injection Hp as <-. vm_compute in Ho. injection Ho as <-. cbn. lia.
  - left. exists secret. split; vm_compute; reflexivity.
Defined.

Lemma hidden_claim_witness :
  ∃ script_sig, classify_swap_spend script_sig = Some Refunded ∧ secret_of (dhash160 secret) script_sig = None.
Proof.
  destruct (hidden_claim time_lock (dhash160 secret) (kp_public maker) (kp_public taker) redeem (replicate 70 (z2b 1)) secret)
    as (script_sig & _ & _ & Hc & Hn);
    [vm_compute; reflexivity..|cbn; lia|]. exact (ex_intro _ script_sig (conj Hc (Hn (dhash160 secret)))).
Defined.

Lemma extract_secret_sound_witness :
  htlc_hash160_comparator (sha256 secret) = Some (dhash160 secret) ∧ length secret = 32%nat.
Proof. apply (extract_secret_sound (sha256 secret) (serialize claim)). vm_compute. reflexivity. Defined.

(** The payment validates: the server knows it as it was received. *)
Lemma payment_validates_iff_witness :
  validate_swap_payment coin (serialize payment) maker_pub taker_pub (dhash160 secret) amount time_lock 1 false
    [None; Some (serialize payment)] = Some (Ok ()).
Proof.
  apply (payment_validates_iff coin time_lock maker_pub taker_pub (dhash160 secret) amount outs (serialize payment) payment
    [None; Some (serialize payment)] (serialize payment) 1 false); [vm_compute; reflexivity..|].
  split; [vm_compute; reflexivity|]. split; [left; reflexivity|left; reflexivity].
Defined.

Lemma refund_when_due_witness :
  can_refund_htlc coin time_lock 1700000000 (Some 1699990000) (Some 1699990000) 1700000000 = Ok CanRefundNow
  ∧ time_lock ≤ 1700000000.
Proof.
  split; [reflexivity|].
  apply (refund_when_due coin time_lock 1700000000 (Some 1699990000) (Some 1699990000) 1700000000 CanRefundNow);
    [lia|unfold time_lock; lia|intros m [= <-]; lia|reflexivity].
Defined.

(** ** The dex fee *)

Module FeeSample.

#[local] Instance toy_secp : Secp := {| der_ok b := (8 <=? length b)%nat; point b := Some b |}.

Definition to_decimal (a : MmNumber) : BigDecimal := {| int_val := Qnum a * 10 ^ 8 / Z.pos (Qden a); scale := 8 |}.

Definition fee_addr : bytes := public_bytes (kp_public (key_of 3)).
Definition dex_fee : DexFee := WithBurn (Q2Qc (3 # 4)%Q) (Q2Qc (1 # 4)%Q) KmdOpReturn.

Definition fee_outs : list TransactionOutput :=
  result_of [] (generate_taker_fee_tx_outputs to_decimal coin (address_hash (kp_public (key_of 3))) dex_fee).

(** An input signed by the taker. *)
Definition signed_input : bytes :=
  default [] (builder_default ▷ push_data (replicate 71 (z2b 1)) ▷ push_data taker_pub).

Definition fee_tx : Transaction :=
  mkTransaction 2 None false 0 [mkTransactionInput (mkOutPoint (zeros 32) 1) signed_input SEQUENCE_FINAL []] fee_outs 0 0
    [] [] [] 0 (zeros 32) (zeros 64) (zeros 64) false None DSHA256.

Definition seen : RpcTransaction := mkRpcTransaction (serialize fee_tx) (Some 700) 2.

End FeeSample.

#[local] Existing Instance FeeSample.toy_secp.

Lemma fee_validates_iff_witness :
  validate_fee FeeSample.to_decimal coin FeeSample.fee_tx 0 taker_pub FeeSample.dex_fee 650 FeeSample.fee_addr
    (Some FeeSample.seen) None = Some (Ok ()).
Proof.
  apply (fee_validates_iff FeeSample.to_decimal coin FeeSample.fee_tx 0 taker_pub FeeSample.dex_fee 650 FeeSample.fee_addr
    (kp_public (key_of 3)) (Some FeeSample.seen) None FeeSample.fee_outs); [vm_compute; reflexivity..|].
  split; [constructor; [vm_compute; reflexivity|constructor]|]. split.
  - exists FeeSample.seen. split; [reflexivity|]. split; [reflexivity|]. left. reflexivity.
  - intros k o Hk. exists o. split; [exact Hk|]. split; [reflexivity|lia].
Defined.

Lemma fee_validation_sound_witness :
  Forall (λ i, pubkey_of_input i = Ok taker_pub) (inputs FeeSample.fee_tx).
Proof.
  apply (fee_validation_sound FeeSample.to_decimal coin FeeSample.fee_tx 0 taker_pub FeeSample.dex_fee 650
    FeeSample.fee_addr (Some FeeSample.seen) None). vm_compute. reflexivity.
Defined.

(** ** The second protocol *)

Module V2Sample.

(** The maker's payment, and the taker's funding. *)
Definition maker_payment : Transaction :=
  pay (result_of [] (send_maker_payment_v2 coin time_lock (sha256 secret) (sha256 taker_secret) (kp_public maker)
                       (kp_public taker) amount)).
Definition funding : Transaction :=
  pay (result_of [] (send_taker_funding FeeSample.to_decimal coin time_lock (sha256 taker_secret) (kp_public taker)
                       maker_pub amount amount (Standard (Q2Qc (1 # 10000)%Q)))).

Definition maker_claimed : Transaction :=
  result_of funding (spend_maker_payment_v2 coin taker env maker_payment time_lock (sha256 secret) (sha256 taker_secret)
                       secret (kp_public maker)).
Definition funding_refund : Transaction :=
  result_of funding (refund_taker_funding_timelock coin taker env (serialize funding) (TakerFunding (sha256 taker_secret))
                       time_lock maker_pub).

Definition funding_args : GenTakerFundingSpendArgs :=
  mkFundingArgs funding (kp_public maker) (kp_public taker) time_lock (sha256 taker_secret) (time_lock + 3600)
    (sha256 secret).

Definition no_preimage : TxPreimageWithSig := mkPreimage SignerSample.unsigned [].

Definition funding_preimage : TxPreimageWithSig :=
  result_of no_preimage (gen_taker_funding_spend_preimage coin maker funding_args (Some 1000) 0).

(** The taker's payment the funding becomes. *)
Definition taker_payment : Transaction := transaction_of (tp_preimage funding_preimage).

Definition payment_args : GenTakerPaymentSpendArgs :=
  mkPaymentArgs taker_payment (time_lock + 3600) (sha256 secret) (kp_public maker)
    (false, address_hash (kp_public maker)) (kp_public taker) (Standard (Q2Qc (1 # 10000)%Q)) FeeSample.fee_addr.

Definition payment_preimage : TxPreimageWithSig :=
  result_of no_preimage (gen_taker_payment_spend_preimage FeeSample.to_decimal coin taker payment_args (Some 1000) 0).

Definition finals : list TransactionOutput * Z :=
  result_of ([], 0) (final_outputs FeeSample.to_decimal coin payment_args (s_outputs (tp_preimage payment_preimage))
                       (Some 1000)).

End V2Sample.

Import V2Sample.

Lemma v2_script_paths_witness :
  locks (taker_payment_script time_lock (sha256 secret) (kp_public taker) (kp_public maker))
    (λ s st, flagged true (timelocked time_lock (kp_public taker) s) st
       ∨ flagged false (with_secret (ripemd160 (sha256 secret)) (cosigned (kp_public taker) (kp_public maker) s)) st).
Proof.
  apply (v2_script_paths time_lock (sha256 secret) (sha256 taker_secret) (kp_public maker) (kp_public taker));
    vm_compute; reflexivity.
Defined.

Lemma v2_spends_accepted_witness :
  spend_accepted coin taker env (serialize maker_payment)
    (maker_payment_script (u32 time_lock) (sha256 secret) (sha256 taker_secret) (kp_public maker) (kp_public taker))
    [Push secret; Op OP_1; Push []] SEQUENCE_FINAL 0 maker_claimed.
Proof.
  destruct (v2_spends_accepted coin taker env) as (_ & _ & Hs); [vm_compute; reflexivity|exact env_fee|].
  apply (Hs maker_payment time_lock (sha256 taker_secret) secret (kp_public maker) maker_claimed);
    vm_compute; reflexivity.
Defined.

Lemma funding_timelock_refund_rejected_witness :
  ∃ t redeem, inputs funding_refund = [t] ∧ ∀ s, ¬ p2sh_spends s (script_sig t) redeem (dhash160 redeem).
Proof.
  destruct (funding_timelock_refund_rejected coin taker env (serialize funding) (sha256 taker_secret) time_lock maker_pub
    funding_refund) as (_ & redeem & _ & t & _ & _ & _ & Hi & _ & Hn);
    [vm_compute; reflexivity|exact env_fee|vm_compute; reflexivity|].
  exact (ex_intro _ t (ex_intro _ redeem (conj Hi Hn))).
Defined.

(** The claim shows the secret to a reader with the other form of its hash; the script made
    with that form takes it only where the form is its own RIPEMD-160. *)
Lemma secret_never_read_witness :
  extract_secret_v2 (sha256 secret) maker_claimed = Err NoSecret
  ∧ extract_secret_v2 (dhash160 secret) maker_claimed = Ok secret
  ∧ ∃ script items, taker_payment_script time_lock (dhash160 secret) (kp_public taker) (kp_public maker) = Some script
    ∧ disassemble script = Some items
    ∧ ∀ s st, script_true s items ([] :: secret :: st) → ripemd160 (dhash160 secret) = dhash160 secret.
Proof.
  destruct secret_never_read as [H1 H2]. split; [apply H1|]. split; [vm_compute; reflexivity|].
  destruct (H2 (dhash160 secret) maker_claimed secret time_lock (kp_public taker) (kp_public maker)) as (script & items & E1 & E2 & Hp);
    [vm_compute; reflexivity..|].
  exists script, items. split; [exact E1|]. split; [exact E2|]. intros s st Hs. exact (Hp s [] st secret eq_refl eq_refl Hs).
Defined.

(** An overwintered coin: the digests differ. *)
Lemma received_preimage_witness :
  ∃ s, parse_preimage (coin_of true)
         (preimage_to_bytes (preimage_signer (coin_of true) funding 5000 [SignSample.out 4000] 0)) = Ok s
    ∧ (preimage_digest (coin_of true) s redeem 1
       ≠ preimage_digest (coin_of true) (preimage_signer (coin_of true) funding 5000 [SignSample.out 4000] 0) redeem 1
       ∨ preimage_clash (coin_of true) (preimage_signer (coin_of true) funding 5000 [SignSample.out 4000] 0) s redeem 1).
Proof.
  destruct (received_preimage (coin_of true) funding 5000 [SignSample.out 4000] 0 redeem 1) as (s & Hs & _ & _ & Hd);
    [vm_compute; reflexivity|lia|vm_compute; reflexivity|discriminate|vm_compute; reflexivity|vm_compute; reflexivity|].
  exact (ex_intro _ s (conj Hs (Hd eq_refl))).
Defined.

(** What the other side reads of a preimage. *)
Definition read_back (p : TxPreimageWithSig) : TxPreimageWithSig :=
  mkPreimage (match parse_preimage coin (preimage_to_bytes (tp_preimage p)) with Ok s => s | Err _ => SignerSample.unsigned end)
    (tp_signature p).

Lemma funding_spend_agreed_witness :
  validate_taker_funding_spend_preimage coin (kp_public taker) funding_args (read_back funding_preimage) (Some 1000)
  = Some (Ok ())
  ∧ ∃ tx t redeem, sign_and_send_taker_funding_spend coin taker (read_back funding_preimage) funding_args true = Some (Ok tx)
      ∧ inputs tx = [t] ∧ fs_funding_redeem funding_args = Some redeem
      ∧ p2sh_spends (network_view coin tx redeem) (script_sig t) redeem (dhash160 redeem).
Proof.
  destruct (funding_spend_agreed coin funding_args maker taker 1000 0 funding_preimage) as (s & Hs & Hv & Hsent);
    [vm_compute; reflexivity..|cbn; lia|vm_compute; reflexivity|vm_compute; reflexivity|vm_compute; reflexivity
    |vm_compute; reflexivity|vm_compute; reflexivity|lia|cbn; lia| |vm_compute; reflexivity|].
  - intros o Ho. vm_compute in Ho. injection Ho as <-. cbn. lia.
  - assert (read_back funding_preimage = mkPreimage s (tp_signature funding_preimage)) as Hb
      by (unfold read_back; rewrite Hs; reflexivity).
    rewrite <-Hb in Hv, Hsent. split; [exact Hv|].
    destruct Hsent as [[e He]|(tx & t & redeem & pr & sc & o & H1 & H2 & _ & _ & _ & H3 & _ & _ & H4)];
      [exfalso; vm_compute in He; discriminate He|].
    exists tx, t, redeem. split; [exact H1|]. split; [exact H3|]. split; [exact H2|exact H4].
Defined.

Lemma payment_spend_agreed_witness :
  validate_taker_payment_spend_preimage FeeSample.to_decimal coin payment_args (read_back payment_preimage) (Some 1000)
  = Some (Ok ())
  ∧ ∃ tx t redeem,
      sign_and_broadcast_taker_payment_spend FeeSample.to_decimal coin maker (read_back payment_preimage) payment_args
        secret (Some 1000) true = Some (Ok tx)
      ∧ inputs tx = [t] ∧ ps_redeem payment_args = Some redeem
      ∧ p2sh_spends (network_view coin tx redeem) (script_sig t) redeem (dhash160 redeem).
Proof.
  destruct (payment_spend_agreed FeeSample.to_decimal coin payment_args maker taker 1000 0 payment_preimage secret
    (default (SignSample.out 0) (outputs taker_payment !! 0%nat)) (fst finals) (snd finals)) as (s & Hs & Hv & Hsent);
    [vm_compute; reflexivity..|lia|vm_compute; reflexivity|vm_compute; reflexivity|vm_compute; reflexivity
    |vm_compute; reflexivity|vm_compute; reflexivity|].
  assert (read_back payment_preimage = mkPreimage s (tp_signature payment_preimage)) as Hb
    by (unfold read_back; rewrite Hs; reflexivity).
  cbv zeta in Hsent. rewrite <-Hb in Hv, Hsent. split; [exact Hv|].
  destruct Hsent as [[e He]|(tx & t & redeem & H1 & H2 & H3 & _ & _ & _ & H4)];
    [exfalso; vm_compute in He; discriminate He|].
  exists tx, t, redeem. split; [exact H1|]. split; [exact H3|]. split; [exact H2|exact H4].
Defined.
