(* ===== verification/WalletSample.v ===== *)
(** * WalletSample: a wallet that sends, run

    Concrete builders, a wallet that pays for the swap of UtxoSample with two sends
    while its server lists the outputs of before, and the theorems of UtxoTx and
    UtxoWallet applied to them. *)

From stdpp Require Import base tactics list numbers strings option gmap sets.
From coqutil Require Import Byte Word.LittleEndianList.
From S2P Require Import Prelude Codec Tx Crypto Script Sign UtxoSigner Htlc UtxoTx UtxoWallet UtxoSample.

Local Open Scope Z_scope.

#[local] Existing Instance sample_hashes.
#[local] Existing Instance sample_lengths.
#[local] Existing Instance SignerSample.toy_ecdsa.
#[local] Existing Instance SignerSample.toy_laws.

Module WalletSample.

Import UtxoSample.

Definition sender : Address := mkAddress false (address_hash (kp_public maker)).
Definition own_script : bytes := default [] (output_script false P2PKH (AddressHash (ad_hash sender))).
Definition env : BuildEnv := mkBuildEnv (Some (Dynamic 1000)) true (Some 2000) (Some 1700000000)
  (λ _, Some (Some 3000000, 1690000000)) 1700000000.

Definition unspent_at (n value : Z) : UnspentInfo := mkUnspent (mkOutPoint (replicate 32 (z2b n)) 0) value (Some 100).
Definition unspents : list UnspentInfo := [unspent_at 1 60000; unspent_at 2 90000].

(** A builder that pays the outputs of a swap payment. *)
Definition builder : UtxoTxBuilder :=
  with_fee_policy SendExact (add_outputs outs (add_available_inputs unspents
    (with_from_address sender (builder_new coin 1700000000 None)))).

(** A Komodo builder that sends all it has, the fee taken from the output. *)
Definition kmd : UtxoConf := {|
  cf_ticker := "KMD"; cf_decimals := 8; cf_is_pos := false; cf_tx_version := 2; cf_overwintered := false;
  cf_version_group_id := 0; cf_consensus_branch_id := 0; cf_zcash := false; cf_signature_version := Base; cf_fork_id := 0;
  cf_sighash_suffix := 0; cf_tx_hash_algo := DSHA256; cf_segwit := false; cf_enable_spv_proof := false; cf_dust_amount := 1000
|}.
Definition kmd_builder : UtxoTxBuilder :=
  with_fee_policy (DeductFromOutput 0) (add_outputs [mkTransactionOutput 10000000000 [z2b 0x51]]
    (add_required_inputs [unspent_at 1 10000000000] (with_from_address sender (builder_new kmd 1700000000 None)))).

Definition built {A E} (d : A) (r : option (result A E)) : A := match r with Some (Ok a) => a | _ => d end.
Definition nothing : TransactionInputSigner * AdditionalTxData := (transaction_preimage coin 0, mkTxData 0 0 0 None None).

(** A sort that follows the comparison. *)
Fixpoint insert_by {A} (cmp : A → A → comparison) (x : A) (l : list A) : list A :=
  match l with
  | [] => [x]
  | y :: l => match cmp y x with Lt => y :: insert_by cmp x l | _ => x :: y :: l end
  end.
Definition sort {A} (cmp : A → A → comparison) (l : list A) : option (list A) := Some (foldr (insert_by cmp) [] l).

End WalletSample.

Import UtxoSample WalletSample.

Lemma insert_by_perm {A} (cmp : A → A → comparison) x l : insert_by cmp x l ≡ₚ x :: l.
Proof. induction l as [|y l IH]; cbn; [done|]. destruct (cmp y x); [done| |done].
  transitivity (y :: x :: l); [by apply perm_skip|apply perm_swap].
Qed.

Lemma sort_perm {A} (cmp : A → A → comparison) l l' : WalletSample.sort cmp l = Some l' → l' ≡ₚ l.
Proof.
  intros [= <-]. induction l as [|x l IH]; cbn; [done|].
  transitivity (x :: foldr (insert_by cmp) [] l); [apply insert_by_perm|by apply perm_skip].
Qed.

Lemma builder_built : Built coin builder.
Proof.
  unfold builder. apply Built_policy, Built_outputs; [vm_compute; repeat constructor; discriminate|].
  apply Built_available; [repeat constructor; discriminate|]. apply Built_from, Built_new.
Qed.

Lemma kmd_built : Built kmd kmd_builder.
Proof.
  unfold kmd_builder. apply Built_policy, Built_outputs; [repeat constructor; discriminate|].
  apply Built_required; [repeat constructor; discriminate|]. apply Built_from, Built_new.
Qed.

(** The Komodo transaction pays all it has to another script, so that the interest has
    an output of its own. *)
Lemma build_balance_witness :
  let r := built nothing (build kmd WalletSample.env kmd_builder) in
  balanced own_script 0 (fst r) (snd r) ∧ kmd_rewards (snd r) = Some 42396531.
Proof.
  intros r. split; [|vm_compute; reflexivity].
  destruct (build_balance kmd WalletSample.env kmd_builder (fst r) (snd r) kmd_built) as (from & script & k & Ef & Es & _ & Hb & _);
    [vm_compute; reflexivity..|vm_compute; split; [discriminate|reflexivity]|].
  injection Ef as <-. assert (script = own_script) as ->; [|exact Hb]. vm_compute in Es. injection Es as <-. vm_compute. reflexivity.
Defined.

Lemma build_fee_covers_witness :
  let r := built nothing (build coin WalletSample.env builder) in
  required_fee (Dynamic 1000) (Some 2000) (tx_size_in_v_bytes false (transaction_of (fst r))) ≤ fee_amount (snd r).
Proof.
  intros r. destruct (build_fee_covers coin WalletSample.env builder (fst r) (snd r) sender own_script (Dynamic 1000) (Some 2000)
    builder_built) as [Hc|[Hk _]];
    [vm_compute; reflexivity..|vm_compute; discriminate|vm_compute; discriminate|vm_compute; reflexivity|vm_compute; reflexivity
    |vm_compute; reflexivity|vm_compute; reflexivity|exact Hc|vm_compute in Hk; discriminate Hk].
Defined.

(** The fee of the Komodo transaction is deducted from its output, and its one required
    input pays. *)
Lemma build_when_affordable_witness :
  ∃ tx data, build kmd WalletSample.env kmd_builder = Some (Ok (tx, data))
    ∧ s_inputs tx = [input_of (unspent_at 1 10000000000)] ∧ fee_amount data = 336.
Proof.
  assert (Hok : ∀ k, (k ≤ length (b_available_inputs kmd_builder))%nat → stage_ok kmd_builder false (Dynamic 1000) (Some 2000) k = true).
  { intros k Hk. cbn in Hk. destruct k as [|k]; [vm_compute; reflexivity|lia]. }
  assert (Hd : Forall (not_dust (dust_of kmd kmd_builder)) (s_outputs (b_tx kmd_builder))).
  { apply Forall_cons_2; [right; vm_compute; discriminate|apply Forall_nil_2]. }
  assert (Hc : interest_known kmd WalletSample.env) by (intros _; split; [|intros hash]; eexists; reflexivity).
  assert (Es : output_script (ad_segwit sender) P2PKH (AddressHash (ad_hash sender)) = Some own_script) by (vm_compute; reflexivity).
  assert (Ho : s_outputs (b_tx kmd_builder) ≠ []) by (vm_compute; discriminate).
  assert (Hi : s_inputs (b_tx kmd_builder) ≠ []) by (vm_compute; discriminate).
  assert (Hr : 0 ≤ 1000 ∧ 0 ≤ 2000) by lia.
  destruct (build_when_affordable kmd WalletSample.env kmd_builder sender own_script (Dynamic 1000) (Some 2000) kmd_built
    eq_refl Hc eq_refl Es eq_refl eq_refl (proj1 Hr) (proj2 Hr) Ho Hd (or_intror Hi) Hok) as (k & Hk & _ & _ & Hb).
  assert (k = 0%nat) as -> by (cbn in Hk; lia). unfold outcome_of in Hb.
  match type of Hb with match ?d with _ => _ end => let v := eval vm_compute in d in
    assert (Ed : d = v) by (vm_compute; reflexivity); rewrite Ed in Hb; clear Ed end.
  match type of Hb with if ?d then _ else _ => assert (Ed : d = true) by (vm_compute; reflexivity); rewrite Ed in Hb; clear Ed end.
  destruct Hb as (tx & data & tx' & data' & E & Hin & _ & Hfee & _). exists tx, data. split; [exact E|].
  split; [rewrite Hin; reflexivity|]. rewrite Hfee. vm_compute. reflexivity.
Defined.

(** ** A wallet *)

Module Wallet.

(** What the wallet has at first, and a small send of it. *)
Definition initial : gset CachedUnspentInfo := list_to_set (cached_of <$> unspents).
Definition pays_out : list TransactionOutput := [mkTransactionOutput 20000 [z2b 0x51]].

Definition send (listing : list UnspentInfo) (r : RecentlySpentOutPoints) (outs : list TransactionOutput) :
    option (result Transaction SendError * RecentlySpentOutPoints) :=
  send_outputs_from_my_address_impl elements coin elements WalletSample.sort 2 WalletSample.env
    (SoftwareKey (Some maker) (Some [])) None sender (Some listing) (λ _, true) r outs.

Definition sent_by (r : option (result Transaction SendError * RecentlySpentOutPoints)) : Transaction :=
  match r with Some (Ok tx, _) => tx | _ => payment end.
Definition left_by (r : option (result Transaction SendError * RecentlySpentOutPoints)) : RecentlySpentOutPoints :=
  match r with Some (_, r) => r | _ => recent_new [] end.

(** Two sends, both from the listing of before the first. *)
Definition first_send := send unspents (recent_new own_script) pays_out.
Definition past1 : list sent := [sent_of initial (sent_by first_send)].
Definition second_send := send unspents (left_by first_send) pays_out.
Definition past2 : list sent := past1 ++ [sent_of (owned own_script initial past1) (sent_by second_send)].

(** A withdraw that is noted. *)
Definition withdraw : bytes := serialize payment.

End Wallet.

(** A decidable fact, by computing it. *)
Ltac by_computing P := apply (bool_decide_unpack P); vm_compute; exact I.

Lemma history_one : sound_history own_script Wallet.initial Wallet.past1.
Proof.
  refine (history_snoc own_script Wallet.initial [] (sent_of Wallet.initial (Wallet.sent_by Wallet.first_send))
    (history_nil _ _) _ _ _).
  - by_computing (sent_in (sent_of Wallet.initial (Wallet.sent_by Wallet.first_send)) ≠ ∅).
  - by_computing (sent_in (sent_of Wallet.initial (Wallet.sent_by Wallet.first_send)) ⊆ owned own_script Wallet.initial []).
  - by_computing (set_Forall (λ c, op_hash (cu_outpoint c) ≠ sn_hash (sent_of Wallet.initial (Wallet.sent_by Wallet.first_send)))
      (known own_script Wallet.initial [])).
Qed.

Lemma replaced_is_owned_witness :
  ∃ current, replace_spent_outputs_with_cache 2 (recorded own_script elements Wallet.past1) (list_to_set unspents) = Some current
    ∧ set_map cached_of current = owned own_script Wallet.initial Wallet.past1.
Proof.
  refine (replaced_is_owned elements own_script Wallet.initial Wallet.past1 0 (list_to_set unspents) 2 _ history_one _ _ _).
  - intros X. reflexivity.
  - lia.
  - by_computing (set_map cached_of (list_to_set unspents : gset UnspentInfo) = owned own_script Wallet.initial (take 0 Wallet.past1)).
  - lia.
Defined.

Lemma pending_promoted_once_witness :
  let noted := note_pending_withdraw_at 1000 Wallet.withdraw unspents (tx_hash payment) (outputs payment) (recent_new own_script) in
  (promote_pending_withdraw_at elements 2000 Wallet.withdraw noted).2 = true.
Proof.
  destruct (pending_promoted_once elements 1000 2000 3000 Wallet.withdraw unspents (tx_hash payment) (outputs payment)
    (recent_new own_script)) as (_ & _ & Hp & _); [|cbn; lia|exact Hp].
  split; [vm_compute; lia|]. intros k p Hk. cbn in Hk. rewrite lookup_empty in Hk. discriminate Hk.
Defined.

(** Both sends, from the listing of before the first. *)
Lemma two_sends :
  wallet_run elements elements WalletSample.sort coin maker own_script Wallet.initial (Wallet.left_by Wallet.second_send)
    Wallet.past2 [Wallet.sent_by Wallet.first_send; Wallet.sent_by Wallet.second_send].
Proof.
  assert (Hl : set_map cached_of (list_to_set unspents : gset UnspentInfo) = owned own_script Wallet.initial [])
    by by_computing (set_map cached_of (list_to_set unspents : gset UnspentInfo) = owned own_script Wallet.initial []).
  refine (run_sent elements elements WalletSample.sort coin maker own_script Wallet.initial 2 WalletSample.env None sender []
    unspents (λ _, true) (Wallet.left_by Wallet.first_send) Wallet.past1 [Wallet.sent_by Wallet.first_send] 0 Wallet.pays_out
    (Wallet.sent_by Wallet.second_send) (Wallet.left_by Wallet.second_send) _ _ _ Hl _ _ _).
  - refine (run_sent elements elements WalletSample.sort coin maker own_script Wallet.initial 2 WalletSample.env None sender []
      unspents (λ _, true) (recent_new own_script) [] [] 0 Wallet.pays_out
      (Wallet.sent_by Wallet.first_send) (Wallet.left_by Wallet.first_send) (run_new _ _ _ _ _ _ _) _ _ Hl _ _ _); try lia.
    + vm_compute. reflexivity.
    + by_computing (set_Forall (λ c, op_hash (cu_outpoint c) ≠ tx_hash (Wallet.sent_by Wallet.first_send)) (known own_script Wallet.initial [])).
    + vm_compute. reflexivity.
  - lia.
  - lia.
  - vm_compute. reflexivity.
  - by_computing (set_Forall (λ c, op_hash (cu_outpoint c) ≠ tx_hash (Wallet.sent_by Wallet.second_send)) (known own_script Wallet.initial Wallet.past1)).
  - vm_compute. reflexivity.
Qed.

Lemma sends_never_double_spend_witness : NoDup (outpoints_of [Wallet.sent_by Wallet.first_send; Wallet.sent_by Wallet.second_send]).
Proof.
  refine (proj1 (sends_never_double_spend elements elements WalletSample.sort coin maker own_script Wallet.initial
    (Wallet.left_by Wallet.second_send) Wallet.past2 _ _ _ _ _ _ two_sends)).
  - intros X. reflexivity.
  - intros X. reflexivity.
  - intros cmp l l'. apply sort_perm.
  - reflexivity.
  - intros c c' Hc Hc'. revert c' Hc'. revert c Hc.
    by_computing (set_Forall (λ c, set_Forall (λ c', cu_outpoint c = cu_outpoint c' → c = c') Wallet.initial) Wallet.initial).
Defined.

(** The payment of the swap, sent by the maker and validated by the taker. *)
Definition swap_send : option (result Transaction SendError * RecentlySpentOutPoints) :=
  Wallet.send unspents (recent_new own_script) outs.

Lemma payment_sent_validates_witness :
  let tx := serialize (Wallet.sent_by swap_send) in
  validate_swap_payment coin tx maker_pub taker_pub (dhash160 secret) amount time_lock 1 false [Some tx] = Some (Ok ()).
Proof.
  intros tx.
  refine (payment_sent_validates elements elements WalletSample.sort coin maker 2 WalletSample.env None sender (Some [])
    (Some unspents) (λ _, true) (recent_new own_script) time_lock maker_pub taker_pub (dhash160 secret) amount outs
    (Wallet.sent_by swap_send) (Wallet.left_by swap_send) tx [Some tx] tx 1 false _ _ _ _ _ _ (or_introl _) (or_introl _)).
  6-8: reflexivity.
  all: vm_compute; reflexivity.
Defined.

(** ** The output of the interest *)

(** A transaction of 10 KMD mined after KIP-0001, two hours old. *)
Definition young : BuildEnv := mkBuildEnv (Some (Dynamic 1000)) true (Some 2000) (Some 1700000000)
  (λ _, Some (Some 3500000, 1699992800)) 1700000000.
Definition kmd_young : UtxoTxBuilder :=
  with_fee_policy (DeductFromOutput 0) (add_outputs [mkTransactionOutput 1000000000 [z2b 0x51]]
    (add_required_inputs [unspent_at 1 1000000000] (with_from_address sender (builder_new kmd 1700000000 None)))).

(** The interest is added when the fee is fixed and the outputs are checked: its own
    output is not paid for, and is below the dust. *)
Example interest_output_unpaid :
  let r := built nothing (build kmd young kmd_young) in
  (value <$> s_outputs (fst r)) = [999999664; 11]
  ∧ fee_amount (snd r) < required_fee (Dynamic 1000) (Some 2000) (tx_size_in_v_bytes false (transaction_of (fst r))).
Proof. vm_compute. split; reflexivity. Qed.
